(* ===== verification/_CoqProject ===== *)
-Q . S2P
Prelude.v
Text.v
Protocol.v
Async.v
Interp.v
Monitor.v
Attempts.v
Ports.v
NodeState.v
Scheduler.v
SchedulerFacts.v
SchedulerSlots.v
SchedulerSpec.v
Redactor.v
RedactorFacts.v
ApiClient.v
ApiClientFacts.v
Dispatcher.v
CoreOps.v
Reporting.v
ReporterTasks.v
ReportingFacts.v
ReporterTasksFacts.v
Processor.v
ProcessorFacts.v
RuntimeError.v
Limits.v
Config.v
Heartbeat.v
HeartbeatFacts.v
App.v
AppFacts.v
HealthWorker.v
HealthWorkerFacts.v
Process.v
ProcessFacts.v
Routing.v
RoutingFacts.v
Containers.v
Workspace.v
Builders.v
Health.v
Executor.v
Telemetry.v
ExecutorOps.v
ExecutorFacts.v
PayloadFacts.v
LifecycleFacts.v
HostOps.v
Node.v
TelemetryFacts.v
ContainersFacts.v
WorkspaceFacts.v
NodeFacts.v
HeartbeatWire.v
NodeDeploy.v
NodeTransaction.v
RecoveryFacts.v
LabelFacts.v
NodeSafety.v
SourceFacts.v
Agent.v
AgentTasks.v
AgentFacts.v
AgentTasksFacts.v
