(* ===== verification/Prelude.v ===== *)
(** Verification of the Sakala node agent.

    The agent runs on a node of the platform.  It polls the control plane for
    commands, runs them against Docker, Git and Caddy, and reports their logs,
    events and outcome.  This development models the agent's own code in Rocq,
    under the names of the source, and proves the properties that make it
    correct.  Paths below are under src/; [core] stands for
    crates/sakala-agent-core/src and [runtime] for
    crates/sakala-agent-runtime/src.

    * The program and the files that model it

    Foundations:
    - Prelude: Rust's [Result], 64-bit arithmetic with its wrap-around, and
      [Run] (a value, a panic, or no fuel left).
    - Text: [&str] and [String] as bytes, and characters as groups of bytes.
    - Async: an [async fn] as a tree of the effects it awaits, its runs, and
      the two ways a future is cut.
    - Interp: one signature of effects implemented by another; computations
      that are the same.
    - Monitor: weakest preconditions of such trees against a ghost automaton.
    - Attempts: computations that are cut inside a call of the signature they
      implement.

    Contract and ports:
    - Protocol (crates/sakala-agent-protocol): the data of the wire contract;
      [SerdeEnum]/[SerdeLaws] is the interface of an enumeration with names.
    - Ports (core/ports, core/error.rs, runtime/executor/noop.rs): the traits
      between core and runtime as type classes, with their default methods.

    The core, from the poll to the terminal report:
    - NodeState (core/node_state.rs, scheduler/metrics.rs), Scheduler
      (core/scheduler/poller.rs) and SchedulerFacts: [CommandExecutions] with
      the tokio [JoinSet] behind it, one turn of the polling loop, shutdown.
      SchedulerSlots: what holds of it whatever is offered.  SchedulerSpec: the
      abstract scheduler it refines, and progress.
    - Dispatcher (core/commands/dispatcher.rs, commands/handlers), Processor
      (core/commands/processor.rs) and ProcessorFacts: the life of a claimed
      command.
    - Redactor (core/logs/redactor.rs) and RedactorFacts.
    - Reporting (core/reporting/runtime.rs) and ReportingFacts: the bounded log
      queue and its delivery.  ReporterTasks and ReporterTasksFacts: the tasks
      that log and flush side by side on one queue.
    - ApiClient (core/api, core/support/retry.rs, core/repositories.rs) and
      ApiClientFacts: requests, retries, acknowledgements, credential leases,
      over the network as the signature [HttpOp].
    - Heartbeat (core/heartbeat/worker.rs) and HeartbeatFacts, HealthWorker
      (core/health/worker.rs) and HealthWorkerFacts: the two periodic workers;
      HeartbeatWire: the heartbeat with the telemetry the runtime collects.
    - CoreOps: the ports of the core as one signature of effects [CoreOp], the
      instance the facts about dispatch, processing, reporting and the workers
      use.

    The application:
    - Config (core/config.rs, apps/sakala-agent/src/config.rs): the settings
      and the table of command-line options.
    - App (apps/sakala-agent/src/app.rs, main.rs, telemetry.rs) and AppFacts:
      startup, the workers, shutdown.

    The runtime:
    - RuntimeError (runtime/error.rs), Limits (runtime/containers/limits.rs,
      runtime/config.rs).
    - Process (runtime/process, runtime/logs) and ProcessFacts: child
      processes with deadline, cancellation and bounded capture.
    - Routing (runtime/routing) and RoutingFacts: Caddy route files.
    - Containers (runtime/containers) and ContainersFacts; LabelFacts: what a
      start writes on a container is read back.
    - Workspace (runtime/workspace) and WorkspaceFacts.
    - Builders (runtime/builders, railpack, inspections) and Health
      (runtime/health), with SourceFacts about both.
    - Telemetry (runtime/telemetry.rs) and TelemetryFacts.
    - Executor (runtime/executor/docker.rs), which composes the services;
      ExecutorFacts (the deployment), LifecycleFacts (commands on a deployed
      workload), PayloadFacts (validation and admission).
    - ExecutorOps and HostOps: the services seen by the executor, and the host
      seen by the services, as signatures [ExecOp] and [HostOp].
    - Node: the executor assembled from its services over one host
      ([with_runner]), and what each service call is on that host.  NodeFacts
      (commands on workloads), NodeDeploy (deployments that succeed),
      NodeTransaction (every deployment, cuts included), RecoveryFacts
      (preflight, recovery and its log followers) and NodeSafety (what no
      operation does) carry the executor's theorems down to processes and files.

    Both together:
    - Agent: the command processor over the control plane's client, with the
      assembled node as its runtime ([agent_process]); its calls are those of
      the network, of the host, and of what is left of the core: the queue of
      log lines, the commit cell, the token, timers, the maintenance state.
      AgentFacts has the theorems about it.  AgentTasks and AgentTasksFacts: the
      same command beside the tasks of its reporter; its calls of [log] and
      [flush] are tasks of the pool which it awaits, and the commit cell answers
      what was stored in it ([system_step]).

    Components meet at type classes, as the traits of the source do:
    [RuntimeExecutor], [RuntimeReporter], [ControlPlane], [ContainerEngine],
    [RouteManager], [WorkspaceManager], [ImageBuilder], [HealthChecker],
    [ProcessRunner], [FileSystem].  A component is a Section over the classes
    it calls and ends in an instance of the class it implements
    ([DockerContainerEngine], [CaddyFileRouteManager], ...).

    * How code becomes definitions

    A struct is a Record with the fields' names, shortened by a prefix where
    two structs share one; an enum an Inductive with its variants.  [?] is the
    bind of [Async] (written [x <- m ;; f]; an effect that cannot fail is bound
    with [x <~ m ;; f]).  A struct behind a mutex is a record, and each of its
    critical sections a function on it.  Integers are [N] or [Z]; where a width
    matters its checks and its wrap-around are written out.  A [HashMap] is a
    [gmap], a [HashSet] a [gset], a [BTreeMap] that is iterated a sorted
    association list.

    A computation is [Prog Op A]: it ends, or awaits an effect of the signature
    [Op] and goes on with the answer.  The environment chooses every answer, so
    a theorem about [runs p tr r] is about all failures, orders and outcomes:
    [tr] is the sequence of calls with their answers, [r] the result.
    [run_with] evaluates a tree against a concrete environment, which is how
    the witnesses run the code.

    Cutting a future, as [tokio::time::timeout] and a biased [select!] do, is
    [race] and [race_at]: the environment may cut at each await and the
    suspended rest is returned, for the caller to resume or to drop.  A call
    that is pending when its future is cut counts as not made.  The executor's
    theorem C1 is therefore about cuts between calls of its services; C2 and C5
    are about cuts between calls of the host, inside a service call as well,
    and C39 opens the activation of the route to show what such a cut leaves.

    Two layers compose by [interp]: the executor is a tree over [ExecOp], and a
    handler gives each of its calls a tree over [HostOp].  [implements p q]
    says that the assembled code [p] is [q] with every call so replaced.  It
    holds of all that is not raced.  A deployment is raced at the calls of the
    host, which are finer than those of the executor: there [follows p q] says
    that a run of [p], ended or cut, is a sequence of attempts of [q], each call
    made in full or, where a cut fell into it, in part ([explains]).  What the
    executor's discipline says of attempts ([obeys_attempts]) holds on the host
    by it.  [covers] is the special case of a success, which was not cut where a
    cut would show.  The processor over node and network is composed by
    [on_node] and [on_network], its deadlines cut anywhere in it.

    The scheduler interleaves with its tasks, and the reporter's queue with the
    lines of other tasks; both are step relations ([poller_step],
    [reporter_step]), and their theorems are about every reachable state.  The
    poller reaches a state by polls that answer anything ([reachable]), or by
    polls none of which offers a command again while its first execution is in
    its table ([reachable_fresh]); a theorem that needs the second says so.  The
    tasks that work the queue are trees over its critical sections; [pool_step]
    lets any number of them take turns, and drops them where they await, and
    C19 shows that every such interleaving makes steps of [reporter_step].

    A monitor ([deployment_monitor], [workload_monitor], [checkout_monitor],
    [sweep_monitor]) is the specification of an orchestration: a ghost state
    which every call updates, the calls it permits in each state, and the
    answers it assumes of the environment.  [wp_sound] turns a weakest
    precondition into a statement about all runs.  The only answers assumed
    are those of memory the code owns (an atomic flag holds what was stored in
    it).

    * What is proved

    - End to end, from the network to the host: a claimed command is ended by
      one request (C3), a command reported completed was carried out on the host
      (C4), one reported failed was never committed (C6), and the end of a
      command agrees with its reporter, whatever other tasks log (C7).
    - A deployment is a transaction: C1 for the executor, C14 for what precedes
      it, C2 and C5 on the host.  Removals of what it made are shown to be run;
      whether they succeed is Docker's and the file system's.  What commands on a deployed workload may do:
      C20, C22, C23; the same on the host: C13, C21.  The effect on route files,
      faults and rollback included: C11.  Credentials: C16.
    - What a restart of the agent finds: C17 (the labels of a container say what
      it was started as), C10 (recovery accounts for every workload).
    - Whatever the node is asked, it starts no process but its own tools: C12.
    - The scheduler keeps its counters and tables in step and shuts down whatever
      it is offered (C8, C32); if no command is offered again while it runs it
      also keeps its limits on running tasks (C8), refines its specification (C9)
      and serves what it is offered (C24).
    - Logs are redacted, bounded and delivered in order: C15, C18, C19, C36;
      child processes: C34.
    - What the node says of itself follows from its probes, in a form the control
      plane reads: C25, C27, C28, C31.
    - The process starts and stops in order: C26.
    - Builds and inspections: C29, C30.  Accepted input is safe to use: C33, C35.
    - Four defects, as theorems with their concrete inputs: C37 (one command
      offered twice releases two slots when it ends once), C38 (the search for
      the next bearer token skips text, and may run past the end of the line),
      C39 (a cancelled cutover leaves the new route), C40 (a flush that is
      dropped loses its batch).  C8, C9 and C24 carry the condition that excludes
      the first, C36 the one that excludes the second.  A fifth, [follower_not_deduplicated], is about two
      followers of one container.
    Theorems without a number serve these or stand beside them: the processor
    over an arbitrary core ([one_terminal_transition], [committed_never_failed]),
    terminal requests, the wait for a container, the removal of stale
    workspaces, the ownership of route files and the site of an accepted route,
    the queue of log lines as an automaton ([reporter_delivers_in_order]),
    flushing, sinks, the preflight, ceilings and deadlines, the policy and the dispatch of a
    command, the loop of the heartbeat, the log lines and the jitter of the
    health worker, the reading of /proc/meminfo.

    * Fuel and bounds

    Loops of the source that are not structural take fuel, which the
    definitions that call them fix, and the theorems prove it enough: the
    redactor's loops get more than the length of the line ([redact_line_total]
    excludes [OutOfFuel]); [flush_loop] gets the number of queued lines, and
    every turn sends one at least ([flush_delivers_pending]); [reap_loop] and
    [join_loop] get the number of tasks that ended ([reap_returns_every_slot],
    C32).  Among other tasks nothing bounds the rounds of a flush
    ([flush_rounds]), and C7 and C19 hold for every number of them; a task that
    runs alone is the sequential code, and ends ([task_alone_is_sequential]).
    Retries and health checks recurse on the attempts that are left, the
    supervision of a child on the events the environment has for it (C34 says
    which end it).  The loops of the workers have no end of their own: they are
    cut off after a number of turns, and their theorems hold for every number.

    * Parameters

    Code outside the repository is an argument: reqwest ([Http]), the decoders
    serde derives ([WireCodec], [PayloadCodec]), the url crate's parser, the
    parsers of UUIDs, RFC 3339 times and floats, tokio's file system, clock,
    child processes and tasks (operations of the signatures).  What a theorem
    relies on is a hypothesis in its statement: C17 relies on what Docker's
    documentation says of labels and listings ([docker_documented]), and its
    witness shows a Docker that does so; C31 on serde_json writing a float as a
    number or null.

    * Not modelled

    The parsing of the argument vector is clap's and the log subscriber
    tracing's; both are calls of an interface.  Log lines are modelled where
    they are what the code is for (the health worker, system logs of a
    deployment), else left out.  Concurrent probes ([tokio::join!]) run one
    after the other.  The waits of the polling loop are steps of its transition
    system.  The mutation lock of the route manager is not a call of
    its own: an operation of the manager is one undisturbed sequence of file
    operations, as it is under the lock.  What is left of the sources is tests, [use] lines, log statements
    and constructors that only store their arguments. *)
From stdpp Require Export prelude gmap strings list fin_maps pretty.
From Stdlib Require Export ZArith Lia Ascii.

(* ------------------------------------------------------------------ *)
(** ** Results: Rust's [Result<T, E>] *)

Inductive Result (E A : Type) : Type :=
| Ok (value : A)
| Err (error : E).
Arguments Ok {_ _} _.
Arguments Err {_ _} _.

#[global] Instance Result_ret E : MRet (Result E) := fun A a => Ok a.
#[global] Instance Result_bind E : MBind (Result E) := fun A B f r =>
  match r with Ok a => f a | Err e => Err e end.
#[global] Instance Result_fmap E : FMap (Result E) := fun A B f r =>
  match r with Ok a => Ok (f a) | Err e => Err e end.
#[global] Instance Result_eq_dec E A `{EqDecision E, EqDecision A} : EqDecision (Result E A).
Proof. solve_decision. Defined.

Definition is_ok {E A} (r : Result E A) : bool :=
  match r with Ok _ => true | Err _ => false end.

Definition is_err {E A} (r : Result E A) : bool := negb (is_ok r).

(** [Result::map_err]. *)
Definition map_err {E F A} (f : E -> F) (r : Result E A) : Result F A :=
  match r with Ok a => Ok a | Err e => Err (f e) end.

(** [Option::ok_or]. *)
Definition ok_or {E A} (o : option A) (e : E) : Result E A :=
  match o with Some a => Ok a | None => Err e end.

(** [Result::ok]. *)
Definition result_ok {E A} (r : Result E A) : option A :=
  match r with Ok a => Some a | Err _ => None end.

Lemma Result_bind_Ok {E A B} (m : Result E A) (f : A -> Result E B) b :
  m ≫= f = Ok b -> exists a, m = Ok a /\ f a = Ok b.
Proof. destruct m; [naive_solver | discriminate]. Qed.

Lemma Result_bind_Err {E A B} (m : Result E A) (f : A -> Result E B) e :
  m ≫= f = Err e -> m = Err e \/ exists a, m = Ok a /\ f a = Err e.
Proof. destruct m as [a|e']; cbn; [right; eauto | left; congruence]. Qed.

(* ------------------------------------------------------------------ *)
(** ** Machine integers *)

Definition u16_max : N := 65535.
Definition u32_max : N := 4294967295.
Definition u64_max : N := 18446744073709551615.

(** [u64::checked_mul] and [usize]/[u64] saturating subtraction (the
    subtraction of [N] saturates at zero). *)
Definition checked_mul_u64 (a b : N) : option N :=
  if (a * b <=? u64_max)%N then Some (a * b)%N else None.

(** [AtomicUsize::fetch_add]/[fetch_sub] wrap modulo [2^64]. *)
Definition wrapping_add_u64 (a b : N) : N := ((a + b) mod (u64_max + 1))%N.
Definition wrapping_sub_u64 (a b : N) : N := ((a + (u64_max + 1 - b)) mod (u64_max + 1))%N.

Lemma checked_mul_u64_Some a b c :
  checked_mul_u64 a b = Some c <-> c = (a * b)%N /\ (a * b <= u64_max)%N.
Proof.
  unfold checked_mul_u64. destruct (N.leb_spec (a * b) u64_max); naive_solver lia.
Qed.

Lemma wrapping_add_u64_small a b :
  (a + b <= u64_max)%N -> wrapping_add_u64 a b = (a + b)%N.
Proof. intros. unfold wrapping_add_u64. apply N.mod_small. lia. Qed.

Lemma wrapping_sub_u64_small a b :
  (b <= a)%N -> (a <= u64_max)%N -> wrapping_sub_u64 a b = (a - b)%N.
Proof.
  intros. unfold wrapping_sub_u64.
  replace (a + (u64_max + 1 - b))%N with (a - b + 1 * (u64_max + 1))%N by lia.
  rewrite N.Div0.mod_add. apply N.mod_small. lia.
Qed.

(** Congruence of the connectives, for characterisations of several cases. *)
Lemma or_iff_both (A A' B B' : Prop) : (A <-> A') -> (B <-> B') -> (A \/ B <-> A' \/ B').
Proof. tauto. Qed.

(** ** Runs of loops and panicking operations

    [Panicked] is a Rust panic (an index out of range, a cut inside a
    character); [OutOfFuel] marks a loop bound that was too small, which every
    use below is shown never to give. *)
Inductive Run (A : Type) : Type := Done (a : A) | Panicked | OutOfFuel.
Arguments Done {_} _.
Arguments Panicked {_}.
Arguments OutOfFuel {_}.

#[global] Instance Run_ret : MRet Run := @Done.
#[global] Instance Run_bind : MBind Run := fun A B f r =>
  match r with Done a => f a | Panicked => Panicked | OutOfFuel => OutOfFuel end.

Definition in_fuel {A} (r : Run A) : Prop := r <> OutOfFuel.

Lemma in_fuel_bind {A B} (r : Run A) (f : A -> Run B) :
  in_fuel r -> (forall a, r = Done a -> in_fuel (f a)) -> in_fuel (r ≫= f).
Proof. destruct r; unfold in_fuel; cbn; auto. Qed.

Lemma Run_bind_Done {A B} (r : Run A) (f : A -> Run B) b :
  r ≫= f = Done b -> exists a, r = Done a /\ f a = Done b.
Proof. destruct r; [eauto | discriminate..]. Qed.
