(* ===== verification/Text.v ===== *)
(** Rust text: byte strings and their characters, as the components use them.

    A [&str] is its UTF-8 bytes.  Components that handle whole messages use
    [string] (a list of bytes with Rocq's literals); components that index
    into a line use [bytes].  A character is the group of bytes that encodes
    it: a lead byte and the continuation bytes behind it. *)
From S2P Require Import Prelude.

#[local] Open Scope N_scope.

Abbreviation bytes := (list ascii).

Abbreviation bytes_of := String.list_ascii_of_string.
Abbreviation string_of := String.string_of_list_ascii.

Definition byte (c : ascii) : N := N_of_ascii c.

(** ** ASCII classes ([u8::is_ascii_..]) *)

Definition in_range (lo hi b : N) : bool := (lo <=? b) && (b <=? hi).

Definition is_ascii_lowercase (c : ascii) : bool := in_range 97 122 (byte c).
Definition is_ascii_uppercase (c : ascii) : bool := in_range 65 90 (byte c).
Definition is_ascii_digit (c : ascii) : bool := in_range 48 57 (byte c).
Definition is_ascii_alphanumeric (c : ascii) : bool :=
  is_ascii_lowercase c || is_ascii_uppercase c || is_ascii_digit c.
Definition is_ascii_hexdigit (c : ascii) : bool :=
  is_ascii_digit c || in_range 97 102 (byte c) || in_range 65 70 (byte c).

(** Space, tab, line feed, form feed, carriage return (no vertical tab). *)
Definition is_ascii_whitespace (c : ascii) : bool :=
  match byte c with 32 | 9 | 10 | 12 | 13 => true | _ => false end.

Definition to_lower (c : ascii) : ascii :=
  if is_ascii_uppercase c then ascii_of_N (byte c + 32) else c.

(** ** Byte-string operations *)

Fixpoint bytes_prefix (p l : bytes) : bool :=
  match p, l with
  | [], _ => true
  | a :: p', b :: l' => bool_decide (a = b) && bytes_prefix p' l'
  | _, [] => false
  end.

(** Position of the first element for which [f] holds: [Iterator::position]. *)
Fixpoint position {A} (f : A -> bool) (l : list A) : option nat :=
  match l with
  | [] => None
  | x :: rest => if f x then Some 0%nat else S <$> position f rest
  end.

Fixpoint bytes_contain (needle l : bytes) : bool :=
  bytes_prefix needle l ||
  match l with [] => false | _ :: rest => bytes_contain needle rest end.

(** [str::split(char)]: always at least one piece. *)
Fixpoint split_bytes (sep : ascii) (l : bytes) : list bytes :=
  match l with
  | [] => [[]]
  | c :: rest =>
      if bool_decide (c = sep) then [] :: split_bytes sep rest
      else match split_bytes sep rest with
           | piece :: pieces => (c :: piece) :: pieces
           | [] => [[c]]
           end
  end.

Definition to_ascii_lowercase (s : string) : string := string_of (map to_lower (bytes_of s)).
Definition starts_with (s p : string) : bool := bytes_prefix (bytes_of p) (bytes_of s).
Definition ends_with (s p : string) : bool :=
  bytes_prefix (rev (bytes_of p)) (rev (bytes_of s)).
Definition contains (s needle : string) : bool := bytes_contain (bytes_of needle) (bytes_of s).
Definition str_split (s : string) (sep : ascii) : list string :=
  map string_of (split_bytes sep (bytes_of s)).

(** [str::strip_prefix] and [str::strip_suffix]. *)
Definition strip_prefix (s p : string) : option string :=
  if starts_with s p then Some (string_of (drop (String.length p) (bytes_of s))) else None.
Definition strip_suffix (s p : string) : option string :=
  if ends_with s p
  then Some (string_of (take (String.length s - String.length p) (bytes_of s))) else None.

Definition is_empty (s : string) : bool := match s with EmptyString => true | _ => false end.

Definition LF : ascii := "010"%char.
Definition CR : ascii := "013"%char.
Definition TAB : ascii := "009"%char.

(** [str::lines]: pieces between line feeds, one trailing carriage return
    stripped from each, a final empty piece dropped. *)
Definition strip_cr (l : bytes) : bytes :=
  match rev l with c :: r => if bool_decide (c = CR) then rev r else l | [] => l end.
Definition drop_last_empty (ls : list bytes) : list bytes :=
  match rev ls with [] :: r => rev r | _ => ls end.
Definition lines (s : string) : list string :=
  map (fun l => string_of (strip_cr l)) (drop_last_empty (split_bytes LF (bytes_of s))).

(** ** Characters *)

Definition is_continuation (c : ascii) : bool := in_range 128 191 (byte c).

Definition char : Type := bytes.

(** The characters of a string, each as the bytes that encode it. *)
Fixpoint chars (l : bytes) : list char :=
  match l with
  | [] => []
  | b :: rest =>
      match chars rest with
      | (c :: g) :: gs =>
          if is_continuation c then (b :: c :: g) :: gs else [b] :: (c :: g) :: gs
      | gs => [b] :: gs
      end
  end.

(** The scalar value a character encodes. *)
Definition code_point (g : char) : N :=
  match map byte g with
  | [a] => a
  | [a; b] => (a - 192) * 64 + (b - 128)
  | [a; b; c] => (a - 224) * 4096 + (b - 128) * 64 + (c - 128)
  | [a; b; c; d] => (a - 240) * 262144 + (b - 128) * 4096 + (c - 128) * 64 + (d - 128)
  | _ => 65533
  end.

(** [char::is_whitespace] (Unicode White_Space) and [char::is_control] (Cc). *)
Definition is_whitespace (g : char) : bool :=
  let c := code_point g in
  in_range 9 13 c || (c =? 32) || (c =? 133) || (c =? 160) || (c =? 5760)
  || in_range 8192 8202 c || (c =? 8232) || (c =? 8233) || (c =? 8239)
  || (c =? 8287) || (c =? 12288).
Definition is_control (g : char) : bool :=
  let c := code_point g in in_range 0 31 c || in_range 127 159 c.

Fixpoint drop_while {A} (f : A -> bool) (l : list A) : list A :=
  match l with [] => [] | x :: rest => if f x then drop_while f rest else l end.

Definition trim_start_chars (gs : list char) : list char := drop_while is_whitespace gs.
Definition trim_end_chars (gs : list char) : list char :=
  rev (drop_while is_whitespace (rev gs)).

Definition trim_end_bytes (l : bytes) : bytes := List.concat (trim_end_chars (chars l)).
Definition trim_bytes (l : bytes) : bytes :=
  List.concat (trim_end_chars (trim_start_chars (chars l))).
Definition trim (s : string) : string := string_of (trim_bytes (bytes_of s)).
Definition trim_end (s : string) : string := string_of (trim_end_bytes (bytes_of s)).

(** [str::split_whitespace]. *)
Fixpoint split_ws_chars (gs : list char) : list bytes :=
  match gs with
  | [] => [[]]
  | g :: rest =>
      if is_whitespace g then [] :: split_ws_chars rest
      else match split_ws_chars rest with
           | piece :: pieces => (g ++ piece) :: pieces
           | [] => [g]
           end
  end.
Definition split_whitespace (s : string) : list string :=
  map string_of (List.filter (fun p => match p with [] => false | _ => true end)
    (split_ws_chars (chars (bytes_of s)))).

(** [str::is_char_boundary] on the bytes of a string. *)
Definition is_char_boundary (l : bytes) (i : nat) : bool :=
  match i with
  | O => true
  | _ => match l !! i with
         | Some c => negb (is_continuation c)
         | None => Nat.eqb i (length l)
         end
  end.

(** [while boundary > 0 && !value.is_char_boundary(boundary) { boundary -= 1 }],
    the loop the sources use before cutting a string. *)
Fixpoint floor_char_boundary (l : bytes) (i : nat) : nat :=
  match i with
  | O => O
  | S i' => if is_char_boundary l i then i else floor_char_boundary l i'
  end.

(** ** Debug output of a [str]

    Quotes, backslashes and control characters are escaped; any other character
    counts as printable. *)
Definition hex_digit (n : N) : ascii := ascii_of_N (if n <? 10 then n + 48 else n + 87).
Definition debug_char (g : char) : bytes :=
  let c := code_point g in
  if c =? 0 then bytes_of "\0" else if c =? 9 then bytes_of "\t"
  else if c =? 10 then bytes_of "\n" else if c =? 13 then bytes_of "\r"
  else if (c =? 34) || (c =? 92) then "\"%char :: g
  else if is_control g then
    bytes_of "\u{" ++ (if c <? 16 then [hex_digit c] else [hex_digit (c / 16); hex_digit (c mod 16)]) ++ bytes_of "}"
  else g.
Definition str_debug (s : string) : string :=
  string_of ("034"%char :: List.concat (map debug_char (chars (bytes_of s))) ++ ["034"%char]).

(** ** Numbers *)

Definition digit (c : ascii) : option N :=
  if is_ascii_digit c then Some (byte c - 48) else None.

Fixpoint digits_value (acc : N) (l : bytes) : option N :=
  match l with
  | [] => Some acc
  | c :: rest => digit c ≫= fun d => digits_value (acc * 10 + d) rest
  end.

(** [str::parse::<uN>]: an optional [+], then one or more digits, whose value
    must fit the type. *)
Definition parse_uint (max : N) (s : string) : option N :=
  let l := bytes_of s in
  let ds := match l with
            | c :: rest => if bool_decide (c = "+"%char) then rest else l
            | [] => l
            end in
  match ds with
  | [] => None
  | _ => digits_value 0 ds ≫= fun v => if v <=? max then Some v else None
  end.

(** ** Lemmas *)

Lemma bytes_of_string_of l : bytes_of (string_of l) = l.
Proof. apply String.list_ascii_of_string_of_list_ascii. Qed.

Lemma string_of_bytes_of s : string_of (bytes_of s) = s.
Proof. apply String.string_of_list_ascii_of_string. Qed.

Lemma length_bytes_of s : length (bytes_of s) = String.length s.
Proof. induction s; simpl; congruence. Qed.

Lemma length_string_of l : String.length (string_of l) = length l.
Proof. induction l; simpl; congruence. Qed.

Lemma bytes_of_app s t : bytes_of (s +:+ t) = (bytes_of s ++ bytes_of t)%list.
Proof. induction s; simpl; [done|]. by rewrite IHs. Qed.

Create HintDb text.
#[export] Hint Rewrite bytes_of_string_of string_of_bytes_of length_bytes_of
  length_string_of bytes_of_app : text.

Lemma bytes_prefix_spec p l : bytes_prefix p l = true <-> exists r, l = (p ++ r)%list.
Proof.
  revert l. induction p as [|a p IH]; intros [|b l]; simpl.
  - split; [by exists [] | done].
  - split; [by exists (b :: l) | done].
  - split; [done | by intros [r ?]].
  - rewrite andb_true_iff, bool_decide_eq_true, IH. split.
    + intros [-> [r ->]]. by exists r.
    + intros [r [= -> ->]]. eauto.
Qed.

Lemma bytes_prefix_app p r : bytes_prefix p (p ++ r) = true.
Proof. apply bytes_prefix_spec. eauto. Qed.

Lemma starts_with_spec s p : starts_with s p = true <-> exists r, bytes_of s = (bytes_of p ++ r)%list.
Proof. apply bytes_prefix_spec. Qed.

Lemma starts_with_split s p : starts_with s p = true <-> exists r, s = p +:+ r.
Proof.
  rewrite starts_with_spec. split.
  - intros [r Hr]. exists (string_of r). rewrite <- (string_of_bytes_of s), Hr, <- (string_of_bytes_of (p +:+ _)).
    by rewrite bytes_of_app, bytes_of_string_of.
  - intros [r ->]. exists (bytes_of r). apply bytes_of_app.
Qed.

Lemma starts_with_app s p t : starts_with s p = true -> starts_with (s +:+ t) p = true.
Proof.
  rewrite !starts_with_spec, bytes_of_app. intros [r ->]. exists (r ++ bytes_of t)%list.
  by rewrite app_assoc.
Qed.
Lemma strip_prefix_app p s : strip_prefix (p +:+ s) p = Some s.
Proof.
  unfold strip_prefix, starts_with. rewrite bytes_of_app, bytes_prefix_app.
  rewrite <- length_bytes_of, drop_app_length. by rewrite string_of_bytes_of.
Qed.

Lemma position_Some {A} (f : A -> bool) l i :
  position f l = Some i ->
  exists x, l !! i = Some x /\ f x = true /\ forall j y, (j < i)%nat -> l !! j = Some y -> f y = false.
Proof.
  revert i. induction l as [|x l IH]; intros i; simpl; [done|].
  destruct (f x) eqn:Hx.
  - intros [= <-]. exists x. repeat split; [done|]. intros j y Hj; lia.
  - destruct (position f l) as [k|] eqn:Hk; [|done]. intros [= <-].
    destruct (IH k eq_refl) as (y & Hy & Hf & Hmin). exists y. repeat split; [done..|].
    intros [|j] z Hj Hz; simpl in Hz; [naive_solver | eapply (Hmin j); [lia | done]].
Qed.

Lemma position_lt {A} (f : A -> bool) l i : position f l = Some i -> (i < length l)%nat.
Proof. intros (x & Hx & _)%position_Some. by eapply lookup_lt_Some. Qed.

Lemma concat_chars l : List.concat (chars l) = l.
Proof.
  induction l as [|b l IH]; [done|]. simpl.
  destruct (chars l) as [|[|c g] gs] eqn:E; simpl in *.
  - by rewrite <- IH.
  - by rewrite <- IH.
  - destruct (is_continuation c); simpl; by rewrite <- IH.
Qed.

Lemma drop_while_suffix {A} (f : A -> bool) l : exists p, l = (p ++ drop_while f l)%list.
Proof.
  induction l as [|x l [p Hp]]; simpl; [by exists []|].
  destruct (f x); [exists (x :: p); simpl; congruence | by exists []].
Qed.

Lemma trim_end_prefix l : exists r, l = (trim_end_bytes l ++ r)%list.
Proof.
  unfold trim_end_bytes, trim_end_chars.
  destruct (drop_while_suffix is_whitespace (rev (chars l))) as [p Hp].
  exists (List.concat (rev p)).
  rewrite <- concat_app, <- rev_app_distr, <- Hp, rev_involutive. symmetry. apply concat_chars.
Qed.

Lemma trim_end_length l : (length (trim_end_bytes l) <= length l)%nat.
Proof. destruct (trim_end_prefix l) as [r Hr]. rewrite Hr at 2. rewrite length_app. lia. Qed.

Lemma floor_char_boundary_le l i : (floor_char_boundary l i <= i)%nat.
Proof. induction i as [|i IH]; simpl; [done|]. case_match; lia. Qed.

Lemma floor_char_boundary_is l i : is_char_boundary l (floor_char_boundary l i) = true.
Proof.
  induction i as [|i IH]; [done|]. cbn [floor_char_boundary].
  destruct (is_char_boundary l (S i)) eqn:E; [exact E | exact IH].
Qed.

(** Printing a number and parsing it back. *)
Lemma digits_value_pretty_go n s :
  digits_value 0 (bytes_of (pretty_N_go n s)) = digits_value n (bytes_of s).
Proof.
  revert s. induction (N.lt_wf_0 n) as [n _ IH]. intros s.
  destruct (decide (n = 0)) as [->|Hn]; [by rewrite pretty_N_go_0|].
  rewrite pretty_N_go_step by lia.
  rewrite IH by (apply N.div_lt; lia). simpl.
  assert (digit (pretty_N_char (n `mod` 10)) = Some (n `mod` 10)) as ->.
  { assert (n `mod` 10 < 10) as Hlt by (apply N.mod_lt; lia).
    revert Hlt. generalize (n `mod` 10). intros m Hm.
    assert (m = 0 \/ m = 1 \/ m = 2 \/ m = 3 \/ m = 4 \/ m = 5 \/ m = 6 \/ m = 7 \/ m = 8 \/ m = 9)
      as Hc by lia.
    by repeat destruct Hc as [->|Hc]; [..|subst m]. }
  simpl. f_equal. rewrite N.mul_comm. symmetry. apply N.div_mod. lia.
Qed.

(** ** Characters of composed strings *)

(** A group is a byte and the continuation bytes behind it; only the first
    group of a string may start with a continuation byte. *)
Definition group_wf (g : char) : Prop :=
  match g with _ :: t => forallb is_continuation t = true | [] => False end.
Definition group_lead (g : char) : bool :=
  match g with c :: _ => negb (is_continuation c) | [] => false end.
Definition groups_wf (gs : list char) : Prop :=
  Forall group_wf gs /\ Forall (fun g => group_lead g = true) (tail gs).

Lemma chars_wf l : groups_wf (chars l).
Proof.
  induction l as [|b l [IHw IHl]]; [by split|]. cbn [chars].
  destruct (chars l) as [|[|c g] gs].
  - split; repeat constructor.
  - by inversion IHw.
  - inversion IHw as [|? ? Hg Hgs]; subst. cbn [tail] in IHl.
    destruct (is_continuation c) eqn:E; split; cbn [tail].
    + constructor; [|done]. cbn. by rewrite E.
    + done.
    + by repeat constructor.
    + constructor; [|done]. cbn. by rewrite E.
Qed.

Lemma chars_cons_group c t rest :
  forallb is_continuation t = true -> Forall group_wf (chars rest) ->
  match chars rest with g :: _ => group_lead g = true | [] => True end ->
  chars (c :: t ++ rest) = (c :: t) :: chars rest.
Proof.
  revert c. induction t as [|d t IH]; intros c; cbn [app forallb]; intros Ht Hw Hl.
  - cbn [chars]. destruct (chars rest) as [|[|e g] gs]; [done|by inversion Hw|].
    cbn in Hl. apply negb_true_iff in Hl. by rewrite Hl.
  - apply andb_true_iff in Ht as [Hd Ht].
    change (chars (c :: (d :: t ++ rest))) with
      (match chars (d :: t ++ rest) with
       | (c0 :: g) :: gs => if is_continuation c0 then (c :: c0 :: g) :: gs else [c] :: (c0 :: g) :: gs
       | gs => [c] :: gs end).
    rewrite IH by done. by rewrite Hd.
Qed.

Lemma chars_concat gs : groups_wf gs -> chars (List.concat gs) = gs.
Proof.
  induction gs as [|g gs IH]; [done|]. intros [Hw Hl]. inversion Hw as [|? ? Hg Hgs]; subst.
  cbn [tail] in Hl.
  assert (chars (List.concat gs) = gs) as E.
  { apply IH. split; [done|]. destruct gs; [done|by inversion Hl]. }
  destruct g as [|c t]; [done|]. cbn [List.concat app].
  rewrite chars_cons_group; rewrite ?E; [done|exact Hg|done|].
  destruct gs as [|g' gs]; [done|by inversion Hl].
Qed.

Lemma sublist_tail {A} (l k : list A) : sublist l k -> sublist (tail l) (tail k).
Proof.
  induction 1 as [|x l k Hs IH|x l k Hs IH]; cbn; [constructor|done|].
  destruct l as [|y l]; cbn in *; [apply sublist_nil_l|]. etrans; [|exact Hs]. by constructor.
Qed.

Lemma sublist_Forall_inv {A} (P : A -> Prop) l k : sublist l k -> Forall P k -> Forall P l.
Proof. induction 1; inversion 1; subst; auto. Qed.

Lemma groups_wf_sublist gs gs' : sublist gs gs' -> groups_wf gs' -> groups_wf gs.
Proof.
  intros Hs [Hw Hl]. split; [by eapply sublist_Forall_inv|].
  eapply sublist_Forall_inv; [|exact Hl]. by apply sublist_tail.
Qed.

Lemma sublist_filter_bool {A} (f : A -> bool) l : sublist (List.filter f l) l.
Proof. induction l as [|x l IH]; cbn; [constructor|]. destruct (f x); by constructor. Qed.

Lemma sublist_drop_while {A} (f : A -> bool) l : sublist (drop_while f l) l.
Proof.
  induction l as [|x l IH]; cbn; [constructor|]. destruct (f x); [by constructor|done].
Qed.

Lemma sublist_rev {A} (l k : list A) : sublist l k -> sublist (rev l) (rev k).
Proof.
  induction 1 as [|x l k Hs IH|x l k Hs IH]; cbn; [constructor|by apply sublist_app|].
  rewrite <- (app_nil_r (rev l)). apply sublist_app; [done|apply sublist_nil_l].
Qed.

Lemma sublist_trim gs : sublist (trim_end_chars (trim_start_chars gs)) gs.
Proof.
  unfold trim_end_chars, trim_start_chars. etrans; [|apply sublist_drop_while].
  rewrite <- (rev_involutive (drop_while is_whitespace gs)) at 2.
  apply sublist_rev, sublist_drop_while.
Qed.

Lemma chars_trim_concat gs :
  groups_wf gs -> chars (trim_bytes (List.concat gs)) = trim_end_chars (trim_start_chars gs).
Proof.
  intros Hw. unfold trim_bytes. rewrite (chars_concat gs Hw). apply chars_concat.
  eapply groups_wf_sublist; [apply sublist_trim|done].
Qed.

Lemma digits_value_pretty (n : N) : digits_value 0 (bytes_of (pretty n)) = Some n.
Proof.
  unfold pretty, pretty_N. destruct (decide (n = 0)) as [->|]; [done|].
  apply (digits_value_pretty_go n EmptyString).
Qed.

Lemma digits_value_digits acc l v :
  digits_value acc l = Some v -> Forall (fun c => is_ascii_digit c = true) l.
Proof.
  revert acc. induction l as [|c l IH]; intros acc; [constructor|]. cbn [digits_value].
  unfold digit. destruct (is_ascii_digit c) eqn:E; [|done]. cbn. intros H. constructor; eauto.
Qed.

Lemma split_bytes_none sep l : Forall (fun c => c <> sep) l -> split_bytes sep l = [l].
Proof.
  induction 1 as [|c l Hc Hl IH]; [done|]. cbn. rewrite bool_decide_false by done. by rewrite IH.
Qed.

Lemma split_bytes_app sep a b :
  Forall (fun c => c <> sep) a -> split_bytes sep (a ++ sep :: b) = a :: split_bytes sep b.
Proof.
  induction 1 as [|c l Hc Hl IH]; cbn.
  - by rewrite bool_decide_true.
  - rewrite bool_decide_false by done. by rewrite IH.
Qed.

Lemma drop_while_app {A} (f : A -> bool) l1 l2 :
  drop_while f l1 <> [] -> drop_while f (l1 ++ l2) = (drop_while f l1 ++ l2)%list.
Proof. induction l1 as [|x l1 IH]; cbn; [done|]. destruct (f x); auto. Qed.

(** Text written line by line is read back line by line. *)
Lemma split_bytes_lines (ls : list bytes) :
  Forall (Forall (fun c => c <> LF)) ls ->
  split_bytes LF (List.concat (map (fun l => l ++ [LF])%list ls)) = (ls ++ [[]])%list.
Proof.
  induction 1 as [|l ls Hl Hls IH]; [done|]. cbn [map List.concat].
  rewrite <- app_assoc. cbn [app]. rewrite split_bytes_app by done. by rewrite IH.
Qed.

Lemma strip_cr_id l : Forall (fun c => c <> CR) l -> strip_cr l = l.
Proof.
  intros H. unfold strip_cr. destruct (rev l) as [|c r] eqn:E; [done|].
  rewrite bool_decide_false; [done|]. apply Forall_rev in H. rewrite E in H. by inversion H.
Qed.

Lemma lines_written (ls : list bytes) :
  Forall (Forall (fun c => c <> LF /\ c <> CR)) ls ->
  lines (string_of (List.concat (map (fun l => l ++ [LF])%list ls))) = map string_of ls.
Proof.
  intros H. unfold lines. rewrite bytes_of_string_of, split_bytes_lines.
  - unfold drop_last_empty. rewrite rev_app_distr. cbn. rewrite rev_involutive.
    apply map_ext_in. intros l Hl. rewrite strip_cr_id; [done|].
    rewrite Forall_forall in H. eapply Forall_impl; [apply H, list_elem_of_In, Hl|]. by intros c [].
  - eapply Forall_impl; [exact H|]. intros l Hl. eapply Forall_impl; [exact Hl|]. by intros c [].
Qed.

Lemma digit_bytes_pretty (n : N) : Forall (fun c => is_ascii_digit c = true) (bytes_of (pretty n)).
Proof. eapply digits_value_digits, digits_value_pretty. Qed.

Lemma pretty_not_empty (n : N) : bytes_of (pretty n) <> [].
Proof.
  unfold pretty, pretty_N. destruct (decide (n = 0)) as [->|Hn]; [done|].
  intros E. pose proof (digits_value_pretty_go n EmptyString) as H. rewrite E in H. cbn in H. congruence.
Qed.

Lemma parse_uint_pretty max n : n <= max -> parse_uint max (pretty n) = Some n.
Proof.
  intros Hn. unfold parse_uint. pose proof (digit_bytes_pretty n) as Hd.
  pose proof (digits_value_pretty n) as Hv. pose proof (pretty_not_empty n) as He.
  destruct (bytes_of (pretty n)) as [|c l]; [done|]. inversion Hd as [|? ? Hc _]; subst.
  rewrite bool_decide_false by (by intros ->). rewrite Hv. cbn.
  by rewrite (proj2 (N.leb_le n max) Hn).
Qed.

(** ** Words *)

(** A byte of a word: ASCII and no white space. *)
Definition word_byte (c : ascii) : bool := (byte c <? 128) && negb (is_whitespace [c]).
Definition ascii_word (l : bytes) : Prop := l <> [] /\ forallb word_byte l = true.

Lemma chars_ascii l : forallb (fun c => byte c <? 128) l = true -> chars l = map (fun c => [c]) l.
Proof.
  intros Hl. rewrite <- (chars_concat (map (fun c => [c]) l)).
  - f_equal. clear Hl. induction l; cbn; [done|by f_equal].
  - assert (Hlead : Forall (fun g => group_lead g = true) (map (fun c => [c]) l)).
    { induction l as [|c l IH]; cbn in *; [constructor|]. apply andb_true_iff in Hl as [Hc Hl].
      constructor; [|auto]. cbn. unfold is_continuation, in_range.
      apply N.ltb_lt in Hc. destruct (N.leb_spec 128 (byte c)); [lia|done]. }
    split; [clear; induction l; cbn; by constructor|].
    destruct l; cbn in *; [constructor|by inversion Hlead].
Qed.

Lemma split_ws_word w rest :
  forallb (fun g => negb (is_whitespace g)) w = true ->
  split_ws_chars (w ++ rest) =
    match split_ws_chars rest with
    | piece :: pieces => (List.concat w ++ piece)%list :: pieces
    | [] => [List.concat w]
    end.
Proof.
  assert (Hne : forall gs, split_ws_chars gs <> []).
  { intros gs. destruct gs as [|g gs]; cbn; [done|]. destruct (is_whitespace g); [done|].
    by destruct (split_ws_chars gs). }
  induction w as [|g w IH]; cbn [forallb app split_ws_chars List.concat]; intros Hw.
  - by destruct (split_ws_chars rest) eqn:E; [apply Hne in E|].
  - apply andb_true_iff in Hw as [Hg Hw]. apply negb_true_iff in Hg. rewrite Hg, IH by done.
    destruct (split_ws_chars rest) eqn:E; [by apply Hne in E|]. by rewrite app_assoc.
Qed.

Definition SPACE : ascii := " "%char.

(** A word with blanks behind it is the first word of a line. *)
Lemma split_whitespace_cons w pad rest :
  ascii_word w -> forallb (fun c => byte c <? 128) rest = true ->
  split_whitespace (string_of (w ++ repeat SPACE (S pad) ++ rest)) =
    string_of w :: split_whitespace (string_of rest).
Proof.
  intros [Hne Hw] Hrest. unfold split_whitespace. rewrite !bytes_of_string_of.
  assert (Hascii : forallb (fun c => byte c <? 128) w = true).
  { apply forallb_forall. intros c Hc. rewrite forallb_forall in Hw.
    by apply Hw, andb_true_iff in Hc as [Hc _]. }
  rewrite (chars_ascii (w ++ _)), (chars_ascii rest) by
    (rewrite ?forallb_app, ?Hascii, ?Hrest, ?andb_true_r; try done; by induction pad).
  rewrite !map_app, split_ws_word.
  - assert (Hpad : forall n gs, List.filter (fun p => match p with [] => false | _ => true end)
        (split_ws_chars (map (fun c => [c]) (repeat SPACE n) ++ gs)) =
        List.filter (fun p => match p with [] => false | _ => true end) (split_ws_chars gs)).
    { intros n gs. induction n as [|n IH]; cbn; [done|]. exact IH. }
    specialize (Hpad (S pad) (map (fun c => [c]) rest)). cbn [repeat map app] in Hpad |- *.
    cbn [split_ws_chars] in Hpad |- *. change (is_whitespace [SPACE]) with true in Hpad |- *.
    cbn [List.filter map] in Hpad |- *. rewrite app_nil_r, Hpad.
    assert (List.concat (map (fun c => [c]) w) = w) as -> by (clear; induction w; cbn; [done|by f_equal]).
    by destruct w.
  - apply forallb_forall. intros g (c & <- & Hc)%in_map_iff. rewrite forallb_forall in Hw.
    by apply Hw, andb_true_iff in Hc as [_ Hc].
Qed.

Lemma split_whitespace_word w : ascii_word w -> split_whitespace (string_of w) = [string_of w].
Proof.
  intros [Hne Hw]. unfold split_whitespace. rewrite bytes_of_string_of, chars_ascii.
  - rewrite <- (app_nil_r (map _ w)), split_ws_word.
    + cbn. rewrite app_nil_r.
      assert (List.concat (map (fun c => [c]) w) = w) as -> by (clear; induction w; cbn; [done|by f_equal]).
      by destruct w.
    + apply forallb_forall. intros g (c & <- & Hc)%in_map_iff. rewrite forallb_forall in Hw.
      by apply Hw, andb_true_iff in Hc as [_ Hc].
  - apply forallb_forall. intros c Hc. rewrite forallb_forall in Hw. by apply Hw, andb_true_iff in Hc as [Hc _].
Qed.

Lemma pretty_word (n : N) : ascii_word (bytes_of (pretty n)).
Proof.
  split; [apply pretty_not_empty|]. apply forallb_forall. intros c Hc.
  pose proof (digit_bytes_pretty n) as Hd. rewrite List.Forall_forall in Hd. specialize (Hd c Hc).
  unfold is_ascii_digit, in_range in Hd. apply andb_true_iff in Hd as [H1 H2].
  apply N.leb_le in H1, H2. unfold word_byte, is_whitespace, code_point, in_range. cbn [map].
  repeat match goal with
  | |- context [N.leb ?a ?b] => destruct (N.leb_spec a b); try lia
  | |- context [N.eqb ?a ?b] => destruct (N.eqb_spec a b); try lia
  | |- context [N.ltb ?a ?b] => destruct (N.ltb_spec a b); try lia
  end; reflexivity.
Qed.
