(* ===== verification/Protocol.v ===== *)
(** The wire contract between the agent and the control plane
    (crates/sakala-agent-protocol): the data types, the names serde gives
    their variants, and the JSON values the agent sends. *)
From S2P Require Import Prelude Text.

(** ** JSON: [serde_json::Value] *)

Inductive Value : Type :=
| Null
| Bool (b : bool)
| Number (n : Z)
| Str (s : string)
| Array (items : list Value)
| Object (fields : list (string * Value)).

#[global] Instance Value_inhabited : Inhabited Value := populate Null.

Definition opt_value {A} (f : A -> Value) (o : option A) : Value :=
  match o with Some a => f a | None => Null end.
Definition num (n : N) : Value := Number (Z.of_N n).

(** Field access and [Map::insert]: an existing key keeps its place. *)
Fixpoint field_get (fs : list (string * Value)) (k : string) : option Value :=
  match fs with
  | [] => None
  | (k', v) :: rest => if bool_decide (k = k') then Some v else field_get rest k
  end.
Fixpoint field_insert (fs : list (string * Value)) (k : string) (v : Value)
  : list (string * Value) :=
  match fs with
  | [] => [(k, v)]
  | (k', v') :: rest =>
      if bool_decide (k = k') then (k, v) :: rest else (k', v') :: field_insert rest k v
  end.
Definition value_get (v : Value) (k : string) : option Value :=
  match v with Object fs => field_get fs k | _ => None end.

Lemma field_get_insert fs k v : field_get (field_insert fs k v) k = Some v.
Proof. induction fs as [|[k' v'] fs IH]; simpl; repeat (case_bool_decide; simpl); done. Qed.

Lemma field_get_insert_ne fs k k' v : k <> k' -> field_get (field_insert fs k v) k' = field_get fs k'.
Proof.
  intros Hne. induction fs as [|[k1 v1] fs IH]; simpl; repeat (case_bool_decide; simpl); congruence.
Qed.

(** ** Identifiers

    A [Uuid] is held as its canonical hyphenated text, the one its [Display]
    prints and every comparison of the sources agrees with. *)
Record Uuid := MkUuid { uuid_text : string }.
#[global] Instance Uuid_eq_dec : EqDecision Uuid. Proof. solve_decision. Defined.
#[global] Program Instance Uuid_countable : Countable Uuid :=
  inj_countable uuid_text (fun s => Some (MkUuid s)) _.
Next Obligation. by intros []. Qed.

(** Canonical text: 36 octets of hexadecimal digits and hyphens. *)
Definition uuid_char (c : ascii) : bool := is_ascii_hexdigit c || bool_decide (c = "-"%char).
Definition uuid_wf (u : Uuid) : Prop :=
  String.length (uuid_text u) = 36%nat /\ forallb uuid_char (bytes_of (uuid_text u)) = true.

(** ** Enumerations and the names [serde(rename_all)] gives them *)

Class SerdeEnum (A : Type) : Type := {
  serde_all : list A;
  serde_name : A -> string
}.

Definition serde_parse {A} `{SerdeEnum A} (s : string) : option A :=
  List.find (fun a => bool_decide (serde_name a = s)) serde_all.

(** What the wire needs of an enumeration: every value is listed and no two
    share a name. *)
Class SerdeLaws (A : Type) `{SerdeEnum A} : Prop := {
  serde_complete (a : A) : a ∈ serde_all;
  serde_distinct (a b : A) : serde_name a = serde_name b -> a = b
}.

Lemma serde_parse_name {A} `{SerdeLaws A} (a : A) : serde_parse (serde_name a) = Some a.
Proof.
  unfold serde_parse.
  destruct (List.find _ serde_all) as [b|] eqn:E.
  - apply List.find_some in E as [_ E%bool_decide_eq_true]. f_equal. by apply serde_distinct.
  - exfalso. pose proof (List.find_none _ _ E a) as Hn.
    rewrite bool_decide_eq_false in Hn. by apply Hn; [apply list_elem_of_In, serde_complete|].
Qed.

Lemma serde_name_parse {A} `{SerdeLaws A} (s : string) (a : A) :
  serde_parse s = Some a -> serde_name a = s.
Proof. unfold serde_parse. by intros [_ ?%bool_decide_eq_true]%List.find_some. Qed.

Ltac serde_enum :=
  split; [intros []; cbn; set_solver | intros [] []; cbn; intros; congruence].

Inductive CommandStatus := Pending | Claimed | Running | Succeeded | Failed | Cancelled | Expired.
#[global] Instance CommandStatus_eq_dec : EqDecision CommandStatus. Proof. solve_decision. Defined.
#[global] Instance CommandStatus_serde : SerdeEnum CommandStatus := {
  serde_all := [Pending; Claimed; Running; Succeeded; Failed; Cancelled; Expired];
  serde_name s := match s with
    | Pending => "Pending" | Claimed => "Claimed" | Running => "Running"
    | Succeeded => "Succeeded" | Failed => "Failed" | Cancelled => "Cancelled"
    | Expired => "Expired" end
}.
#[global] Instance CommandStatus_laws : SerdeLaws CommandStatus. Proof. serde_enum. Qed.

Inductive NodeStatus :=
| NodeReady | NodeBusy | NodeDegraded | NodeDraining | NodeDrained | NodeMaintenance.
#[global] Instance NodeStatus_eq_dec : EqDecision NodeStatus. Proof. solve_decision. Defined.
#[global] Instance NodeStatus_serde : SerdeEnum NodeStatus := {
  serde_all := [NodeReady; NodeBusy; NodeDegraded; NodeDraining; NodeDrained; NodeMaintenance];
  serde_name s := match s with
    | NodeReady => "ready" | NodeBusy => "busy" | NodeDegraded => "degraded"
    | NodeDraining => "draining" | NodeDrained => "drained"
    | NodeMaintenance => "maintenance" end
}.
#[global] Instance NodeStatus_laws : SerdeLaws NodeStatus. Proof. serde_enum. Qed.

Inductive DesiredWorkloadState := WantRunning | WantStopped | WantMissing.
#[global] Instance DesiredWorkloadState_eq_dec : EqDecision DesiredWorkloadState.
Proof. solve_decision. Defined.
#[global] Instance DesiredWorkloadState_serde : SerdeEnum DesiredWorkloadState := {
  serde_all := [WantRunning; WantStopped; WantMissing];
  serde_name s := match s with
    | WantRunning => "running" | WantStopped => "stopped" | WantMissing => "missing" end
}.
#[global] Instance DesiredWorkloadState_laws : SerdeLaws DesiredWorkloadState.
Proof. serde_enum. Qed.

Inductive ReconcileWorkloadAction := RestartLogFollower | CleanupFailedCandidate | RestoreRoute.
#[global] Instance ReconcileWorkloadAction_eq_dec : EqDecision ReconcileWorkloadAction.
Proof. solve_decision. Defined.
#[global] Instance ReconcileWorkloadAction_serde : SerdeEnum ReconcileWorkloadAction := {
  serde_all := [RestartLogFollower; CleanupFailedCandidate; RestoreRoute];
  serde_name s := match s with
    | RestartLogFollower => "restart_log_follower"
    | CleanupFailedCandidate => "cleanup_failed_candidate"
    | RestoreRoute => "restore_route" end
}.
#[global] Instance ReconcileWorkloadAction_laws : SerdeLaws ReconcileWorkloadAction.
Proof. serde_enum. Qed.

Inductive RuntimeCleanupTarget := StaleWorkspaces | StaleImages | StaleRoutes.
#[global] Instance RuntimeCleanupTarget_eq_dec : EqDecision RuntimeCleanupTarget.
Proof. solve_decision. Defined.
#[global] Instance RuntimeCleanupTarget_serde : SerdeEnum RuntimeCleanupTarget := {
  serde_all := [StaleWorkspaces; StaleImages; StaleRoutes];
  serde_name s := match s with
    | StaleWorkspaces => "stale_workspaces" | StaleImages => "stale_images"
    | StaleRoutes => "stale_routes" end
}.
#[global] Instance RuntimeCleanupTarget_laws : SerdeLaws RuntimeCleanupTarget.
Proof. serde_enum. Qed.

Inductive CommandType :=
| InspectProject | DeployProject | RestartProject | StopProject | SleepProject | WakeProject
| HealthCheck | RefreshRoute | ReconcileWorkload | CleanupRuntime | DrainNode | ResumeNode.
#[global] Instance CommandType_eq_dec : EqDecision CommandType. Proof. solve_decision. Defined.
#[global] Instance CommandType_serde : SerdeEnum CommandType := {
  serde_all := [InspectProject; DeployProject; RestartProject; StopProject; SleepProject;
    WakeProject; HealthCheck; RefreshRoute; ReconcileWorkload; CleanupRuntime; DrainNode;
    ResumeNode];
  serde_name c := match c with
    | InspectProject => "InspectProject" | DeployProject => "DeployProject"
    | RestartProject => "RestartProject" | StopProject => "StopProject"
    | SleepProject => "SleepProject" | WakeProject => "WakeProject"
    | HealthCheck => "HealthCheck" | RefreshRoute => "RefreshRoute"
    | ReconcileWorkload => "ReconcileWorkload" | CleanupRuntime => "CleanupRuntime"
    | DrainNode => "DrainNode" | ResumeNode => "ResumeNode" end
}.
#[global] Instance CommandType_laws : SerdeLaws CommandType. Proof. serde_enum. Qed.

Inductive DeploymentBuilder := Auto | Dockerfile | Railpack.
#[global] Instance DeploymentBuilder_eq_dec : EqDecision DeploymentBuilder.
Proof. solve_decision. Defined.
#[global] Instance DeploymentBuilder_serde : SerdeEnum DeploymentBuilder := {
  serde_all := [Auto; Dockerfile; Railpack];
  serde_name b := match b with
    | Auto => "auto" | Dockerfile => "dockerfile" | Railpack => "railpack" end
}.
#[global] Instance DeploymentBuilder_laws : SerdeLaws DeploymentBuilder. Proof. serde_enum. Qed.

Inductive FinalizationDeferredReason := GraceElapsed | FinalizationRuntimeError.
#[global] Instance FinalizationDeferredReason_serde : SerdeEnum FinalizationDeferredReason := {
  serde_all := [GraceElapsed; FinalizationRuntimeError];
  serde_name r := match r with
    | GraceElapsed => "grace_elapsed" | FinalizationRuntimeError => "runtime_error" end
}.
#[global] Instance FinalizationDeferredReason_laws : SerdeLaws FinalizationDeferredReason.
Proof. serde_enum. Qed.

Inductive DeploymentEventLevel := Info | Warning | Error.
#[global] Instance DeploymentEventLevel_serde : SerdeEnum DeploymentEventLevel := {
  serde_all := [Info; Warning; Error];
  serde_name l := match l with Info => "info" | Warning => "warning" | Error => "error" end
}.
#[global] Instance DeploymentEventLevel_laws : SerdeLaws DeploymentEventLevel.
Proof. serde_enum. Qed.

Inductive LogStream := Stdout | Stderr | System.
#[global] Instance LogStream_eq_dec : EqDecision LogStream. Proof. solve_decision. Defined.
#[global] Instance LogStream_serde : SerdeEnum LogStream := {
  serde_all := [Stdout; Stderr; System];
  serde_name s := match s with Stdout => "stdout" | Stderr => "stderr" | System => "system" end
}.
#[global] Instance LogStream_laws : SerdeLaws LogStream. Proof. serde_enum. Qed.

Inductive RepositoryAccess := Public | TemporaryCredential.
#[global] Instance RepositoryAccess_serde : SerdeEnum RepositoryAccess := {
  serde_all := [Public; TemporaryCredential];
  serde_name a := match a with
    | Public => "public" | TemporaryCredential => "temporary_credential" end
}.
#[global] Instance RepositoryAccess_laws : SerdeLaws RepositoryAccess. Proof. serde_enum. Qed.

Inductive DesiredNodeLifecycleState :=
| DesiredActive | DesiredDraining | DesiredDrained | DesiredMaintenance.
#[global] Instance DesiredNodeLifecycleState_serde : SerdeEnum DesiredNodeLifecycleState := {
  serde_all := [DesiredActive; DesiredDraining; DesiredDrained; DesiredMaintenance];
  serde_name s := match s with
    | DesiredActive => "active" | DesiredDraining => "draining"
    | DesiredDrained => "drained" | DesiredMaintenance => "maintenance" end
}.
#[global] Instance DesiredNodeLifecycleState_laws : SerdeLaws DesiredNodeLifecycleState.
Proof. serde_enum. Qed.

(** ** Payloads *)

Record RuntimeResourceLimits := {
  req_memory_mb : option N; req_cpu_millis : option N; req_pids_limit : option N }.
Record RuntimeTimeoutLimits := {
  build_timeout_seconds : option N; start_timeout_seconds : option N;
  command_timeout_seconds : option N }.
Record LogBounds := {
  max_line_length : option N; max_batch_lines : option N; max_total_bytes : option N }.
Record AppliedRuntimeResources := {
  memory_mb : N; cpu_millis : N; pids_limit : N }.

Definition default_resource_limits : RuntimeResourceLimits :=
  {| req_memory_mb := None; req_cpu_millis := None; req_pids_limit := None |}.
Definition default_timeout_limits : RuntimeTimeoutLimits :=
  {| build_timeout_seconds := None; start_timeout_seconds := None;
     command_timeout_seconds := None |}.
Definition default_log_bounds : LogBounds :=
  {| max_line_length := None; max_batch_lines := None; max_total_bytes := None |}.

(** A [BTreeMap<String, String>] is its entries in key order. *)
Record DeployProjectPayload := {
  dp_repository_url : string;
  dp_commit_sha : string;
  dp_repository_access : RepositoryAccess;
  dp_domain : string;
  dp_container_port : N;
  dp_builder : DeploymentBuilder;
  dp_environment : list (string * string);
  dp_resources : RuntimeResourceLimits;
  dp_timeouts : RuntimeTimeoutLimits;
  dp_log_bounds : LogBounds
}.
Definition default_container_port : N := 3000.

Record InspectProjectPayload := {
  ip_repository_url : string;
  ip_commit_sha : string;
  ip_repository_access : RepositoryAccess
}.
Record ReconcileWorkloadPayload := {
  rw_desired_state : DesiredWorkloadState;
  rw_actions : list ReconcileWorkloadAction
}.
Record CleanupRuntimePayload := {
  cr_approved : bool;
  cr_targets : list RuntimeCleanupTarget
}.
Record DeployProjectResult := {
  dr_requested_resources : RuntimeResourceLimits;
  dr_applied_resources : AppliedRuntimeResources;
  dr_finalization_deferred : bool;
  dr_finalization_deferred_reason : option FinalizationDeferredReason
}.
Record ProjectInspection := {
  pi_repository_url : string;
  pi_commit_sha : string;
  pi_dockerfile_found : bool;
  pi_env_example_found : bool;
  pi_compose_found : bool;
  pi_manifests : list string;
  pi_package_manager : option string;
  pi_railpack : Value
}.

Record AgentCommand := {
  cmd_id : Uuid;
  cmd_command_type : CommandType;
  cmd_status : CommandStatus;
  cmd_project_id : option Uuid;
  cmd_deployment_id : option Uuid;
  cmd_payload : Value
}.
Record DeploymentEvent := {
  ev_type : string;
  ev_level : DeploymentEventLevel;
  ev_message : string;
  ev_metadata : Value;
  ev_occurred_at : Z
}.
Record DeploymentLog := {
  log_stream : LogStream;
  log_message : string;
  log_recorded_at : Z
}.
Record NodeInfo := {
  ni_hostname : string; ni_runtime_network : string; ni_capabilities : list string }.
Record HeartbeatPayload := {
  hb_status : NodeStatus; hb_node : NodeInfo; hb_metadata : Value; hb_sent_at : Z }.

Definition PROTOCOL_VERSION : N := 4.

(** ** Serialization of the values the agent reports *)

Definition resource_limits_value (r : RuntimeResourceLimits) : Value :=
  Object [("memory_mb", opt_value num (req_memory_mb r));
          ("cpu_millis", opt_value num (req_cpu_millis r));
          ("pids_limit", opt_value num (req_pids_limit r))].
Definition applied_resources_value (a : AppliedRuntimeResources) : Value :=
  Object [("memory_mb", num (memory_mb a)); ("cpu_millis", num (cpu_millis a));
          ("pids_limit", num (pids_limit a))].

(** [skip_serializing_if] drops the two deferral fields of a result that was
    not deferred. *)
Definition deploy_result_value (r : DeployProjectResult) : Value :=
  Object ([("requested_resources", resource_limits_value (dr_requested_resources r));
           ("applied_resources", applied_resources_value (dr_applied_resources r))]
    ++ (if dr_finalization_deferred r then [("finalization_deferred", Bool true)] else [])
    ++ match dr_finalization_deferred_reason r with
       | Some reason => [("finalization_deferred_reason", Str (serde_name reason))]
       | None => []
       end).

Definition project_inspection_value (p : ProjectInspection) : Value :=
  Object [("repository_url", Str (pi_repository_url p));
          ("commit_sha", Str (pi_commit_sha p));
          ("dockerfile_found", Bool (pi_dockerfile_found p));
          ("env_example_found", Bool (pi_env_example_found p));
          ("compose_found", Bool (pi_compose_found p));
          ("manifests", Array (map Str (pi_manifests p)));
          ("package_manager", opt_value Str (pi_package_manager p));
          ("railpack", pi_railpack p)].

(** Order of strings by their bytes and lookup in a [BTreeMap]. *)
Fixpoint bytes_ltb (a b : bytes) : bool :=
  match a, b with
  | [], _ :: _ => true
  | x :: a', y :: b' =>
      (byte x <? byte y)%N || (bool_decide (x = y) && bytes_ltb a' b')
  | _, [] => false
  end.
Fixpoint btree_get (m : list (string * string)) (k : string) : option string :=
  match m with
  | [] => None
  | (k', v) :: rest => if bool_decide (k = k') then Some v else btree_get rest k
  end.
(** [map.entry(key).or_insert(value)]. *)
Fixpoint btree_or_insert (m : list (string * string)) (k v : string) : list (string * string) :=
  match m with
  | [] => [(k, v)]
  | (k', v') :: rest =>
      if bool_decide (k = k') then (k', v') :: rest
      else if bytes_ltb (bytes_of k) (bytes_of k') then (k, v) :: (k', v') :: rest
      else (k', v') :: btree_or_insert rest k v
  end.
