(* ===== verification/Async.v ===== *)
(** Asynchronous code: an [async fn] as the tree of the effects it awaits.

    [Prog Op A] is a computation that awaits effects of the signature [Op] and
    returns an [A]: every effect is a node that branches over the answers its
    environment may give.  The environment is not fixed: a theorem over the
    runs of a tree speaks of all answers, orders of failures included.
    [race] cuts a computation when a timer or a cancellation fires between two
    of its effects, and hands back the suspended rest, which the caller may
    resume (a pinned future) or drop. *)
From S2P Require Import Prelude.

Inductive Prog (Op : Type -> Type) (A : Type) : Type :=
| Ret (a : A)
| Vis (X : Type) (o : Op X) (k : X -> Prog Op A).
Arguments Ret {_ _} _.
Arguments Vis {_ _ _} _ _.

Definition trigger {Op X} (o : Op X) : Prog Op X := Vis o Ret.

Fixpoint bind {Op A B} (p : Prog Op A) (f : A -> Prog Op B) : Prog Op B :=
  match p with
  | Ret a => f a
  | Vis o k => Vis o (fun x => bind (k x) f)
  end.

(** ** Fallible asynchronous code: [async fn .. -> Result<A, E>]

    [?] is the bind of this monad. *)
Definition Async (Op : Type -> Type) (E A : Type) : Type := Prog Op (Result E A).

Definition ok {Op E A} (a : A) : Async Op E A := Ret (Ok a).
Definition err {Op E A} (e : E) : Async Op E A := Ret (Err e).
Definition and_then {Op E A B} (m : Async Op E A) (f : A -> Async Op E B) : Async Op E B :=
  bind m (fun r => match r with Ok a => f a | Err e => Ret (Err e) end).

(** A computation that cannot fail, a result computed without effects, an
    outcome that is discarded, an error that is converted. *)
Definition effect {Op E A} (p : Prog Op A) : Async Op E A := bind p (fun a => Ret (Ok a)).
Definition lift {Op E A} (r : Result E A) : Async Op E A := Ret r.
Definition attempt {Op E F A} (m : Async Op E A) : Async Op F (Result E A) :=
  bind m (fun r => Ret (Ok r)).
Definition ignore {Op E F A} (m : Async Op E A) : Async Op F () :=
  bind m (fun _ => Ret (Ok ())).
Definition with_error {Op E F A} (f : E -> F) (m : Async Op E A) : Async Op F A :=
  bind m (fun r => Ret (map_err f r)).

Declare Scope async_scope.
Delimit Scope async_scope with async.
Notation "x <- m ;; f" := (and_then m (fun x => f))
  (at level 100, m at next level, right associativity) : async_scope.
Notation "' p <- m ;; f" := (and_then m (fun x => match x with p => f end))
  (at level 100, p pattern, m at next level, right associativity) : async_scope.
Notation "x <~ p ;; f" := (bind p (fun x => f))
  (at level 100, p at next level, right associativity) : async_scope.
Notation "m ;;; f" := (and_then m (fun _ => f)) (at level 100, right associativity) : async_scope.

#[local] Open Scope async_scope.

(** A [for x in xs { body(x).await?; }] loop. *)
Fixpoint for_each {Op E A} (body : A -> Async Op E ()) (xs : list A) : Async Op E () :=
  match xs with
  | [] => ok ()
  | x :: rest => body x ;;; for_each body rest
  end.

(** A loop that carries a state. *)
Fixpoint fold_each {Op E S A} (body : S -> A -> Async Op E S) (s : S) (xs : list A) : Async Op E S :=
  match xs with
  | [] => ok s
  | x :: rest => s' <- body s x ;; fold_each body s' rest
  end.

(** ** Cutting a computation

    [fired] asks the environment whether the timer or the token fired.  A
    computation that is ready wins over a timer that fired ([biased],
    [tokio::time::timeout]). *)
Fixpoint race {Op A} (fired : Prog Op bool) (p : Prog Op A) : Prog Op (A + Prog Op A) :=
  match p with
  | Ret a => Ret (inl a)
  | Vis o k =>
      bind fired (fun b : bool =>
        if b then Ret (inr (Vis o k)) else Vis o (fun x => race fired (k x)))
  end.

(** The same cut, only at effects that are awaited: code between two await
    points runs to the next one. *)
Class Awaits (Op : Type -> Type) : Type := awaited : forall X, Op X -> bool.
Arguments awaited {_ _ _} _.
Fixpoint race_at {Op} `{!Awaits Op} {A} (fired : Prog Op bool) (p : Prog Op A) : Prog Op (A + Prog Op A) :=
  match p with
  | Ret a => Ret (inl a)
  | Vis o k =>
      if awaited o then
        bind fired (fun b : bool =>
          if b then Ret (inr (Vis o k)) else Vis o (fun x => race_at fired (k x)))
      else Vis o (fun x => race_at fired (k x))
  end.

(** ** Runs

    A run is the sequence of calls a computation makes with the answers it got. *)
Record Call (Op : Type -> Type) := MkCall { call_type : Type; call_op : Op call_type; call_answer : call_type }.
Arguments MkCall {_ _} _ _.
Arguments call_type {_} _.
Arguments call_op {_} _.
Arguments call_answer {_} _.

Fixpoint runs {Op A} (p : Prog Op A) (tr : list (Call Op)) (a : A) : Prop :=
  match p with
  | Ret a' => tr = [] /\ a = a'
  | Vis o k => exists x tr', tr = MkCall o x :: tr' /\ runs (k x) tr' a
  end.

(** The run under an environment that answers from the calls made so far. *)
Definition Env (Op : Type -> Type) : Type := list (Call Op) -> forall X, Op X -> X.
Fixpoint run_from {Op A} (env : Env Op) (past : list (Call Op)) (p : Prog Op A)
  : list (Call Op) * A :=
  match p with
  | Ret a => ([], a)
  | Vis o k =>
      let x := env past _ o in
      let (tr, a) := run_from env (past ++ [MkCall o x]) (k x) in
      (MkCall o x :: tr, a)
  end.
Definition run_with {Op A} (env : Env Op) (p : Prog Op A) : list (Call Op) * A := run_from env [] p.

Section Runs.
Context {Op : Type -> Type}.

Lemma runs_run_from {A} env past (p : Prog Op A) :
  runs p (run_from env past p).1 (run_from env past p).2.
Proof.
  revert past. induction p as [a|X o k IH]; intros past; [done|].
  cbn [run_from]. specialize (IH (env past X o) (past ++ [MkCall o (env past X o)])).
  destruct (run_from env _ _) as [tr a]. exists (env past X o), tr. done.
Qed.

Lemma runs_ret {A} (a a' : A) (tr : list (Call Op)) :
  runs (Ret a) tr a' <-> tr = [] /\ a' = a.
Proof. done. Qed.

Lemma runs_bind {A B} (p : Prog Op A) (f : A -> Prog Op B) tr b :
  runs (bind p f) tr b <-> exists t1 t2 a, tr = t1 ++ t2 /\ runs p t1 a /\ runs (f a) t2 b.
Proof.
  revert tr. induction p as [a|X o k IH]; intros tr; cbn [bind runs].
  - split; [intros H; by exists [], tr, a | intros (t1 & t2 & a' & -> & [-> ->] & H); done].
  - split.
    + intros (x & tr' & -> & H). apply IH in H as (t1 & t2 & a & -> & H1 & H2).
      exists (MkCall o x :: t1), t2, a. split; [done|]. split; [|done]. by exists x, t1.
    + intros (t1 & t2 & a & -> & (x & t1' & -> & H1) & H2).
      exists x, (t1' ++ t2). split; [done|]. apply IH. by exists t1', t2, a.
Qed.

Lemma runs_trigger {X} (o : Op X) tr (x : X) : runs (trigger o) tr x <-> tr = [MkCall o x].
Proof.
  cbn. split; [by intros (y & ? & -> & -> & ->) | intros ->; by exists x, []].
Qed.

Lemma runs_and_then {E A B} (m : Async Op E A) (f : A -> Async Op E B) tr r :
  runs (and_then m f) tr r <->
  (exists e, runs m tr (Err e) /\ r = Err e) \/
  (exists t1 t2 a, tr = t1 ++ t2 /\ runs m t1 (Ok a) /\ runs (f a) t2 r).
Proof.
  unfold and_then. rewrite runs_bind. split.
  - intros (t1 & t2 & [a|e] & -> & H1 & H2); [right; eauto 10|left].
    destruct H2 as [-> ->]. exists e. by rewrite app_nil_r.
  - intros [(e & H & ->)|(t1 & t2 & a & -> & H1 & H2)].
    + exists tr, [], (Err e). by rewrite app_nil_r.
    + by exists t1, t2, (Ok a).
Qed.

Lemma runs_attempt {E F A} (m : Async Op E A) tr (r : Result F (Result E A)) :
  runs (attempt m : Async Op F _) tr r <-> exists r', r = Ok r' /\ runs m tr r'.
Proof.
  unfold attempt. rewrite runs_bind. split.
  - intros (t1 & t2 & r' & -> & H1 & -> & ->). exists r'. by rewrite app_nil_r.
  - intros (r' & -> & H). exists tr, [], r'. by rewrite app_nil_r.
Qed.

Lemma runs_ignore {E F A} (m : Async Op E A) tr (r : Result F ()) :
  runs (ignore m : Async Op F _) tr r <-> r = Ok () /\ exists r', runs m tr r'.
Proof.
  unfold ignore. rewrite runs_bind. split.
  - intros (t1 & t2 & r' & -> & H1 & -> & ->). rewrite app_nil_r. eauto.
  - intros (-> & r' & H). exists tr, [], r'. by rewrite app_nil_r.
Qed.

Lemma runs_with_error {E F A} (g : E -> F) (m : Async Op E A) tr r :
  runs (with_error g m) tr r <-> exists r', r = map_err g r' /\ runs m tr r'.
Proof.
  unfold with_error. rewrite runs_bind. split.
  - intros (t1 & t2 & r' & -> & H1 & -> & ->). rewrite app_nil_r. eauto.
  - intros (r' & -> & H). exists tr, [], r'. by rewrite app_nil_r.
Qed.

Lemma runs_effect {E A} (p : Prog Op A) tr (r : Result E A) :
  runs (effect p : Async Op E A) tr r <-> exists a, r = Ok a /\ runs p tr a.
Proof.
  unfold effect. rewrite runs_bind. split.
  - intros (t1 & t2 & a & -> & H1 & -> & ->). rewrite app_nil_r. eauto.
  - intros (a & -> & H). exists tr, [], a. by rewrite app_nil_r.
Qed.

(** ** Calls a computation may make *)

(** Every call of every run satisfies [P]. *)
Fixpoint only {A} (P : forall X, Op X -> Prop) (p : Prog Op A) : Prop :=
  match p with
  | Ret _ => True
  | Vis o k => P _ o /\ forall x, only P (k x)
  end.

Lemma only_runs {A} P (p : Prog Op A) tr a :
  only P p -> runs p tr a -> Forall (fun c => P _ (call_op c)) tr.
Proof.
  revert tr. induction p as [a'|X o k IH]; intros tr; cbn.
  - intros _ [-> _]. constructor.
  - intros [Ho Hk] (x & tr' & -> & H). constructor; [done|]. eapply IH; [apply Hk|exact H].
Qed.

Lemma only_bind {A B} P (p : Prog Op A) (f : A -> Prog Op B) :
  only P p -> (forall a, only P (f a)) -> only P (bind p f).
Proof. induction p as [a|X o k IH]; cbn; [auto|]. intros [Ho Hk] Hf. split; auto. Qed.

Lemma only_and_then {E A B} P (m : Async Op E A) (f : A -> Async Op E B) :
  only P m -> (forall a, only P (f a)) -> only P (and_then m f).
Proof. intros Hm Hf. apply only_bind; [done|]. by intros [a|e]; cbn. Qed.

Lemma only_with_error {E F A} P (g : E -> F) (m : Async Op E A) : only P m -> only P (with_error g m).
Proof. intros H. by apply only_bind. Qed.
Lemma only_attempt {E F A} P (m : Async Op E A) : only P m -> only P (attempt m : Async Op F _).
Proof. intros H. by apply only_bind. Qed.
Lemma only_ignore {E F A} P (m : Async Op E A) : only P m -> only P (ignore m : Async Op F _).
Proof. intros H. by apply only_bind. Qed.
Lemma only_effect {E A} P (p : Prog Op A) : only P p -> only P (effect p : Async Op E A).
Proof. intros H. by apply only_bind. Qed.

Lemma only_race {A} P (fired : Prog Op bool) (p : Prog Op A) :
  only P fired -> only P p -> only P (race fired p).
Proof.
  intros Hf. induction p as [a|X o k IH]; cbn; [done|]. intros [Ho Hk].
  apply only_bind; [done|]. intros []; cbn; auto.
Qed.

(** The suspended rest of a cut computation makes only calls the whole
    computation could make. *)
Lemma only_race_rest {A} P (fired : Prog Op bool) (p : Prog Op A) tr rest :
  only P p -> runs (race fired p) tr (inr rest) -> only P rest.
Proof.
  revert tr. induction p as [a|X o k IH]; intros tr; cbn [race].
  - by intros _ [_ [=]].
  - intros [Ho Hk]. rewrite runs_bind. intros (t1 & t2 & [] & _ & _ & H).
    + destruct H as [_ [= ->]]. by split.
    + destruct H as (x & tr' & _ & H). eapply IH; [apply Hk|exact H].
Qed.

(** A computation that was cut, resumed and ready gives a result of the whole
    computation. *)
Lemma race_inl {A} (fired : Prog Op bool) (p : Prog Op A) tr a :
  runs (race fired p) tr (inl a) -> exists t, runs p t a.
Proof.
  revert tr. induction p as [a'|X o k IH]; intros tr; cbn [race].
  - intros [_ [= ->]]. by exists [].
  - rewrite runs_bind. intros (t1 & t2 & [] & _ & _ & H); [by destruct H as [_ [=]]|].
    destruct H as (x & tr' & _ & H). apply IH in H as [t H]. exists (MkCall o x :: t), x, t. done.
Qed.
Lemma race_inr {A} (fired : Prog Op bool) (p : Prog Op A) tr rest t a :
  runs (race fired p) tr (inr rest) -> runs rest t a -> exists t', runs p t' a.
Proof.
  revert tr. induction p as [a'|X o k IH]; intros tr; cbn [race]; [by intros [_ [=]]|].
  rewrite runs_bind. intros (t1 & t2 & [] & _ & _ & H) Hrest.
  - destruct H as [_ [= ->]]. by exists t.
  - destruct H as (x & tr' & _ & H). eapply IH in H as [t' H]; [|exact Hrest].
    exists (MkCall o x :: t'), x, t'. done.
Qed.
Lemma race_resumed {A} (f1 f2 : Prog Op bool) (p : Prog Op A) t1 t2 rest a :
  runs (race f1 p) t1 (inr rest) -> runs (race f2 rest) t2 (inl a) -> exists t, runs p t a.
Proof. intros H1 [t H2]%race_inl. by eapply race_inr. Qed.

(** [race_at] asks nothing before an effect that is not awaited. *)
Lemma only_race_at `{!Awaits Op} {A} P (fired : Prog Op bool) (p : Prog Op A) :
  only P fired -> only P p -> only P (race_at fired p).
Proof.
  intros Hf. induction p as [a|X o k IH]; cbn; [done|]. intros [Ho Hk].
  destruct (awaited o); [apply only_bind; [done|]; intros []|]; cbn; auto.
Qed.
Lemma only_race_at_rest `{!Awaits Op} {A} P (fired : Prog Op bool) (p : Prog Op A) tr rest :
  only P p -> runs (race_at fired p) tr (inr rest) -> only P rest.
Proof.
  revert tr. induction p as [a|X o k IH]; intros tr; cbn [race_at]; [by intros _ [_ [=]]|].
  intros [Ho Hk]. destruct (awaited o).
  - rewrite runs_bind. intros (t1 & t2 & [] & _ & _ & H).
    + destruct H as [_ [= ->]]. by split.
    + destruct H as (x & tr' & _ & H). eapply IH; [apply Hk|exact H].
  - intros (x & tr' & _ & H). eapply IH; [apply Hk|exact H].
Qed.

(** Every result of a computation satisfies [Q]. *)
Fixpoint leads {A} (Q : A -> Prop) (p : Prog Op A) : Prop :=
  match p with Ret a => Q a | Vis o k => forall x, leads Q (k x) end.
Lemma leads_bind {A B} (Q : A -> Prop) (R : B -> Prop) (p : Prog Op A) (f : A -> Prog Op B) :
  leads Q p -> (forall a, Q a -> leads R (f a)) -> leads R (bind p f).
Proof. intros Hp Hf. induction p as [a|X o k IH]; cbn in *; auto. Qed.
Lemma leads_any {A} (p : Prog Op A) : leads (fun _ => True) p.
Proof. induction p; cbn; auto. Qed.
Lemma only_bind_leads {A B} P (Q : A -> Prop) (p : Prog Op A) (f : A -> Prog Op B) :
  only P p -> leads Q p -> (forall a, Q a -> only P (f a)) -> only P (bind p f).
Proof. intros Hp HQ Hf. induction p as [a|X o k IH]; cbn in *; [auto|]. destruct Hp. split; auto. Qed.

(** Behind a race there is at most the suspended rest. *)
Lemma only_raced_at `{!Awaits Op} {A B} P (fired : Prog Op bool) (p : Prog Op A) (f : A + Prog Op A -> Prog Op B) :
  only P fired -> only P p -> (forall a, only P (f (inl a))) -> (forall rest, only P rest -> only P (f (inr rest))) ->
  only P (bind (race_at fired p) f).
Proof.
  intros Hfired Hp Hl Hr.
  apply (only_bind_leads P (fun raced => match raced with inl _ => True | inr rest => only P rest end)).
  - by apply only_race_at.
  - clear Hl Hr f. induction p as [a|X o k IH]; cbn [race_at]; [done|]. destruct Hp as [Ho Hk].
    destruct (awaited o); [|cbn; auto]. eapply leads_bind; [apply leads_any|]. intros [] _; [by split|cbn; auto].
  - intros [a|rest]; auto.
Qed.

(** A cut of a sequence cuts its first part or its second one. *)
Lemma runs_race_at_bind `{!Awaits Op} {A B} (fired : Prog Op bool) (p : Prog Op A) (f : A -> Prog Op B) tr r :
  runs (race_at fired (bind p f)) tr r ->
  (exists rest, runs (race_at fired p) tr (inr rest) /\ r = inr (bind rest f)) \/
  (exists t1 t2 a, tr = t1 ++ t2 /\ runs (race_at fired p) t1 (inl a) /\ runs (race_at fired (f a)) t2 r).
Proof.
  revert tr. induction p as [a|X o k IH]; intros tr; cbn [race_at bind].
  - intros H. right. by exists [], tr, a.
  - assert (Hstep : forall tr, runs (Vis o (fun x => race_at fired (bind (k x) f))) tr r ->
      (exists rest, runs (Vis o (fun x => race_at fired (k x))) tr (inr rest) /\ r = inr (bind rest f)) \/
      (exists t1 t2 a, tr = t1 ++ t2 /\ runs (Vis o (fun x => race_at fired (k x))) t1 (inl a) /\
         runs (race_at fired (f a)) t2 r)).
    { intros t (x & t' & -> & H). apply IH in H as [(rest & H & ->)|(t1 & t2 & a & -> & H1 & H2)].
      - left. exists rest. split; [by exists x, t'|done].
      - right. exists (MkCall o x :: t1), t2, a. split_and!; [done|by exists x, t1|done]. }
    destruct (awaited o); [|apply Hstep].
    rewrite !runs_bind. intros (t1 & t2 & b & -> & H1 & H2). destruct b.
    + destruct H2 as [-> ->]. left. exists (Vis o k). split; [|done].
      apply runs_bind. by exists t1, [], true.
    + apply Hstep in H2 as [(rest & H & ->)|(u1 & u2 & a & -> & Hu1 & Hu2)].
      * left. exists rest. split; [|done]. apply runs_bind. by exists t1, t2, false.
      * right. exists (t1 ++ u1), u2, a. split_and!; [by rewrite app_assoc| |done].
        apply runs_bind. by exists t1, u1, false.
Qed.
Lemma race_at_inl `{!Awaits Op} {A} (fired : Prog Op bool) (p : Prog Op A) tr a :
  runs (race_at fired p) tr (inl a) -> exists t, runs p t a.
Proof.
  revert tr. induction p as [a'|X o k IH]; intros tr; cbn [race_at].
  - intros [_ [= ->]]. by exists [].
  - assert (Hstep : forall tr, runs (Vis o (fun x => race_at fired (k x))) tr (inl a) -> exists t, runs (Vis o k) t a).
    { intros t (x & tr' & _ & H). apply IH in H as [t' H]. exists (MkCall o x :: t'), x, t'. done. }
    destruct (awaited o); [|apply Hstep].
    rewrite runs_bind. intros (t1 & t2 & [] & _ & _ & H); [by destruct H as [_ [=]]|by apply Hstep in H].
Qed.

Lemma only_mono {A} (P Q : forall X, Op X -> Prop) (p : Prog Op A) :
  (forall X (o : Op X), P X o -> Q X o) -> only P p -> only Q p.
Proof. intros HPQ. induction p as [a|X o k IH]; cbn; [done|]. intros [Ho Hk]. auto. Qed.
End Runs.

Lemma only_for_each {Op E A} P (body : A -> Async Op E ()) xs :
  (forall x, only P (body x)) -> only P (for_each body xs).
Proof. intros Hb. induction xs as [|x xs IH]; cbn; [done|]. apply only_and_then; auto. Qed.

Lemma only_fold_each {Op E S A} P (body : S -> A -> Async Op E S) s xs :
  (forall s x, only P (body s x)) -> only P (fold_each body s xs).
Proof.
  intros Hb. revert s. induction xs as [|x xs IH]; intros s; cbn; [done|]. apply only_and_then; auto.
Qed.

Create HintDb async.
#[export] Hint Resolve only_bind only_and_then only_with_error only_attempt only_ignore
  only_effect only_race only_for_each only_fold_each : async.

(** Splits the runs of a composed computation into the runs of its parts. *)
Ltac runs_split :=
  repeat match goal with
  | H : runs (and_then _ _) _ _ |- _ =>
      apply runs_and_then in H as [(? & H & ?)|(? & ? & ? & ? & ? & H)]
  | H : runs (attempt _) _ _ |- _ => apply runs_attempt in H as (? & ? & H)
  | H : runs (ignore _) _ _ |- _ => apply runs_ignore in H as (? & ? & H)
  | H : runs (with_error _ _) _ _ |- _ => apply runs_with_error in H as (? & ? & H)
  | H : runs (effect _) _ _ |- _ => apply runs_effect in H as (? & ? & H)
  | H : runs (trigger _) _ _ |- _ => apply runs_trigger in H
  | H : runs (ok _) _ _ |- _ => destruct H as [? ?]
  | H : runs (err _) _ _ |- _ => destruct H as [? ?]
  | H : runs (Ret _) _ _ |- _ => destruct H as [? ?]
  | H : runs (lift _) _ _ |- _ => destruct H as [? ?]
  end; simplify_eq.

(** Walks through a computation and leaves what each call must satisfy. *)
Ltac only_calls :=
  repeat first
    [ exact I | apply only_and_then | apply only_bind | apply only_with_error | apply only_attempt
    | apply only_ignore | apply only_effect | apply only_race
    | progress intros
    | progress cbn [only]
    | match goal with
      | |- _ /\ _ => split
      | |- only _ (trigger _) => split; [exact I|]
      | |- only _ (lift _) => exact I
      | |- only _ (ok _) => exact I
      | |- only _ (err _) => exact I
      | |- only _ (Ret _) => exact I
      | |- only _ (if ?b then _ else _) => destruct b
      | |- only _ (match ?x with _ => _ end) => destruct x
      | |- True => exact I
      end ].

(** The same through definitions and loops, down to the calls. *)
Ltac head t := lazymatch t with ?f _ => head f | _ => t end.
Ltac all_calls := repeat first
  [ progress only_calls
  | done
  | apply only_for_each | apply only_fold_each
  | match goal with |- only _ ?p => let f := head p in is_const f; unfold f end ].
