(* ===== verification/Interp.v ===== *)
(** Implementing one signature of effects by another.

    [interp h p] replaces every call of [p] by its implementation [h]; its runs
    are the runs of [p] with each call expanded to a run of its implementation,
    so what is proved of [p] holds of the composition. *)
From S2P Require Import Prelude Async.

#[local] Open Scope async_scope.

(** ** Equal computations

    Two computations are the same when they make the same calls and go on the
    same way behind every answer. *)

Fixpoint same {Op A} (p q : Prog Op A) : Prop :=
  match p with
  | Ret a => q = Ret a
  | Vis o k => exists k', q = Vis o k' /\ forall x, same (k x) (k' x)
  end.
#[export] Instance prog_equiv {Op A} : Equiv (Prog Op A) := same.

Section Equivalence.
Context {Op : Type -> Type}.

Lemma vis_proper {A X} (o : Op X) (k k' : X -> Prog Op A) : (forall x, k x ≡ k' x) -> Vis o k ≡ Vis o k'.
Proof. intros Hk. by exists k'. Qed.

#[export] Instance prog_equivalence {A} : Equivalence (≡@{Prog Op A}).
Proof.
  split.
  - intros p. induction p as [a|X o k IH]; [done|by apply vis_proper].
  - intros p. induction p as [a|X o k IH]; intros q Hq; [by rewrite Hq|].
    destruct Hq as (k' & -> & Hk). apply vis_proper. intros x. apply IH, Hk.
  - intros p. induction p as [a|X o k IH]; intros q r Hq; [by rewrite Hq|].
    destruct Hq as (k' & -> & Hk). intros (k2 & -> & Hk2). apply vis_proper. intros x. exact (IH x _ _ (Hk x) (Hk2 x)).
Qed.

Lemma same_runs {A} (p q : Prog Op A) tr a : p ≡ q -> runs p tr a -> runs q tr a.
Proof.
  revert q tr. induction p as [a'|X o k IH]; intros q tr Hq; [by rewrite Hq|].
  destruct Hq as (k' & -> & Hk). intros (x & t & -> & H). exists x, t. split; [done|]. exact (IH x _ _ (Hk x) H).
Qed.
Lemma same_only {A} P (p q : Prog Op A) : p ≡ q -> only P q -> only P p.
Proof.
  revert q. induction p as [a|X o k IH]; intros q Hq; [done|].
  destruct Hq as (k' & -> & Hk). intros [Ho Hk']. split; [done|]. intros x. exact (IH x _ (Hk x) (Hk' x)).
Qed.
#[export] Instance runs_proper {A} : Proper ((≡) ==> (=) ==> (=) ==> iff) (@runs Op A).
Proof. intros p q H tr ? <- a ? <-. split; by apply same_runs. Qed.

#[export] Instance bind_proper {A B} :
  Proper ((≡) ==> pointwise_relation A (≡) ==> (≡)) (@bind Op A B).
Proof.
  intros p. induction p as [a|X o k IH]; intros q Hq f g Hf; [rewrite Hq; apply Hf|].
  destruct Hq as (k' & -> & Hk). apply vis_proper. intros x. exact (IH x _ (Hk x) f g Hf).
Qed.
#[export] Instance and_then_proper {E A B} :
  Proper ((≡) ==> pointwise_relation A (≡) ==> (≡)) (@and_then Op E A B).
Proof. intros m n Hm f g Hf. apply bind_proper; [done|]. intros [a|e]; [apply Hf|done]. Qed.

Lemma bind_assoc {A B C} (p : Prog Op A) (f : A -> Prog Op B) (g : B -> Prog Op C) :
  bind (bind p f) g ≡ bind p (fun a => bind (f a) g).
Proof. induction p as [a|X o k IH]; cbn [bind]; [done|]. by apply vis_proper. Qed.
Lemma bind_ret_r {A} (p : Prog Op A) : bind p Ret ≡ p.
Proof. induction p as [a|X o k IH]; cbn [bind]; [done|]. by apply vis_proper. Qed.
End Equivalence.

(** ** Implementation *)

Definition Handler (Op Op' : Type -> Type) : Type := forall X, Op X -> Prog Op' X.

Fixpoint interp {Op Op' A} (h : Handler Op Op') (p : Prog Op A) : Prog Op' A :=
  match p with
  | Ret a => Ret a
  | Vis o k => bind (h _ o) (fun x => interp h (k x))
  end.

(** A sequence of calls with the runs of their implementations. *)
Inductive expands {Op Op'} (h : Handler Op Op') : list (Call Op) -> list (Call Op') -> Prop :=
| expands_nil : expands h [] []
| expands_cons c cs t1 t2 :
    runs (h _ (call_op c)) t1 (call_answer c) -> expands h cs t2 -> expands h (c :: cs) (t1 ++ t2).

Section Interp.
Context {Op Op' : Type -> Type} (h : Handler Op Op').

Lemma expands_app cs1 cs2 tr :
  expands h (cs1 ++ cs2) tr <-> exists t1 t2, tr = t1 ++ t2 /\ expands h cs1 t1 /\ expands h cs2 t2.
Proof.
  split.
  - revert tr. induction cs1 as [|c cs1 IH]; intros tr; cbn.
    + intros H. exists [], tr. split_and!; [done|constructor|done].
    + intros H. inversion H as [|c0 cs0 t1 t2 Hc Hcs]; subst. destruct (IH _ Hcs) as (u1 & u2 & -> & H1 & H2).
      exists (t1 ++ u1), u2. rewrite app_assoc. split_and!; [done|by constructor|done].
  - intros (t1 & t2 & -> & H1 & H2). induction H1; cbn; [done|].
    rewrite <- app_assoc. by constructor.
Qed.

Lemma runs_interp {A} (p : Prog Op A) tr a :
  runs (interp h p) tr a <-> exists cs, runs p cs a /\ expands h cs tr.
Proof.
  revert tr. induction p as [a'|X o k IH]; intros tr; cbn [interp].
  - split.
    + intros [-> ->]. exists []. split; [done|constructor].
    + intros (cs & [-> ->] & H). by inversion H.
  - rewrite runs_bind. setoid_rewrite IH. split.
    + intros (t1 & t2 & x & -> & H1 & cs & H2 & H3).
      exists (MkCall o x :: cs). split; [by exists x, cs|]. by constructor.
    + intros (cs & (x & cs' & -> & H2) & H). inversion H; subst. eauto 10.
Qed.

Lemma interp_bind {A B} (p : Prog Op A) (f : A -> Prog Op B) :
  interp h (bind p f) ≡ bind (interp h p) (fun a => interp h (f a)).
Proof.
  induction p as [a|X o k IH]; cbn; [done|]. rewrite bind_assoc. by apply bind_proper.
Qed.
Lemma interp_trigger {X} (o : Op X) : interp h (trigger o) ≡ h X o.
Proof. apply bind_ret_r. Qed.

Lemma only_interp_on {A} (P : forall X, Op' X -> Prop) (p : Prog Op A) :
  only (fun X o => only P (h X o)) p -> only P (interp h p).
Proof. induction p as [a|X o k IH]; cbn; [done|]. intros [Ho Hk]. apply only_bind; auto. Qed.
Lemma only_interp {A} (P : forall X, Op' X -> Prop) (p : Prog Op A) :
  (forall X (o : Op X), only P (h X o)) -> only P (interp h p).
Proof. intros Hh. apply only_interp_on. induction p; cbn; auto. Qed.

(** [p] does over [Op'] what [q] does over [Op]. *)
Definition implements {A} (p : Prog Op' A) (q : Prog Op A) : Prop := p ≡ interp h q.

Lemma implements_runs {A} (p : Prog Op' A) q tr a :
  implements p q -> runs p tr a -> exists cs, runs q cs a /\ expands h cs tr.
Proof. intros H Hp. apply runs_interp. by eapply same_runs. Qed.

Lemma only_implements {A} (P : forall X, Op' X -> Prop) (p : Prog Op' A) q :
  (forall X (o : Op X), only P (h X o)) -> implements p q -> only P p.
Proof. intros Hh Hpq. eapply same_only; [exact Hpq|]. by apply only_interp. Qed.
Lemma implements_trigger {X} (o : Op X) : implements (h X o) (trigger o).
Proof. unfold implements. symmetry. apply interp_trigger. Qed.
Lemma implements_ret {A} (a : A) : implements (Ret a) (Ret a).
Proof. unfold implements. done. Qed.
Lemma implements_bind {A B} (p : Prog Op' A) q (f : A -> Prog Op' B) g :
  implements p q -> (forall a, implements (f a) (g a)) -> implements (bind p f) (bind q g).
Proof. unfold implements. intros Hp Hf. rewrite interp_bind. by apply bind_proper. Qed.
Lemma implements_and_then {E A B} (m : Async Op' E A) n (f : A -> Async Op' E B) g :
  implements m n -> (forall a, implements (f a) (g a)) -> implements (and_then m f) (and_then n g).
Proof. intros Hm Hf. apply implements_bind; [done|]. intros [a|e]; [apply Hf|apply implements_ret]. Qed.
Lemma implements_with_error {E F A} (g : E -> F) (m : Async Op' E A) n :
  implements m n -> implements (with_error g m) (with_error g n).
Proof. intros Hm. apply implements_bind; [done|]. intros a. apply implements_ret. Qed.
Lemma implements_attempt {E F A} (m : Async Op' E A) n :
  implements m n -> implements (attempt m : Async Op' F _) (attempt n).
Proof. intros Hm. apply implements_bind; [done|]. intros a. apply implements_ret. Qed.
Lemma implements_ignore {E F A} (m : Async Op' E A) n :
  implements m n -> implements (ignore m : Async Op' F _) (ignore n).
Proof. intros Hm. apply implements_bind; [done|]. intros a. apply implements_ret. Qed.
Lemma implements_effect {E A} (p : Prog Op' A) q :
  implements p q -> implements (effect p : Async Op' E A) (effect q).
Proof. intros Hm. apply implements_bind; [done|]. intros a. apply implements_ret. Qed.
Lemma implements_for_each {E A} (body : A -> Async Op' E ()) body' xs :
  (forall x, implements (body x) (body' x)) -> implements (for_each body xs) (for_each body' xs).
Proof.
  intros Hb. induction xs as [|x xs IH]; cbn; [apply implements_ret|]. by apply implements_and_then.
Qed.
Lemma implements_fold_each {E S A} (body : S -> A -> Async Op' E S) body' s xs :
  (forall s x, implements (body s x) (body' s x)) -> implements (fold_each body s xs) (fold_each body' s xs).
Proof.
  intros Hb. revert s. induction xs as [|x xs IH]; intros s; cbn; [apply implements_ret|].
  by apply implements_and_then.
Qed.
End Interp.

(** Implements a composed computation part by part: by its shape, behind a
    definition by what the definition unfolds to; a service call is implemented
    by what the handler says. *)
Ltac implement_shape :=
  lazymatch goal with
  | |- forall _, _ => intro
  | |- implements _ (and_then _ _) (and_then _ _) => apply implements_and_then
  | |- implements _ (bind _ _) (bind _ _) => apply implements_bind
  | |- implements _ (with_error _ _) (with_error _ _) => apply implements_with_error
  | |- implements _ (attempt _) (attempt _) => apply implements_attempt
  | |- implements _ (ignore _) (ignore _) => apply implements_ignore
  | |- implements _ (effect _) (effect _) => apply implements_effect
  | |- implements _ (for_each _ _) (for_each _ _) => apply implements_for_each
  | |- implements _ (fold_each _ _ _) (fold_each _ _ _) => apply implements_fold_each
  | |- implements _ (Ret _) (Ret _) => apply implements_ret
  | |- implements _ (ok _) (ok _) => apply implements_ret
  | |- implements _ (err _) (err _) => apply implements_ret
  | |- implements _ (lift _) (lift _) => apply implements_ret
  | |- implements _ (if ?b then _ else _) (if ?b then _ else _) => destruct b
  | |- implements _ (match ?x with _ => _ end) (match ?x with _ => _ end) => destruct x
  end.
Ltac implement_call :=
  match goal with
  | |- implements ?h _ ?q =>
      let q' := eval hnf in q in
      match q' with Vis ?o Ret => exact (implements_trigger h o) end
  end.
Ltac serve :=
  repeat first
    [ implement_shape | implement_call
    | apply implements_and_then | apply implements_with_error | apply implements_bind | apply implements_ret ].

(** ** Silent calls

    Questions a computation asks a timer or a token do not change the host:
    [within silent t tr] when [t] is [tr] without some of its silent calls. *)
Inductive within {Op} (silent : forall X, Op X -> bool) : list (Call Op) -> list (Call Op) -> Prop :=
| within_nil : within silent [] []
| within_keep c t tr : within silent t tr -> within silent (c :: t) (c :: tr)
| within_skip c t tr : silent _ (call_op c) = true -> within silent t tr -> within silent t (c :: tr).

Section Within.
Context {Op : Type -> Type} (silent : forall X, Op X -> bool).
Abbreviation silently := (fun X (o : Op X) => silent X o = true).

Lemma within_refl tr : within silent tr tr.
Proof. induction tr; by constructor. Qed.
Lemma within_app t1 t2 r1 r2 : within silent t1 r1 -> within silent t2 r2 -> within silent (t1 ++ t2) (r1 ++ r2).
Proof. induction 1; cbn; [done| |]; intros; constructor; auto. Qed.
Lemma within_trans t1 t2 t3 : within silent t1 t2 -> within silent t2 t3 -> within silent t1 t3.
Proof.
  intros H12 H23. revert t1 H12. induction H23 as [|c t tr _ IH|c t tr Hc _ IH]; intros t1 H12; [done| |].
  - inversion H12; subst; constructor; auto.
  - constructor; auto.
Qed.
Lemma within_elem c t tr : within silent t tr -> c ∈ t -> c ∈ tr.
Proof. induction 1; [done| |by right; auto]. intros [->|H']%elem_of_cons; [by left|right; auto]. Qed.
Lemma within_loud c t tr : within silent t tr -> silent _ (call_op c) = false -> c ∈ tr -> c ∈ t.
Proof.
  induction 1 as [|c' t tr _ IH|c' t tr Hc' _ IH]; intros Hc; [done| |];
    intros [->|Hin]%elem_of_cons; [by left|right; auto|congruence|auto].
Qed.
Lemma within_none tr : Forall (fun c => silent _ (call_op c) = true) tr -> within silent [] tr.
Proof. induction 1; by constructor. Qed.
Lemma within_behind t0 t tr :
  Forall (fun c => silent _ (call_op c) = true) t0 -> within silent t tr -> within silent t (t0 ++ tr).
Proof. intros H0 H. change t with ([] ++ t). apply within_app; [by apply within_none|done]. Qed.

(** A computation that was not cut, or was resumed behind the cut, made its
    own calls and silent ones. *)
Lemma race_at_ready `{!Awaits Op} {A} (fired : Prog Op bool) (p : Prog Op A) tr a :
  only silently fired -> runs (race_at fired p) tr (inl a) -> exists t, runs p t a /\ within silent t tr.
Proof.
  intros Hf. revert tr. induction p as [a'|X o k IH]; intros tr; cbn [race_at].
  - intros [-> [= ->]]. exists []. split; [done|constructor].
  - assert (Hstep : forall tr, runs (Vis o (fun x => race_at fired (k x))) tr (inl a) ->
      exists t, runs (Vis o k) t a /\ within silent t tr).
    { intros t (x & tr' & -> & H). apply IH in H as (t' & H & Hw). exists (MkCall o x :: t').
      split; [by exists x, t'|by constructor]. }
    destruct (awaited o); [|apply Hstep].
    rewrite runs_bind. intros (t1 & t2 & [] & -> & H1 & H); [by destruct H as [_ [=]]|].
    apply Hstep in H as (t & H & Hw). exists t. split; [done|]. apply within_behind; [|done].
    by eapply (only_runs silently).
Qed.
Lemma race_at_resumed `{!Awaits Op} {A} (fired : Prog Op bool) (p : Prog Op A) t1 rest t2 a :
  only silently fired -> runs (race_at fired p) t1 (inr rest) -> runs rest t2 a ->
  exists t, runs p t a /\ within silent t (t1 ++ t2).
Proof.
  intros Hf. revert t1. induction p as [a'|X o k IH]; intros t1; cbn [race_at]; [by intros [_ [=]]|].
  assert (Hstep : forall tr, runs (Vis o (fun x => race_at fired (k x))) tr (inr rest) -> runs rest t2 a ->
    exists t, runs (Vis o k) t a /\ within silent t (tr ++ t2)).
  { intros t (x & tr' & -> & H) Hrest. apply (IH x _ H) in Hrest as (t' & Hr & Hw).
    exists (MkCall o x :: t'). split; [by exists x, t'|by constructor]. }
  destruct (awaited o); [|apply Hstep].
  rewrite runs_bind. intros (u1 & u2 & [] & -> & H1 & H) Hrest.
  - destruct H as [-> [= ->]]. exists t2. split; [done|]. rewrite app_nil_r. apply within_behind; [|apply within_refl].
    by eapply (only_runs silently).
  - apply Hstep in H as (t & H & Hw); [|done]. exists t. split; [done|]. rewrite <- app_assoc.
    apply within_behind; [|done]. by eapply (only_runs silently).
Qed.

(** The same of a race that may cut everywhere. *)
Lemma race_everywhere {A} (fired : Prog Op bool) (p : Prog Op A) :
  race fired p ≡ @race_at Op (fun _ _ => true) A fired p.
Proof.
  induction p as [a|X o k IH]; cbn [race race_at awaited]; [done|]. apply bind_proper; [done|].
  intros []; [done|]. by apply vis_proper.
Qed.
Lemma race_ready {A} (fired : Prog Op bool) (p : Prog Op A) tr a :
  only silently fired -> runs (race fired p) tr (inl a) -> exists t, runs p t a /\ within silent t tr.
Proof. intros Hf H. rewrite race_everywhere in H. by eapply race_at_ready. Qed.
Lemma race_resumed_within {A} (fired : Prog Op bool) (p : Prog Op A) t1 rest t2 a :
  only silently fired -> runs (race fired p) t1 (inr rest) -> runs rest t2 a ->
  exists t, runs p t a /\ within silent t (t1 ++ t2).
Proof. intros Hf H. rewrite race_everywhere in H. by eapply race_at_resumed. Qed.
End Within.

(** A race that nothing cuts is the computation. *)
Lemma race_at_never {Op A} `{!Awaits Op} (p : Prog Op A) :
  race_at (Ret false) p ≡ bind p (fun a => Ret (inl a)).
Proof. induction p as [a|X o k IH]; cbn; [done|]. destruct (awaited o); by apply vis_proper. Qed.
