(* ===== verification/Monitor.v ===== *)
(** Monitored runs: a ghost state follows the calls of a computation, says
    which calls it requires not to happen and which answers it assumes, and a
    weakest precondition over trees proves that every run obeys it.

    The precondition has a postcondition for results and one for cuts: what
    holds where [race_at] may suspend the computation. *)
From S2P Require Import Prelude Async.

#[local] Open Scope async_scope.

Record Monitor (Op : Type -> Type) (S : Type) := {
  allowed : S -> forall X, Op X -> Prop;      (** the calls permitted in a state *)
  plausible : S -> forall X, Op X -> X -> Prop; (** the answers assumed of the environment *)
  after_call : S -> forall X, Op X -> X -> S
}.
Arguments allowed {_ _} _ _ {_} _.
Arguments plausible {_ _} _ _ {_} _ _.
Arguments after_call {_ _} _ _ {_} _ _.

Section Monitored.
Context {Op : Type -> Type} {S : Type} (m : Monitor Op S) `{!Awaits Op}.

(** On traces: answers as assumed, calls as permitted, the final state. *)
Fixpoint assumed (s : S) (tr : list (Call Op)) : Prop :=
  match tr with
  | [] => True
  | c :: rest => plausible m s (call_op c) (call_answer c)
                 /\ assumed (after_call m s (call_op c) (call_answer c)) rest
  end.
Fixpoint obeys (s : S) (tr : list (Call Op)) : Prop :=
  match tr with
  | [] => True
  | c :: rest => allowed m s (call_op c) /\ obeys (after_call m s (call_op c) (call_answer c)) rest
  end.
Definition final (s : S) (tr : list (Call Op)) : S :=
  fold_left (fun s c => after_call m s (call_op c) (call_answer c)) tr s.

Fixpoint wp {A} (p : Prog Op A) (R : A -> S -> Prop) (C : S -> Prop) (s : S) : Prop :=
  match p with
  | Ret a => R a s
  | Vis o k => allowed m s o /\ (awaited o = true -> C s) /\
      forall x, plausible m s o x -> wp (k x) R C (after_call m s o x)
  end.

Lemma wp_sound {A} (p : Prog Op A) R C s tr a :
  wp p R C s -> runs p tr a -> assumed s tr -> obeys s tr /\ R a (final s tr).
Proof.
  revert s tr. induction p as [a'|X o k IH]; intros s tr; cbn [wp runs].
  - intros HR [-> ->] _. done.
  - intros (Ho & _ & Hk) (x & tr' & -> & Hr) [Hx Ht]. cbn in *.
    destruct (IH x _ _ (Hk x Hx) Hr Ht). done.
Qed.

Lemma wp_mono {A} (p : Prog Op A) (R R' : A -> S -> Prop) (C C' : S -> Prop) s :
  (forall a s, R a s -> R' a s) -> (forall s, C s -> C' s) -> wp p R C s -> wp p R' C' s.
Proof.
  intros HR HC. revert s. induction p as [a'|X o k IH]; intros s; cbn [wp]; [auto|].
  intros (Ho & Hc & Hk). split_and!; auto.
Qed.

Lemma wp_bind {A B} (p : Prog Op A) (f : A -> Prog Op B) R C s :
  wp p (fun a s => wp (f a) R C s) C s -> wp (bind p f) R C s.
Proof.
  revert s. induction p as [a'|X o k IH]; intros s; cbn [wp bind]; [done|].
  intros (Ho & Hc & Hk). split_and!; auto.
Qed.
Lemma wp_and_then {E A B} (p : Async Op E A) (f : A -> Async Op E B) R C s :
  wp p (fun r s => match r with Ok a => wp (f a) R C s | Err e => R (Err e) s end) C s ->
  wp (and_then p f) R C s.
Proof.
  intros H. apply wp_bind. eapply wp_mono; [|done|exact H]. by intros [a|e] s'.
Qed.

Lemma wp_trigger {X} (o : Op X) (R : X -> S -> Prop) C s :
  allowed m s o -> (awaited o = true -> C s) -> (forall x, plausible m s o x -> R x (after_call m s o x)) ->
  wp (trigger o) R C s.
Proof. done. Qed.

(** A loop keeps an invariant of its state and the ghost state. *)
Lemma wp_fold_each {E B A} (body : B -> A -> Async Op E B) (I : B -> S -> Prop) (R : Result E B -> S -> Prop) C xs b s :
  (forall b x s, I b s ->
     wp (body b x) (fun r s' => match r with Ok b' => I b' s' | Err e => R (Err e) s' end) C s) ->
  (forall b s, I b s -> R (Ok b) s) -> I b s -> wp (fold_each body b xs) R C s.
Proof.
  intros Hbody HR. revert b s. induction xs as [|x xs IH]; intros b s Hb; [by apply HR|].
  apply wp_and_then. eapply wp_mono; [|done|by apply Hbody]. by intros [b'|e] s'; [apply IH|].
Qed.

(** A question that the ghost state ignores. *)
Definition inert {A} (q : Prog Op A) : Prop :=
  forall (R : A -> S -> Prop) (C : S -> Prop) s, C s -> (forall a, R a s) -> wp q R C s.

(** The suspended rest satisfies at the cut what the whole did before. *)
Lemma wp_race_at {A} (fired : Prog Op bool) (p : Prog Op A)
  (Rp : A -> S -> Prop) (Cp : S -> Prop) (R : A + Prog Op A -> S -> Prop) (C : S -> Prop) s :
  inert fired -> wp p Rp Cp s ->
  (forall a s, Rp a s -> R (inl a) s) ->
  (forall rest s, Cp s -> wp rest Rp Cp s -> R (inr rest) s) ->
  (forall s, Cp s -> C s) ->
  wp (race_at fired p) R C s.
Proof.
  intros Hf Hp HR Hcut HC. revert s Hp. induction p as [a'|X o k IH]; intros s; cbn [wp race_at]; [auto|].
  intros (Ho & Hc & Hk).
  assert (Hvis : wp (Vis o (fun x => race_at fired (k x))) R C s) by (cbn [wp]; split_and!; auto).
  destruct (awaited o) eqn:Ha; [|exact Hvis].
  apply wp_bind, Hf; [auto|]. intros [|]; [|exact Hvis].
  cbn [wp]. apply Hcut; [auto|]. cbn [wp]. rewrite Ha. done.
Qed.
End Monitored.
Arguments inert {_ _} _ {_ _} _.
