(* ===== verification/Attempts.v ===== *)
(** Computations that are cut inside a call.

    Where one signature of effects implements another, a deadline or a
    cancellation may cut the implementing computation in the middle of a call of
    the implemented one.  The implemented computation is then said to try that
    call: its attempts are the calls it completed and, at each cut, the call the
    cut interrupted.  [follows p q] says that every run of [p], its cuts
    included, is a sequence of attempts of [q], each completed call carried out
    in full and each interrupted one in part. *)
From S2P Require Import Prelude Async Interp Monitor.

#[local] Open Scope async_scope.

(** ** Suspension *)

(** [p] may be cut behind the calls [tr]: it awaits another one. *)
Fixpoint cuts {Op} `{!Awaits Op} {A} (p : Prog Op A) (tr : list (Call Op)) : Prop :=
  match p with
  | Ret _ => False
  | Vis o k =>
      (tr = [] /\ awaited o = true) \/ (exists x tr', tr = MkCall o x :: tr' /\ cuts (k x) tr')
  end.

Section Cuts.
Context {Op : Type -> Type} `{!Awaits Op}.

Lemma cuts_bind {A B} (p : Prog Op A) (f : A -> Prog Op B) tr :
  cuts (bind p f) tr -> cuts p tr \/ exists t1 t2 a, tr = t1 ++ t2 /\ runs p t1 a /\ cuts (f a) t2.
Proof.
  revert tr. induction p as [a|X o k IH]; intros tr; cbn [bind cuts].
  - intros H. right. by exists [], tr, a.
  - intros [H|(x & t & -> & H)]; [by left; left|].
    apply IH in H as [H|(t1 & t2 & a & -> & H1 & H2)]; [left; right; by exists x, t|].
    right. exists (MkCall o x :: t1), t2, a. split_and!; [done|by exists x, t1|done].
Qed.
Lemma cuts_and_then {E A B} (m : Async Op E A) (f : A -> Async Op E B) tr :
  cuts (and_then m f) tr -> cuts m tr \/ exists t1 t2 a, tr = t1 ++ t2 /\ runs m t1 (Ok a) /\ cuts (f a) t2.
Proof. intros [H|(t1 & t2 & [a|e] & -> & H1 & H2)]%cuts_bind; [by left|right; eauto 10|done]. Qed.
Lemma same_cuts {A} (p q : Prog Op A) tr : p ≡ q -> cuts p tr -> cuts q tr.
Proof.
  revert q tr. induction p as [a|X o k IH]; intros q tr Hq; [by rewrite Hq|].
  destruct Hq as (k' & -> & Hk). intros [H|(x & t & -> & H)]; [by left|right].
  exists x, t. split; [done|]. exact (IH x _ _ (Hk x) H).
Qed.
Lemma never_cut {A} (p : Prog Op A) tr : only (fun X o => awaited o = false) p -> ~ cuts p tr.
Proof.
  revert tr. induction p as [a|X o k IH]; intros tr; [by intros _ []|].
  intros [Ho Hk] [[_ H]|(x & t & -> & H)]; [congruence|].
  by eapply IH.
Qed.

Lemma only_cuts {A} P (p : Prog Op A) tr : only P p -> cuts p tr -> Forall (fun c => P _ (call_op c)) tr.
Proof.
  revert tr. induction p as [a|X o k IH]; intros tr; [by intros _ []|].
  intros [Ho Hk] [[-> _]|(x & t & -> & H)]; [constructor|]. constructor; [done|]. by eapply IH.
Qed.

(** Cuts of a computation that is raced, by the race or by another one around it. *)
Context (silent : forall X, Op X -> bool).
Abbreviation silently := (fun X (o : Op X) => silent X o = true).
Lemma race_cut {A} (fired : Prog Op bool) (p : Prog Op A) tr rest :
  only silently fired -> runs (race_at fired p) tr (inr rest) -> exists t, cuts p t /\ within silent t tr.
Proof.
  intros Hf. revert tr. induction p as [a|X o k IH]; intros tr; cbn [race_at]; [by intros [_ [=]]|].
  assert (Hstep : forall tr, runs (Vis o (fun x => race_at fired (k x))) tr (inr rest) ->
    exists t, cuts (Vis o k) t /\ within silent t tr).
  { intros t (x & tr' & -> & H). apply IH in H as (t' & H & Hw). exists (MkCall o x :: t').
    split; [right; by exists x, t'|by constructor]. }
  destruct (awaited o) eqn:Ho; [|apply Hstep].
  rewrite runs_bind. intros (t1 & t2 & b & -> & H1 & H).
  assert (Forall (fun c => silent _ (call_op c) = true) t1) as Hs by by eapply (only_runs silently).
  destruct b.
  - destruct H as [-> _]. exists []. rewrite app_nil_r. split; [by left|by apply within_none].
  - apply Hstep in H as (t & H & Hw). exists t. split; [done|]. by apply within_behind.
Qed.
Lemma cuts_race {A} (fired : Prog Op bool) (p : Prog Op A) tr :
  only silently fired -> only (fun X o => awaited o = false) fired ->
  cuts (race_at fired p) tr -> exists t, cuts p t /\ within silent t tr.
Proof.
  intros Hf Hna. revert tr. induction p as [a|X o k IH]; intros tr; cbn [race_at]; [done|].
  assert (Hstep : forall tr, cuts (Vis o (fun x => race_at fired (k x))) tr ->
    exists t, cuts (Vis o k) t /\ within silent t tr).
  { intros t [[-> H]|(x & tr' & -> & H)]; [exists []; split; [by left|constructor]|].
    apply IH in H as (t' & H & Hw). exists (MkCall o x :: t'). split; [right; by exists x, t'|by constructor]. }
  destruct (awaited o) eqn:Ho; [|apply Hstep].
  intros [H|(t1 & t2 & b & -> & H1 & H)]%cuts_bind; [by apply never_cut in H|].
  destruct b; [done|]. apply Hstep in H as (t & H & Hw). exists t. split; [done|].
  apply within_behind; [by eapply (only_runs silently)|done].
Qed.
End Cuts.

(** ** Attempts *)

(** A question to a timer or a token, with its answers no and yes. *)
Class Questions (Op : Type -> Type) : Type := asks : forall X, Op X -> option (X * X).
Arguments asks {_ _ _} _.

Inductive Attempt (Op : Type -> Type) : Type :=
| Whole (c : Call Op)
| Part (X : Type) (o : Op X).
Arguments Whole {_} _.
Arguments Part {_ _} _.

Section Attempts.
Context {Op : Type -> Type} `{!Awaits Op} `{!Questions Op}.

(** The call a computation makes when its questions are answered no. *)
Fixpoint next_call {A} (p : Prog Op A) : option {X & Op X} :=
  match p with
  | Ret _ => None
  | Vis o k => match asks o with Some (no, _) => next_call (k no) | None => Some (existT _ o) end
  end.

(** Runs in which a question that is answered yes may interrupt the call it was
    asked in front of. *)
Fixpoint tries {A} (p : Prog Op A) (ats : list (Attempt Op)) (a : A) : Prop :=
  match p with
  | Ret a' => ats = [] /\ a = a'
  | Vis o k =>
      (exists x ats', ats = Whole (MkCall o x) :: ats' /\ tries (k x) ats' a) \/
      (exists no yes X (o' : Op X) ats', asks o = Some (no, yes) /\ next_call (k no) = Some (existT X o') /\
         ats = Part o' :: ats' /\ tries (k yes) ats' a)
  end.
(** The attempts of a computation that is cut from outside, the last one at the
    call it awaits. *)
Fixpoint stops {A} (p : Prog Op A) (ats : list (Attempt Op)) : Prop :=
  match p with
  | Ret _ => False
  | Vis o k =>
      (awaited o = true /\ ats = [Part o]) \/
      (exists x ats', ats = Whole (MkCall o x) :: ats' /\ stops (k x) ats') \/
      (exists no yes X (o' : Op X) ats', asks o = Some (no, yes) /\ next_call (k no) = Some (existT X o') /\
         ats = Part o' :: ats' /\ stops (k yes) ats')
  end.

Lemma runs_tries {A} (p : Prog Op A) cs a : runs p cs a -> tries p (Whole <$> cs) a.
Proof.
  revert cs. induction p as [a'|X o k IH]; intros cs; [by intros [-> ->]|].
  intros (x & cs' & -> & H). left. exists x, (Whole <$> cs'). split; [done|by apply IH].
Qed.

Lemma next_call_bind {A B} (p : Prog Op A) (f : A -> Prog Op B) o :
  next_call p = Some o -> next_call (bind p f) = Some o.
Proof.
  induction p as [a|X o' k IH]; cbn [next_call bind]; [done|]. destruct (asks o') as [[no yes]|]; [apply IH|done].
Qed.
Lemma tries_bind {A B} (p : Prog Op A) (f : A -> Prog Op B) a1 a2 a b :
  tries p a1 a -> tries (f a) a2 b -> tries (bind p f) (a1 ++ a2) b.
Proof.
  intros Hp Hf. revert a1 Hp. induction p as [a'|X o k IH]; intros a1; [by intros [-> ->]|].
  intros [(x & ats & -> & H)|(no & yes & Y & o' & ats & Ho & Hn & -> & H)]; [left|right].
  - exists x, (ats ++ a2). auto.
  - exists no, yes, Y, o', (ats ++ a2). split_and!; [done|by apply next_call_bind|done|auto].
Qed.
Lemma tries_and_then {E A B} (m : Async Op E A) (f : A -> Async Op E B) a1 a2 a r :
  tries m a1 (Ok a) -> tries (f a) a2 r -> tries (and_then m f) (a1 ++ a2) r.
Proof. intros Hm Hf. by eapply tries_bind. Qed.
Lemma stops_bind {A B} (p : Prog Op A) (f : A -> Prog Op B) ats : stops p ats -> stops (bind p f) ats.
Proof.
  revert ats. induction p as [a'|X o k IH]; intros ats; [done|].
  intros [H|[(x & ats' & -> & H)|(no & yes & Y & o' & ats' & Ho & Hn & -> & H)]]; [by left|right; left|right; right].
  - exists x, ats'. auto.
  - exists no, yes, Y, o', ats'. split_and!; [done|by apply next_call_bind|done|auto].
Qed.
Lemma stops_behind {A B} (p : Prog Op A) (f : A -> Prog Op B) a1 a2 a :
  tries p a1 a -> stops (f a) a2 -> stops (bind p f) (a1 ++ a2).
Proof.
  intros Hp Hf. revert a1 Hp. induction p as [a'|X o k IH]; intros a1; [by intros [-> ->]|].
  intros [(x & ats & -> & H)|(no & yes & Y & o' & ats & Ho & Hn & -> & H)]; right; [left|right].
  - exists x, (ats ++ a2). auto.
  - exists no, yes, Y, o', (ats ++ a2). split_and!; [done|by apply next_call_bind|done|auto].
Qed.
End Attempts.

(** ** Attempts of an implemented computation *)

(** The calls [t] of the implementation behind the attempts: a completed call is
    a run of its implementation, an interrupted one was cut inside it; questions
    leave nothing. *)
Fixpoint explains {Op Op'} `{!Questions Op} `{!Awaits Op'} (h : Handler Op Op')
    (ats : list (Attempt Op)) (t : list (Call Op')) : Prop :=
  match ats with
  | [] => t = []
  | Whole c :: rest =>
      match asks (call_op c) with
      | Some _ => explains h rest t
      | None => exists t1 t2, t = t1 ++ t2 /\ runs (h _ (call_op c)) t1 (call_answer c) /\ explains h rest t2
      end
  | Part o :: rest => exists t1 t2, t = t1 ++ t2 /\ cuts (h _ o) t1 /\ explains h rest t2
  end.

Section Follows.
Context {Op Op' : Type -> Type} `{!Awaits Op} `{!Questions Op} `{!Awaits Op'} (h : Handler Op Op').
Context (silent : forall X, Op' X -> bool).
Abbreviation silently := (fun X (o : Op' X) => silent X o = true).
(** Questions are not awaited, and what is not awaited is implemented without
    awaiting. *)
Context (questions_ready : forall X (o : Op X), is_Some (asks o) -> awaited o = false).
Context (ready_calls : forall X (o : Op X), awaited o = false -> only (fun Y (o' : Op' Y) => awaited o' = false) (h X o)).

Lemma explains_app a1 a2 t1 t2 : explains h a1 t1 -> explains h a2 t2 -> explains h (a1 ++ a2) (t1 ++ t2).
Proof.
  intros H1 H2. revert t1 H1. induction a1 as [|[c|X o] a1 IH]; intros t; cbn [explains app]; [by intros ->| |].
  - destruct (asks (call_op c)); [apply IH|]. intros (u1 & u2 & -> & Hr & H). exists u1, (u2 ++ t2).
    rewrite app_assoc. auto.
  - intros (u1 & u2 & -> & Hr & H). exists u1, (u2 ++ t2). rewrite app_assoc. auto.
Qed.
Lemma explains_cons at_ ats ats' t :
  (forall t, explains h ats t -> explains h ats' t) -> explains h (at_ :: ats) t -> explains h (at_ :: ats') t.
Proof.
  intros H. destruct at_ as [c|X o]; cbn [explains]; [destruct (asks (call_op c)); [apply H|]|];
    intros (t1 & t2 & -> & Hr & Hs); exists t1, t2; auto.
Qed.

(** A completed call was carried out; every call was made for an attempt. *)
Lemma explains_made X (o : Op X) x ats t :
  asks o = None -> explains h ats t -> Whole (MkCall o x) ∈ ats ->
  exists u, runs (h X o) u x /\ forall c, c ∈ u -> c ∈ t.
Proof.
  intros Ho. revert t. induction ats as [|at_ ats IH]; intros t He; [by intros ?%not_elem_of_nil|].
  intros [<-|Hin]%elem_of_cons.
  - cbn [explains call_op call_type call_answer] in He. rewrite Ho in He. destruct He as (t1 & t2 & -> & Hr & _).
    exists t1. split; [done|]. intros c Hc. apply elem_of_app. by left.
  - destruct at_ as [c|Y o']; cbn [explains] in He; [destruct (asks (call_op c)); [by eapply IH|]|];
      destruct He as (t1 & t2 & -> & _ & He); destruct (IH _ He Hin) as (u & Hu & Hsub); exists u;
      (split; [done|]); intros c' Hc'; apply elem_of_app; right; auto.
Qed.
Lemma explains_origin c ats t :
  explains h ats t -> c ∈ t ->
  exists X (o : Op X) u, c ∈ u /\
    ((exists x, Whole (MkCall o x) ∈ ats /\ runs (h X o) u x) \/ (Part o ∈ ats /\ cuts (h X o) u)).
Proof.
  revert t. induction ats as [|at_ ats IH]; intros t He; [rewrite He; by intros ?%not_elem_of_nil|].
  assert (Hrest : forall t, explains h ats t -> c ∈ t -> exists X (o : Op X) u, c ∈ u /\
    ((exists x, Whole (MkCall o x) ∈ at_ :: ats /\ runs (h X o) u x) \/ (Part o ∈ at_ :: ats /\ cuts (h X o) u))).
  { intros t' He' Hin. destruct (IH _ He' Hin) as (X & o & u & Hu & H). exists X, o, u. split; [done|].
    destruct H as [(x & H & Hr)|[H Hr]]; [left; exists x|right]; (split; [by right|done]). }
  destruct at_ as [[X o x]|Y o]; cbn [explains call_op call_type call_answer] in He; [destruct (asks o); [by eapply Hrest|]|];
    destruct He as (t1 & t2 & -> & Hr & He); intros [Hin|Hin]%elem_of_app; try (by eapply Hrest).
  - exists X, o, t1. split; [done|]. left. exists x. split; [by left|done].
  - exists Y, o, t1. split; [done|]. right. split; [by left|done].
Qed.

Definition plain X (o : Op X) : Prop := asks o = None.
Lemma explains_expands cs t : Forall (fun c => plain _ (call_op c)) cs -> expands h cs t -> explains h (Whole <$> cs) t.
Proof.
  intros Hcs He. induction He as [|c cs t1 t2 H _ IH]; [done|].
  apply Forall_cons in Hcs as [Hc Hcs]. cbn [fmap list_fmap explains]. rewrite Hc. exists t1, t2. auto.
Qed.

Definition follows {A} (p : Prog Op' A) (q : Prog Op A) : Prop :=
  (forall tr a, runs p tr a -> exists ats t, tries q ats a /\ explains h ats t /\ within silent t tr) /\
  (forall tr, cuts p tr -> exists ats t, stops q ats /\ explains h ats t /\ within silent t tr).

Lemma follows_ret {A} (a : A) : follows (Ret a) (Ret a).
Proof. split; [|done]. intros tr a' [-> ->]. exists [], []. split_and!; [done|done|constructor]. Qed.

Lemma interp_cuts {A} (q : Prog Op A) tr :
  only plain q -> cuts (interp h q) tr -> exists ats, stops q ats /\ explains h ats tr.
Proof.
  revert tr. induction q as [a|X o k IH]; intros tr; [done|]. intros [Ho Hk]. cbn [interp].
  intros [H|(t1 & t2 & x & -> & H1 & H2)]%cuts_bind.
  - exists [Part o]. split; [|exists tr, []; by rewrite app_nil_r].
    left. split; [|done]. destruct (awaited o) eqn:Ha; [done|]. by destruct (never_cut _ _ (ready_calls X o Ha) H).
  - destruct (IH x t2 (Hk x) H2) as (ats & Hs & He). exists (Whole (MkCall o x) :: ats).
    split; [right; left; by exists x, ats|]. cbn [explains call_op call_type call_answer]. rewrite Ho. eauto 10.
Qed.

Lemma follows_implements {A} (p : Prog Op' A) q : only plain q -> implements h p q -> follows p q.
Proof.
  intros Hq Hp. split.
  - intros tr a (cs & Hcs & He)%(implements_runs h _ _ _ _ Hp). exists (Whole <$> cs), tr.
    split_and!; [by apply runs_tries| |apply within_refl]. apply explains_expands; [|done]. by eapply only_runs.
  - intros tr H. apply (same_cuts _ _ _ Hp) in H. apply interp_cuts in H as (ats & Hs & He); [|done].
    exists ats, tr. split_and!; [done|done|apply within_refl].
Qed.

Lemma follows_bind {A B} (p : Prog Op' A) q (f : A -> Prog Op' B) g :
  follows p q -> (forall a, follows (f a) (g a)) -> follows (bind p f) (bind q g).
Proof.
  intros [Hp1 Hp2] Hf. split.
  - intros tr b (t1 & t2 & a & -> & H1 & H2)%runs_bind.
    apply Hp1 in H1 as (a1 & u1 & Ha1 & He1 & Hw1). apply Hf in H2 as (a2 & u2 & Ha2 & He2 & Hw2).
    exists (a1 ++ a2), (u1 ++ u2). split_and!; [by eapply tries_bind|by apply explains_app|by apply within_app].
  - intros tr [H|(t1 & t2 & a & -> & H1 & H2)]%cuts_bind.
    + apply Hp2 in H as (ats & t & Ha & He & Hw). exists ats, t. split_and!; [by apply stops_bind|done|done].
    + apply Hp1 in H1 as (a1 & u1 & Ha1 & He1 & Hw1). apply (proj2 (Hf a)) in H2 as (a2 & u2 & Ha2 & He2 & Hw2).
      exists (a1 ++ a2), (u1 ++ u2). split_and!; [by eapply stops_behind|by apply explains_app|by apply within_app].
Qed.
Lemma follows_and_then {E A B} (m : Async Op' E A) n (f : A -> Async Op' E B) g :
  follows m n -> (forall a, follows (f a) (g a)) -> follows (and_then m f) (and_then n g).
Proof. intros Hm Hf. apply follows_bind; [done|]. intros [a|e]; [apply Hf|apply follows_ret]. Qed.

(** ** Races *)

Section Race.
Context (question : Op bool) (Hquestion : asks question = Some (false, true)).

Lemma next_call_race {A} (q : Prog Op A) : next_call (race_at (trigger question) q) = next_call q.
Proof.
  induction q as [a|X o k IH]; cbn [race_at next_call]; [done|]. destruct (awaited o) eqn:Ha; cbn [bind trigger next_call].
  - rewrite Hquestion. cbn [next_call bind]. destruct (asks o) as [[no yes]|] eqn:Hq; [|done].
    rewrite (questions_ready X o) in Ha; [done|by eexists].
  - destruct (asks o) as [[no yes]|]; [apply IH|done].
Qed.

Definition no : Attempt Op := Whole (MkCall question false).
Lemma explains_no ats t : explains h ats t -> explains h (no :: ats) t.
Proof. intros H. cbn [explains no call_op call_type]. by rewrite Hquestion. Qed.

(** One step of the raced computation: awaited calls are asked for first. *)
Lemma race_tries_step {A} X (o : Op X) (k : X -> Prog Op A) ats r :
  tries (Vis o (fun x => race_at (trigger question) (k x))) ats r ->
  exists ats', tries (race_at (trigger question) (Vis o k)) ats' r /\ forall t, explains h ats t -> explains h ats' t.
Proof.
  intros H. cbn [race_at]. destruct (awaited o); [|by exists ats]. exists (no :: ats).
  split; [left; by exists false, ats|apply explains_no].
Qed.
Lemma race_stops_step {A} X (o : Op X) (k : X -> Prog Op A) ats :
  stops (Vis o (fun x => race_at (trigger question) (k x))) ats ->
  exists ats', stops (race_at (trigger question) (Vis o k)) ats' /\ forall t, explains h ats t -> explains h ats' t.
Proof.
  intros H. cbn [race_at]. destruct (awaited o); [|by exists ats]. exists (no :: ats).
  split; [right; left; by exists false, ats|apply explains_no].
Qed.

Definition refines (ats ats' : list (Attempt Op)) : Prop := forall t, explains h ats t -> explains h ats' t.
Lemma race_tries {A} (q : Prog Op A) ats a :
  tries q ats a -> exists ats', tries (race_at (trigger question) q) ats' (inl a) /\ refines ats ats'.
Proof.
  revert ats. induction q as [a'|X o k IH]; intros ats.
  - intros [-> ->]. exists []; split; [done|by intros t].
  - intros [(x & ats1 & -> & H)|(n & y & Y & o' & ats1 & Hq & Hn & -> & H)];
      apply IH in H as (ats' & H & Href).
    + destruct (race_tries_step X o k (Whole (MkCall o x) :: ats') (inl a)) as (ats2 & H2 & Href2);
        [left; by exists x, ats'|].
      exists ats2. split; [done|]. intros t Ht. by apply Href2, (explains_cons _ _ _ _ Href).
    + destruct (race_tries_step X o k (Part o' :: ats') (inl a)) as (ats2 & H2 & Href2).
      { right. exists n, y, Y, o', ats'. split_and!; [done|by rewrite next_call_race|done|done]. }
      exists ats2. split; [done|]. intros t Ht. by apply Href2, (explains_cons _ _ _ _ Href).
Qed.

(** What stops [q] interrupts it in the race, or stops the race from outside. *)
Lemma race_interrupted {A} (q : Prog Op A) ats :
  stops q ats -> exists ats' rest, tries (race_at (trigger question) q) ats' (inr rest) /\ refines ats ats'.
Proof.
  revert ats. induction q as [a'|X o k IH]; intros ats; [done|].
  intros [[Ha ->]|[(x & ats1 & -> & H)|(n & y & Y & o' & ats1 & Hq & Hn & -> & H)]].
  - exists [Part o], (Vis o k). split; [|by intros t]. cbn [race_at]. rewrite Ha. right.
    exists false, true, X, o, []. split_and!; [done| |done|done]. cbn [next_call bind].
    destruct (asks o) as [[n y]|] eqn:Hq; [|done]. rewrite (questions_ready X o) in Ha; [done|by eexists].
  - apply IH in H as (ats' & rest & H & Href).
    destruct (race_tries_step X o k (Whole (MkCall o x) :: ats') (inr rest)) as (ats2 & H2 & Href2);
      [left; by exists x, ats'|].
    exists ats2, rest. split; [done|]. intros t Ht. by apply Href2, (explains_cons _ _ _ _ Href).
  - apply IH in H as (ats' & rest & H & Href).
    destruct (race_tries_step X o k (Part o' :: ats') (inr rest)) as (ats2 & H2 & Href2).
    { right. exists n, y, Y, o', ats'. split_and!; [done|by rewrite next_call_race|done|done]. }
    exists ats2, rest. split; [done|]. intros t Ht. by apply Href2, (explains_cons _ _ _ _ Href).
Qed.
Lemma race_stops {A} (q : Prog Op A) ats :
  stops q ats -> exists ats', stops (race_at (trigger question) q) ats' /\ refines ats ats'.
Proof.
  revert ats. induction q as [a'|X o k IH]; intros ats; [done|].
  intros [[Ha ->]|[(x & ats1 & -> & H)|(n & y & Y & o' & ats1 & Hq & Hn & -> & H)]].
  - destruct (race_stops_step X o k [Part o]) as (ats2 & H2 & Href2); [by left|by exists ats2].
  - apply IH in H as (ats' & H & Href).
    destruct (race_stops_step X o k (Whole (MkCall o x) :: ats')) as (ats2 & H2 & Href2);
      [right; left; by exists x, ats'|].
    exists ats2. split; [done|]. intros t Ht. by apply Href2, (explains_cons _ _ _ _ Href).
  - apply IH in H as (ats' & H & Href).
    destruct (race_stops_step X o k (Part o' :: ats')) as (ats2 & H2 & Href2).
    { right. right. exists n, y, Y, o', ats'. split_and!; [done|by rewrite next_call_race|done|done]. }
    exists ats2. split; [done|]. intros t Ht. by apply Href2, (explains_cons _ _ _ _ Href).
Qed.

(** A race that drops what it cut. *)
Lemma follows_raced {A B} (fired : Prog Op' bool) (p : Prog Op' A) (q : Prog Op A)
    (f : A + Prog Op' A -> Prog Op' B) (g : A + Prog Op A -> Prog Op B) :
  only silently fired -> only (fun X o => awaited o = false) fired -> follows p q ->
  (forall a, follows (f (inl a)) (g (inl a))) -> (forall rest rest', follows (f (inr rest)) (g (inr rest'))) ->
  follows (bind (race_at fired p) f) (bind (race_at (trigger question) q) g).
Proof.
  intros Hf Hna [Hp1 Hp2] Hl Hr.
  assert (Hraced : forall tr raced, runs (race_at fired p) tr raced ->
    exists ats t raced', tries (race_at (trigger question) q) ats raced' /\ explains h ats t /\ within silent t tr /\
      follows (f raced) (g raced')).
  { intros tr [a|rest] H.
    - apply (race_at_ready silent) in H as (u & (ats & t & Ha & He & Hw)%Hp1 & Hu); [|done].
      apply race_tries in Ha as (ats' & Ha & Href). exists ats', t, (inl a).
      split_and!; [done|by apply Href|by eapply within_trans|apply Hl].
    - apply (race_cut silent) in H as (u & (ats & t & Ha & He & Hw)%Hp2 & Hu); [|done].
      apply race_interrupted in Ha as (ats' & rest' & Ha & Href). exists ats', t, (inr rest').
      split_and!; [done|by apply Href|by eapply within_trans|apply Hr]. }
  split.
  - intros tr b (t1 & t2 & raced & -> & (a1 & u1 & raced' & Ha1 & He1 & Hw1 & Hfg)%Hraced & H2)%runs_bind.
    apply Hfg in H2 as (a2 & u2 & Ha2 & He2 & Hw2). exists (a1 ++ a2), (u1 ++ u2).
    split_and!; [by eapply tries_bind|by apply explains_app|by apply within_app].
  - intros tr [H|(t1 & t2 & raced & -> & (a1 & u1 & raced' & Ha1 & He1 & Hw1 & Hfg)%Hraced & H2)]%cuts_bind.
    + apply (cuts_race silent) in H as (u & (ats & t & Ha & He & Hw)%Hp2 & Hu); [|done..].
      apply race_stops in Ha as (ats' & Ha & Href). exists ats', t.
      split_and!; [by apply stops_bind|by apply Href|by eapply within_trans].
    + apply (proj2 Hfg) in H2 as (a2 & u2 & Ha2 & He2 & Hw2). exists (a1 ++ a2), (u1 ++ u2).
      split_and!; [by eapply stops_behind|by apply explains_app|by apply within_app].
Qed.
End Race.
End Follows.
Arguments plain {_ _} _ _.

(** ** Monitored attempts

    An interrupted call had to be permitted and leaves the ghost state as it
    was. *)
Section Monitored.
Context {Op : Type -> Type} {S : Type} (m : Monitor Op S) `{!Awaits Op} `{!Questions Op}.
Context (questions_inert : forall s X (o : Op X) no yes, asks o = Some (no, yes) ->
  (plausible m s o no /\ after_call m s o no = s) /\ (plausible m s o yes /\ after_call m s o yes = s)).

Fixpoint assumed_attempts (s : S) (ats : list (Attempt Op)) : Prop :=
  match ats with
  | [] => True
  | Whole c :: rest => plausible m s (call_op c) (call_answer c)
                       /\ assumed_attempts (after_call m s (call_op c) (call_answer c)) rest
  | Part _ :: rest => assumed_attempts s rest
  end.
Fixpoint obeys_attempts (s : S) (ats : list (Attempt Op)) : Prop :=
  match ats with
  | [] => True
  | Whole c :: rest => allowed m s (call_op c) /\ obeys_attempts (after_call m s (call_op c) (call_answer c)) rest
  | Part o :: rest => allowed m s o /\ obeys_attempts s rest
  end.
Fixpoint final_attempts (s : S) (ats : list (Attempt Op)) : S :=
  match ats with
  | [] => s
  | Whole c :: rest => final_attempts (after_call m s (call_op c) (call_answer c)) rest
  | Part _ :: rest => final_attempts s rest
  end.

Lemma wp_next_call {A} (p : Prog Op A) R C s X (o : Op X) :
  wp m p R C s -> next_call p = Some (existT X o) -> allowed m s o.
Proof.
  revert s. induction p as [a|Y o' k IH]; intros s; cbn [wp next_call]; [done|].
  intros (Ho & _ & Hk). destruct (asks o') as [[no yes]|] eqn:Hq.
  - destruct (questions_inert s Y o' no yes Hq) as [[Hp Hs] _]. intros Hn. eapply IH; [|exact Hn].
    rewrite <- Hs. by apply Hk.
  - intros Hn. apply (f_equal (fun z => match z with Some c => allowed m s (projT2 c) | None => True end)) in Hn.
    cbn in Hn. by rewrite <- Hn.
Qed.

Lemma wp_tries {A} (p : Prog Op A) R C s ats a :
  wp m p R C s -> tries p ats a -> assumed_attempts s ats -> obeys_attempts s ats /\ R a (final_attempts s ats).
Proof.
  revert s ats. induction p as [a'|X o k IH]; intros s ats Hwp; [by intros [-> ->]|].
  intros [(x & ats' & -> & H)|(no & yes & Y & o' & ats' & Hq & Hn & -> & H)].
  - intros [Hx Ha]. destruct Hwp as (Ho & _ & Hk). destruct (IH x _ _ (Hk x Hx) H Ha). done.
  - intros Ha. destruct Hwp as (Ho & _ & Hk). destruct (questions_inert s X o no yes Hq) as [[Hp1 Hs1] [Hp2 Hs2]].
    specialize (Hk yes Hp2) as Hy. rewrite Hs2 in Hy. destruct (IH yes _ _ Hy H Ha) as [Hob HR].
    specialize (Hk no Hp1). rewrite Hs1 in Hk. pose proof (wp_next_call _ _ _ _ _ _ Hk Hn). done.
Qed.

(** A call changed what holds at the end and not before, and what a permitted
    call keeps holds from the call that brought it. *)
Lemma attempts_turned (P : S -> bool) s ats :
  obeys_attempts s ats -> P s = false -> P (final_attempts s ats) = true ->
  exists s' c, Whole c ∈ ats /\ allowed m s' (call_op c) /\ P s' = false /\
    P (after_call m s' (call_op c) (call_answer c)) = true.
Proof.
  revert s. induction ats as [|[c|X o] ats IH]; intros s; cbn [obeys_attempts final_attempts]; [congruence| |];
    intros [Ho Hob] Hs Hf.
  - destruct (P (after_call m s (call_op c) (call_answer c))) eqn:Hc; [exists s, c; split; [by left|done]|].
    destruct (IH _ Hob Hc Hf) as (s' & c' & Hin & H). exists s', c'. split; [by right|done].
  - destruct (IH _ Hob Hs Hf) as (s' & c' & Hin & H). exists s', c'. split; [by right|done].
Qed.
Lemma attempts_invariant (P : S -> Prop) s ats :
  (forall s c, allowed m s (call_op c) -> P s -> P (after_call m s (call_op c) (call_answer c))) ->
  P s -> obeys_attempts s ats -> P (final_attempts s ats).
Proof.
  intros Hkeep. revert s. induction ats as [|[c|X o] ats IH]; intros s; cbn [obeys_attempts final_attempts]; [done| |];
    intros Hs [Ho Hob]; auto.
Qed.
Lemma attempts_kept (P : S -> Prop) s ats c :
  (forall s c, allowed m s (call_op c) -> P s -> P (after_call m s (call_op c) (call_answer c))) ->
  (forall s, allowed m s (call_op c) -> P (after_call m s (call_op c) (call_answer c))) ->
  Whole c ∈ ats -> obeys_attempts s ats -> P (final_attempts s ats).
Proof.
  intros Hkeep Hbring. revert s. induction ats as [|[c'|X o] ats IH]; intros s; [by intros ?%not_elem_of_nil| |];
    cbn [obeys_attempts final_attempts]; intros [Heq|Hin]%elem_of_cons [Ho Hob]; try done; [|by apply IH..].
  injection Heq as ->. by apply attempts_invariant; auto.
Qed.
End Monitored.
