(* ===== verification/Ports.v ===== *)
(** The ports between core and runtime (core/src/ports, core/src/error.rs):
    the data that crosses them, the [RuntimeReporter] and [RuntimeExecutor]
    interfaces as type classes over the world their methods run in, and the
    default method bodies. *)
From S2P Require Import Prelude Text Protocol Async.

#[local] Open Scope async_scope.

(** ** Errors *)

Record RuntimeExecutionError := { ree_code : string; ree_message : string }.
#[global] Instance RuntimeExecutionError_eq_dec : EqDecision RuntimeExecutionError.
Proof. solve_decision. Defined.

Definition new_error (code message : string) : RuntimeExecutionError :=
  {| ree_code := code; ree_message := message |}.
Definition reporting (message : string) : RuntimeExecutionError :=
  new_error "runtime_reporting_failed" message.
Definition invalid_command (message : string) : RuntimeExecutionError :=
  new_error "invalid_runtime_command" message.
Definition unsupported_command (message : string) : RuntimeExecutionError :=
  new_error "unsupported_runtime_command" message.

(** A transport error of the HTTP client, by the questions the agent asks it. *)
Record TransportError := {
  is_connect : bool; is_timeout : bool; is_request : bool; is_body : bool;
  te_text : string
}.

Inductive CoreError :=
| InvalidConfiguration (message : string)
| Api (error : TransportError)
| CommandNotClaimable
| CommandTerminalConflict (detail : string)
| ReportRejected (status : N) (detail : string)
| InvalidReportAcknowledgement (detail : string)
| Runtime (error : RuntimeExecutionError).

(** Display texts ([thiserror]). *)
Definition core_error_text (e : CoreError) : string :=
  match e with
  | InvalidConfiguration m => "invalid agent configuration: " +:+ m
  | Api t => "control-plane API request failed: " +:+ te_text t
  | CommandNotClaimable => "control-plane command is no longer claimable"
  | CommandTerminalConflict m =>
      "control-plane command already reached incompatible terminal state: " +:+ m
  | ReportRejected s d =>
      "control-plane rejected report with HTTP " +:+ pretty s +:+ ": " +:+ d
  | InvalidReportAcknowledgement m => "control-plane report acknowledgement is invalid: " +:+ m
  | Runtime e => "runtime execution failed: " +:+ ree_message e
  end.

Definition stops_report_delivery (e : CoreError) : bool :=
  match e with
  | CommandTerminalConflict _ | ReportRejected _ _ | InvalidReportAcknowledgement _ => true
  | _ => false
  end.

(** ** Secrets *)

Record SecretString := MkSecret { secret_expose : string }.
(** [Debug] of a secret prints a constant. *)
Definition secret_debug (_ : SecretString) : string := "[REDACTED]".
Record RepositoryCredential := { rc_username : string; rc_token : SecretString }.

(** [UnavailableRepositoryCredentialProvider::credential]. *)
Definition unavailable_credential (access : RepositoryAccess)
  : Result RuntimeExecutionError (option RepositoryCredential) :=
  match access with
  | Public => Ok None
  | TemporaryCredential => Err (new_error "repository_credential_unavailable"
      "private repository checkout requires a connected control-plane credential lease")
  end.

(** ** Data *)

Record CommandOutput := { co_result : Value }.
Definition default_output : CommandOutput := {| co_result := Null |}.
Definition with_result (v : Value) : CommandOutput := {| co_result := v |}.

Record RuntimeOrphan := {
  or_container_id : string; or_project_id : option Uuid; or_reason : string }.
Record RuntimeStaleRoute := {
  sr_path : string; sr_project_id : Uuid; sr_deployment_id : option Uuid }.
Record RuntimeStaleImage := {
  si_image_id : string; si_project_id : option Uuid; si_deployment_id : option Uuid }.
Record RuntimeCompatibilityIssue := {
  ci_container_id : string; ci_project_id : Uuid; ci_deployment_id : Uuid; ci_reason : string }.
Record RuntimeWorkload := {
  wl_container_id : string; wl_project_id : Uuid; wl_deployment_id : Uuid; wl_status : string }.
Record RuntimeHealthSnapshot := {
  hs_workload : RuntimeWorkload; hs_ready : bool; hs_reason : option string }.
Record RuntimeCapacity := {
  active_workloads : option N;
  stopped_workloads : option N;
  maximum_active_workloads : option N;
  active_builds : option N;
  maximum_concurrent_builds : option N
}.
Record RuntimeReconciliationReport := {
  inspected_containers : N;
  cleaned_workspaces : N;
  reclaimed_image_bytes : N;
  workloads : list RuntimeWorkload;
  orphans : list RuntimeOrphan;
  stale_routes : list RuntimeStaleRoute;
  stale_images : list RuntimeStaleImage;
  reattached_log_followers : N;
  recovered_execution_records : N;
  compatibility_issues : list RuntimeCompatibilityIssue
}.
Definition default_report : RuntimeReconciliationReport :=
  {| inspected_containers := 0; cleaned_workspaces := 0; reclaimed_image_bytes := 0;
     workloads := []; orphans := []; stale_routes := []; stale_images := [];
     reattached_log_followers := 0; recovered_execution_records := 0;
     compatibility_issues := [] |}.
Definition default_capacity : RuntimeCapacity :=
  {| active_workloads := None; stopped_workloads := None; maximum_active_workloads := None;
     active_builds := None; maximum_concurrent_builds := None |}.

(** A float is held as the JSON value it is reported as. *)
Record NodeTelemetry := {
  nt_hostname : option string;
  nt_uptime_seconds : option N;
  nt_cpu_total : option N;
  nt_cpu_load_1m : option Value;
  nt_memory_total_bytes : option N;
  nt_memory_available_bytes : option N;
  nt_disk_total_bytes : option N;
  nt_disk_available_bytes : option N;
  nt_workspace_used_bytes : option N;
  nt_runtime_operational : option bool;
  nt_runtime_dependencies : Value
}.
Definition default_telemetry : NodeTelemetry :=
  {| nt_hostname := None; nt_uptime_seconds := None; nt_cpu_total := None; nt_cpu_load_1m := None;
     nt_memory_total_bytes := None; nt_memory_available_bytes := None; nt_disk_total_bytes := None;
     nt_disk_available_bytes := None; nt_workspace_used_bytes := None;
     nt_runtime_operational := None; nt_runtime_dependencies := Null |}.

(** [zip] of both options, then a saturating subtraction. *)
Definition available_workload_slots (c : RuntimeCapacity) : option N :=
  match maximum_active_workloads c, active_workloads c with
  | Some maximum, Some active => Some (maximum - active)%N
  | _, _ => None
  end.

Record RuntimePreflightCheck := {
  pc_name : string; pc_fatal : bool; pc_ready : bool; pc_detail : string }.
Record RuntimePreflightReport := { checks : list RuntimePreflightCheck }.
Definition has_fatal_failure (r : RuntimePreflightReport) : bool :=
  existsb (fun c => pc_fatal c && negb (pc_ready c)) (checks r).

(** ** Requests *)

Record InspectProjectRequest := {
  iq_command_id : Uuid; iq_payload : InspectProjectPayload;
  iq_credential : option RepositoryCredential }.
Record DeployProjectRequest := {
  dq_command_id : Uuid; dq_project_id : Uuid; dq_deployment_id : Uuid;
  dq_payload : DeployProjectPayload; dq_credential : option RepositoryCredential }.
Record WorkloadLifecycleRequest := {
  lq_command_id : Uuid; lq_project_id : Uuid; lq_deployment_id : Uuid }.
Record ReconcileWorkloadRequest := {
  rq_project_id : Uuid; rq_deployment_id : Uuid; rq_desired_state : DesiredWorkloadState;
  rq_actions : list ReconcileWorkloadAction;
  rq_reporter_factory : bool  (** whether a reporter factory was supplied *) }.
Record CleanupRuntimeRequest := {
  cq_command_id : Uuid; cq_approved : bool; cq_targets : list RuntimeCleanupTarget }.

(** ** Interfaces *)

(** The clock, and the cancellation token of the command that is running. *)
Class Ambient (Op : Type -> Type) : Type := {
  now_utc : Prog Op Z;
  is_cancelled : Prog Op bool
}.

Class RuntimeReporter (Op : Type -> Type) : Type := {
  report_event : DeploymentEvent -> Async Op RuntimeExecutionError ();
  report_log : DeploymentLog -> Async Op RuntimeExecutionError ();
  report_flush : Async Op RuntimeExecutionError ();
  mark_deployment_committed : CommandOutput -> Prog Op ();
  deployment_committed : Prog Op bool;
  committed_output : Prog Op (option CommandOutput)
}.

Class RuntimeExecutor (Op : Type -> Type) : Type := {
  preflight : Async Op RuntimeExecutionError RuntimePreflightReport;
  reconcile : Async Op RuntimeExecutionError RuntimeReconciliationReport;
  recover : bool (* whether a reporter factory was supplied *) ->
    Async Op RuntimeExecutionError RuntimeReconciliationReport;
  health_snapshot : Async Op RuntimeExecutionError (list RuntimeHealthSnapshot);
  node_telemetry : Async Op RuntimeExecutionError NodeTelemetry;
  shutdown : Async Op RuntimeExecutionError ();
  capacity : Async Op RuntimeExecutionError RuntimeCapacity;
  inspect_project : InspectProjectRequest -> Async Op RuntimeExecutionError CommandOutput;
  deploy_project : DeployProjectRequest -> Async Op RuntimeExecutionError CommandOutput;
  restart_project : WorkloadLifecycleRequest -> Async Op RuntimeExecutionError CommandOutput;
  stop_project : WorkloadLifecycleRequest -> Async Op RuntimeExecutionError CommandOutput;
  sleep_project : WorkloadLifecycleRequest -> Async Op RuntimeExecutionError CommandOutput;
  wake_project : WorkloadLifecycleRequest -> Async Op RuntimeExecutionError CommandOutput;
  health_check : WorkloadLifecycleRequest -> Async Op RuntimeExecutionError CommandOutput;
  refresh_route : WorkloadLifecycleRequest -> Async Op RuntimeExecutionError CommandOutput;
  reconcile_workload : ReconcileWorkloadRequest -> Async Op RuntimeExecutionError CommandOutput;
  cleanup_runtime : CleanupRuntimeRequest -> Async Op RuntimeExecutionError CommandOutput
}.

(** The trait's default bodies, which an executor that does not override an
    operation answers with. *)
Section Defaults.
Context {Op : Type -> Type}.
Definition default_preflight : Async Op RuntimeExecutionError RuntimePreflightReport :=
  ok {| checks := [] |}.
Definition default_reconcile : Async Op RuntimeExecutionError RuntimeReconciliationReport :=
  ok default_report.
Definition default_recover (self_reconcile : Async Op RuntimeExecutionError RuntimeReconciliationReport)
  (_ : bool) := self_reconcile.
Definition default_health_snapshot : Async Op RuntimeExecutionError (list RuntimeHealthSnapshot) :=
  ok [].
Definition default_node_telemetry : Async Op RuntimeExecutionError NodeTelemetry :=
  ok default_telemetry.
Definition default_shutdown : Async Op RuntimeExecutionError () := ok ().
Definition default_capacity_query : Async Op RuntimeExecutionError RuntimeCapacity :=
  ok default_capacity.
Definition unsupported (what : string) : Async Op RuntimeExecutionError CommandOutput :=
  err (unsupported_command ("runtime does not support " +:+ what)).
Definition default_inspect_project (_ : InspectProjectRequest) := unsupported "project inspection".
Definition default_deploy_project (_ : DeployProjectRequest) := unsupported "project deployment".
Definition default_restart_project (_ : WorkloadLifecycleRequest) := unsupported "project restart".
Definition default_stop_project (_ : WorkloadLifecycleRequest) := unsupported "project stop".
Definition default_sleep_project (_ : WorkloadLifecycleRequest) := unsupported "project sleep".
Definition default_wake_project (_ : WorkloadLifecycleRequest) := unsupported "project wake".
Definition default_health_check (_ : WorkloadLifecycleRequest) :=
  unsupported "explicit health checks".
Definition default_refresh_route (_ : WorkloadLifecycleRequest) := unsupported "route refresh".
Definition default_reconcile_workload (_ : ReconcileWorkloadRequest) :=
  unsupported "workload reconciliation".
Definition default_cleanup_runtime (_ : CleanupRuntimeRequest) := unsupported "approved cleanup".
End Defaults.

(** The provider of repository credentials (core/src/ports/repository.rs) and
    the node's shared maintenance state. *)
Class RepositoryCredentialProvider (Op : Type -> Type) : Type :=
  credential : Uuid -> RepositoryAccess -> Async Op RuntimeExecutionError (option RepositoryCredential).

(** ** The noop executor (runtime/src/executor/noop.rs)

    It reports one event and one log line and changes nothing else. *)
Section Noop.
Context {Op : Type -> Type} `{!Ambient Op} `{!RuntimeReporter Op}.

Definition execute_noop : Async Op RuntimeExecutionError CommandOutput :=
  now <~ now_utc ;;
  report_event {| ev_type := "runtime.noop.completed"; ev_level := Info;
    ev_message := "Noop runtime completed command without host changes.";
    ev_metadata := Object [("executor", Str "noop")]; ev_occurred_at := now |} ;;;
  report_log {| log_stream := System;
    log_message := "Foundation mode: no Docker, Caddy, or Railpack operation executed.";
    log_recorded_at := now |} ;;;
  ok default_output.

#[export] Instance NoopRuntimeExecutor : RuntimeExecutor Op := {
  preflight := default_preflight;
  reconcile := default_reconcile;
  recover := default_recover default_reconcile;
  health_snapshot := default_health_snapshot;
  node_telemetry := default_node_telemetry;
  shutdown := default_shutdown;
  capacity := default_capacity_query;
  inspect_project := fun _ => execute_noop;
  deploy_project := fun _ => execute_noop;
  restart_project := default_restart_project;
  stop_project := default_stop_project;
  sleep_project := default_sleep_project;
  wake_project := default_wake_project;
  health_check := default_health_check;
  refresh_route := default_refresh_route;
  reconcile_workload := default_reconcile_workload;
  cleanup_runtime := default_cleanup_runtime
}.
End Noop.
