(* ===== verification/NodeState.v ===== *)
(** The node's maintenance state (core/src/node_state.rs), the scheduler's
    counters (core/src/scheduler/metrics.rs) and the command status helper
    (core/src/commands/lifecycle.rs). *)
From S2P Require Import Prelude Text Protocol.

Inductive NodeLifecycleState := Active | Draining | Drained | Maintenance.
#[global] Instance NodeLifecycleState_eq_dec : EqDecision NodeLifecycleState.
Proof. solve_decision. Defined.

(** The state lives in an [AtomicU8]. *)
Definition state_as_u8 (s : NodeLifecycleState) : N :=
  match s with Active => 0 | Draining => 1 | Drained => 2 | Maintenance => 3 end.
Definition state_from_u8 (v : N) : NodeLifecycleState :=
  match v with 1%N => Draining | 2%N => Drained | 3%N => Maintenance | _ => Active end.

Record NodeLifecycle := { lifecycle_u8 : N }.
#[global] Instance NodeLifecycle_eq_dec : EqDecision NodeLifecycle. Proof. solve_decision. Defined.
Definition with_state (s : NodeLifecycleState) : NodeLifecycle := {| lifecycle_u8 := state_as_u8 s |}.
Definition new_lifecycle : NodeLifecycle := with_state Active.
Definition lifecycle_state (l : NodeLifecycle) : NodeLifecycleState := state_from_u8 (lifecycle_u8 l).
Definition lifecycle_set (_ : NodeLifecycle) (s : NodeLifecycleState) : NodeLifecycle :=
  {| lifecycle_u8 := state_as_u8 s |}.
Definition accepts_workload_commands (l : NodeLifecycle) : bool :=
  bool_decide (lifecycle_state l = Active).

Definition from_desired (d : DesiredNodeLifecycleState) : NodeLifecycleState :=
  match d with
  | DesiredActive => Active | DesiredDraining => Draining
  | DesiredDrained => Drained | DesiredMaintenance => Maintenance
  end.

Lemma lifecycle_state_set l s : lifecycle_state (lifecycle_set l s) = s.
Proof. by destruct s. Qed.
Lemma lifecycle_state_with s : lifecycle_state (with_state s) = s.
Proof. by destruct s. Qed.
Create HintDb lifecycle.
#[export] Hint Rewrite lifecycle_state_set lifecycle_state_with : lifecycle.

(** ** Counters, in [AtomicUsize]s *)
Record SchedulerMetrics := { m_active_commands : N; m_capacity_waiting : N }.
Definition default_metrics : SchedulerMetrics :=
  {| m_active_commands := 0; m_capacity_waiting := 0 |}.
Definition command_started (m : SchedulerMetrics) : SchedulerMetrics :=
  {| m_active_commands := wrapping_add_u64 (m_active_commands m) 1;
     m_capacity_waiting := m_capacity_waiting m |}.
Definition command_finished (m : SchedulerMetrics) : SchedulerMetrics :=
  {| m_active_commands := wrapping_sub_u64 (m_active_commands m) 1;
     m_capacity_waiting := m_capacity_waiting m |}.
Definition begin_poll (m : SchedulerMetrics) : SchedulerMetrics :=
  {| m_active_commands := m_active_commands m; m_capacity_waiting := 0 |}.
Definition command_deferred (m : SchedulerMetrics) : SchedulerMetrics :=
  {| m_active_commands := m_active_commands m;
     m_capacity_waiting := wrapping_add_u64 (m_capacity_waiting m) 1 |}.

(** ** Command status transitions *)
Definition can_transition (from to : CommandStatus) : bool :=
  match from, to with
  | Pending, Claimed | Claimed, Running | Running, Succeeded | Running, Failed
  | Pending, Cancelled | Pending, Expired => true
  | _, _ => false
  end.

Definition is_terminal (s : CommandStatus) : bool :=
  match s with Succeeded | Failed | Cancelled | Expired => true | _ => false end.

(** Paths of the status machine. *)
Inductive status_path : CommandStatus -> CommandStatus -> Prop :=
| status_here s : status_path s s
| status_next s t u : can_transition s t = true -> status_path t u -> status_path s u.

(** A terminal status is left by no transition, and a command that finished or
    failed was claimed and run first: [Running] lies on every path from
    [Pending] to [Succeeded] or [Failed]. *)
Lemma terminal_status_final s t : is_terminal s = true -> can_transition s t = false.
Proof. by destruct s, t. Qed.

Lemma outcome_passes_running s t :
  status_path s t -> (t = Succeeded \/ t = Failed) -> s <> t ->
  status_path s Running.
Proof.
  induction 1 as [s|s m t Hst Hpath IH]; [naive_solver|]. intros Ht _.
  destruct (decide (m = t)) as [->|Hne].
  - destruct s, t; try discriminate Hst; try (destruct Ht; discriminate); apply status_here.
  - eapply status_next; [exact Hst | by apply IH].
Qed.
