(* ===== verification/Scheduler.v ===== *)
(** The bounded command scheduler (core/src/scheduler/poller.rs).

    [CommandExecutions] is the struct of the source.  A tokio [JoinSet] is the
    set of spawned tasks that still run, the queue of tasks that ended and were
    not joined yet, and the next task id.  The environment ends running tasks
    in any order and with any outcome; the poller starts, joins and shuts them
    down. *)
From S2P Require Import Prelude Text Protocol NodeState.

Abbreviation TaskId := nat.
Abbreviation Token := nat.

(** What a spawned future owns: the command it works on and its token. *)
Record Work := { wk_command : AgentCommand; wk_token : Token }.

(** [Result<(Uuid, Option<Uuid>), JoinError>]. *)
Inductive TaskResult :=
| Joined (command_id : Uuid) (project_id : option Uuid)
| JoinError (cancelled : bool).

Record JoinSet := {
  running : gmap TaskId Work;
  finished : list (TaskId * TaskResult);
  next_id : TaskId
}.

Record TaskMetadata := {
  tm_command_id : Uuid;
  tm_project_id : option Uuid;
  tm_cancellation : Token;
  tm_lightweight : bool
}.

Record CommandExecutions := {
  heavy_limit : N;
  lightweight_limit : N;
  active_heavy : N;
  active_lightweight : N;
  active_projects : gset Uuid;
  metrics : SchedulerMetrics;
  task_metadata : gmap TaskId TaskMetadata;
  tasks : JoinSet
}.

Definition new_executions (limit : N) (m : SchedulerMetrics) : CommandExecutions :=
  {| heavy_limit := limit; lightweight_limit := 1; active_heavy := 0; active_lightweight := 0;
     active_projects := ∅; metrics := m; task_metadata := ∅;
     tasks := {| running := ∅; finished := []; next_id := 0 |} |}.

(** [JoinSet::len] counts running tasks and those waiting to be joined. *)
Definition executions_len (e : CommandExecutions) : nat :=
  size (running (tasks e)) + length (finished (tasks e)).

Definition is_lightweight (c : CommandType) : bool :=
  match c with
  | InspectProject | HealthCheck | RefreshRoute | DrainNode | ResumeNode => true
  | _ => false
  end.

Definition set_tasks (e : CommandExecutions) (ts : JoinSet) : CommandExecutions :=
  {| heavy_limit := heavy_limit e; lightweight_limit := lightweight_limit e;
     active_heavy := active_heavy e; active_lightweight := active_lightweight e;
     active_projects := active_projects e; metrics := metrics e;
     task_metadata := task_metadata e; tasks := ts |}.

Definition set_metrics (e : CommandExecutions) (m : SchedulerMetrics) : CommandExecutions :=
  {| heavy_limit := heavy_limit e; lightweight_limit := lightweight_limit e;
     active_heavy := active_heavy e; active_lightweight := active_lightweight e;
     active_projects := active_projects e; metrics := m;
     task_metadata := task_metadata e; tasks := tasks e |}.

Definition set_projects (e : CommandExecutions) (ps : gset Uuid) : CommandExecutions :=
  {| heavy_limit := heavy_limit e; lightweight_limit := lightweight_limit e;
     active_heavy := active_heavy e; active_lightweight := active_lightweight e;
     active_projects := ps; metrics := metrics e;
     task_metadata := task_metadata e; tasks := tasks e |}.

Definition set_metadata (e : CommandExecutions) (md : gmap TaskId TaskMetadata) : CommandExecutions :=
  {| heavy_limit := heavy_limit e; lightweight_limit := lightweight_limit e;
     active_heavy := active_heavy e; active_lightweight := active_lightweight e;
     active_projects := active_projects e; metrics := metrics e;
     task_metadata := md; tasks := tasks e |}.

(** The guard of [try_start]. *)
Definition must_defer (e : CommandExecutions) (c : AgentCommand) : bool :=
  let lightweight := is_lightweight (cmd_command_type c) in
  (lightweight && (lightweight_limit e <=? active_lightweight e)%N)
  || (negb lightweight && (heavy_limit e <=? active_heavy e)%N)
  || match cmd_project_id c with
     | Some p => bool_decide (p ∈ active_projects e)
     | None => false
     end.

Definition try_start (e : CommandExecutions) (c : AgentCommand) (token : Token)
  : bool * CommandExecutions :=
  if must_defer e c then (false, e) else
  let lightweight := is_lightweight (cmd_command_type c) in
  let id := next_id (tasks e) in
  (true,
   {| heavy_limit := heavy_limit e;
      lightweight_limit := lightweight_limit e;
      active_heavy := if lightweight then active_heavy e else (active_heavy e + 1)%N;
      active_lightweight :=
        if lightweight then (active_lightweight e + 1)%N else active_lightweight e;
      active_projects := match cmd_project_id c with
                         | Some p => {[p]} ∪ active_projects e
                         | None => active_projects e
                         end;
      metrics := command_started (metrics e);
      task_metadata :=
        <[id := {| tm_command_id := cmd_id c; tm_project_id := cmd_project_id c;
                   tm_cancellation := token; tm_lightweight := lightweight |}]>
          (task_metadata e);
      tasks := {| running := <[id := {| wk_command := c; wk_token := token |}]> (running (tasks e));
                  finished := finished (tasks e);
                  next_id := S id |} |}).

Definition release_metadata (e : CommandExecutions) (t : TaskMetadata) : CommandExecutions :=
  {| heavy_limit := heavy_limit e;
     lightweight_limit := lightweight_limit e;
     active_heavy := if tm_lightweight t then active_heavy e else (active_heavy e - 1)%N;
     active_lightweight :=
       if tm_lightweight t then (active_lightweight e - 1)%N else active_lightweight e;
     active_projects := match tm_project_id t with
                        | Some p => active_projects e ∖ {[p]}
                        | None => active_projects e
                        end;
     metrics := command_finished (metrics e);
     task_metadata := task_metadata e;
     tasks := tasks e |}.

(** [if let Some(task) = self.task_metadata.remove(&id) { self.release_metadata(task) }] *)
Definition remove_and_release (e : CommandExecutions) (id : TaskId) : CommandExecutions :=
  match task_metadata e !! id with
  | Some t => release_metadata (set_metadata e (delete id (task_metadata e))) t
  | None => e
  end.

Definition task_ids (e : CommandExecutions) (command_id : Uuid) : list TaskId :=
  (map_to_list (filter (fun '(_, t) => tm_command_id t = command_id) (task_metadata e))).*1.

Definition release_task (e : CommandExecutions) (command_id : Uuid) : CommandExecutions :=
  fold_left remove_and_release (task_ids e command_id) e.

Definition reap_one (e : CommandExecutions) (r : TaskId * TaskResult) : CommandExecutions :=
  match r.2 with
  | Joined command_id project_id =>
      release_task (match project_id with
                    | Some p => set_projects e (active_projects e ∖ {[p]})
                    | None => e
                    end) command_id
  | JoinError _ => remove_and_release e r.1
  end.

(** Takes the next ended task off the queue. *)
Definition pop_finished (e : CommandExecutions) : option ((TaskId * TaskResult) * CommandExecutions) :=
  match finished (tasks e) with
  | [] => None
  | r :: rest => Some (r, set_tasks e {| running := running (tasks e); finished := rest;
                                         next_id := next_id (tasks e) |})
  end.

(** [while let Some(result) = self.tasks.try_join_next()]: each round takes
    one task off the queue, so its length bounds the rounds. *)
Fixpoint reap_loop (fuel : nat) (e : CommandExecutions) : CommandExecutions :=
  match fuel with
  | O => e
  | S fuel' =>
      match pop_finished e with
      | None => e
      | Some (r, e') => reap_loop fuel' (reap_one e' r)
      end
  end.
Definition reap_completed (e : CommandExecutions) : CommandExecutions :=
  reap_loop (length (finished (tasks e))) e.

(** A spawned task ends: the environment's move.  A future that ran to its end
    yields the ids it captured. *)
Definition task_ends (e : CommandExecutions) (id : TaskId) (r : TaskResult) : CommandExecutions :=
  set_tasks e {| running := delete id (running (tasks e));
                 finished := finished (tasks e) ++ [(id, r)];
                 next_id := next_id (tasks e) |}.
Definition result_of_work (w : Work) (r : TaskResult) : Prop :=
  match r with
  | Joined cid pid => cid = cmd_id (wk_command w) /\ pid = cmd_project_id (wk_command w)
  | JoinError _ => True
  end.

(** ** Shutdown *)

Definition join_one (e : CommandExecutions) (r : TaskId * TaskResult) : CommandExecutions :=
  match r.2 with
  | Joined command_id _ => release_task e command_id
  | JoinError _ => remove_and_release e r.1
  end.

Fixpoint join_loop (fuel : nat) (e : CommandExecutions) : CommandExecutions :=
  match fuel with
  | O => e
  | S fuel' =>
      match pop_finished e with
      | None => e
      | Some (r, e') => join_loop fuel' (join_one e' r)
      end
  end.
Definition join_queue (e : CommandExecutions) : CommandExecutions :=
  join_loop (length (finished (tasks e))) e.

(** [wait_for_tasks] under an environment that ends tasks as [ends] says
    (ends of tasks that are not running are no events). *)
Fixpoint wait_for_tasks (e : CommandExecutions) (ends : list (TaskId * TaskResult))
  : CommandExecutions :=
  let e := join_queue e in
  match ends with
  | [] => e
  | (id, r) :: rest =>
      match running (tasks e) !! id with
      | Some _ => wait_for_tasks (task_ends e id r) rest
      | None => wait_for_tasks e rest
      end
  end.

(** [cancel_and_wait]: every token is cancelled; tasks that do not end within
    the grace period ([ends] are those that do) are aborted and joined.  Gives
    the cancelled tokens and the state left behind. *)
Definition cancel_and_wait (e : CommandExecutions) (ends : list (TaskId * TaskResult))
  : list Token * CommandExecutions :=
  let tokens := tm_cancellation <$> (map_to_list (task_metadata e)).*2 in
  let e := wait_for_tasks e ends in
  if bool_decide (running (tasks e) = ∅) then (tokens, e)
  else
    let aborted := (fun id => (id, JoinError true)) <$> (map_to_list (running (tasks e))).*1 in
    (tokens, wait_for_tasks e aborted).

(** ** The poller's loop *)

Record Poller := { p_lifecycle : NodeLifecycle; p_exec : CommandExecutions; p_next_token : Token }.

Definition set_exec (p : Poller) (e : CommandExecutions) : Poller :=
  {| p_lifecycle := p_lifecycle p; p_exec := e; p_next_token := p_next_token p |}.

(** The body of [for command in commands]. *)
Definition consider_command (p : Poller) (c : AgentCommand) : Poller :=
  if negb (bool_decide (cmd_status c = Pending)) then p
  else if negb (accepts_workload_commands (p_lifecycle p))
          && negb (match cmd_command_type c with DrainNode | ResumeNode => true | _ => false end)
  then p
  else
    let (started, e) := try_start (p_exec p) c (p_next_token p) in
    let e := if started then e else set_metrics e (command_deferred (metrics e)) in
    {| p_lifecycle := p_lifecycle p; p_exec := e; p_next_token := S (p_next_token p) |}.

Definition drain_check (p : Poller) : Poller :=
  if bool_decide (lifecycle_state (p_lifecycle p) = Draining)
     && Nat.eqb (executions_len (p_exec p)) 0
  then {| p_lifecycle := lifecycle_set (p_lifecycle p) Drained; p_exec := p_exec p;
          p_next_token := p_next_token p |}
  else p.

(** One turn of ['polling: loop]: [client] says whether a control plane is
    configured, [response] what its poll endpoint answered. *)
Definition poll_cycle {E} (client : bool) (response : Result E (list AgentCommand)) (p : Poller)
  : Poller :=
  let p := drain_check (set_exec p (reap_completed (p_exec p))) in
  if client then
    let p := set_exec p (set_metrics (p_exec p) (begin_poll (metrics (p_exec p)))) in
    match response with
    | Ok commands => fold_left consider_command commands p
    | Err _ => p
    end
  else p.
