(* ===== verification/SchedulerFacts.v ===== *)
(** Theorems about the command scheduler: the bookkeeping invariant of
    [CommandExecutions] and what it gives in every state that is reached without
    a command offered twice. *)
From S2P Require Import Prelude Text Protocol NodeState Scheduler.

(** ** Counting entries of the task table *)
Section Counting.
Context {A : Type} (P : A -> bool).
Definition count (m : gmap TaskId A) : N := N.of_nat (size (filter (fun '(_, a) => P a = true) m)).

Lemma count_insert m id a :
  m !! id = None -> count (<[id := a]> m) = (count m + (if P a then 1 else 0))%N.
Proof.
  intros Hid. unfold count. destruct (P a) eqn:E.
  - rewrite map_filter_insert_True by done.
    rewrite map_size_insert_None by (by apply map_lookup_filter_None; left). lia.
  - rewrite map_filter_insert_False by congruence.
    rewrite delete_id by done. lia.
Qed.

Lemma count_delete m id a :
  m !! id = Some a -> count (delete id m) = (count m - (if P a then 1 else 0))%N.
Proof.
  intros Hid. unfold count. rewrite map_filter_delete, map_size_delete.
  destruct (P a) eqn:E.
  - assert (filter (fun '(_, a) => P a = true) m !! id = Some a) as ->
      by (apply map_lookup_filter_Some; done).
    cbn. lia.
  - assert (filter (fun '(_, a) => P a = true) m !! id = None) as ->
      by (apply map_lookup_filter_None; right; naive_solver congruence).
    cbn. lia.
Qed.

Lemma count_pos m id a : m !! id = Some a -> P a = true -> (1 <= count m)%N.
Proof.
  intros Hid HP. unfold count.
  assert (size (filter (fun '(_, a) => P a = true) m) <> 0); [|lia].
  apply map_size_ne_0_lookup. exists id, a. by apply map_lookup_filter_Some.
Qed.
End Counting.

Lemma singleton_list {A} (l : list A) a : NoDup l -> a ∈ l -> (forall x, x ∈ l -> x = a) -> l = [a].
Proof.
  intros Hnd Ha Hall. destruct l as [|x [|y l]].
  - set_solver.
  - f_equal. apply Hall. set_solver.
  - exfalso. apply NoDup_cons in Hnd as [Hx _]. apply Hx.
    rewrite (Hall x), (Hall y) by set_solver. set_solver.
Qed.

Lemma lookup_pos_size {A} (m : gmap TaskId A) id a : m !! id = Some a -> (0 < size m)%nat.
Proof. intros H. assert (size m <> 0); [|lia]. apply map_size_ne_0_lookup. eauto. Qed.

(** ** The invariant *)

Definition describes (t : TaskMetadata) (w : Work) : Prop :=
  tm_command_id t = cmd_id (wk_command w) /\ tm_project_id t = cmd_project_id (wk_command w) /\
  tm_lightweight t = is_lightweight (cmd_command_type (wk_command w)) /\
  tm_cancellation t = wk_token w.

Definition describes_result (t : TaskMetadata) (r : TaskResult) : Prop :=
  match r with
  | Joined cid pid => tm_command_id t = cid /\ tm_project_id t = pid
  | JoinError _ => True
  end.

Definition heavy (t : TaskMetadata) : bool := negb (tm_lightweight t).

Record inv (e : CommandExecutions) : Prop := {
  inv_running id w : running (tasks e) !! id = Some w ->
    exists t, task_metadata e !! id = Some t /\ describes t w;
  inv_finished id r : (id, r) ∈ finished (tasks e) ->
    (exists t, task_metadata e !! id = Some t /\ describes_result t r) /\
    running (tasks e) !! id = None;
  inv_nodup : NoDup (finished (tasks e)).*1;
  inv_owned id t : task_metadata e !! id = Some t ->
    is_Some (running (tasks e) !! id) \/ id ∈ (finished (tasks e)).*1;
  inv_commands i j a b : task_metadata e !! i = Some a -> task_metadata e !! j = Some b ->
    tm_command_id a = tm_command_id b -> i = j;
  inv_projects i j a b p : task_metadata e !! i = Some a -> task_metadata e !! j = Some b ->
    tm_project_id a = Some p -> tm_project_id b = Some p -> i = j;
  inv_active p : p ∈ active_projects e <->
    exists id t, task_metadata e !! id = Some t /\ tm_project_id t = Some p;
  inv_heavy : active_heavy e = count heavy (task_metadata e);
  inv_light : active_lightweight e = count tm_lightweight (task_metadata e);
  inv_heavy_limit : (active_heavy e <= heavy_limit e)%N;
  inv_light_limit : (active_lightweight e <= lightweight_limit e)%N;
  inv_metric : m_active_commands (metrics e) =
    (N.of_nat (size (task_metadata e)) mod (u64_max + 1))%N;
  inv_next id t : task_metadata e !! id = Some t -> (id < next_id (tasks e))%nat
}.

Lemma inv_new limit m : m_active_commands m = 0%N -> inv (new_executions limit m).
Proof.
  intros Hm. split; cbn; try (intros; simplify_map_eq; set_solver); try done; try lia.
  constructor.
Qed.

(** No task the scheduler still tracks works on the command.  The control
    plane gives it by not offering a command again before the agent reported
    on it. *)
Definition fresh_command (e : CommandExecutions) (c : AgentCommand) : Prop :=
  forall id t, task_metadata e !! id = Some t -> tm_command_id t <> cmd_id c.

Lemma must_defer_false e c :
  must_defer e c = false ->
  (is_lightweight (cmd_command_type c) = true -> (active_lightweight e < lightweight_limit e)%N) /\
  (is_lightweight (cmd_command_type c) = false -> (active_heavy e < heavy_limit e)%N) /\
  (forall p, cmd_project_id c = Some p -> p ∉ active_projects e).
Proof.
  unfold must_defer. intros [[H1 H2]%orb_false_iff H3]%orb_false_iff. split_and!.
  - intros Hl. rewrite Hl in H1. cbn in H1. by apply N.leb_gt.
  - intros Hl. rewrite Hl in H2. cbn in H2. by apply N.leb_gt.
  - intros p Hp. rewrite Hp in H3. by apply bool_decide_eq_false in H3.
Qed.

Lemma wrapping_add_mod n :
  wrapping_add_u64 (n mod (u64_max + 1)) 1 = ((n + 1) mod (u64_max + 1))%N.
Proof. unfold wrapping_add_u64. by rewrite N.Div0.add_mod_idemp_l. Qed.

Lemma wrapping_sub_mod n :
  (1 <= n)%N -> wrapping_sub_u64 (n mod (u64_max + 1)) 1 = ((n - 1) mod (u64_max + 1))%N.
Proof.
  intros Hn. unfold wrapping_sub_u64. rewrite N.Div0.add_mod_idemp_l.
  replace (n + (u64_max + 1 - 1))%N with (n - 1 + 1 * (u64_max + 1))%N by lia.
  by rewrite N.Div0.mod_add.
Qed.

Lemma next_id_untracked e : inv e ->
  task_metadata e !! next_id (tasks e) = None /\ running (tasks e) !! next_id (tasks e) = None.
Proof.
  intros I. assert (task_metadata e !! next_id (tasks e) = None) as Hnone.
  { apply eq_None_not_Some. intros [t Ht%(inv_next _ I)]. lia. }
  split; [done|]. apply eq_None_not_Some. intros [w (t & Ht & _)%(inv_running _ I)]. congruence.
Qed.

(** A task that starts adds its project to the active ones. *)
Lemma active_insert (m : gmap TaskId TaskMetadata) id t project (active : gset Uuid) :
  m !! id = None -> tm_project_id t = project ->
  (forall p, p ∈ active <-> exists i a, m !! i = Some a /\ tm_project_id a = Some p) ->
  forall p, p ∈ match project with Some q => {[q]} ∪ active | None => active end <->
    exists i a, <[id := t]> m !! i = Some a /\ tm_project_id a = Some p.
Proof.
  intros Hnone <- Hactive p. transitivity (tm_project_id t = Some p \/ p ∈ active).
  { destruct (tm_project_id t); set_solver. }
  rewrite Hactive. split.
  - intros [Hc|(i & a & Ha & Hp)].
    + exists id, t. by rewrite lookup_insert_eq.
    + exists i, a. rewrite lookup_insert_ne by congruence. done.
  - intros (i & a & Ha & Hp). rewrite lookup_insert in Ha.
    case_decide; simplify_eq; [by left | right; eauto].
Qed.

Lemma inv_try_start e c token started e' :
  inv e -> fresh_command e c -> try_start e c token = (started, e') -> inv e'.
Proof.
  intros I Hfresh. unfold try_start. destruct (must_defer e c) eqn:Hd; [by intros [= <- <-]|].
  apply must_defer_false in Hd as (Hl & Hh & Hp). intros [= <- <-].
  destruct (next_id_untracked _ I) as [Hnone Hrnone].
  split; cbn.
  - intros id w. rewrite !lookup_insert. case_decide; [|apply (inv_running _ I)].
    intros [= <-]. eexists. split; [done|]. by split_and!.
  - intros id r Hin. destruct (inv_finished _ I id r Hin) as [(t & Ht & Hdr) Hr].
    assert (id <> next_id (tasks e)) by congruence.
    rewrite !lookup_insert_ne by done. eauto.
  - apply (inv_nodup _ I).
  - intros id t. destruct (decide (id = next_id (tasks e))) as [->|Hne].
    + intros _. left. rewrite lookup_insert_eq. eauto.
    + rewrite !lookup_insert_ne by done. apply (inv_owned _ I).
  - intros i j a b. rewrite !lookup_insert.
    repeat case_decide; simplify_eq; intros; simplify_eq/=; try done.
    + exfalso. eapply Hfresh; [done|]. congruence.
    + exfalso. eapply Hfresh; [done|]. congruence.
    + eapply (inv_commands _ I); eauto.
  - intros i j a b p. rewrite !lookup_insert.
    repeat case_decide; simplify_eq; intros; simplify_eq/=; try done.
    + exfalso. eapply Hp; [done|]. apply (inv_active _ I). eauto.
    + exfalso. eapply Hp; [done|]. apply (inv_active _ I). eauto.
    + eapply (inv_projects _ I); eauto.
  - apply (active_insert _ _ _ (cmd_project_id c)); [done|done|apply (inv_active _ I)].
  - rewrite (inv_heavy _ I), count_insert by done. unfold heavy at 4. cbn.
    destruct (is_lightweight _); cbn; lia.
  - rewrite (inv_light _ I), count_insert by done. cbn. destruct (is_lightweight _); lia.
  - pose proof (inv_heavy_limit _ I). destruct (is_lightweight _); [done|].
    specialize (Hh eq_refl). lia.
  - pose proof (inv_light_limit _ I). destruct (is_lightweight _); [|done].
    specialize (Hl eq_refl). lia.
  - rewrite (inv_metric _ I), wrapping_add_mod, map_size_insert_None by done. f_equal. lia.
  - intros id t. rewrite lookup_insert. case_decide; [lia|].
    intros Ht%(inv_next _ I). lia.
Qed.

Lemma inv_set_metrics e m :
  m_active_commands m = m_active_commands (metrics e) -> inv e -> inv (set_metrics e m).
Proof. intros Hm I. destruct I. split; cbn; try done. by rewrite Hm. Qed.

(** ** Joining a task releases exactly that task *)

Lemma task_ids_unique e id t :
  (forall i j a b, task_metadata e !! i = Some a -> task_metadata e !! j = Some b ->
     tm_command_id a = tm_command_id b -> i = j) ->
  task_metadata e !! id = Some t -> task_ids e (tm_command_id t) = [id].
Proof.
  intros Huniq Hid. unfold task_ids. apply singleton_list.
  - apply NoDup_fst_map_to_list.
  - apply list_elem_of_fmap. exists (id, t). split; [done|].
    apply elem_of_map_to_list, map_lookup_filter_Some. done.
  - intros j ((j', b) & -> & Hj)%list_elem_of_fmap.
    apply elem_of_map_to_list, map_lookup_filter_Some in Hj as [Hj Hc]. cbn.
    eapply Huniq; eauto.
Qed.

Lemma release_task_is e id t :
  inv e -> task_metadata e !! id = Some t ->
  release_task e (tm_command_id t) = remove_and_release e id.
Proof.
  intros I Ht. unfold release_task. rewrite (task_ids_unique e id t); [done| |done].
  apply (inv_commands _ I).
Qed.

(** Both joins of the source, in the reap and in the shutdown loop, come down
    to removing the joined task's own record. *)
Lemma join_one_is e e' id r :
  inv e -> pop_finished e = Some ((id, r), e') -> join_one e' (id, r) = remove_and_release e' id.
Proof.
  unfold pop_finished. intros I Hpop. destruct (finished (tasks e)) as [|x rest] eqn:Hf; [done|].
  injection Hpop as -> <-. destruct r as [cid pid|b]; [|done]. cbn.
  destruct (inv_finished _ I id (Joined cid pid)) as [(t & Ht & <- & <-) _]; [rewrite Hf; set_solver|].
  unfold release_task. rewrite (task_ids_unique _ id t); [done| |done].
  cbn. apply (inv_commands _ I).
Qed.

Lemma reap_one_is e e' id r :
  inv e -> pop_finished e = Some ((id, r), e') -> reap_one e' (id, r) = remove_and_release e' id.
Proof.
  unfold pop_finished. intros I Hpop. destruct (finished (tasks e)) as [|x rest] eqn:Hf; [done|].
  injection Hpop as -> <-. destruct r as [cid pid|b]; [|done].
  destruct (inv_finished _ I id (Joined cid pid)) as [(t & Ht & <- & <-) _]; [rewrite Hf; set_solver|].
  unfold reap_one. cbn [snd fst].
  destruct (tm_project_id t) as [p|] eqn:Hp; unfold release_task.
  - rewrite (task_ids_unique _ id t); [|cbn; apply (inv_commands _ I)|done]. cbn.
    unfold remove_and_release. cbn. rewrite Ht. unfold release_metadata. cbn. rewrite Hp.
    f_equal. set_solver.
  - rewrite (task_ids_unique _ id t); [done| |done]. cbn. apply (inv_commands _ I).
Qed.

Lemma inv_pop_release e e' id r :
  inv e -> pop_finished e = Some ((id, r), e') -> inv (remove_and_release e' id).
Proof.
  unfold pop_finished. intros I Hpop. destruct (finished (tasks e)) as [|x rest] eqn:Hf; [done|].
  injection Hpop as -> <-.
  destruct (inv_finished _ I id r) as [(t & Ht & _) Hnr]; [rewrite Hf; set_solver|].
  pose proof (inv_nodup _ I) as Hnd. rewrite Hf in Hnd. cbn in Hnd. apply NoDup_cons in Hnd as [Hni Hnd].
  unfold remove_and_release. cbn. rewrite Ht.
  split; cbn; try setoid_rewrite lookup_delete_Some.
  - intros j w Hw. destruct (inv_running _ I j w Hw) as (a & Ha & Hd).
    exists a. split; [split; [congruence|done]|done].
  - intros j r' Hin. destruct (inv_finished _ I j r') as [(a & Ha & Hd) Hr]; [rewrite Hf; set_solver|].
    split; [|done]. exists a. split; [split; [|done]|done]. intros ->. apply Hni.
    apply list_elem_of_fmap. by exists (j, r').
  - done.
  - intros j a [Hne Ha]. destruct (inv_owned _ I j a Ha) as [?|Hin]; [by left|right].
    rewrite Hf in Hin. cbn in Hin. set_solver.
  - intros i j a b [_ Ha] [_ Hb]. eapply (inv_commands _ I); eauto.
  - intros i j a b p [_ Ha] [_ Hb]. eapply (inv_projects _ I); eauto.
  - intros p. transitivity (p ∈ active_projects e /\ tm_project_id t <> Some p).
    { destruct (tm_project_id t); set_solver. }
    rewrite (inv_active _ I). split.
    + intros [(j & a & Ha & Hp) Hne]. exists j, a. repeat split; try done. congruence.
    + intros (j & a & [Hne Ha] & Hp). split; [by exists j, a|].
      intros Htp. apply Hne. eapply (inv_projects _ I); eauto.
  - rewrite (count_delete _ _ _ t) by done. rewrite (inv_heavy _ I).
    unfold heavy at 4. destruct (tm_lightweight t); cbn; lia.
  - rewrite (count_delete _ _ _ t) by done. rewrite (inv_light _ I).
    destruct (tm_lightweight t); cbn; lia.
  - pose proof (inv_heavy_limit _ I). destruct (tm_lightweight t); lia.
  - pose proof (inv_light_limit _ I). destruct (tm_lightweight t); lia.
  - pose proof (lookup_pos_size _ _ _ Ht). rewrite (inv_metric _ I), wrapping_sub_mod by lia.
    rewrite map_size_delete, Ht. cbn. f_equal. lia.
  - intros j a [_ Ha]. by eapply (inv_next _ I).
Qed.

Lemma inv_reap_loop fuel e : inv e -> inv (reap_loop fuel e).
Proof.
  revert e. induction fuel as [|fuel IH]; intros e I; [done|]. cbn.
  destruct (pop_finished e) as [[[id r] e']|] eqn:Hpop; [|done].
  apply IH. erewrite reap_one_is by done. by eapply inv_pop_release.
Qed.

Lemma inv_join_loop fuel e : inv e -> inv (join_loop fuel e).
Proof.
  revert e. induction fuel as [|fuel IH]; intros e I; [done|]. cbn.
  destruct (pop_finished e) as [[[id r] e']|] eqn:Hpop; [|done].
  apply IH. erewrite join_one_is by done. by eapply inv_pop_release.
Qed.

Lemma inv_task_ends e id w r :
  inv e -> running (tasks e) !! id = Some w -> result_of_work w r -> inv (task_ends e id r).
Proof.
  intros I Hw Hr. destruct (inv_running _ I id w Hw) as (t & Ht & Hd & Hp & _).
  assert (id ∉ (finished (tasks e)).*1) as Hni.
  { intros ([j r'] & -> & Hin)%list_elem_of_fmap. apply (inv_finished _ I) in Hin as [_ Hin].
    cbn in *. congruence. }
  destruct I as [Ir If In Io Ic Ip Ia Ih Il Ihl Ill Im Ix]. split; cbn; try done.
  - intros j v. rewrite lookup_delete_Some. intros [_ Hv]. by apply Ir.
  - intros j r' [Hin|[= -> ->]%list_elem_of_singleton]%elem_of_app.
    + destruct (If _ _ Hin) as [? Hj]. split; [done|].
      apply lookup_delete_None. by right.
    + split; [exists t; split; [done|]|apply lookup_delete_eq].
      destruct r; [|done]. destruct Hr as [-> ->]. by split.
  - rewrite fmap_app. apply NoDup_app. split_and!; [done| |apply NoDup_singleton].
    intros j Hj ->%list_elem_of_singleton. done.
  - intros j a Ha. rewrite fmap_app, elem_of_app. destruct (decide (j = id)) as [->|Hne].
    + right. right. cbn. set_solver.
    + rewrite lookup_delete_ne by done. destruct (Io j a Ha); [by left|by right; left].
Qed.

Create HintDb scheduler.
#[export] Hint Resolve inv_new inv_try_start inv_set_metrics inv_reap_loop inv_join_loop
  inv_task_ends : scheduler.

(** ** What remains after a reap *)

Lemma remove_and_release_tasks e id : tasks (remove_and_release e id) = tasks e.
Proof. unfold remove_and_release. by destruct (task_metadata e !! id). Qed.

Lemma fold_release_tasks ids e : tasks (fold_left remove_and_release ids e) = tasks e.
Proof.
  revert e. induction ids as [|i ids IH]; intros e; [done|]. cbn. rewrite IH.
  apply remove_and_release_tasks.
Qed.

Lemma reap_one_tasks e r : tasks (reap_one e r) = tasks e.
Proof.
  destruct r as [id [cid pid|b]]; cbn; [|apply remove_and_release_tasks].
  unfold release_task. rewrite fold_release_tasks. by destruct pid.
Qed.

Lemma join_one_tasks e r : tasks (join_one e r) = tasks e.
Proof.
  destruct r as [id [cid pid|b]]; cbn; [apply fold_release_tasks | apply remove_and_release_tasks].
Qed.

Lemma reap_loop_tasks e :
  finished (tasks (reap_completed e)) = [] /\
  running (tasks (reap_completed e)) = running (tasks e).
Proof.
  unfold reap_completed. remember (length (finished (tasks e))) as n eqn:Hn.
  revert e Hn. induction n as [|n IH]; intros e Hn; cbn.
  - by destruct (finished (tasks e)).
  - unfold pop_finished. destruct (finished (tasks e)) as [|r rest]; [done|].
    destruct (IH (reap_one (set_tasks e {| running := running (tasks e); finished := rest;
                                           next_id := next_id (tasks e) |}) r)) as [-> ->].
    + rewrite reap_one_tasks. cbn in *. lia.
    + split; [done|]. by rewrite reap_one_tasks.
Qed.

Lemma join_queue_tasks e :
  finished (tasks (join_queue e)) = [] /\ running (tasks (join_queue e)) = running (tasks e).
Proof.
  unfold join_queue. remember (length (finished (tasks e))) as n eqn:Hn.
  revert e Hn. induction n as [|n IH]; intros e Hn; cbn.
  - by destruct (finished (tasks e)).
  - unfold pop_finished. destruct (finished (tasks e)) as [|r rest]; [done|].
    destruct (IH (join_one (set_tasks e {| running := running (tasks e); finished := rest;
                                           next_id := next_id (tasks e) |}) r)) as [-> ->].
    + rewrite join_one_tasks. cbn in *. lia.
    + split; [done|]. by rewrite join_one_tasks.
Qed.

(** ** The poller as a transition system

    Between any two moves of the poller the environment may end a running task
    or let a running drain or resume command change the node's state. *)

Definition is_maintenance (c : CommandType) : bool :=
  match c with DrainNode | ResumeNode => true | _ => false end.

Definition runs (p : Poller) (t : CommandType) : Prop :=
  exists id w, running (tasks (p_exec p)) !! id = Some w /\ cmd_command_type (wk_command w) = t.

Definition with_lifecycle (p : Poller) (s : NodeLifecycleState) : Poller :=
  {| p_lifecycle := lifecycle_set (p_lifecycle p) s; p_exec := p_exec p;
     p_next_token := p_next_token p |}.

Inductive poller_step : option AgentCommand -> Poller -> Poller -> Prop :=
| step_task_ends p id w r :
    running (tasks (p_exec p)) !! id = Some w -> result_of_work w r ->
    poller_step None p (set_exec p (task_ends (p_exec p) id r))
| step_drain p : runs p DrainNode -> poller_step None p (with_lifecycle p Draining)
| step_resume p : runs p ResumeNode -> poller_step None p (with_lifecycle p Active)
| step_reap p : poller_step None p (set_exec p (reap_completed (p_exec p)))
| step_drain_check p :
    finished (tasks (p_exec p)) = [] -> poller_step None p (drain_check p)
| step_begin_poll p :
    poller_step None p (set_exec p (set_metrics (p_exec p) (begin_poll (metrics (p_exec p)))))
| step_consider p c : poller_step (Some c) p (consider_command p c).
Definition any_step (p p' : Poller) : Prop := exists offer, poller_step offer p p'.

(** The steps in which no command is offered that a tracked task works on
    already.  The poller does not check it: it is the control plane's part, and
    [duplicate_offer_exceeds_limit] shows what happens otherwise. *)
Definition fresh_offer (p : Poller) (offer : option AgentCommand) : Prop :=
  match offer with Some c => fresh_command (p_exec p) c | None => True end.
Definition fresh_step (p p' : Poller) : Prop := exists offer, poller_step offer p p' /\ fresh_offer p offer.

(** The poller starts with no tasks and the lifecycle the control plane asked
    for. *)
Definition initial (limit : N) (s : NodeLifecycleState) : Poller :=
  {| p_lifecycle := with_state s; p_exec := new_executions limit default_metrics;
     p_next_token := 0 |}.
Definition reachable (limit : N) (s : NodeLifecycleState) (p : Poller) : Prop :=
  rtc any_step (initial limit s) p.
Definition reachable_fresh (limit : N) (s : NodeLifecycleState) (p : Poller) : Prop :=
  rtc fresh_step (initial limit s) p.
Lemma reachable_fresh_reachable limit s p : reachable_fresh limit s p -> reachable limit s p.
Proof. apply rtc_subrel. intros p1 p2 (offer & H & _). by exists offer. Qed.
Lemma quiet_step p p' : poller_step None p p' -> fresh_step p p'.
Proof. intros H. by exists None. Qed.
Lemma offer_step p c : fresh_command (p_exec p) c -> fresh_step p (consider_command p c).
Proof. intros H. exists (Some c). split; [apply step_consider|done]. Qed.

(** A node out of service runs maintenance commands only. *)
Definition quiet (p : Poller) : Prop :=
  lifecycle_state (p_lifecycle p) = Drained \/ lifecycle_state (p_lifecycle p) = Maintenance ->
  forall id w, running (tasks (p_exec p)) !! id = Some w ->
    is_maintenance (cmd_command_type (wk_command w)) = true.

Definition poller_inv (limit : N) (p : Poller) : Prop :=
  inv (p_exec p) /\ heavy_limit (p_exec p) = limit /\ lightweight_limit (p_exec p) = 1%N /\ quiet p.

Lemma remove_and_release_limits e id :
  heavy_limit (remove_and_release e id) = heavy_limit e /\
  lightweight_limit (remove_and_release e id) = lightweight_limit e.
Proof. unfold remove_and_release. by destruct (task_metadata e !! id). Qed.

Lemma join_limits e r :
  heavy_limit (reap_one e r) = heavy_limit e /\ lightweight_limit (reap_one e r) = lightweight_limit e.
Proof.
  destruct r as [id [cid pid|b]]; cbn; [|apply remove_and_release_limits].
  unfold release_task. generalize (task_ids (match pid with
    | Some p => set_projects e (active_projects e ∖ {[p]}) | None => e end) cid). intros ids.
  assert (forall e', heavy_limit e' = heavy_limit e -> lightweight_limit e' = lightweight_limit e ->
    heavy_limit (fold_left remove_and_release ids e') = heavy_limit e /\
    lightweight_limit (fold_left remove_and_release ids e') = lightweight_limit e) as H.
  { induction ids as [|i ids IH]; intros e' H1 H2; [done|]. cbn.
    destruct (remove_and_release_limits e' i). apply IH; congruence. }
  apply H; by destruct pid.
Qed.

Lemma reap_limits e :
  heavy_limit (reap_completed e) = heavy_limit e /\
  lightweight_limit (reap_completed e) = lightweight_limit e.
Proof.
  unfold reap_completed. generalize (length (finished (tasks e))). intros n.
  revert e. induction n as [|n IH]; intros e; [done|]. cbn. unfold pop_finished.
  destruct (finished (tasks e)) as [|r rest]; [done|].
  match goal with |- context [reap_loop n ?x] => destruct (IH x) as [-> ->] end.
  match goal with |- context [reap_one ?x ?r] => exact (join_limits x r) end.
Qed.

Lemma consider_running p c id w :
  running (tasks (p_exec (consider_command p c))) !! id = Some w ->
  running (tasks (p_exec p)) !! id = Some w \/
  (wk_command w = c /\
   (lifecycle_state (p_lifecycle p) = Active \/ is_maintenance (cmd_command_type c) = true)).
Proof.
  unfold consider_command. case_bool_decide; cbn; [|by left].
  destruct (accepts_workload_commands (p_lifecycle p)) eqn:Ha; cbn.
  - apply bool_decide_eq_true in Ha.
    unfold try_start. destruct (must_defer _ _); cbn; [by left|].
    rewrite lookup_insert. case_decide; [|by left]. intros [= <-]. right. cbn. auto.
  - destruct (match cmd_command_type c with DrainNode | ResumeNode => true | _ => false end) eqn:Hm;
      cbn; [|by left].
    unfold try_start. destruct (must_defer _ _); cbn; [by left|].
    rewrite lookup_insert. case_decide; [|by left]. intros [= <-]. right. cbn. auto.
Qed.

Lemma consider_inv p c :
  fresh_command (p_exec p) c -> inv (p_exec p) ->
  inv (p_exec (consider_command p c)) /\
  heavy_limit (p_exec (consider_command p c)) = heavy_limit (p_exec p) /\
  lightweight_limit (p_exec (consider_command p c)) = lightweight_limit (p_exec p) /\
  p_lifecycle (consider_command p c) = p_lifecycle p.
Proof.
  intros Hf I. unfold consider_command. case_bool_decide; cbn; [|done].
  destruct (_ && _); [done|].
  destruct (try_start (p_exec p) c (p_next_token p)) as [started e] eqn:Hs. cbn.
  assert (heavy_limit e = heavy_limit (p_exec p) /\
    lightweight_limit e = lightweight_limit (p_exec p)) as [Hh Hl].
  { unfold try_start in Hs. destruct (must_defer _ _); by injection Hs as <- <-. }
  destruct started; split_and!; cbn; eauto with scheduler.
Qed.

Lemma fresh_step_inv limit p p' : poller_inv limit p -> fresh_step p p' -> poller_inv limit p'.
Proof.
  intros (I & Hh & Hl & Q) (offer & Hstep & Hfresh). unfold poller_inv, quiet in *. destruct Hstep; cbn.
  - split_and!; eauto with scheduler. intros Hs j v. rewrite lookup_delete_Some.
    intros [_ Hv]. eauto.
  - split_and!; try done. intros Hs. autorewrite with lifecycle in Hs. by destruct Hs.
  - split_and!; try done. intros Hs. autorewrite with lifecycle in Hs. by destruct Hs.
  - destruct (reap_limits (p_exec p)) as [-> ->], (reap_loop_tasks (p_exec p)) as [_ ->].
    split_and!; try done. by apply inv_reap_loop.
  - unfold drain_check. destruct (_ && _) eqn:E; [|done].
    apply andb_true_iff in E as [_ E%Nat.eqb_eq]. cbn. split_and!; try done.
    intros _ id w Hw. apply lookup_pos_size in Hw. unfold executions_len in E. lia.
  - split_and!; try done. by apply inv_set_metrics.
  - destruct (consider_inv p c Hfresh I) as (I' & -> & -> & ->). split_and!; try done.
    intros Hs id w Hw. apply consider_running in Hw as [Hw|[-> [Ha|Hm]]]; [eauto| |done].
    rewrite Ha in Hs. by destruct Hs.
Qed.

Lemma reachable_inv limit s p : reachable_fresh limit s p -> poller_inv limit p.
Proof.
  unfold reachable_fresh. intros H.
  assert (poller_inv limit (initial limit s)) as H0.
  { split_and!; try done. by apply inv_new. }
  revert H0. induction H as [|p1 p2 p3 Hs _ IH]; [done|]. intros H0. apply IH.
  by eapply fresh_step_inv.
Qed.

(** ** Counting running tasks against the task table *)

Lemma count_le {A B} (P : A -> bool) (Q : B -> bool) (m1 : gmap TaskId A) (m2 : gmap TaskId B) :
  (forall id a, m1 !! id = Some a -> P a = true -> exists b, m2 !! id = Some b /\ Q b = true) ->
  (count P m1 <= count Q m2)%N.
Proof.
  intros H. unfold count.
  rewrite <- (size_dom (filter (fun '(_, a) => P a = true) m1)).
  rewrite <- (size_dom (filter (fun '(_, a) => Q a = true) m2)).
  assert (forall (X Y : gset TaskId), X ⊆ Y -> (N.of_nat (size X) <= N.of_nat (size Y))%N) as Hs.
  { intros X Y HXY. apply subseteq_size in HXY. lia. }
  apply Hs. intros id (a & Ha)%elem_of_dom. apply map_lookup_filter_Some in Ha as [Ha HP].
  destruct (H id a Ha HP) as (b & Hb & HQ). apply elem_of_dom. exists b.
  by apply map_lookup_filter_Some.
Qed.

Definition heavy_work (w : Work) : bool := negb (is_lightweight (cmd_command_type (wk_command w))).
Definition light_work (w : Work) : bool := is_lightweight (cmd_command_type (wk_command w)).

Lemma running_counts e :
  inv e -> (count heavy_work (running (tasks e)) <= active_heavy e)%N /\
           (count light_work (running (tasks e)) <= active_lightweight e)%N.
Proof.
  intros I. rewrite (inv_heavy _ I), (inv_light _ I). split; apply count_le; intros id w Hw Hp;
    destruct (inv_running _ I id w Hw) as (t & Ht & _ & _ & Hl & _); exists t; split; try done;
    unfold heavy, heavy_work, light_work in *; congruence.
Qed.

Lemma idle_counts e :
  inv e -> finished (tasks e) = [] ->
  (active_heavy e <= count heavy_work (running (tasks e)))%N /\
  (active_lightweight e <= count light_work (running (tasks e)))%N.
Proof.
  intros I Hf. rewrite (inv_heavy _ I), (inv_light _ I).
  assert (forall id t, task_metadata e !! id = Some t ->
    exists w, running (tasks e) !! id = Some w /\ describes t w) as Hown.
  { intros id t Ht. destruct (inv_owned _ I id t Ht) as [[w Hw]|Hin]; [|rewrite Hf in Hin; set_solver].
    exists w. split; [done|]. destruct (inv_running _ I id w Hw) as (t' & Ht' & Hd). congruence. }
  split; apply count_le; intros id t Ht Hp; destruct (Hown id t Ht) as (w & Hw & _ & _ & Hl & _);
    exists w; split; try done; unfold heavy, heavy_work, light_work in *; congruence.
Qed.

(** ** Lifting the loop to the transition system *)

Lemma consider_steps cs p :
  NoDup (cmd_id <$> cs) ->
  (forall c, c ∈ cs -> fresh_command (p_exec p) c) ->
  rtc fresh_step p (fold_left consider_command cs p).
Proof.
  revert p. induction cs as [|c cs IH]; intros p Hnd Hfresh; [by apply rtc_refl|]. cbn.
  apply NoDup_cons in Hnd as [Hni Hnd].
  apply rtc_l with (consider_command p c); [apply offer_step, Hfresh; set_solver|].
  apply IH; [done|]. intros d Hd id t Ht.
  assert (cmd_id d <> cmd_id c) as Hdc.
  { intros He. apply Hni. rewrite <- He. by apply list_elem_of_fmap_2. }
  assert (task_metadata (p_exec p) !! id = Some t \/ tm_command_id t = cmd_id c) as [Hold|Hnew].
  { revert Ht. unfold consider_command. case_bool_decide; cbn; [|by left].
    destruct (_ && _); [by left|]. unfold try_start.
    destruct (must_defer _ _); cbn; [by left|]. rewrite lookup_insert.
    case_decide; [intros [= <-]; by right | by left]. }
  - eapply (Hfresh d); [set_solver|done].
  - congruence.
Qed.

(** ** Properties *)

(** Reaping returns every slot: once the ended tasks are joined, the slot
    counters are the number of tasks that still run and the busy projects are
    theirs, so a command is deferred exactly when the running tasks fill its
    class or one of them works on its project. *)
Theorem reap_returns_every_slot limit s p c :
  reachable_fresh limit s p ->
  let e := reap_completed (p_exec p) in
  must_defer e c = true <->
    (is_lightweight (cmd_command_type c) = true /\
       count light_work (running (tasks (p_exec p))) = 1%N) \/
    (is_lightweight (cmd_command_type c) = false /\
       count heavy_work (running (tasks (p_exec p))) = limit) \/
    (exists q id w, cmd_project_id c = Some q /\
       running (tasks (p_exec p)) !! id = Some w /\ cmd_project_id (wk_command w) = Some q).
Proof.
  intros (I & Hh & Hl & _)%reachable_inv. cbn zeta.
  destruct (reap_limits (p_exec p)) as [Hh' Hl'], (reap_loop_tasks (p_exec p)) as [Hf Hr].
  assert (inv (reap_completed (p_exec p))) as I' by (by apply inv_reap_loop).
  destruct (running_counts _ I') as [H1 H2], (idle_counts _ I' Hf) as [H3 H4].
  pose proof (inv_heavy_limit _ I'). pose proof (inv_light_limit _ I').
  rewrite Hr in *. rewrite Hh', Hl' in *.
  assert (forall q, q ∈ active_projects (reap_completed (p_exec p)) <-> exists id w,
    running (tasks (p_exec p)) !! id = Some w /\ cmd_project_id (wk_command w) = Some q) as Hq.
  { intros q. rewrite (inv_active _ I'). split.
    - intros (id & t & Ht & Hp). destruct (inv_owned _ I' id t Ht) as [[w Hw]|Hin];
        [|rewrite Hf in Hin; set_solver].
      destruct (inv_running _ I' id w Hw) as (t' & Ht' & _ & Hp' & _).
      exists id, w. rewrite <- Hr. split; [done|congruence].
    - intros (id & w & Hw & Hp). rewrite <- Hr in Hw.
      destruct (inv_running _ I' id w Hw) as (t & Ht & _ & Hp' & _).
      exists id, t. split; [done|congruence]. }
  unfold must_defer. rewrite !orb_true_iff, !andb_true_iff, !N.leb_le, negb_true_iff, Hh', Hl', Hh, Hl.
  rewrite Logic.or_assoc. apply or_iff_both; [|apply or_iff_both].
  - split; intros [? ?]; (split; [done|lia]).
  - split; intros [? ?]; (split; [done|lia]).
  - destruct (cmd_project_id c) as [q|].
    + rewrite bool_decide_eq_true, Hq. naive_solver.
    + naive_solver.
Qed.

(** A node leaves [Draining] for [Drained] only with nothing running, and
    while it is drained or in maintenance no running task is anything but a
    drain or resume command. *)
Theorem drained_node_runs_no_workload limit s p :
  reachable_fresh limit s p ->
  (lifecycle_state (p_lifecycle (drain_check p)) = Drained ->
     lifecycle_state (p_lifecycle p) = Drained \/
     (running (tasks (p_exec p)) = ∅ /\ finished (tasks (p_exec p)) = [])) /\
  (lifecycle_state (p_lifecycle p) = Drained \/ lifecycle_state (p_lifecycle p) = Maintenance ->
   forall id w, running (tasks (p_exec p)) !! id = Some w ->
     cmd_command_type (wk_command w) = DrainNode \/ cmd_command_type (wk_command w) = ResumeNode).
Proof.
  intros (I & _ & _ & Q)%reachable_inv. split.
  - unfold drain_check. destruct (_ && _) eqn:E; cbn; [|by left].
    intros _. right. apply andb_true_iff in E as [_ E%Nat.eqb_eq]. unfold executions_len in E.
    split; [apply map_size_empty_iff; lia | apply length_zero_iff_nil; lia].
  - intros Hs id w Hw. specialize (Q Hs id w Hw).
    destruct (cmd_command_type (wk_command w)); naive_solver.
Qed.

(** The loop body is an execution of the transition system: one turn of
    the poller over an answer whose commands are pairwise different and not
    already being worked on stays within the fresh steps. *)
Theorem poll_cycle_reaches {E} limit s p client (response : Result E (list AgentCommand)) :
  reachable_fresh limit s p ->
  (forall cs, response = Ok cs -> NoDup (cmd_id <$> cs) /\
     forall c, c ∈ cs -> fresh_command (reap_completed (p_exec p)) c) ->
  reachable_fresh limit s (poll_cycle client response p).
Proof.
  intros Hp Hresp. unfold reachable_fresh in *. unfold poll_cycle.
  assert (rtc fresh_step (initial limit s)
    (drain_check (set_exec p (reap_completed (p_exec p))))) as H1.
  { eapply rtc_r; [eapply rtc_r; [exact Hp | apply quiet_step, step_reap]|].
    apply quiet_step, step_drain_check. cbn. by destruct (reap_loop_tasks (p_exec p)) as [-> _]. }
  assert (p_exec (drain_check (set_exec p (reap_completed (p_exec p))))
    = reap_completed (p_exec p)) as He by (unfold drain_check; by destruct (_ && _)).
  destruct client; [|done].
  set (p1 := drain_check _) in *.
  assert (rtc fresh_step (initial limit s)
    (set_exec p1 (set_metrics (p_exec p1) (begin_poll (metrics (p_exec p1)))))) as H2
    by (eapply rtc_r; [exact H1 | apply quiet_step, step_begin_poll]).
  destruct response as [cs|]; [|done].
  destruct (Hresp cs eq_refl) as [Hnd Hfresh].
  etrans; [exact H2|]. apply consider_steps; [done|].
  intros c Hc. specialize (Hfresh c Hc). unfold fresh_command in *. cbn. by rewrite He.
Qed.

(** ** Shutdown *)

Lemma wait_running e ends :
  running (tasks (wait_for_tasks e ends)) = fold_left (fun m i => delete i m) ends.*1 (running (tasks e)) /\
  finished (tasks (wait_for_tasks e ends)) = [].
Proof.
  revert e. induction ends as [|[id r] ends IH]; intros e; cbn -[join_queue];
    destruct (join_queue_tasks e) as [Hf Hr]; [done|].
  rewrite Hr. destruct (running (tasks e) !! id) eqn:Hid.
  - destruct (IH (task_ends (join_queue e) id r)) as [-> ->]. cbn -[join_queue]. by rewrite Hr.
  - destruct (IH (join_queue e)) as [-> ->]. rewrite Hr. by rewrite delete_id.
Qed.

(** What the environment reports as a task's result is what that task's future
    computes. *)
Definition ends_agree (e : CommandExecutions) (ends : list (TaskId * TaskResult)) : Prop :=
  forall id r w, (id, r) ∈ ends -> running (tasks e) !! id = Some w -> result_of_work w r.

Lemma fold_delete_lookup {A} (ids : list TaskId) (m : gmap TaskId A) i :
  i ∈ ids \/ m !! i = None -> fold_left (fun m i => delete i m) ids m !! i = None.
Proof.
  revert m. induction ids as [|j ids IH]; intros m [H|H]; cbn; [set_solver|done| |].
  - apply IH. apply elem_of_cons in H as [->|H]; [right; apply lookup_delete_eq | by left].
  - apply IH. right. apply lookup_delete_None. by right.
Qed.

Lemma idle_inv_empty e :
  inv e -> running (tasks e) = ∅ -> finished (tasks e) = [] ->
  task_metadata e = ∅ /\ active_heavy e = 0%N /\ active_lightweight e = 0%N /\ active_projects e = ∅.
Proof.
  intros I Hr Hf.
  assert (task_metadata e = ∅) as Hm.
  { apply map_empty. intros id. apply eq_None_not_Some. intros [t Ht].
    destruct (inv_owned _ I id t Ht) as [[w Hw]|Hin];
      [rewrite Hr in Hw; by rewrite lookup_empty in Hw | rewrite Hf in Hin; set_solver]. }
  split_and!; [done| | |].
  - by rewrite (inv_heavy _ I), Hm.
  - by rewrite (inv_light _ I), Hm.
  - apply set_eq. intros p. rewrite (inv_active _ I), Hm. split; [|set_solver].
    intros (id & t & Ht & _). by rewrite lookup_empty in Ht.
Qed.

(** ** Witnesses *)

Definition sample_id (s : string) : Uuid := MkUuid s.
Definition sample_command (id : string) (t : CommandType) (project : option string) : AgentCommand :=
  {| cmd_id := sample_id id; cmd_command_type := t; cmd_status := Pending;
     cmd_project_id := sample_id <$> project; cmd_deployment_id := None; cmd_payload := Null |}.

Definition sample_answer : Result () (list AgentCommand) :=
  Ok [sample_command "c1" DeployProject (Some "p1"); sample_command "c2" DeployProject (Some "p1");
      sample_command "c3" HealthCheck (Some "p2"); sample_command "c4" StopProject (Some "p3")].
Definition sample_poller : Poller := poll_cycle true sample_answer (initial 2 Active).

Lemma sample_reachable : reachable_fresh 2 Active sample_poller.
Proof.
  apply (rtc_l _ _ (set_exec (initial 2 Active) (reap_completed (p_exec (initial 2 Active)))));
    [apply quiet_step, step_reap|].
  eapply rtc_l; [apply quiet_step, step_drain_check; reflexivity|].
  eapply rtc_l; [apply quiet_step, step_begin_poll|].
  apply consider_steps; [apply (bool_decide_unpack _); vm_compute; exact I|].
  intros c _ id t Ht. vm_compute in Ht. discriminate Ht.
Defined.

Lemma reap_returns_witness :
  must_defer (reap_completed (p_exec sample_poller)) (sample_command "c5" WakeProject (Some "p1"))
    = true.
Proof.
  apply (reap_returns_every_slot 2 Active sample_poller _ sample_reachable).
  right; left. split; vm_compute; reflexivity.
Defined.

Lemma drained_node_witness :
  lifecycle_state (p_lifecycle (initial 2 Drained)) = Drained /\
  (forall id w, running (tasks (p_exec (initial 2 Drained))) !! id = Some w ->
     cmd_command_type (wk_command w) = DrainNode \/ cmd_command_type (wk_command w) = ResumeNode).
Proof.
  split; [reflexivity|].
  exact (proj2 (drained_node_runs_no_workload 2 Drained (initial 2 Drained) (rtc_refl _ _))
    (or_introl eq_refl)).
Defined.

Lemma poll_cycle_witness :
  reachable_fresh 2 Active (poll_cycle true (Ok [sample_command "c6" ResumeNode None] : Result () _) sample_poller).
Proof.
  apply (poll_cycle_reaches 2 Active sample_poller true _ sample_reachable).
  intros cs [= <-]. split.
  - apply (bool_decide_unpack _). vm_compute. exact I.
  - intros c ->%list_elem_of_singleton id t Ht%elem_of_map_to_list Heq.
    revert Ht. vm_compute in Heq |- *. revert Heq. destruct t as [cid q k l]. cbn. intros ->.
    intros Hin. apply list_elem_of_In in Hin. cbn in Hin.
    repeat destruct Hin as [Hin|Hin]; congruence.
Defined.

(** ** A command offered twice

    The claim of a started command may still be in flight when the next poll
    offers it again.  A project-less command is then started a second time;
    joining either task releases the records of both. *)
Definition offered_twice : Poller :=
  let cleanup := sample_command "c1" CleanupRuntime None in
  let p := poll_cycle true (Ok [cleanup] : Result () _) (initial 2 Active) in
  let p := poll_cycle true (Ok [cleanup] : Result () _) p in
  let p := set_exec p (task_ends (p_exec p) 1 (Joined (sample_id "c1") None)) in
  poll_cycle true (Ok [sample_command "c2" DeployProject (Some "p1");
                       sample_command "c3" DeployProject (Some "p2")] : Result () _) p.

(** C37. With a limit of two, a cleanup command offered by two successive polls
    ends with three heavy tasks running: the first duplicate to end gives back
    both slots, the remaining one is no longer counted, and shutdown does not
    cancel its token. *)
Theorem duplicate_offer_exceeds_limit :
  heavy_limit (p_exec offered_twice) = 2%N /\
  count heavy_work (running (tasks (p_exec offered_twice))) = 3%N /\
  active_heavy (p_exec offered_twice) = 2%N /\
  (exists w, running (tasks (p_exec offered_twice)) !! 0 = Some w /\
     wk_token w ∉ (cancel_and_wait (p_exec offered_twice) []).1).
Proof.
  split_and!; try (vm_compute; reflexivity).
  eexists. split; [vm_compute; reflexivity|].
  apply (bool_decide_unpack _). vm_compute. exact I.
Qed.
