(* ===== verification/SchedulerSlots.v ===== *)
(** The slots of the scheduler in every state that the poller reaches, also when
    the control plane offers a command twice: what the counters count, what a
    shutdown leaves, and how much more holds when no command is offered again
    while a task works on it. *)
From S2P Require Import Prelude Text Protocol NodeState Scheduler SchedulerFacts.

(** ** The counters count the table of tasks *)

Record slots (e : CommandExecutions) : Prop := {
  slots_heavy : active_heavy e = count heavy (task_metadata e);
  slots_light : active_lightweight e = count tm_lightweight (task_metadata e);
  slots_heavy_limit : (active_heavy e <= heavy_limit e)%N;
  slots_light_limit : (active_lightweight e <= lightweight_limit e)%N;
  slots_metric : m_active_commands (metrics e) = (N.of_nat (size (task_metadata e)) mod (u64_max + 1))%N;
  slots_active p : p ∈ active_projects e -> exists id t, task_metadata e !! id = Some t /\ tm_project_id t = Some p
}.

(** An entry of the table belongs to a task that works on its command, or that
    ended with it and was not joined. *)
Definition owned (e : CommandExecutions) : Prop := forall id t, task_metadata e !! id = Some t ->
  (exists w, running (tasks e) !! id = Some w /\ describes t w) \/
  (exists r, (id, r) ∈ finished (tasks e) /\ describes_result t r).
Record numbered (e : CommandExecutions) : Prop := {
  nb_metadata id t : task_metadata e !! id = Some t -> id < next_id (tasks e);
  nb_running id w : running (tasks e) !! id = Some w -> id < next_id (tasks e);
  nb_finished id r : (id, r) ∈ finished (tasks e) -> id < next_id (tasks e) /\ running (tasks e) !! id = None
}.
Record tracked (e : CommandExecutions) : Prop := { tr_slots : slots e; tr_owned : owned e; tr_numbered : numbered e }.

Lemma slots_release e id : slots e -> slots (remove_and_release e id).
Proof.
  intros [Hh Hl Hhl Hll Hm Ha]. unfold remove_and_release. destruct (task_metadata e !! id) as [t|] eqn:Ht; [|done].
  pose proof (count_delete heavy _ _ _ Ht) as Ch. pose proof (count_delete tm_lightweight _ _ _ Ht) as Cl.
  unfold heavy at 3 in Ch. split; cbn.
  - rewrite Ch, Hh. destruct (tm_lightweight t); cbn; lia.
  - rewrite Cl, Hl. destruct (tm_lightweight t); lia.
  - destruct (tm_lightweight t); lia.
  - destruct (tm_lightweight t); lia.
  - pose proof (lookup_pos_size _ _ _ Ht). rewrite Hm, wrapping_sub_mod by lia.
    rewrite map_size_delete, Ht. cbn. f_equal. lia.
  - intros p Hp.
    assert (p ∈ active_projects e /\ tm_project_id t <> Some p) as [(i & a & Hi & Hpa)%Ha Hne]
      by (destruct (tm_project_id t); set_solver).
    exists i, a. rewrite lookup_delete_ne; [done|]. intros ->. congruence.
Qed.
Lemma slots_releases ids e : slots e -> slots (fold_left remove_and_release ids e).
Proof. revert e. induction ids as [|id ids IH]; intros e He; [done|]. by apply IH, slots_release. Qed.
Lemma slots_fewer_projects e ps : ps ⊆ active_projects e -> slots e -> slots (set_projects e ps).
Proof. intros Hps [Hh Hl Hhl Hll Hm Ha]. split; cbn; try done. intros p Hp. apply Ha. set_solver. Qed.

(** What a release leaves in the table. *)
Lemma releases_lookup ids e id t :
  task_metadata (fold_left remove_and_release ids e) !! id = Some t -> task_metadata e !! id = Some t /\ id ∉ ids.
Proof.
  revert e. induction ids as [|i ids IH]; intros e; cbn; [set_solver|]. intros [H Hn]%IH.
  assert (task_metadata e !! id = Some t /\ id <> i) as [H' Hne]; [|set_solver].
  unfold remove_and_release in H. destruct (task_metadata e !! i) eqn:Hi; cbn in H.
  - by apply lookup_delete_Some in H as [? ?].
  - split; [done|congruence].
Qed.
Lemma release_task_lookup e cid id t :
  task_metadata (release_task e cid) !! id = Some t -> task_metadata e !! id = Some t /\ tm_command_id t <> cid.
Proof.
  intros [H Hn]%releases_lookup. split; [done|]. intros Hc. apply Hn. unfold task_ids.
  apply list_elem_of_fmap. exists (id, t). split; [done|]. by apply elem_of_map_to_list, map_lookup_filter_Some.
Qed.

(** ** Joining a task, in the loop of a turn and in that of a shutdown *)

Definition joins (join : CommandExecutions -> TaskId * TaskResult -> CommandExecutions) : Prop := forall e id r,
  tasks (join e (id, r)) = tasks e /\ (slots e -> slots (join e (id, r))) /\
  forall i t, task_metadata (join e (id, r)) !! i = Some t ->
    task_metadata e !! i = Some t /\ (i = id -> ~ describes_result t r).
Lemma reap_joins : joins reap_one.
Proof.
  intros e id r. split; [apply reap_one_tasks|]. destruct r as [cid pid|b]; cbn; split.
  - intros He. apply slots_releases. destruct pid; [|done]. by apply slots_fewer_projects; [set_solver|].
  - intros i t [H Hn]%release_task_lookup. split; [by destruct pid|]. by intros _ [? _].
  - apply slots_release.
  - intros i t [H Hn]%(releases_lookup [id]). split; [done|]. set_solver.
Qed.
Lemma join_joins : joins join_one.
Proof.
  intros e id r. split; [apply join_one_tasks|]. destruct r as [cid pid|b]; cbn; split.
  - apply slots_releases.
  - intros i t [H Hn]%release_task_lookup. split; [done|]. by intros _ [? _].
  - apply slots_release.
  - intros i t [H Hn]%(releases_lookup [id]). split; [done|]. set_solver.
Qed.

Lemma tracked_pop join e e' id r :
  joins join -> tracked e -> pop_finished e = Some ((id, r), e') -> tracked (join e' (id, r)).
Proof.
  intros Hj [Hs Ho [N1 N2 N3]]. unfold pop_finished. destruct (finished (tasks e)) as [|x rest] eqn:Hf; [done|].
  intros [= -> <-]. set (e' := set_tasks e _). destruct (Hj e' id r) as (Ht & Hslots & Hlook).
  assert (Hrest : tasks (join e' (id, r)) = {| running := running (tasks e); finished := rest; next_id := next_id (tasks e) |})
    by by rewrite Ht.
  split.
  - apply Hslots. by destruct Hs; split.
  - intros i t [H Hno]%Hlook. rewrite Hrest. destruct (Ho i t H) as [Hw|(r' & Hin & Hd)]; [by left|right].
    rewrite Hf in Hin. apply elem_of_cons in Hin as [[= -> ->]|Hin]; [by destruct Hno|]. by exists r'.
  - split; rewrite Hrest; cbn.
    + intros i t [H _]%Hlook. by eapply N1.
    + apply N2.
    + intros i r' Hin. eapply N3. by apply list_elem_of_further.
Qed.
Lemma tracked_reap fuel e : tracked e -> tracked (reap_loop fuel e).
Proof.
  revert e. induction fuel as [|fuel IH]; intros e H; [done|]. cbn.
  destruct (pop_finished e) as [[[id r] e']|] eqn:Hpop; [|done]. apply IH.
  eapply (tracked_pop reap_one); [apply reap_joins|exact H|exact Hpop].
Qed.
Lemma tracked_join fuel e : tracked e -> tracked (join_loop fuel e).
Proof.
  revert e. induction fuel as [|fuel IH]; intros e H; [done|]. cbn.
  destruct (pop_finished e) as [[[id r] e']|] eqn:Hpop; [|done]. apply IH.
  eapply (tracked_pop join_one); [apply join_joins|exact H|exact Hpop].
Qed.

Lemma tracked_ends e id w r :
  tracked e -> running (tasks e) !! id = Some w -> result_of_work w r -> tracked (task_ends e id r).
Proof.
  intros [[] Ho [N1 N2 N3]] Hw Hr. split; [by split|..].
  - intros i t Ht. cbn. destruct (Ho i t Ht) as [(v & Hv & Hd)|(r' & Hin & Hd)].
    + destruct (decide (i = id)) as [->|Hne]; [right|left; exists v; by rewrite lookup_delete_ne].
      exists r. split; [apply elem_of_app; right; apply list_elem_of_here|].
      rewrite Hv in Hw. injection Hw as ->. destruct Hd as (Hc & Hp & _). destruct r; [|done].
      destruct Hr as [-> ->]. by split.
    + right. exists r'. split; [apply elem_of_app; by left|done].
  - split; cbn; [done| |].
    + intros i v [_ Hv]%lookup_delete_Some. by eapply N2.
    + intros i r' [Hin|[= -> ->]%list_elem_of_singleton]%elem_of_app.
      * destruct (N3 i r' Hin). split; [done|]. apply lookup_delete_None. by right.
      * split; [by eapply N2|apply lookup_delete_eq].
Qed.

Lemma tracked_start e c token started e' :
  tracked e -> try_start e c token = (started, e') -> tracked e'.
Proof.
  intros [[Hh Hl Hhl Hll Hm Ha] Ho [N1 N2 N3]]. unfold try_start.
  destruct (must_defer e c) eqn:Hd; [by intros [= <- <-]|].
  apply must_defer_false in Hd as (Hlg & Hhg & _). intros [= <- <-].
  assert (task_metadata e !! next_id (tasks e) = None) as Hnone
    by (apply eq_None_not_Some; intros [t Ht%N1]; lia).
  set (t := {| tm_command_id := cmd_id c |}).
  pose proof (count_insert heavy _ _ t Hnone) as Ch. pose proof (count_insert tm_lightweight _ _ t Hnone) as Cl.
  unfold heavy at 3 in Ch. cbn in Ch, Cl. split; [split; cbn|..].
  - rewrite Ch, Hh. destruct (is_lightweight _); cbn; lia.
  - rewrite Cl, Hl. destruct (is_lightweight _); lia.
  - destruct (is_lightweight _); [done|]. specialize (Hhg eq_refl). lia.
  - destruct (is_lightweight _); [|done]. specialize (Hlg eq_refl). lia.
  - rewrite Hm, wrapping_add_mod, map_size_insert_None by done. f_equal. lia.
  - intros p Hp.
    assert (cmd_project_id c = Some p \/ p ∈ active_projects e) as [Hc|(i & a & Hi & Hpa)%Ha]
      by (destruct (cmd_project_id c); set_solver).
    + exists (next_id (tasks e)), t. by rewrite lookup_insert_eq.
    + exists i, a. by rewrite lookup_insert_ne by congruence.
  - intros i a. cbn. rewrite !lookup_insert. case_decide.
    + intros [= <-]. left. eexists. by split.
    + apply Ho.
  - split; cbn.
    + intros i a. rewrite lookup_insert. case_decide; [lia|]. intros Hi%N1. lia.
    + intros i w. rewrite lookup_insert. case_decide; [lia|]. intros Hi%N2. lia.
    + intros i r' Hin. destruct (N3 i r' Hin). split; [lia|]. rewrite lookup_insert_ne by lia. done.
Qed.

(** ** Every state of the poller *)

Definition slots_ok (limit : N) (p : Poller) : Prop :=
  tracked (p_exec p) /\ heavy_limit (p_exec p) = limit /\ lightweight_limit (p_exec p) = 1%N.

Lemma tracked_metrics e m :
  m_active_commands m = m_active_commands (metrics e) -> tracked e -> tracked (set_metrics e m).
Proof. intros Hm [[] Ho [N1 N2 N3]]. split; [split; cbn; try done; by rewrite Hm|done|by split]. Qed.
Lemma consider_slots limit p c : slots_ok limit p -> slots_ok limit (consider_command p c).
Proof.
  intros (He & Hh & Hl). unfold consider_command. case_bool_decide; cbn [negb]; [|done]. destruct (_ && _); [done|].
  destruct (try_start (p_exec p) c (p_next_token p)) as [started e] eqn:Hs.
  assert (heavy_limit e = limit /\ lightweight_limit e = 1%N) as [Hh' Hl'].
  { unfold try_start in Hs. destruct (must_defer _ _); by injection Hs as <- <-. }
  pose proof (tracked_start _ _ _ _ _ He Hs) as He'.
  destruct started; split_and!; cbn; try done. by apply tracked_metrics.
Qed.
Lemma step_slots limit offer p p' : slots_ok limit p -> poller_step offer p p' -> slots_ok limit p'.
Proof.
  intros (He & Hh & Hl) Hstep. destruct Hstep; cbn.
  - split_and!; [by eapply tracked_ends|done..].
  - by split_and!.
  - by split_and!.
  - destruct (reap_limits (p_exec p)) as [Hh' Hl']. split_and!; cbn; [by apply tracked_reap|congruence..].
  - unfold drain_check. by destruct (_ && _).
  - split_and!; cbn; [by apply tracked_metrics|done..].
  - by apply consider_slots.
Qed.
Lemma reachable_slots limit s p : reachable limit s p -> slots_ok limit p.
Proof.
  unfold reachable. intros H. assert (slots_ok limit (initial limit s)) as H0.
  { split_and!; [|done|done]. split; [split; cbn; try done; try lia; set_solver|done|split; cbn; try done; intros; set_solver]. }
  revert H0. induction H as [|p1 p2 p3 [offer Hs] _ IH]; [done|]. intros H0. apply IH. by eapply step_slots.
Qed.

(** With fresh offers the table has an entry for every task. *)
Lemma table_complete e : inv e -> executions_len e = size (task_metadata e).
Proof.
  intros I. unfold executions_len. rewrite <- (size_dom (running (tasks e))), <- (size_dom (task_metadata e)).
  assert (dom (task_metadata e) = dom (running (tasks e)) ∪ list_to_set (finished (tasks e)).*1) as ->.
  { apply set_eq. intros id. rewrite elem_of_union, !elem_of_dom, elem_of_list_to_set. split.
    - intros [t Ht]. by apply (inv_owned _ I id t).
    - intros [[w Hw]|([j r] & -> & Hr)%list_elem_of_fmap].
      + destruct (inv_running _ I id w Hw) as (t & Ht & _). by exists t.
      + destruct (inv_finished _ I j r Hr) as [(t & Ht & _) _]. by exists t. }
  rewrite size_union; [rewrite size_list_to_set by apply (inv_nodup _ I); by rewrite length_fmap|].
  intros id [w Hw]%elem_of_dom ([j r] & -> & Hr)%elem_of_list_to_set%list_elem_of_fmap.
  destruct (inv_finished _ I j r Hr) as [_ Hn]. cbn in Hw. congruence.
Qed.

(** C8. The scheduler keeps its bounds.  In every state the poller reaches,
    whatever it is offered and in whatever order tasks end, panic or change the
    node's lifecycle: the slots in use are those of its table of tasks, at most
    [limit] heavy ones and one lightweight, every entry of the table belongs to
    a task that works on that command or waits to be joined with it, and the
    heartbeat's counter is the size of the table.  If moreover no command was
    offered while the table had a task for it, then the table is complete: its
    size is the number of tasks that run or were not joined, at most [limit]
    heavy tasks and one lightweight task run, and no two running tasks work on
    the same project. *)
Theorem scheduler_bounds_hold limit s p :
  let e := p_exec p in
  reachable limit s p ->
  (active_heavy e = count heavy (task_metadata e) /\ (active_heavy e <= limit)%N /\
   active_lightweight e = count tm_lightweight (task_metadata e) /\ (active_lightweight e <= 1)%N /\
   owned e /\ m_active_commands (metrics e) = (N.of_nat (size (task_metadata e)) mod (u64_max + 1))%N) /\
  (reachable_fresh limit s p ->
   size (task_metadata e) = executions_len e /\
   (count heavy_work (running (tasks e)) <= limit)%N /\ (count light_work (running (tasks e)) <= 1)%N /\
   forall i j v w q, running (tasks e) !! i = Some v -> running (tasks e) !! j = Some w ->
     cmd_project_id (wk_command v) = Some q -> cmd_project_id (wk_command w) = Some q -> i = j).
Proof.
  intros e ([[Hh Hl Hhl Hll Hm _] Ho _] & Hlim & Hlight)%reachable_slots. fold e in Hh, Hl, Hhl, Hll, Hm, Ho, Hlim, Hlight.
  split; [split_and!; [done|lia|done|lia|done|done]|]. intros (I & _)%reachable_inv. fold e in I.
  destruct (running_counts _ I) as [H1 H2]. rewrite (table_complete _ I). split_and!; [done|lia|lia|].
  intros i j v w q Hv Hw Hqv Hqw.
  destruct (inv_running _ I i v Hv) as (a & Ha & _ & Hpa & _).
  destruct (inv_running _ I j w Hw) as (b & Hb & _ & Hpb & _).
  eapply (inv_projects _ I i j a b q); congruence.
Qed.

(** ** Shutdown *)

Lemma tracked_wait e ends : tracked e -> ends_agree e ends -> tracked (wait_for_tasks e ends).
Proof.
  revert e. induction ends as [|[id r] ends IH]; intros e I Hag; cbn -[join_queue];
    assert (tracked (join_queue e)) as I' by (by apply tracked_join);
    destruct (join_queue_tasks e) as [Hf Hr]; [done|].
  rewrite Hr. destruct (running (tasks e) !! id) as [w|] eqn:Hid.
  - apply IH.
    + eapply tracked_ends; [done|by rewrite Hr|]. eapply (Hag id); [by left|done].
    + intros j r' v Hin. cbn -[join_queue]. rewrite Hr, lookup_delete_Some. intros [_ Hv].
      eapply (Hag j); [by right|done].
  - apply IH; [done|]. intros j r' v Hin. rewrite Hr. intros Hv. eapply (Hag j); [by right|done].
Qed.
Lemma idle_tracked_empty e :
  tracked e -> running (tasks e) = ∅ -> finished (tasks e) = [] ->
  task_metadata e = ∅ /\ active_heavy e = 0%N /\ active_lightweight e = 0%N /\ active_projects e = ∅.
Proof.
  intros [[Hh Hl _ _ _ Ha] Ho _] Hr Hf.
  assert (task_metadata e = ∅) as Hm.
  { apply map_empty. intros id. apply eq_None_not_Some. intros [t [(w & Hw & _)|(r & Hin & _)]%Ho].
    - rewrite Hr in Hw. by rewrite lookup_empty in Hw.
    - rewrite Hf in Hin. set_solver. }
  rewrite Hm in Hh, Hl, Ha. split_and!; [done|by rewrite Hh|by rewrite Hl|].
  apply set_eq. intros p. split; [|set_solver]. intros (id & t & Ht & _)%Ha. by rewrite lookup_empty in Ht.
Qed.

(** The tokens of a shutdown, and what its waiting leaves. *)
Lemma cancel_and_wait_leaves e ends tokens e' :
  tracked e -> ends_agree e ends -> cancel_and_wait e ends = (tokens, e') ->
  tokens = tm_cancellation <$> (map_to_list (task_metadata e)).*2 /\ tracked e' /\
  running (tasks e') = ∅ /\ finished (tasks e') = [].
Proof.
  intros He Hag. unfold cancel_and_wait. set (e1 := wait_for_tasks e ends).
  assert (tracked e1) as I1 by (by apply tracked_wait).
  assert (finished (tasks e1) = []) as Hf1 by (apply wait_running).
  set (aborted := (fun id => (id, JoinError true)) <$> (map_to_list (running (tasks e1))).*1).
  case_bool_decide as Hemp; intros [= <- <-]; [done|]. split; [done|].
  destruct (wait_running e1 aborted) as [Hra Hfa]. split_and!; [| |done].
  - apply tracked_wait; [done|]. intros id r w (i & [= -> ->] & _)%list_elem_of_fmap. done.
  - rewrite Hra. apply map_empty. intros id. apply fold_delete_lookup.
    destruct (running (tasks e1) !! id) as [w|] eqn:Hw; [left|by right].
    unfold aborted. rewrite <- list_fmap_compose. apply list_elem_of_fmap.
    exists id. split; [done|]. apply list_elem_of_fmap. exists (id, w). split; [done|].
    by apply elem_of_map_to_list.
Qed.
Lemma token_cancelled e id t :
  task_metadata e !! id = Some t -> tm_cancellation t ∈ tm_cancellation <$> (map_to_list (task_metadata e)).*2.
Proof.
  intros Ht. rewrite <- list_fmap_compose. apply list_elem_of_fmap. exists (id, t). split; [done|].
  by apply elem_of_map_to_list.
Qed.

(** C32. A shutdown leaves nothing behind.  From every state the poller
    reaches, whatever it was offered and whichever tasks end within the grace
    period, [cancel_and_wait] ends with no task that runs or waits to be joined,
    an empty table, and every slot and project free.  It cancels the token of
    every running task that the table knows; and that is every running task if
    no command was offered while the table had a task for it. *)
Theorem shutdown_leaves_nothing limit s p ends tokens e' :
  reachable limit s p -> ends_agree (p_exec p) ends ->
  cancel_and_wait (p_exec p) ends = (tokens, e') ->
  executions_len e' = 0 /\ task_metadata e' = ∅ /\
  active_heavy e' = 0%N /\ active_lightweight e' = 0%N /\ active_projects e' = ∅ /\
  (forall id w, running (tasks (p_exec p)) !! id = Some w ->
     is_Some (task_metadata (p_exec p) !! id) \/ reachable_fresh limit s p -> wk_token w ∈ tokens).
Proof.
  intros (He & _)%reachable_slots Hag Hcw.
  destruct (cancel_and_wait_leaves _ _ _ _ He Hag Hcw) as (-> & He' & Hr & Hf).
  destruct (idle_tracked_empty _ He' Hr Hf) as (Hm & Hh & Hl & Hp).
  split_and!; try done; [unfold executions_len; by rewrite Hr, Hf|].
  intros id w Hw [[t Ht]|(I & _)%reachable_inv].
  - destruct He as [_ Ho Hn]. destruct (Ho id t Ht) as [(v & Hv & _ & _ & _ & Htok)|(r & Hin & _)].
    + rewrite Hv in Hw. injection Hw as ->. rewrite <- Htok. by eapply token_cancelled.
    + destruct (nb_finished _ Hn id r Hin). congruence.
  - destruct (inv_running _ I id w Hw) as (t & Ht & _ & _ & _ & <-). by eapply token_cancelled.
Qed.

(** ** Witnesses *)

Lemma scheduler_bounds_witness :
  count heavy_work (running (tasks (p_exec sample_poller))) = 2%N /\
  (count heavy_work (running (tasks (p_exec sample_poller))) <= 2)%N /\
  size (task_metadata (p_exec sample_poller)) = executions_len (p_exec sample_poller).
Proof.
  split; [vm_compute; reflexivity|].
  destruct (scheduler_bounds_hold 2 Active sample_poller (reachable_fresh_reachable _ _ _ sample_reachable)) as [_ H].
  destruct (H sample_reachable) as (Hsize & Hheavy & _). split; [exact Hheavy|exact Hsize].
Defined.

Lemma shutdown_witness :
  executions_len (cancel_and_wait (p_exec sample_poller) [(1, JoinError false)]).2 = 0.
Proof.
  destruct (cancel_and_wait (p_exec sample_poller) [(1, JoinError false)]) as [tokens e'] eqn:E.
  apply (shutdown_leaves_nothing 2 Active sample_poller [(1, JoinError false)] tokens e'
    (reachable_fresh_reachable _ _ _ sample_reachable)); [|exact E].
  intros id r w [= -> ->]%list_elem_of_singleton _. exact I.
Defined.
