(* ===== verification/SchedulerSpec.v ===== *)
(** What the scheduler promises, and that the poller implements it.

    The specification knows no counters and no sets of projects: a table of
    slots in use, the commands that execute, and the node's state.  Every
    execution of the poller (its redundant bookkeeping, its queue of ended
    tasks, its release by command id) in which no command is offered while a
    tracked task works on it is an execution of the specification. *)
From S2P Require Import Prelude Text Protocol NodeState Scheduler SchedulerFacts.

(** ** The specification *)

Record Slot := { sl_command : Uuid; sl_project : option Uuid; sl_light : bool }.
Record Spec := {
  sp_state : NodeLifecycleState;
  sp_slots : gmap TaskId Slot;
  sp_executing : gmap TaskId AgentCommand
}.
Definition spec_initial (s : NodeLifecycleState) : Spec :=
  {| sp_state := s; sp_slots := ∅; sp_executing := ∅ |}.

Definition slot_for (c : AgentCommand) : Slot :=
  {| sl_command := cmd_id c; sl_project := cmd_project_id c; sl_light := is_lightweight (cmd_command_type c) |}.
Definition class_limit (limit : N) (light : bool) : N := if light then 1 else limit.
Definition slots_used (sp : Spec) (light : bool) : N :=
  count (fun s => Bool.eqb (sl_light s) light) (sp_slots sp).

(** A command may start when its class has a free slot and its project none. *)
Definition admits (limit : N) (sp : Spec) (c : AgentCommand) : Prop :=
  (slots_used sp (is_lightweight (cmd_command_type c)) < class_limit limit (is_lightweight (cmd_command_type c)))%N /\
  (forall id s q, sp_slots sp !! id = Some s -> sl_project s = Some q -> cmd_project_id c <> Some q).
Definition accepts (sp : Spec) (c : AgentCommand) : Prop :=
  sp_state sp = Active \/ is_maintenance (cmd_command_type c) = true.
Definition executes (sp : Spec) (t : CommandType) : Prop :=
  exists id c, sp_executing sp !! id = Some c /\ cmd_command_type c = t.

Definition with_sp_state (sp : Spec) (s : NodeLifecycleState) : Spec :=
  {| sp_state := s; sp_slots := sp_slots sp; sp_executing := sp_executing sp |}.

Inductive spec_step (limit : N) : Spec -> Spec -> Prop :=
| spec_start sp id c :
    cmd_status c = Pending -> accepts sp c -> admits limit sp c -> sp_slots sp !! id = None ->
    spec_step limit sp {| sp_state := sp_state sp; sp_slots := <[id := slot_for c]> (sp_slots sp);
                          sp_executing := <[id := c]> (sp_executing sp) |}
| spec_end sp id c :
    sp_executing sp !! id = Some c ->
    spec_step limit sp {| sp_state := sp_state sp; sp_slots := sp_slots sp;
                          sp_executing := delete id (sp_executing sp) |}
| spec_release sp id :
    sp_executing sp !! id = None ->
    spec_step limit sp {| sp_state := sp_state sp; sp_slots := delete id (sp_slots sp);
                          sp_executing := sp_executing sp |}
| spec_drain sp : executes sp DrainNode -> spec_step limit sp (with_sp_state sp Draining)
| spec_resume sp : executes sp ResumeNode -> spec_step limit sp (with_sp_state sp Active)
| spec_drained sp :
    sp_state sp = Draining -> sp_executing sp = ∅ -> sp_slots sp = ∅ ->
    spec_step limit sp (with_sp_state sp Drained).

(** ** The abstraction *)

Definition slot_of (t : TaskMetadata) : Slot :=
  {| sl_command := tm_command_id t; sl_project := tm_project_id t; sl_light := tm_lightweight t |}.
Definition abs (p : Poller) : Spec :=
  {| sp_state := lifecycle_state (p_lifecycle p);
     sp_slots := slot_of <$> task_metadata (p_exec p);
     sp_executing := wk_command <$> running (tasks (p_exec p)) |}.

Lemma count_fmap {A B} (f : A -> B) (P : B -> bool) (m : gmap TaskId A) :
  count P (f <$> m) = count (fun a => P (f a)) m.
Proof.
  induction m as [|id a m Hid IH] using map_ind; [by rewrite fmap_empty|].
  rewrite fmap_insert, !count_insert, IH by (rewrite ?lookup_fmap, ?Hid; done). done.
Qed.

Lemma count_ext {A} (P Q : A -> bool) (m : gmap TaskId A) :
  (forall a, P a = Q a) -> count P m = count Q m.
Proof.
  intros HPQ. induction m as [|id a m Hid IH] using map_ind; [done|].
  by rewrite !count_insert, IH, HPQ by done.
Qed.

Lemma slots_used_counts p light :
  inv (p_exec p) -> slots_used (abs p) light = (if light then active_lightweight (p_exec p) else active_heavy (p_exec p)).
Proof.
  intros I. unfold slots_used, abs. cbn [sp_slots]. rewrite count_fmap. destruct light.
  - rewrite (inv_light _ I). apply count_ext. intros t. cbn. by destruct (tm_lightweight t).
  - rewrite (inv_heavy _ I). apply count_ext. intros t. cbn. unfold heavy. by destruct (tm_lightweight t).
Qed.

(** The poller's guard is the specification's. *)
Lemma must_defer_admits limit p c :
  poller_inv limit p -> must_defer (p_exec p) c = false <-> admits limit (abs p) c.
Proof.
  intros (I & Hh & Hl & _). unfold admits. rewrite slots_used_counts by done.
  unfold must_defer, class_limit.
  assert (Hproj : match cmd_project_id c with Some q => bool_decide (q ∈ active_projects (p_exec p)) | None => false end = false
    <-> forall id s q, sp_slots (abs p) !! id = Some s -> sl_project s = Some q -> cmd_project_id c <> Some q).
  { cbn [sp_slots abs]. destruct (cmd_project_id c) as [q|]; [|by naive_solver].
    rewrite bool_decide_eq_false, (inv_active _ I). split.
    - intros Hno id s q' Hs Hq [= <-]. rewrite lookup_fmap in Hs.
      destruct (task_metadata (p_exec p) !! id) as [t|] eqn:Ht; [|done]. injection Hs as <-. eauto.
    - intros Hno (id & t & Ht & Hq). apply (Hno id (slot_of t) q); [by rewrite lookup_fmap, Ht|done|done]. }
  rewrite orb_false_iff, Hproj, orb_false_iff, Hh, Hl.
  destruct (is_lightweight (cmd_command_type c)); cbn [negb andb]; rewrite N.leb_gt; naive_solver.
Qed.

(** ** The simulation *)

Lemma remove_and_release_metadata e id :
  task_metadata (remove_and_release e id) = delete id (task_metadata e).
Proof.
  unfold remove_and_release. destruct (task_metadata e !! id) eqn:E; [done|]. by rewrite delete_id.
Qed.

Lemma reap_simulates limit p fuel e :
  inv e -> rtc (spec_step limit) (abs (set_exec p e)) (abs (set_exec p (reap_loop fuel e))).
Proof.
  revert e. induction fuel as [|fuel IH]; intros e I; [done|]. cbn [reap_loop].
  destruct (pop_finished e) as [[[id r] e']|] eqn:Hpop; [|done].
  erewrite reap_one_is by done. eapply rtc_l; [|apply IH; by eapply inv_pop_release].
  assert (Hs : task_metadata e' = task_metadata e /\ running (tasks e') = running (tasks e) /\
    running (tasks e) !! id = None).
  { unfold pop_finished in Hpop. destruct (finished (tasks e)) as [|x rest] eqn:Hf; [done|].
    injection Hpop as -> <-. split_and!; [done|done|].
    eapply (inv_finished _ I id r). rewrite Hf. apply list_elem_of_here. }
  destruct Hs as (Hm & Hr & Hnone).
  replace (abs (set_exec p (remove_and_release e' id))) with
    {| sp_state := sp_state (abs (set_exec p e)); sp_slots := delete id (sp_slots (abs (set_exec p e)));
       sp_executing := sp_executing (abs (set_exec p e)) |}.
  - apply spec_release. cbn. by rewrite lookup_fmap, Hnone.
  - unfold abs. cbn. f_equal.
    + by rewrite remove_and_release_metadata, fmap_delete, Hm.
    + by rewrite remove_and_release_tasks, Hr.
Qed.

Lemma start_simulates limit p c :
  poller_inv limit p -> rtc (spec_step limit) (abs p) (abs (consider_command p c)).
Proof.
  intros Hinv. unfold consider_command. case_bool_decide as Hp; cbn [negb]; [|done].
  destruct (negb (accepts_workload_commands (p_lifecycle p)) && _) eqn:Hacc; [done|].
  unfold try_start. destruct (must_defer (p_exec p) c) eqn:Hd; [done|].
  apply (must_defer_admits limit) in Hd; [|done]. destruct Hinv as (I & _).
  destruct (next_id_untracked _ I) as [Hnone _].
  apply rtc_once. unfold abs at 2. cbn. rewrite !fmap_insert. cbn.
  apply (spec_start limit (abs p)); [done| |exact Hd|cbn; by rewrite lookup_fmap, Hnone].
  apply andb_false_iff in Hacc as [Hacc|Hacc]; apply negb_false_iff in Hacc.
  - left. by apply bool_decide_eq_true in Hacc.
  - right. exact Hacc.
Qed.

Lemma runs_executes p t : SchedulerFacts.runs p t -> executes (abs p) t.
Proof. intros (id & w & Hw & Ht). exists id, (wk_command w). cbn. by rewrite lookup_fmap, Hw. Qed.

Lemma step_simulates limit p p' :
  poller_inv limit p -> fresh_step p p' -> rtc (spec_step limit) (abs p) (abs p').
Proof.
  intros Hinv (offer & Hstep & _). pose proof Hinv as (I & _). destruct Hstep.
  - apply rtc_once. unfold abs at 2. cbn. rewrite fmap_delete.
    apply (spec_end limit (abs p) id (wk_command w)). cbn. by rewrite lookup_fmap, H.
  - apply rtc_once. replace (abs (with_lifecycle p Draining)) with (with_sp_state (abs p) Draining)
      by reflexivity.
    apply spec_drain. by apply runs_executes.
  - apply rtc_once. replace (abs (with_lifecycle p Active)) with (with_sp_state (abs p) Active)
      by reflexivity.
    apply spec_resume. by apply runs_executes.
  - destruct p as [l e n]. by apply (reap_simulates limit {| p_lifecycle := l; p_exec := e; p_next_token := n |}).
  - unfold drain_check. destruct (_ && _) eqn:E; [|done].
    apply andb_true_iff in E as [Hs%bool_decide_eq_true E%Nat.eqb_eq]. unfold executions_len in E.
    assert (Hr : running (tasks (p_exec p)) = ∅) by (apply map_size_empty_iff; lia).
    destruct (idle_inv_empty _ I Hr H) as [Hm _]. apply rtc_once.
    assert (abs {| p_lifecycle := lifecycle_set (p_lifecycle p) Drained; p_exec := p_exec p;
                   p_next_token := p_next_token p |} = with_sp_state (abs p) Drained) as -> by reflexivity.
    apply spec_drained; cbn; [done|by rewrite Hr, fmap_empty|by rewrite Hm, fmap_empty].
  - done.
  - by apply start_simulates.
Qed.

(** C9. The poller implements the scheduler's specification, as long as no
    command is offered while its table has a task for it (C37 is what happens
    otherwise).  Every state it reaches so is, seen through its table of tasks,
    a state the specification reaches: a command starts only when the node
    accepts it, its class has a free slot and its project none; a slot is given
    back only when its task has ended; a node is drained only when nothing runs.
    And the guard is exact: a pending command that is offered in such a state is
    deferred precisely when the specification does not admit it. *)
Theorem poller_refines_specification limit s p :
  reachable_fresh limit s p ->
  rtc (spec_step limit) (spec_initial s) (abs p) /\
  forall c, must_defer (p_exec p) c = false <-> admits limit (abs p) c.
Proof.
  intros Hr. split; [|intros c; by apply must_defer_admits, (reachable_inv limit s)].
  assert (H0 : poller_inv limit (initial limit s)) by (apply (reachable_inv limit s); apply rtc_refl).
  assert (spec_initial s = abs (initial limit s)) as ->
    by (unfold abs, spec_initial; cbn; by rewrite lifecycle_state_with, !fmap_empty).
  unfold reachable_fresh in Hr. induction Hr as [|p1 p2 p3 Hs _ IH]; [done|].
  etrans; [by apply step_simulates|]. apply IH. by eapply fresh_step_inv.
Qed.

(** ** No slot stays idle *)

(** Why a command that was offered is not running. *)
Definition blocked (limit : N) (p : Poller) (c : AgentCommand) : Prop :=
  count (fun w => Bool.eqb (light_work w) (is_lightweight (cmd_command_type c))) (running (tasks (p_exec p))) =
    class_limit limit (is_lightweight (cmd_command_type c)) \/
  exists id w q, running (tasks (p_exec p)) !! id = Some w /\
    cmd_project_id (wk_command w) = Some q /\ cmd_project_id c = Some q.
Definition working (p : Poller) (c : AgentCommand) : Prop :=
  exists id w, running (tasks (p_exec p)) !! id = Some w /\ wk_command w = c.

Lemma class_count (m : gmap TaskId Work) light :
  count (fun w => Bool.eqb (light_work w) light) m = if light then count light_work m else count heavy_work m.
Proof.
  destruct light; apply count_ext; intros w; unfold heavy_work, light_work; by destruct (is_lightweight _).
Qed.

Lemma class_bound limit p light :
  poller_inv limit p ->
  (count (fun w => Bool.eqb (light_work w) light) (running (tasks (p_exec p))) <= class_limit limit light)%N.
Proof.
  intros (I & Hh & Hl & _). rewrite class_count. destruct (running_counts _ I) as [H1 H2].
  pose proof (inv_heavy_limit _ I). pose proof (inv_light_limit _ I). unfold class_limit. destruct light; lia.
Qed.

(** With every ended task joined, a command is deferred for a task that runs. *)
Lemma deferred_blocked limit p c :
  poller_inv limit p -> finished (tasks (p_exec p)) = [] -> must_defer (p_exec p) c = true -> blocked limit p c.
Proof.
  intros Hinv Hf Hd. pose proof Hinv as (I & Hh & Hl & _).
  destruct (idle_counts _ I Hf) as [H3 H4].
  pose proof (class_bound limit p (is_lightweight (cmd_command_type c)) Hinv) as Hle. unfold blocked.
  rewrite class_count in Hle |- *. unfold must_defer in Hd.
  apply orb_true_iff in Hd as [[Hd|Hd]%orb_true_iff|Hd]; [| |right].
  - apply andb_true_iff in Hd as [Hlight Hd%N.leb_le]. left. rewrite Hlight in *. unfold class_limit in *. lia.
  - apply andb_true_iff in Hd as [Hheavy%negb_true_iff Hd%N.leb_le]. left. rewrite Hheavy in *.
    unfold class_limit in *. lia.
  - destruct (cmd_project_id c) as [q|]; [|done]. apply bool_decide_eq_true, (inv_active _ I) in Hd as (id & t & Ht & Hq).
    destruct (inv_owned _ I id t Ht) as [[w Hw]|Hin]; [|rewrite Hf in Hin; by apply elem_of_nil in Hin].
    destruct (inv_running _ I id w Hw) as (t' & Ht' & _ & Hp & _).
    exists id, w, q. split_and!; [done|congruence|done].
Qed.

Lemma blocked_grows limit p p' c :
  poller_inv limit p' -> running (tasks (p_exec p)) ⊆ running (tasks (p_exec p')) ->
  blocked limit p c -> blocked limit p' c.
Proof.
  intros Hinv Hsub [Hfull|(id & w & q & Hw & Hq)].
  - left. pose proof (class_bound limit p' (is_lightweight (cmd_command_type c)) Hinv) as Hle.
    enough (count (fun w => Bool.eqb (light_work w) (is_lightweight (cmd_command_type c))) (running (tasks (p_exec p))) <=
            count (fun w => Bool.eqb (light_work w) (is_lightweight (cmd_command_type c))) (running (tasks (p_exec p'))))%N by lia.
    apply count_le. intros id w Hw HP. exists w. split; [by eapply lookup_weaken|done].
  - right. exists id, w, q. split; [by eapply lookup_weaken|done].
Qed.

Lemma consider_grows p c :
  inv (p_exec p) ->
  running (tasks (p_exec p)) ⊆ running (tasks (p_exec (consider_command p c))) /\
  finished (tasks (p_exec (consider_command p c))) = finished (tasks (p_exec p)).
Proof.
  intros I. unfold consider_command. case_bool_decide; cbn [negb]; [|done]. destruct (_ && _); [done|].
  unfold try_start. destruct (must_defer _ _); cbn; [done|].
  split; [|done]. apply insert_subseteq. by apply next_id_untracked.
Qed.

(** A command the node accepts reaches the guard. *)
Lemma accepted_considered p c :
  cmd_status c = Pending -> accepts (abs p) c ->
  consider_command p c =
    (let (started, e) := try_start (p_exec p) c (p_next_token p) in
     let e := if started then e else set_metrics e (command_deferred (metrics e)) in
     {| p_lifecycle := p_lifecycle p; p_exec := e; p_next_token := S (p_next_token p) |}).
Proof.
  intros Hpending Hacc. unfold consider_command. rewrite bool_decide_true by done. cbn [negb].
  assert (negb (accepts_workload_commands (p_lifecycle p)) &&
          negb (match cmd_command_type c with DrainNode | ResumeNode => true | _ => false end) = false) as ->; [|done].
  apply andb_false_iff. destruct Hacc as [Ha|Hm].
  - left. apply negb_false_iff, bool_decide_eq_true. exact Ha.
  - right. apply negb_false_iff. exact Hm.
Qed.

Lemma admitted_works p c :
  cmd_status c = Pending -> accepts (abs p) c -> must_defer (p_exec p) c = false -> working (consider_command p c) c.
Proof.
  intros Hp Ha Hd. rewrite accepted_considered by done. unfold try_start. rewrite Hd.
  exists (next_id (tasks (p_exec p))), {| wk_command := c; wk_token := p_next_token p |}.
  cbn. by rewrite lookup_insert_eq.
Qed.

Lemma consider_serves limit p c :
  poller_inv limit p -> finished (tasks (p_exec p)) = [] -> cmd_status c = Pending -> accepts (abs p) c ->
  working (consider_command p c) c \/ blocked limit (consider_command p c) c.
Proof.
  intros Hinv Hf Hp Ha. destruct (must_defer (p_exec p) c) eqn:Hd; [right|left; by apply admitted_works].
  rewrite accepted_considered by done. unfold try_start. rewrite Hd.
  eapply (blocked_grows limit p); [| |by eapply deferred_blocked]; [|done].
  destruct Hinv as (I & Hh & Hl & Q). split_and!; [|done|done|exact Q]. cbn. by apply inv_set_metrics.
Qed.

Lemma idle_starts limit p c :
  poller_inv limit p -> finished (tasks (p_exec p)) = [] -> running (tasks (p_exec p)) = ∅ -> (0 < limit)%N ->
  cmd_status c = Pending -> accepts (abs p) c -> working (consider_command p c) c.
Proof.
  intros Hinv Hf Hr Hlim Hp Ha. apply admitted_works; [done|done|].
  destruct (must_defer (p_exec p) c) eqn:Hd; [exfalso|done].
  apply (deferred_blocked limit) in Hd as [Hfull|(id & w & q & Hw & _)]; [| |done|done].
  - rewrite Hr in Hfull. unfold count in Hfull. rewrite map_filter_empty, map_size_empty in Hfull.
    unfold class_limit in Hfull. destruct (is_lightweight _); lia.
  - by rewrite Hr, lookup_empty in Hw.
Qed.

Lemma consider_fresh p c d :
  cmd_id d <> cmd_id c -> fresh_command (p_exec p) d -> fresh_command (p_exec (consider_command p c)) d.
Proof.
  intros Hne Hd id t. unfold consider_command. case_bool_decide; cbn [negb]; [|apply Hd].
  destruct (_ && _); [apply Hd|]. unfold try_start. destruct (must_defer _ _); cbn; [apply Hd|].
  rewrite lookup_insert. case_decide; [intros [= <-]; cbn; congruence|apply Hd].
Qed.

Lemma fold_serves limit cs p :
  poller_inv limit p -> finished (tasks (p_exec p)) = [] -> NoDup (cmd_id <$> cs) ->
  (forall c, c ∈ cs -> fresh_command (p_exec p) c) ->
  let p' := fold_left consider_command cs p in
  poller_inv limit p' /\ running (tasks (p_exec p)) ⊆ running (tasks (p_exec p')) /\
  p_lifecycle p' = p_lifecycle p /\
  forall c, c ∈ cs -> cmd_status c = Pending -> accepts (abs p) c -> working p' c \/ blocked limit p' c.
Proof.
  revert p. induction cs as [|c cs IH]; intros p Hinv Hf Hnd Hfresh; cbn.
  { split_and!; try done. by intros c ?%elem_of_nil. }
  apply NoDup_cons in Hnd as [Hni Hnd]. pose proof Hinv as (I & _).
  assert (Hc : fresh_command (p_exec p) c) by (apply Hfresh, list_elem_of_here).
  assert (Hinv' : poller_inv limit (consider_command p c)) by (eapply fresh_step_inv; [done|by apply offer_step]).
  destruct (consider_grows p c I) as [Hsub Hf']. destruct (consider_inv p c Hc I) as (_ & _ & _ & Hl).
  destruct (IH (consider_command p c) Hinv') as (Hend & Hgrow & Hlife & Hserved); [congruence|done| |].
  { intros d Hd. apply consider_fresh; [|by apply Hfresh, list_elem_of_further].
    intros He. apply Hni. rewrite <- He. by apply list_elem_of_fmap_2. }
  split_and!; [done|by etrans|congruence|].
  intros d [->|Hd]%elem_of_cons Hp Ha.
  - destruct (consider_serves limit p c Hinv Hf Hp Ha) as [(id & w & Hw & Hwc)|Hb].
    + left. exists id, w. split; [by eapply lookup_weaken|done].
    + right. by eapply blocked_grows.
  - apply Hserved; [done|done|]. unfold accepts, abs in *. cbn in *. by rewrite Hl.
Qed.

(** C24. No slot stays idle while there is work for it.  After a turn of the
    poller, in every state reached without an offer of a command that the table
    has a task for, and for every answer of the control plane (commands pairwise
    different and not being worked on), each pending command that the node
    accepts is running, unless running tasks fill its class up to the limit or
    one of them works on its project; so a command is never deferred for tasks
    that have ended, and one that is offered while no task runs is started. *)
Theorem poll_serves_every_command {E} limit s p cs :
  reachable_fresh limit s p -> NoDup (cmd_id <$> cs) ->
  (forall c, c ∈ cs -> fresh_command (reap_completed (p_exec p)) c) ->
  let p' := poll_cycle true (Ok cs : Result E (list AgentCommand)) p in
  (forall c, c ∈ cs -> cmd_status c = Pending -> accepts (abs p') c -> working p' c \/ blocked limit p' c) /\
  (forall c, (0 < limit)%N -> running (tasks (p_exec p)) = ∅ -> cs = [c] -> cmd_status c = Pending ->
     accepts (abs p') c -> working p' c).
Proof.
  intros Hreach Hnd Hfresh. cbn zeta. unfold poll_cycle.
  set (p1 := drain_check (set_exec p (reap_completed (p_exec p)))).
  set (p2 := set_exec p1 (set_metrics (p_exec p1) (begin_poll (metrics (p_exec p1))))).
  destruct (reap_loop_tasks (p_exec p)) as [Hf Hr].
  assert (He : p_exec p1 = reap_completed (p_exec p)) by (unfold p1, drain_check; by destruct (_ && _)).
  assert (Hinv : poller_inv limit p2).
  { apply (reachable_inv limit s). unfold reachable_fresh in *.
    eapply rtc_r; [eapply rtc_r; [eapply rtc_r; [exact Hreach|apply quiet_step, step_reap]|]|apply quiet_step, step_begin_poll].
    by apply quiet_step, step_drain_check. }
  assert (Hf2 : finished (tasks (p_exec p2)) = []) by (cbn; by rewrite He).
  destruct (fold_serves limit cs p2 Hinv Hf2 Hnd) as (_ & _ & Hlife & Hserved).
  { intros c Hc id t Ht. cbn in Ht. rewrite He in Ht. by eapply Hfresh. }
  split.
  - intros c Hc Hp Ha. apply Hserved; [done|done|]. unfold accepts, abs in *. cbn in *. by rewrite <- Hlife.
  - intros c Hlim Hidle -> Hp Ha. apply (idle_starts limit); try done; [cbn; by rewrite He, Hr|].
    unfold accepts, abs in *. cbn in *. by rewrite <- Hlife.
Qed.

(** ** Witnesses *)

Lemma refinement_witness :
  rtc (spec_step 2) (spec_initial Active) (abs sample_poller) /\
  ~ admits 2 (abs sample_poller) (sample_command "c5" StopProject (Some "p1")).
Proof.
  destruct (poller_refines_specification 2 Active sample_poller sample_reachable) as [Hrtc Hexact].
  split; [exact Hrtc|]. intros H%Hexact. vm_compute in H. discriminate H.
Defined.

Lemma poll_serves_witness :
  working (poll_cycle true (Ok [sample_command "c6" DeployProject (Some "p9")] : Result () _) (initial 1 Active))
    (sample_command "c6" DeployProject (Some "p9")).
Proof.
  refine (proj2 (poll_serves_every_command 1 Active (initial 1 Active)
    [sample_command "c6" DeployProject (Some "p9")] (rtc_refl _ _) _ _) _ _ _ _ _ _).
  - apply NoDup_singleton.
  - intros c _ id t Ht. vm_compute in Ht. discriminate Ht.
  - reflexivity.
  - reflexivity.
  - reflexivity.
  - reflexivity.
  - left. reflexivity.
Defined.
