(* ===== verification/Redactor.v ===== *)
(** Redaction of log lines (core/src/logs/redactor.rs).

    The loops edit the line in place and search on from an index, as the
    source does: a state is the line and [search_from].  Indexing past the end
    and cutting inside a character panic. *)
From S2P Require Import Prelude Text.

#[local] Open Scope nat_scope.

Definition SENSITIVE_KEYS : list bytes := map bytes_of
  ["token"; "password"; "secret"; "app_key"; "database_url"; "authorization"; "api_key";
   "access_token"; "refresh_token"; "client_secret"].
Definition TOKEN_PREFIXES : list bytes := map bytes_of ["ghp_"; "gho_"; "ghs_"; "github_pat_"].
Definition REDACTED : bytes := bytes_of "[REDACTED]".
Definition BEARER : bytes := bytes_of "bearer ".

Definition SQUOTE : ascii := "'"%char.
Definition DQUOTE : ascii := "034"%char.

Definition is_byte (b c : ascii) : bool := bool_decide (c = b).
Definition eq_ignore_ascii_case (a b : ascii) : bool := bool_decide (to_lower a = to_lower b).

(** Does [needle] start [l], letters compared without case? *)
Fixpoint prefix_ci (needle l : bytes) : bool :=
  match needle, l with
  | [], _ => true
  | a :: needle', b :: l' => eq_ignore_ascii_case a b && prefix_ci needle' l'
  | _, [] => false
  end.

(** [windows(needle.len()).position(eq_ignore_ascii_case)] *)
Fixpoint find_ci (l needle : bytes) : option nat :=
  match l with
  | [] => None
  | _ :: rest => if prefix_ci needle l then Some 0 else S <$> find_ci rest needle
  end.

(** [find_ascii_case_insensitive]: the slice [value[from..]] panics beyond the
    end of the line. *)
Definition find_ascii_case_insensitive (value needle : bytes) (from : nat) : Run (option nat) :=
  if from <=? length value then Done (Nat.add from <$> find_ci (drop from value) needle)
  else Panicked.

(** The index [i] moved past the bytes satisfying [f]. *)
Fixpoint skip_bytes (f : ascii -> bool) (l : bytes) : nat :=
  match l with c :: rest => if f c then S (skip_bytes f rest) else 0 | [] => 0 end.
Definition skip_while (f : ascii -> bool) (l : bytes) (i : nat) : nat := i + skip_bytes f (drop i l).

(** [position(f).map_or(value.len(), |relative| i + relative)] from index [i]. *)
Definition end_of_value (f : ascii -> bool) (l : bytes) (i : nat) : nat :=
  match position f (drop i l) with Some relative => i + relative | None => length l end.

(** [String::replace_range(a..b, REDACTED)]. *)
Definition replace_range (l : bytes) (a b : nat) : Run bytes :=
  if (a <=? b) && (b <=? length l) && is_char_boundary l a && is_char_boundary l b
  then Done (take a l ++ REDACTED ++ drop b l) else Panicked.

Definition token_end (c : ascii) : bool :=
  is_ascii_whitespace c || is_byte ","%char c || is_byte ";"%char c || is_byte DQUOTE c.

(** ** Assignments: [key = value], [key: value], quoted or not *)

Definition is_word_byte (c : ascii) : bool := is_ascii_alphanumeric c || is_byte "_"%char c.

(** The quote that opens the value, and the index its last byte stands before. *)
Definition quote_at (value : bytes) (cursor : nat) : option ascii :=
  match value !! cursor with
  | Some c => if is_byte SQUOTE c || is_byte DQUOTE c then Some c else None
  | None => None
  end.
Definition assignment_end (value key : bytes) (quote : option ascii) (cursor : nat) : nat :=
  if bool_decide (key = bytes_of "authorization") && prefix_ci BEARER (drop cursor value)
  then end_of_value token_end value (cursor + length BEARER)
  else end_of_value
    (fun c => match quote with
              | Some q => is_byte q c
              | None => is_ascii_whitespace c || is_byte ","%char c || is_byte ";"%char c
              end) value cursor.

Definition is_separator (o : option ascii) : bool :=
  match o with Some c => is_byte "="%char c || is_byte ":"%char c | None => false end.
Definition inside_word (value : bytes) (start : nat) : bool :=
  match start with
  | S previous => match value !! previous with Some c => is_word_byte c | None => false end
  | O => false
  end.

(** One occurrence of [key] at [start]: the edited line and the next
    [search_from]. *)
Definition redact_assignment_at (value key : bytes) (start : nat) : Run (bytes * nat) :=
  let after_key := start + length key in
  if inside_word value start then Done (value, after_key)
  else
    let cursor := skip_while
      (fun c => is_ascii_whitespace c || is_byte SQUOTE c || is_byte DQUOTE c) value after_key in
    if negb (is_separator (value !! cursor)) then Done (value, after_key)
    else
      let cursor := skip_while is_ascii_whitespace value (S cursor) in
      let quote := quote_at value cursor in
      let cursor := match quote with Some _ => S cursor | None => cursor end in
      let end_ := assignment_end value key quote cursor in
      if cursor <? end_ then
        value' ← replace_range value cursor end_;
        Done (value', cursor + length REDACTED)
      else Done (value, cursor).

Fixpoint redact_assignment_loop (fuel : nat) (value key : bytes) (search_from : nat) : Run bytes :=
  match fuel with
  | O => OutOfFuel
  | S fuel' =>
      found ← find_ascii_case_insensitive value key search_from;
      match found with
      | None => Done value
      | Some start =>
          state ← redact_assignment_at value key start;
          redact_assignment_loop fuel' state.1 key state.2
      end
  end.
Definition redact_assignment (value key : bytes) : Run bytes :=
  redact_assignment_loop (S (length value)) value key 0.

(** ** Bearer tokens *)

Fixpoint redact_bearer_loop (fuel : nat) (value : bytes) (search_from : nat) : Run bytes :=
  match fuel with
  | O => OutOfFuel
  | S fuel' =>
      found ← find_ascii_case_insensitive value BEARER search_from;
      match found with
      | None => Done value
      | Some start =>
          let token_start := start + length BEARER in
          let token_end := end_of_value token_end value token_start in
          value' ← (if token_start <? token_end
                    then replace_range value token_start token_end else Done value);
          redact_bearer_loop fuel' value' (token_start + length REDACTED)
      end
  end.
Definition redact_bearer_tokens (value : bytes) : Run bytes :=
  redact_bearer_loop (S (length value)) value 0.

(** ** Tokens known by their prefix *)

Fixpoint redact_prefix_loop (fuel : nat) (value prefix : bytes) (search_from : nat) : Run bytes :=
  match fuel with
  | O => OutOfFuel
  | S fuel' =>
      found ← find_ascii_case_insensitive value prefix search_from;
      match found with
      | None => Done value
      | Some start =>
          let end_ := end_of_value token_end value start in
          value' ← replace_range value start end_;
          redact_prefix_loop fuel' value' prefix (start + length REDACTED)
      end
  end.

Fixpoint run_each {A} (f : A -> bytes -> Run bytes) (xs : list A) (value : bytes) : Run bytes :=
  match xs with
  | [] => Done value
  | x :: rest => value' ← f x value; run_each f rest value'
  end.

Definition redact_prefixed_tokens (value : bytes) : Run bytes :=
  run_each (fun prefix value => redact_prefix_loop (S (length value)) value prefix 0)
    TOKEN_PREFIXES value.

Definition redact_line_bytes (line : bytes) : Run bytes :=
  value ← run_each (fun key value => redact_assignment value key) SENSITIVE_KEYS line;
  value ← redact_bearer_tokens value;
  redact_prefixed_tokens value.

Definition redact_line (line : string) : Run string :=
  out ← redact_line_bytes (bytes_of line); Done (string_of out).

(** The unit tests of the source. *)
Example redact_json : redact_line
  (String.concat "" ["{"; String DQUOTE ""; "access_token"; String DQUOTE ""; ":"; String DQUOTE "";
     "abc"; String DQUOTE ""; "} password: open"])
  = Done (String.concat "" ["{"; String DQUOTE ""; "access_token"; String DQUOTE ""; ":";
     String DQUOTE ""; "[REDACTED]"; String DQUOTE ""; "} password: [REDACTED]"]).
Proof. vm_compute. reflexivity. Qed.
Example redact_env : redact_line
  "TOKEN=one PASSWORD=two SECRET=three APP_KEY=four DATABASE_URL=postgres://user:pass@db/app ok=true"
  = Done "TOKEN=[REDACTED] PASSWORD=[REDACTED] SECRET=[REDACTED] APP_KEY=[REDACTED] DATABASE_URL=[REDACTED] ok=true".
Proof. vm_compute. reflexivity. Qed.
Example redact_github : redact_line "fetch failed with ghs_installation_token"
  = Done "fetch failed with [REDACTED]".
Proof. vm_compute. reflexivity. Qed.
Example redact_panics : redact_line "bearer " = Panicked.
Proof. vm_compute. reflexivity. Qed.
Example redact_leaks : redact_line "bearer ,bearer secret" = Done "bearer ,bearer secret".
Proof. vm_compute. reflexivity. Qed.
