(* ===== verification/ApiClient.v ===== *)
(** The control-plane client (core/src/api/client.rs, api/endpoints.rs,
    support/retry.rs): request construction, bounded retries under one
    idempotency key, acknowledgement checking and the sanitising of failure
    reports.  reqwest (sending, URL parsing, error texts) and the decoders
    serde derives are the classes below. *)
From S2P Require Import Prelude Text Protocol Async Ports.

#[local] Open Scope async_scope.

(** ** Retry policy.  A [Duration] is its nanoseconds. *)
Abbreviation Duration := N.
Definition from_secs (s : N) : Duration := (s * 1000000000)%N.
Definition from_millis (ms : N) : Duration := (ms * 1000000)%N.
Definition as_secs (d : Duration) : N := (d / 1000000000)%N.
Lemma as_secs_from_secs s : as_secs (from_secs s) = s.
Proof. unfold as_secs, from_secs. by apply N.div_mul. Qed.
Definition duration_max : Duration := (u64_max * 1000000000 + 999999999)%N.

Definition exponential_delay (attempt : N) (base maximum : Duration) : Duration :=
  let multiplier := N.min (2 ^ N.min attempt 16) u32_max in
  N.min (N.min (base * multiplier) duration_max) maximum.

Record RetryPolicy := { max_attempts : N; base_delay : Duration; max_delay : Duration }.
Definition default_retry : RetryPolicy :=
  {| max_attempts := 3; base_delay := from_millis 500; max_delay := from_secs 5 |}.
Definition no_retry : RetryPolicy := {| max_attempts := 1; base_delay := 0; max_delay := 0 |}.
Definition delay_after (p : RetryPolicy) (failed_attempt : N) : Duration :=
  exponential_delay failed_attempt (base_delay p) (max_delay p).

(** ** Endpoints *)
Definition COMMANDS : string := "/api/agent/v1/commands".
Definition HEARTBEAT : string := "/api/agent/v1/heartbeat".
Definition NODE_STATE : string := "/api/agent/v1/node-state".
Definition command_action (id : Uuid) (action : string) : string :=
  "/api/agent/v1/commands/" +:+ uuid_text id +:+ "/" +:+ action.
Definition repository_credential_endpoint (id : Uuid) : string :=
  command_action id "repository-credential".

(** ** HTTP *)

Inductive Method := GET | POST.

Record HttpRequest := {
  rq_method : Method;
  rq_url : string;
  rq_bearer : string;
  rq_agent_id : string;
  rq_accept : string;
  rq_idempotency_key : option string;
  rq_json : option Value
}.
(** A response: its status, and what reading its body gives. *)
Record Response := { rs_status : N; rs_body : Result TransportError string }.

Class Http (Op : Type -> Type) : Type := {
  http_send : HttpRequest -> Prog Op (Result TransportError Response);
  http_sleep : Duration -> Prog Op ();
  new_v4 : Prog Op Uuid
}.

Record ReportAcknowledgement := {
  accepted_count : N; duplicate_count : N; first_sequence : N; last_sequence : N }.
Definition default_acknowledgement : ReportAcknowledgement :=
  {| accepted_count := 0; duplicate_count := 0; first_sequence := 0; last_sequence := 0 |}.
Record TerminalConflictPayload := { tc_status : CommandStatus; tc_terminal_at : option string }.
Record ConflictPayload := {
  cf_status : option CommandStatus; cf_terminal_at : option string; cf_message : option string }.
Record RepositoryCredentialLeasePayload := { lease_username : string; lease_token : string }.

(** Decoders derived by serde, texts of reqwest and of the time crate. *)
Class WireCodec : Type := {
  decode_acknowledgement : string -> Result string ReportAcknowledgement;
  decode_terminal_conflict : string -> Result string TerminalConflictPayload;
  decode_conflict : string -> Result string ConflictPayload;
  decode_rejection : string -> Result string (option string);
  decode_commands : string -> Result string (list AgentCommand);
  decode_node_lifecycle : string -> Result string DesiredNodeLifecycleState;
  decode_lease : string -> Result string RepositoryCredentialLeasePayload;
  rfc3339 : Z -> string;
  status_error_text : N -> string;
  decode_error_text : string -> string
}.

Definition is_server_error (s : N) : bool := (500 <=? s)%N && (s <? 600)%N.
Definition is_client_error (s : N) : bool := (400 <=? s)%N && (s <? 500)%N.
Definition is_retryable_status (s : N) : bool :=
  is_server_error s || (s =? 408)%N || (s =? 429)%N.
Definition is_retryable_transport_error (e : TransportError) : bool :=
  is_connect e || is_timeout e || is_request e || is_body e.

(** An error that is neither of connection, time, request nor body. *)
Definition plain_error (text : string) : TransportError :=
  {| is_connect := false; is_timeout := false; is_request := false; is_body := false;
     te_text := text |}.

Definition event_value `{WireCodec} (e : DeploymentEvent) : Value :=
  Object [("type", Str (ev_type e)); ("level", Str (serde_name (ev_level e)));
          ("message", Str (ev_message e)); ("metadata", ev_metadata e);
          ("occurred_at", Str (rfc3339 (ev_occurred_at e)))].
Definition log_value `{WireCodec} (l : DeploymentLog) : Value :=
  Object [("stream", Str (serde_name (log_stream l))); ("message", Str (log_message l));
          ("recorded_at", Str (rfc3339 (log_recorded_at l)))].
(** The node's fields are flattened into the payload. *)
Definition heartbeat_value `{WireCodec} (h : HeartbeatPayload) : Value :=
  Object [("status", Str (serde_name (hb_status h))); ("hostname", Str (ni_hostname (hb_node h)));
          ("runtime_network", Str (ni_runtime_network (hb_node h)));
          ("capabilities", Array (map Str (ni_capabilities (hb_node h))));
          ("metadata", hb_metadata h); ("sent_at", Str (rfc3339 (hb_sent_at h)))].

(** ** Sanitising *)

Definition MAX_ERROR_CODE_CHARS : nat := 64.
Definition MAX_ERROR_MESSAGE_CHARS : nat := 1000.

Definition is_code_char (g : char) : bool :=
  match g with
  | [c] => is_ascii_alphanumeric c || bool_decide (c = "."%char) || bool_decide (c = "_"%char)
           || bool_decide (c = "-"%char)
  | _ => false
  end.
Definition sanitize_error_code (code : string) : string :=
  let sanitized := List.concat (take MAX_ERROR_CODE_CHARS
    (map (fun g => if is_code_char g then g else ["_"%char]) (chars (bytes_of code)))) in
  match sanitized with [] => "runtime_execution_failed" | _ => string_of sanitized end.

Definition is_disallowed_message_char (g : char) : bool :=
  let c := code_point g in
  is_control g || in_range 0x200B 0x200F c || in_range 0x202A 0x202E c
  || in_range 0x2060 0x2064 c || in_range 0x2066 0x2069 c || (c =? 0xFEFF)%N.
Definition sanitize_error_message (message : string) : string :=
  let sanitized := List.concat (take MAX_ERROR_MESSAGE_CHARS
    (List.filter (fun g => negb (is_disallowed_message_char g)) (chars (bytes_of message)))) in
  match trim_bytes sanitized with [] => "runtime execution failed" | trimmed => string_of trimmed end.

(** ** The client *)

Record ApiClient := { base_url : string; agent_id : string; token : string; retry : RetryPolicy }.

Definition trim_end_slashes (s : string) : string :=
  string_of (rev (drop_while (fun c => bool_decide (c = "/"%char)) (rev (bytes_of s)))).

(** [ApiClient::new]; [url_scheme] is [Url::parse] (the scheme, or an error
    text) and [build_http] the outcome of building reqwest's client. *)
Definition new_client (url_scheme : string -> Result string string) (build_http : Result TransportError ())
    (base_url agent_id token : string) : Result CoreError ApiClient :=
  let base_url := trim_end_slashes base_url in
  scheme ← map_err (fun e => InvalidConfiguration ("SAKALA_API_URL is invalid: " +:+ e)) (url_scheme base_url);
  if negb (bool_decide (scheme = "http") || bool_decide (scheme = "https"))
  then Err (InvalidConfiguration "SAKALA_API_URL must use http or https")
  else if is_empty (trim agent_id) || is_empty (trim token)
  then Err (InvalidConfiguration "agent id and token must not be empty")
  else
    _ ← map_err Api build_http;
    Ok {| base_url := base_url; agent_id := agent_id; token := token; retry := default_retry |}.

Definition request (c : ApiClient) (method : Method) (endpoint : string)
    (key : option string) (body : option Value) : HttpRequest :=
  {| rq_method := method; rq_url := base_url c +:+ endpoint; rq_bearer := token c;
     rq_agent_id := agent_id c; rq_accept := "application/json";
     rq_idempotency_key := key; rq_json := body |}.

Section Client.
Context {Op : Type -> Type} `{!Http Op} {codec : WireCodec}.
Context (client : ApiClient).

Definition error_for_status (r : Response) : Result CoreError Response :=
  if is_client_error (rs_status r) || is_server_error (rs_status r)
  then Err (Api (plain_error (status_error_text (rs_status r)))) else Ok r.

(** [response.json::<T>()]. *)
Definition json_of {A} (decode : string -> Result string A) (r : Response) : Result CoreError A :=
  match rs_body r with
  | Err e => Err (Api e)
  | Ok body => map_err (fun e => Api (plain_error (decode_error_text e))) (decode body)
  end.

Definition send (rq : HttpRequest) : Async Op CoreError Response :=
  with_error Api (http_send rq).

Definition poll_commands : Async Op CoreError (list AgentCommand) :=
  response <- send (request client GET COMMANDS None None) ;;
  response <- lift (error_for_status response) ;;
  lift (json_of decode_commands response).

Definition heartbeat (payload : HeartbeatPayload) : Async Op CoreError () :=
  response <- send (request client POST HEARTBEAT None (Some (heartbeat_value payload))) ;;
  lift (error_for_status response) ;;; ok ().

Definition node_lifecycle : Async Op CoreError DesiredNodeLifecycleState :=
  response <- send (request client GET NODE_STATE None None) ;;
  response <- lift (error_for_status response) ;;
  lift (json_of decode_node_lifecycle response).

Definition claim (id : Uuid) : Async Op CoreError () :=
  response <- send (request client POST (command_action id "claim") None (Some (Object []))) ;;
  if (rs_status response =? 409)%N then err CommandNotClaimable
  else lift (error_for_status response) ;;; ok ().

(** [{acknowledgement:?}] *)
Definition acknowledgement_debug (a : ReportAcknowledgement) : string :=
  "ReportAcknowledgement { accepted_count: " +:+ pretty (accepted_count a)
  +:+ ", duplicate_count: " +:+ pretty (duplicate_count a)
  +:+ ", first_sequence: " +:+ pretty (first_sequence a)
  +:+ ", last_sequence: " +:+ pretty (last_sequence a) +:+ " }".

Definition conflict_detail (r : Response) : string :=
  match json_of decode_conflict r with
  | Ok p =>
      match cf_status p, cf_terminal_at p, cf_message p with
      | Some status, Some terminal_at, _ =>
          "command is " +:+ serde_name status +:+ " at " +:+ terminal_at
      | Some status, None, _ => "command is " +:+ serde_name status
      | None, _, Some message => message
      | None, _, None => "command conflict"
      end
  | Err _ => "command conflict"
  end.
Definition rejection_detail (r : Response) : string :=
  match json_of decode_rejection r with
  | Ok (Some message) => message
  | _ => "report rejected by control plane"
  end.

Definition report_outcome (r : Response) (item_count : N) : Result CoreError ReportAcknowledgement :=
  let status := rs_status r in
  if (status =? 409)%N then Err (ReportRejected status (conflict_detail r))
  else if (status =? 422)%N || (status =? 413)%N
  then Err (ReportRejected status (rejection_detail r))
  else
    r ← error_for_status r;
    if (rs_status r =? 204)%N then Ok default_acknowledgement
    else if negb (rs_status r =? 200)%N
    then Err (InvalidReportAcknowledgement
                ("unexpected HTTP " +:+ pretty (rs_status r) +:+ " for report"))
    else
      body ← map_err Api (rs_body r);
      ack ← map_err (fun e => InvalidReportAcknowledgement
              ("acknowledgement body does not match the contract: " +:+ e))
            (decode_acknowledgement body);
      if (item_count <=? u64_max)%N && negb (accepted_count ack =? item_count)%N
      then Err (InvalidReportAcknowledgement
             ("acknowledgement accepted " +:+ pretty (accepted_count ack) +:+ " of "
              +:+ pretty item_count +:+ " items: " +:+ acknowledgement_debug ack))
      else if (accepted_count ack <? duplicate_count ack)%N
              || (last_sequence ack <? first_sequence ack)%N
      then Err (InvalidReportAcknowledgement
             ("acknowledgement counters are inconsistent: " +:+ acknowledgement_debug ack))
      else Ok ack.

(** What one attempt gave: the result of the report, or the text of a
    transient failure. *)
Definition report_attempt (outcome : Result TransportError Response) (item_count : N)
  : Result CoreError ReportAcknowledgement + string :=
  match outcome with
  | Ok response =>
      if is_retryable_status (rs_status response)
      then inr ("HTTP " +:+ pretty (rs_status response))
      else match report_outcome response item_count with
      | Ok ack => inl (Ok ack)
      | Err (Api e) => if is_retryable_transport_error e then inr (te_text e) else inl (Err (Api e))
      | Err e => inl (Err e)
      end
  | Err e => if is_retryable_transport_error e then inr (te_text e) else inl (Err (Api e))
  end.

Definition attempts : N := N.max (max_attempts (retry client)) 1.

(** The loop of [report]; [left] is [attempts - 1 - attempt]. *)
Fixpoint report_loop (rq : HttpRequest) (item_count : N) (left : nat) (attempt : N)
  : Async Op CoreError ReportAcknowledgement :=
  outcome <~ http_send rq ;;
  match report_attempt outcome item_count with
  | inl result => lift result
  | inr transient =>
      match left with
      | O => err (InvalidReportAcknowledgement
               ("report not acknowledged after " +:+ pretty attempts +:+ " attempts: " +:+ transient))
      | S left' =>
          _ <~ http_sleep (delay_after (retry client) attempt) ;;
          report_loop rq item_count left' (attempt + 1)%N
      end
  end.

Definition report (endpoint : string) (payload : Value) (item_count : N)
  : Async Op CoreError ReportAcknowledgement :=
  key <~ new_v4 ;;
  report_loop (request client POST endpoint (Some (uuid_text key)) (Some payload)) item_count
    (N.to_nat (attempts - 1)) 0.

Definition events (id : Uuid) (es : list DeploymentEvent) : Async Op CoreError ReportAcknowledgement :=
  report (command_action id "events") (Object [("events", Array (map event_value es))])
    (N.of_nat (length es)).
Definition event (id : Uuid) (e : DeploymentEvent) := events id [e].
Definition logs (id : Uuid) (ls : list DeploymentLog) : Async Op CoreError ReportAcknowledgement :=
  report (command_action id "logs") (Object [("logs", Array (map log_value ls))])
    (N.of_nat (length ls)).

Definition retryable (outcome : Result TransportError Response) : bool :=
  match outcome with
  | Ok response => is_retryable_status (rs_status response)
  | Err e => is_retryable_transport_error e
  end.

Fixpoint send_loop (rq : HttpRequest) (left : nat) (attempt : N) : Async Op CoreError Response :=
  outcome <~ http_send rq ;;
  if negb (retryable outcome) then lift (map_err Api outcome)
  else match left with
  | O => lift (map_err Api outcome)
  | S left' =>
      _ <~ http_sleep (delay_after (retry client) attempt) ;;
      send_loop rq left' (attempt + 1)%N
  end.
Definition send_with_retry (rq : HttpRequest) : Async Op CoreError Response :=
  send_loop rq (N.to_nat (attempts - 1)) 0.

(** What a terminal report makes of the last response. *)
Definition terminal_outcome (expected : CommandStatus) (r : Response) : Result CoreError () :=
  if negb (rs_status r =? 409)%N then _ ← error_for_status r; Ok ()
  else
    terminal ← json_of decode_terminal_conflict r;
    if bool_decide (tc_status terminal = expected) then Ok ()
    else Err (CommandTerminalConflict
           (match tc_terminal_at terminal with
            | Some at_ => serde_name (tc_status terminal) +:+ " at " +:+ at_
            | None => serde_name (tc_status terminal)
            end)).

Definition post_terminal (endpoint : string) (payload : Value) (expected : CommandStatus)
  : Async Op CoreError () :=
  response <- send_with_retry (request client POST endpoint None (Some payload)) ;;
  lift (terminal_outcome expected response).

Definition complete (id : Uuid) (result : Value) : Async Op CoreError () :=
  post_terminal (command_action id "complete") (Object [("result", result)]) Succeeded.
Definition fail (id : Uuid) (error_code error_message : string) : Async Op CoreError () :=
  post_terminal (command_action id "fail")
    (Object [("error_code", Str (sanitize_error_code error_code));
             ("error_message", Str (sanitize_error_message error_message))]) Failed.

Definition repository_credential (id : Uuid) : Async Op CoreError RepositoryCredential :=
  response <- send (request client POST (repository_credential_endpoint id) None (Some (Object []))) ;;
  response <- lift (error_for_status response) ;;
  payload <- lift (json_of decode_lease response) ;;
  if is_empty (trim (lease_username payload)) || is_empty (trim (lease_token payload))
  then err (InvalidConfiguration "repository credential lease is missing username or token")
  else ok {| rc_username := lease_username payload; rc_token := MkSecret (lease_token payload) |}.

(** [ApiRepositoryCredentialProvider::credential] (core/src/repositories.rs). *)
Definition api_credential (id : Uuid) (access : RepositoryAccess)
  : Async Op RuntimeExecutionError (option RepositoryCredential) :=
  match access with
  | Public => ok None
  | TemporaryCredential =>
      with_error (fun e => new_error "repository_credential_unavailable"
        ("could not obtain temporary repository credential: " +:+ core_error_text e))
        (lease <- repository_credential id ;; ok (Some lease))
  end.
End Client.

(** The control plane as the rest of the agent uses it. *)
Class ControlPlane (Op : Type -> Type) : Type := {
  cp_claim : Uuid -> Async Op CoreError ();
  cp_event : Uuid -> DeploymentEvent -> Async Op CoreError ReportAcknowledgement;
  cp_logs : Uuid -> list DeploymentLog -> Async Op CoreError ReportAcknowledgement;
  cp_complete : Uuid -> Value -> Async Op CoreError ();
  cp_fail : Uuid -> string -> string -> Async Op CoreError ();
  cp_heartbeat : HeartbeatPayload -> Async Op CoreError ()
}.
#[export] Instance ApiControlPlane {Op} `{!Http Op} `{!WireCodec} (client : ApiClient) : ControlPlane Op := {
  cp_claim := claim client;
  cp_event := event client;
  cp_logs := logs client;
  cp_complete := complete client;
  cp_fail := fail client;
  cp_heartbeat := heartbeat client
}.

(** ** The client over an open network *)

Inductive HttpOp : Type -> Type :=
| HttpSend (rq : HttpRequest) : HttpOp (Result TransportError Response)
| HttpSleep (d : Duration) : HttpOp ()
| NewUuid : HttpOp Uuid.
#[export] Instance HttpOp_http : Http HttpOp := {
  http_send rq := trigger (HttpSend rq);
  http_sleep d := trigger (HttpSleep d);
  new_v4 := trigger NewUuid
}.
