(* ===== verification/ApiClientFacts.v ===== *)
(** Theorems about the control-plane client: what a report or a terminal
    transition sends, how often, and what its success means; the shape of
    sanitised failure reports. *)
From S2P Require Import Prelude Text Protocol Async Ports ApiClient.

#[local] Open Scope async_scope.

(** The calls of a retried request: the same request each time, the policy's
    delays between. *)
Fixpoint retry_trace (policy : RetryPolicy) (rq : HttpRequest) (attempt : N)
    (outcomes : list (Result TransportError Response)) : list (Call HttpOp) :=
  match outcomes with
  | [] => []
  | [last] => [MkCall (HttpSend rq) last]
  | outcome :: rest =>
      MkCall (HttpSend rq) outcome :: MkCall (HttpSleep (delay_after policy attempt)) tt
      :: retry_trace policy rq (attempt + 1) rest
  end.

Section Retry.
Context {codec : WireCodec} (client : ApiClient).

Definition transient (n : N) (o : Result TransportError Response) : Prop :=
  exists text, report_attempt o n = inr text.

Lemma retry_trace_cons policy rq attempt o o' rest :
  retry_trace policy rq attempt (o :: o' :: rest) =
  MkCall (HttpSend rq) o :: MkCall (HttpSleep (delay_after policy attempt)) tt
  :: retry_trace policy rq (attempt + 1) (o' :: rest).
Proof. reflexivity. Qed.

Lemma report_loop_runs rq n left attempt tr r :
  runs (report_loop (Op := HttpOp) client rq n left attempt) tr r ->
  exists outs last, tr = retry_trace (retry client) rq attempt (outs ++ [last]) /\
    length outs <= left /\ Forall (transient n) outs /\
    match report_attempt last n with
    | inl res => r = res
    | inr text => length outs = left /\
        r = Err (InvalidReportAcknowledgement ("report not acknowledged after "
                   +:+ pretty (attempts client) +:+ " attempts: " +:+ text))
    end.
Proof.
  revert attempt tr. induction left as [|left IH]; intros attempt tr;
    cbn [report_loop]; intros (outcome & tr' & -> & H); cbn in H |- *;
    destruct (report_attempt outcome n) as [res|text] eqn:E.
  - destruct H as [-> ->]. exists [], outcome. by rewrite E.
  - destruct H as [-> ->]. exists [], outcome. by rewrite E.
  - destruct H as [-> ->]. exists [], outcome. rewrite E. split_and!; [done|cbn; lia|done..].
  - destruct H as ([] & tr'' & -> & H).
    destruct (IH _ _ H) as (outs & last & -> & Hlen & Hall & Hr).
    exists (outcome :: outs), last. split_and!.
    + destruct outs; done.
    + cbn. lia.
    + constructor; [by exists text | done].
    + destruct (report_attempt last n); [done|]. destruct Hr as [<- ->]. done.
Qed.

Lemma send_loop_runs rq left attempt tr r :
  runs (send_loop (Op := HttpOp) client rq left attempt) tr r ->
  exists outs last, tr = retry_trace (retry client) rq attempt (outs ++ [last]) /\
    length outs <= left /\ Forall (fun o => retryable o = true) outs /\
    (retryable last = false \/ length outs = left) /\ r = map_err Api last.
Proof.
  revert attempt tr. induction left as [|left IH]; intros attempt tr;
    cbn [send_loop]; intros (outcome & tr' & -> & H); cbn in H |- *;
    destruct (retryable outcome) eqn:E; cbn in H.
  - destruct H as [-> ->]. exists [], outcome. split_and!; auto.
  - destruct H as [-> ->]. exists [], outcome. split_and!; auto.
  - destruct H as ([] & tr'' & -> & H).
    destruct (IH _ _ H) as (outs & last & -> & Hlen & Hall & Hr & ->).
    exists (outcome :: outs), last. split_and!.
    + destruct outs; done.
    + cbn. lia.
    + by constructor.
    + destruct Hr as [->| <-]; auto.
    + done.
  - destruct H as [-> ->]. exists [], outcome. split_and!; auto. cbn. lia.
Qed.

(** A terminal transition: one request, until an outcome is not retryable or
    the attempts are used up. *)
Lemma post_terminal_runs endpoint payload expected tr r :
  runs (post_terminal (Op := HttpOp) client endpoint payload expected) tr r ->
  exists outs last,
    tr = retry_trace (retry client) (request client POST endpoint None (Some payload)) 0 (outs ++ [last]) /\
    length outs <= N.to_nat (attempts client - 1) /\ Forall (fun o => retryable o = true) outs /\
    (retryable last = false \/ length outs = N.to_nat (attempts client - 1)) /\
    r = match last with Ok response => terminal_outcome expected response | Err e => Err (Api e) end.
Proof.
  intros [(e & H & ->)|(t1 & t2 & response & -> & H & Ht)]%runs_and_then;
    apply send_loop_runs in H as (outs & last & -> & Hlen & Hall & Hlast & Hr); exists outs, last;
    (destruct last as [resp|e']; [|]); simplify_eq/=; [done|].
  destruct Ht as [-> ->]. by rewrite app_nil_r.
Qed.

(** What the client sends. *)
Definition sends (P : HttpRequest -> Prop) X (o : HttpOp X) : Prop :=
  match o with HttpSend rq => P rq | _ => True end.
Lemma report_sends (P : HttpRequest -> Prop) endpoint payload n :
  (forall key, P (request client POST endpoint (Some (uuid_text key)) (Some payload))) ->
  only (sends P) (report (Op := HttpOp) client endpoint payload n).
Proof.
  intros HP. unfold report. apply only_bind; [by split|]. intros key. specialize (HP key).
  generalize (N.to_nat (attempts client - 1)), 0%N. intros left.
  induction left as [|left IH]; intros attempt; cbn [report_loop]; only_calls; done.
Qed.
Lemma claim_sends (P : HttpRequest -> Prop) id :
  P (request client POST (command_action id "claim") None (Some (Object []))) ->
  only (sends P) (claim (Op := HttpOp) client id).
Proof. intros HP. unfold claim, send. only_calls; done. Qed.
Lemma credential_sends (P : HttpRequest -> Prop) id access :
  P (request client POST (repository_credential_endpoint id) None (Some (Object []))) ->
  only (sends P) (api_credential (Op := HttpOp) client id access).
Proof. intros HP. unfold api_credential, repository_credential, send. only_calls; done. Qed.

(** The acknowledgement that a response carries accounts for every item. *)
Definition acknowledges (n : N) (o : Result TransportError Response) (ack : ReportAcknowledgement) : Prop :=
  exists response, o = Ok response /\
    ((rs_status response = 204%N /\ ack = default_acknowledgement) \/
     (rs_status response = 200%N /\ accepted_count ack = n /\
      (duplicate_count ack <= n)%N /\ (first_sequence ack <= last_sequence ack)%N)).

Lemma report_attempt_Ok n o ack :
  (n <= u64_max)%N -> report_attempt o n = inl (Ok ack) -> acknowledges n o ack.
Proof.
  intros Hn. unfold report_attempt. destruct o as [response|e]; [|by repeat case_match].
  destruct (is_retryable_status _); [done|].
  destruct (report_outcome response n) as [ack'|e] eqn:E; [|by destruct e; repeat case_match].
  intros [= ->]. exists response. split; [done|].
  unfold report_outcome in E. destruct (rs_status response =? 409)%N; [done|].
  destruct ((rs_status response =? 422)%N || (rs_status response =? 413)%N); [done|].
  apply Result_bind_Ok in E as (r & Hr & E).
  unfold error_for_status in Hr. destruct (_ || _); [done|]. injection Hr as <-.
  destruct (rs_status response =? 204)%N eqn:H204; [left; apply N.eqb_eq in H204; by injection E as <-|].
  destruct (rs_status response =? 200)%N eqn:H200; [|done]. apply N.eqb_eq in H200. right.
  cbn [negb] in E. apply Result_bind_Ok in E as (body & _ & E).
  apply Result_bind_Ok in E as (a & _ & E). rewrite (proj2 (N.leb_le _ _) Hn) in E. cbn [andb] in E.
  destruct (accepted_count a =? n)%N eqn:Hacc; [|done]. apply N.eqb_eq in Hacc. cbn [negb] in E.
  destruct (N.ltb_spec (accepted_count a) (duplicate_count a)); [done|].
  destruct (N.ltb_spec (last_sequence a) (first_sequence a)); [done|].
  injection E as <-. split_and!; [done|done|lia|done].
Qed.

Lemma attempts_pos : (1 <= attempts client)%N.
Proof. unfold attempts. lia. Qed.
End Retry.

(** C18. A report is one request under one idempotency key: every attempt sends
    the same bytes under the same key, the policy's delays stand between, only
    transient failures are retried and never more often than the policy
    allows; and a report that succeeds was acknowledged for every item of the
    batch. *)
Theorem report_delivers_whole_batch {codec : WireCodec} client endpoint payload n tr r :
  (n <= u64_max)%N ->
  runs (report (Op := HttpOp) client endpoint payload n) tr r ->
  exists key outs last,
    tr = MkCall NewUuid key :: retry_trace (retry client)
           (request client POST endpoint (Some (uuid_text key)) (Some payload)) 0 (outs ++ [last]) /\
    (N.of_nat (length outs) < attempts client)%N /\
    Forall (transient n) outs /\
    (is_err r = true -> transient n last -> N.of_nat (S (length outs)) = attempts client) /\
    forall ack, r = Ok ack -> acknowledges n last ack.
Proof.
  intros Hn (key & tr' & -> & H). apply report_loop_runs in H as (outs & last & -> & Hlen & Hall & Hr).
  exists key, outs, last. pose proof (attempts_pos client).
  split_and!; [done | lia | done | |].
  - intros _ (text & Ht). rewrite Ht in Hr. destruct Hr as [-> _]. lia.
  - intros ack ->. apply report_attempt_Ok; [done|].
    destruct (report_attempt last n) as [res|text]; [by subst|]. by destruct Hr.
Qed.

(** A terminal transition is idempotent: every attempt sends the same
    request, and the transition counts as done exactly when the last response
    is neither a client nor a server error, or is a conflict that reports the
    expected terminal status already reached. *)
Theorem post_terminal_idempotent {codec : WireCodec} client endpoint payload expected tr r :
  runs (post_terminal (Op := HttpOp) client endpoint payload expected) tr r ->
  exists outs last,
    tr = retry_trace (retry client) (request client POST endpoint None (Some payload)) 0 (outs ++ [last]) /\
    (N.of_nat (length outs) < attempts client)%N /\
    Forall (fun o => retryable o = true) outs /\
    (r = Ok () <->
     exists response, last = Ok response /\
       ((rs_status response <> 409%N /\
         is_client_error (rs_status response) = false /\ is_server_error (rs_status response) = false) \/
        (rs_status response = 409%N /\ exists body terminal,
           rs_body response = Ok body /\ decode_terminal_conflict body = Ok terminal /\
           tc_status terminal = expected))).
Proof.
  pose proof (attempts_pos client) as Hpos.
  intros (outs & last & -> & Hlen & Hall & _ & ->)%post_terminal_runs.
  exists outs, last. split_and!; [done|lia|done|].
  destruct last as [response|e]; [|by split; [|intros (? & ? & _)]].
  unfold terminal_outcome, error_for_status, json_of. split.
  - intros Hr. exists response. split; [done|].
    destruct (N.eqb_spec (rs_status response) 409) as [Heq|Hne]; cbn in Hr.
    + right. split; [done|]. destruct (rs_body response) as [body|e]; [|done].
      destruct (decode_terminal_conflict body) as [terminal|e] eqn:Hd; [|done]. cbn in Hr.
      case_bool_decide; [|done]. eauto.
    + left. destruct (is_client_error _), (is_server_error _); cbn in Hr; done.
  - intros (response' & [= <-] & [(Hne & Hc & Hs)|(Heq & body & terminal & Hb & Hd & Ht)]).
    + rewrite (proj2 (N.eqb_neq _ _) Hne), Hc, Hs. done.
    + rewrite Heq, Hb. cbn. rewrite Hd. cbn. by rewrite bool_decide_true.
Qed.

(** ** Sanitised failure reports *)

Definition code_byte (c : ascii) : bool := is_code_char [c].

Lemma code_group g : is_code_char g = true -> exists c, g = [c] /\ code_byte c = true.
Proof. destruct g as [|c [|]]; cbn; eauto; done. Qed.

Lemma code_byte_lead c : code_byte c = true -> is_continuation c = false.
Proof. by destruct c as [[][][][][][][][]]. Qed.

Lemma code_groups_bytes gs :
  Forall (fun g => is_code_char g = true) gs ->
  length (List.concat gs) = length gs /\ forallb code_byte (List.concat gs) = true.
Proof.
  induction 1 as [|g gs Hg Hgs [IH1 IH2]]; [done|].
  destruct (code_group g Hg) as (c & -> & Hc). cbn [List.concat app length forallb].
  rewrite Hc. split; [lia|done].
Qed.

Lemma code_groups_wf gs : Forall (fun g => is_code_char g = true) gs -> groups_wf gs.
Proof.
  intros H. split.
  - eapply Forall_impl; [exact H|]. intros g (c & -> & _)%code_group. done.
  - apply (sublist_Forall_inv _ (tail gs) gs).
    + destruct gs; cbn; [constructor|by constructor].
    + eapply Forall_impl; [exact H|]. intros g (c & -> & Hc)%code_group. cbn.
      by rewrite code_byte_lead.
Qed.

Lemma code_groups_fixed gs :
  Forall (fun g => is_code_char g = true) gs ->
  map (fun g => if is_code_char g then g else ["_"%char]) gs = gs.
Proof. induction 1 as [|g gs Hg Hgs IH]; cbn; [done|]. by rewrite Hg, IH. Qed.

(** Either the default code, or at most 64 characters of the alphabet. *)
Lemma sanitized_groups code :
  exists gs, Forall (fun g => is_code_char g = true) gs /\ 0 < length gs <= MAX_ERROR_CODE_CHARS /\
    sanitize_error_code code = string_of (List.concat gs).
Proof.
  unfold sanitize_error_code.
  set (gs := take _ (map _ (chars (bytes_of code)))).
  assert (Forall (fun g => is_code_char g = true) gs) as Hgs.
  { apply Forall_take, Forall_fmap, Forall_true. intros g. cbn. by destruct (is_code_char g) eqn:E. }
  assert (length gs <= MAX_ERROR_CODE_CHARS) as Hmax by (unfold gs; rewrite length_take; lia).
  clearbody gs. destruct (List.concat gs) as [|b bs] eqn:E.
  - exists (map (fun c => [c]) (bytes_of "runtime_execution_failed")).
    split_and!; [repeat constructor|cbn; lia|cbn; unfold MAX_ERROR_CODE_CHARS; lia|done].
  - exists gs. destruct (code_groups_bytes gs Hgs) as [Hl _]. rewrite E in Hl. cbn in Hl.
    split_and!; [done|lia|done|by rewrite E].
Qed.

(** Failure reports are sent in the control plane's form, whatever the
    runtime produced: the code has 1 to 64 characters of its alphabet and
    sanitising it again changes nothing; the message is not empty, has at most
    1000 characters and none of the control, bidi or zero-width ones. *)
Theorem failure_reports_sanitized code message :
  let c := sanitize_error_code code in
  let m := sanitize_error_message message in
  1 <= String.length c <= 64 /\ forallb code_byte (bytes_of c) = true /\
  sanitize_error_code c = c /\
  m <> EmptyString /\ length (chars (bytes_of m)) <= 1000 /\
  Forall (fun g => is_disallowed_message_char g = false) (chars (bytes_of m)).
Proof.
  cbv zeta. destruct (sanitized_groups code) as (gs & Hgs & Hlen & ->).
  destruct (code_groups_bytes gs Hgs) as [Hl Hb]. unfold MAX_ERROR_CODE_CHARS in Hlen.
  assert (sanitize_error_code (string_of (List.concat gs)) = string_of (List.concat gs)) as Hfix.
  { unfold sanitize_error_code. autorewrite with text.
    rewrite chars_concat by (by apply code_groups_wf). rewrite code_groups_fixed by done.
    rewrite take_ge by (unfold MAX_ERROR_CODE_CHARS; lia).
    destruct (List.concat gs) eqn:E; [cbn in Hl; lia|done]. }
  autorewrite with text. rewrite Hl.
  split_and!; [lia|lia|done|done|..]; unfold sanitize_error_message;
    set (ms := take _ _); destruct (trim_bytes (List.concat ms)) as [|b bs] eqn:E; try done.
  - apply Nat.leb_le. vm_compute. reflexivity.
  - rewrite bytes_of_string_of, <- E, chars_trim_concat.
    + etrans; [apply sublist_length, sublist_trim|]. unfold ms. rewrite length_take.
      unfold MAX_ERROR_MESSAGE_CHARS. lia.
    + eapply groups_wf_sublist; [|apply (chars_wf (bytes_of message))].
      unfold ms. etrans; [apply sublist_take|apply sublist_filter_bool].
  - repeat constructor.
  - rewrite bytes_of_string_of, <- E, chars_trim_concat.
    + eapply sublist_Forall_inv; [apply sublist_trim|]. unfold ms. apply Forall_take.
      apply List.Forall_forall. intros g [_ Hg]%List.filter_In. by apply negb_true_iff in Hg.
    + eapply groups_wf_sublist; [|apply (chars_wf (bytes_of message))].
      unfold ms. etrans; [apply sublist_take|apply sublist_filter_bool].
Qed.

(** ** A concrete network *)

Definition sample_codec : WireCodec := {|
  decode_acknowledgement body :=
    if bool_decide (body = "ack") then Ok {| accepted_count := 2; duplicate_count := 0;
      first_sequence := 1; last_sequence := 2 |} else Err "expected value";
  decode_terminal_conflict body :=
    if bool_decide (body = "failed") then Ok {| tc_status := Failed; tc_terminal_at := None |}
    else Err "expected value";
  decode_conflict _ := Err "expected value";
  decode_rejection _ := Err "expected value";
  decode_commands _ := Ok [];
  decode_node_lifecycle _ := Ok DesiredActive;
  decode_lease _ := Err "expected value";
  rfc3339 _ := "1970-01-01T00:00:00Z";
  status_error_text s := "HTTP status error " +:+ pretty s;
  decode_error_text e := e
|}.
Definition sample_client : ApiClient :=
  {| base_url := "https://cp.example"; agent_id := "agent-1"; token := "secret";
     retry := default_retry |}.

(** Answers 503 first, then [final]. *)
Definition flaky_network (final : Response) : Env HttpOp := fun past X o =>
  match o in HttpOp T return T with
  | HttpSend _ =>
      if Nat.leb 2 (length past) then Ok final else Ok {| rs_status := 503; rs_body := Ok "later" |}
  | HttpSleep _ => tt
  | NewUuid => MkUuid "c0ffee00-0000-4000-8000-000000000000"
  end.

Definition sample_report : Async HttpOp CoreError ReportAcknowledgement :=
  report (codec := sample_codec) sample_client "/api/agent/v1/commands/1/logs" (Object []) 2.
Definition sample_report_run := run_with (flaky_network {| rs_status := 200; rs_body := Ok "ack" |}) sample_report.

Lemma report_delivers_witness :
  sample_report_run.2 = Ok {| accepted_count := 2; duplicate_count := 0; first_sequence := 1; last_sequence := 2 |} /\
  exists key outs last, sample_report_run.1 = MkCall NewUuid key :: retry_trace default_retry
    (request sample_client POST "/api/agent/v1/commands/1/logs" (Some (uuid_text key)) (Some (Object []))) 0
    (outs ++ [last]).
Proof.
  split; [vm_compute; reflexivity|].
  destruct (report_delivers_whole_batch (codec := sample_codec) sample_client
    "/api/agent/v1/commands/1/logs" (Object []) 2 sample_report_run.1 sample_report_run.2)
    as (key & outs & last & H & _).
  - vm_compute. discriminate.
  - apply runs_run_from.
  - exists key, outs, last. exact H.
Defined.

Definition sample_terminal : Async HttpOp CoreError () :=
  post_terminal (codec := sample_codec) sample_client "/api/agent/v1/commands/1/fail" (Object []) Failed.
Definition sample_terminal_run :=
  run_with (flaky_network {| rs_status := 409; rs_body := Ok "failed" |}) sample_terminal.
Lemma post_terminal_witness :
  sample_terminal_run.2 = Ok () /\
  exists outs last, sample_terminal_run.1 = retry_trace default_retry
    (request sample_client POST "/api/agent/v1/commands/1/fail" None (Some (Object []))) 0 (outs ++ [last]).
Proof.
  split; [vm_compute; reflexivity|].
  destruct (post_terminal_idempotent (codec := sample_codec) sample_client
    "/api/agent/v1/commands/1/fail" (Object []) Failed sample_terminal_run.1 sample_terminal_run.2)
    as (outs & last & H & _).
  - apply runs_run_from.
  - exists outs, last. exact H.
Defined.
