(* ===== verification/Dispatcher.v ===== *)
(** Dispatch of a claimed command to the runtime
    (core/src/commands/dispatcher.rs and commands/handlers/). *)
From S2P Require Import Prelude Text Protocol Async Ports NodeState.

#[local] Open Scope async_scope.

(** The node's maintenance state, shared with the poller and the heartbeat. *)
Class LifecycleOps (Op : Type -> Type) : Type := {
  load_lifecycle : Prog Op NodeLifecycle;
  store_lifecycle : NodeLifecycle -> Prog Op ()
}.

(** The payload decoders that [serde] derives; an error is its text. *)
Class PayloadCodec : Type := {
  deploy_payload : Value -> Result string DeployProjectPayload;
  inspect_payload : Value -> Result string InspectProjectPayload;
  reconcile_workload_payload : Value -> Result string ReconcileWorkloadPayload;
  cleanup_runtime_payload : Value -> Result string CleanupRuntimePayload
}.

Definition payload_error {A} (prefix : string) (r : Result string A) : Result RuntimeExecutionError A :=
  map_err (fun e => invalid_command (prefix +:+ e)) r.

Definition require {A} (o : option A) (message : string) : Result RuntimeExecutionError A :=
  ok_or o (invalid_command message).

Definition lifecycle_request (c : AgentCommand) : Result RuntimeExecutionError WorkloadLifecycleRequest :=
  project_id ← require (cmd_project_id c) "lifecycle command requires project_id";
  deployment_id ← require (cmd_deployment_id c) "lifecycle command requires deployment_id";
  Ok {| lq_command_id := cmd_id c; lq_project_id := project_id; lq_deployment_id := deployment_id |}.

Section Dispatch.
Context {Op : Type -> Type} `{!Ambient Op} `{!RuntimeReporter Op} `{!RuntimeExecutor Op}
        `{!RepositoryCredentialProvider Op} `{!LifecycleOps Op} {codec : PayloadCodec}.
(** Whether the dispatcher was given a reporter factory. *)
Context (reporter_factory : bool).

Definition handle_inspect (c : AgentCommand) : Async Op RuntimeExecutionError CommandOutput :=
  payload <- lift (payload_error "InspectProject payload is invalid: " (inspect_payload (cmd_payload c))) ;;
  lease <- credential (cmd_id c) (ip_repository_access payload) ;;
  inspect_project {| iq_command_id := cmd_id c; iq_payload := payload; iq_credential := lease |}.

Definition handle_deploy (c : AgentCommand) : Async Op RuntimeExecutionError CommandOutput :=
  project_id <- lift (require (cmd_project_id c) "DeployProject requires project_id") ;;
  deployment_id <- lift (require (cmd_deployment_id c) "DeployProject requires deployment_id") ;;
  payload <- lift (payload_error "DeployProject payload is invalid: " (deploy_payload (cmd_payload c))) ;;
  lease <- credential (cmd_id c) (dp_repository_access payload) ;;
  deploy_project {| dq_command_id := cmd_id c; dq_project_id := project_id;
    dq_deployment_id := deployment_id; dq_payload := payload; dq_credential := lease |}.

Definition handle_lifecycle (c : AgentCommand)
    (operation : WorkloadLifecycleRequest -> Async Op RuntimeExecutionError CommandOutput) :=
  request <- lift (lifecycle_request c) ;; operation request.

Definition handle_reconcile (c : AgentCommand) : Async Op RuntimeExecutionError CommandOutput :=
  lifecycle <- lift (lifecycle_request c) ;;
  payload <- lift (payload_error "ReconcileWorkload payload is invalid: "
                     (reconcile_workload_payload (cmd_payload c))) ;;
  reconcile_workload {| rq_project_id := lq_project_id lifecycle;
    rq_deployment_id := lq_deployment_id lifecycle; rq_desired_state := rw_desired_state payload;
    rq_actions := rw_actions payload; rq_reporter_factory := reporter_factory |}.

Definition handle_cleanup (c : AgentCommand) : Async Op RuntimeExecutionError CommandOutput :=
  payload <- lift (payload_error "CleanupRuntime payload is invalid: "
                     (cleanup_runtime_payload (cmd_payload c))) ;;
  if negb (cr_approved payload)
  then err (invalid_command "CleanupRuntime requires approved=true")
  else match cr_targets payload with
  | [] => err (invalid_command "CleanupRuntime requires at least one target")
  | targets => cleanup_runtime {| cq_command_id := cmd_id c; cq_approved := cr_approved payload;
                                  cq_targets := targets |}
  end.

(** [NodeLifecycle::set] is one atomic store. *)
Definition set_lifecycle (s : NodeLifecycleState) : Prog Op () := store_lifecycle (with_state s).

Definition handle_drain : Async Op RuntimeExecutionError CommandOutput :=
  _ <~ set_lifecycle Draining ;;
  now <~ now_utc ;;
  report_event {| ev_type := "node.drain.started"; ev_level := Info;
    ev_message := "Node stopped accepting new workload commands.";
    ev_metadata := Object []; ev_occurred_at := now |} ;;;
  ok (with_result (Object [("state", Str "draining")])).

Definition capacity_fields (c : RuntimeCapacity) : list (string * Value) :=
  [("active_workloads", opt_value num (active_workloads c));
   ("maximum_active_workloads", opt_value num (maximum_active_workloads c));
   ("available_workload_slots", opt_value num (available_workload_slots c))].

Definition handle_resume : Async Op RuntimeExecutionError CommandOutput :=
  report <- preflight ;;
  if has_fatal_failure report
  then err (new_error "runtime_preflight_failed"
              "node cannot resume because runtime preflight has fatal failures")
  else
    cap <- capacity ;;
    _ <~ set_lifecycle Active ;;
    now <~ now_utc ;;
    report_event {| ev_type := "node.resume.completed"; ev_level := Info;
      ev_message := "Node preflight passed and workload command processing resumed.";
      ev_metadata := Object (capacity_fields cap); ev_occurred_at := now |} ;;;
    ok (with_result (Object [("state", Str "active"); ("capacity", Object (capacity_fields cap))])).

Definition dispatch (c : AgentCommand) : Async Op RuntimeExecutionError CommandOutput :=
  match cmd_command_type c with
  | InspectProject => handle_inspect c
  | DeployProject => handle_deploy c
  | RestartProject => handle_lifecycle c restart_project
  | StopProject => handle_lifecycle c stop_project
  | SleepProject => handle_lifecycle c sleep_project
  | WakeProject => handle_lifecycle c wake_project
  | HealthCheck => handle_lifecycle c Ports.health_check
  | RefreshRoute => handle_lifecycle c refresh_route
  | ReconcileWorkload => handle_reconcile c
  | CleanupRuntime => handle_cleanup c
  | DrainNode => handle_drain
  | ResumeNode => handle_resume
  end.
End Dispatch.
