(* ===== verification/CoreOps.v ===== *)
(** The effects of the core crate as one signature: every call that crosses a
    port of the core is an operation, so a run of a core component is the
    sequence of its port calls. *)
From S2P Require Import Prelude Text Protocol Async Ports NodeState ApiClient Dispatcher.

(** How long a component waits before it gives a computation up, by the name
    of the wait in the source. *)
Inductive Wait := ExecutionTimeout | FinalizationGrace | CleanupWindow | ProbeTimeout | HealthProbeDeadline.
#[global] Instance Wait_eq_dec : EqDecision Wait. Proof. solve_decision. Defined.

(** What ends a worker's pause ([select!] of [sleep] and [shutdown.changed()]):
    the sleep is over, or the shutdown channel changed; then it is closed (an
    error) or holds a value. *)
Inductive Wake := SleepEnded | ShutdownChanged (closed value : bool).
#[global] Instance Wake_eq_dec : EqDecision Wake. Proof. solve_decision. Defined.
(** [result.is_err() || *shutdown.borrow()] *)
Definition stops (w : Wake) : bool :=
  match w with SleepEnded => false | ShutdownChanged closed value => closed || value end.

Inductive CoreOp : Type -> Type :=
(* the control plane *)
| CpClaim (id : Uuid) : CoreOp (Result CoreError ())
| CpEvent (id : Uuid) (e : DeploymentEvent) : CoreOp (Result CoreError ReportAcknowledgement)
| CpLogs (id : Uuid) (ls : list DeploymentLog) : CoreOp (Result CoreError ReportAcknowledgement)
| CpComplete (id : Uuid) (result : Value) : CoreOp (Result CoreError ())
| CpFail (id : Uuid) (code message : string) : CoreOp (Result CoreError ())
| CpHeartbeat (p : HeartbeatPayload) : CoreOp (Result CoreError ())
(* the reporter of the command *)
| RpEvent (e : DeploymentEvent) : CoreOp (Result RuntimeExecutionError ())
| RpLog (l : DeploymentLog) : CoreOp (Result RuntimeExecutionError ())
| RpFlush : CoreOp (Result RuntimeExecutionError ())
| RpMarkCommitted (o : CommandOutput) : CoreOp ()
| RpCommitted : CoreOp bool
| RpCommittedOutput : CoreOp (option CommandOutput)
(* the runtime *)
| RtPreflight : CoreOp (Result RuntimeExecutionError RuntimePreflightReport)
| RtReconcile : CoreOp (Result RuntimeExecutionError RuntimeReconciliationReport)
| RtRecover (factory : bool) : CoreOp (Result RuntimeExecutionError RuntimeReconciliationReport)
| RtHealthSnapshot : CoreOp (Result RuntimeExecutionError (list RuntimeHealthSnapshot))
| RtNodeTelemetry : CoreOp (Result RuntimeExecutionError NodeTelemetry)
| RtShutdown : CoreOp (Result RuntimeExecutionError ())
| RtCapacity : CoreOp (Result RuntimeExecutionError RuntimeCapacity)
| RtInspect (r : InspectProjectRequest) : CoreOp (Result RuntimeExecutionError CommandOutput)
| RtDeploy (r : DeployProjectRequest) : CoreOp (Result RuntimeExecutionError CommandOutput)
| RtLifecycle (kind : CommandType) (r : WorkloadLifecycleRequest)
    : CoreOp (Result RuntimeExecutionError CommandOutput)
| RtReconcileWorkload (r : ReconcileWorkloadRequest) : CoreOp (Result RuntimeExecutionError CommandOutput)
| RtCleanup (r : CleanupRuntimeRequest) : CoreOp (Result RuntimeExecutionError CommandOutput)
(* credentials, maintenance state, clock, token, timers *)
| CredentialFor (id : Uuid) (a : RepositoryAccess)
    : CoreOp (Result RuntimeExecutionError (option RepositoryCredential))
| LoadLifecycle : CoreOp NodeLifecycle
| StoreLifecycle (l : NodeLifecycle) : CoreOp ()
| NowUtc : CoreOp Z
| IsCancelled : CoreOp bool
| CancelToken : CoreOp ()
| Elapsed (w : Wait) (d : Duration) : CoreOp bool
(* what a worker reads of the rest of the agent, and where it waits *)
| ReadReconciliation : CoreOp (option RuntimeReconciliationReport)
| LoadActiveCommands : CoreOp N
| LoadCapacityWaiting : CoreOp N
| AwaitWake (d : Duration) : CoreOp Wake.

#[export] Instance CoreOp_control_plane : ControlPlane CoreOp := {
  cp_claim id := trigger (CpClaim id);
  cp_event id e := trigger (CpEvent id e);
  cp_logs id ls := trigger (CpLogs id ls);
  cp_complete id v := trigger (CpComplete id v);
  cp_fail id code message := trigger (CpFail id code message);
  cp_heartbeat p := trigger (CpHeartbeat p)
}.
#[export] Instance CoreOp_reporter : RuntimeReporter CoreOp := {
  report_event e := trigger (RpEvent e);
  report_log l := trigger (RpLog l);
  report_flush := trigger RpFlush;
  mark_deployment_committed o := trigger (RpMarkCommitted o);
  deployment_committed := trigger RpCommitted;
  committed_output := trigger RpCommittedOutput
}.
#[export] Instance CoreOp_executor : RuntimeExecutor CoreOp := {
  preflight := trigger RtPreflight;
  reconcile := trigger RtReconcile;
  recover f := trigger (RtRecover f);
  health_snapshot := trigger RtHealthSnapshot;
  node_telemetry := trigger RtNodeTelemetry;
  shutdown := trigger RtShutdown;
  capacity := trigger RtCapacity;
  inspect_project r := trigger (RtInspect r);
  deploy_project r := trigger (RtDeploy r);
  restart_project r := trigger (RtLifecycle RestartProject r);
  stop_project r := trigger (RtLifecycle StopProject r);
  sleep_project r := trigger (RtLifecycle SleepProject r);
  wake_project r := trigger (RtLifecycle WakeProject r);
  health_check r := trigger (RtLifecycle HealthCheck r);
  refresh_route r := trigger (RtLifecycle RefreshRoute r);
  reconcile_workload r := trigger (RtReconcileWorkload r);
  cleanup_runtime r := trigger (RtCleanup r)
}.
#[export] Instance CoreOp_credentials : RepositoryCredentialProvider CoreOp :=
  fun id a => trigger (CredentialFor id a).
#[export] Instance CoreOp_lifecycle : LifecycleOps CoreOp := {
  load_lifecycle := trigger LoadLifecycle;
  store_lifecycle l := trigger (StoreLifecycle l)
}.
#[export] Instance CoreOp_ambient : Ambient CoreOp := {
  now_utc := trigger NowUtc;
  is_cancelled := trigger IsCancelled
}.

(** Timers and the command's cancellation token, as the processor and the
    heartbeat use them. *)
Class Timers (Op : Type -> Type) : Type := {
  elapsed : Wait -> Duration -> Prog Op bool;
  cancel_token : Prog Op ()
}.
#[export] Instance CoreOp_timers : Timers CoreOp := {
  elapsed w d := trigger (Elapsed w d);
  cancel_token := trigger CancelToken
}.

(** The shared state a worker reads (the lock of the reconciliation report,
    [None] when it is poisoned; the scheduler's counters) and its pause. *)
Class WorkerPort (Op : Type -> Type) : Type := {
  read_reconciliation : Prog Op (option RuntimeReconciliationReport);
  load_active_commands : Prog Op N;
  load_capacity_waiting : Prog Op N;
  await_wake : Duration -> Prog Op Wake
}.
#[export] Instance CoreOp_worker : WorkerPort CoreOp := {
  read_reconciliation := trigger ReadReconciliation;
  load_active_commands := trigger LoadActiveCommands;
  load_capacity_waiting := trigger LoadCapacityWaiting;
  await_wake d := trigger (AwaitWake d)
}.

(** Answers of every operation, for runs on concrete environments. *)
Definition quiet_answer {X} (o : CoreOp X) : X :=
  match o in CoreOp T return T with
  | CpClaim _ | CpComplete _ _ | CpFail _ _ _ | CpHeartbeat _ => Ok ()
  | CpEvent _ _ | CpLogs _ _ => Ok default_acknowledgement
  | RpEvent _ | RpLog _ | RpFlush => Ok ()
  | RpMarkCommitted _ => ()
  | RpCommitted => false
  | RpCommittedOutput => None
  | RtPreflight => Ok {| checks := [] |}
  | RtReconcile => Ok default_report
  | RtRecover _ => Ok default_report
  | RtHealthSnapshot => Ok []
  | RtNodeTelemetry => Ok default_telemetry
  | RtShutdown => Ok ()
  | RtCapacity => Ok default_capacity
  | RtInspect _ | RtDeploy _ | RtLifecycle _ _ | RtReconcileWorkload _ | RtCleanup _ => Ok default_output
  | CredentialFor _ _ => Ok None
  | LoadLifecycle => new_lifecycle
  | StoreLifecycle _ => ()
  | NowUtc => 0%Z
  | IsCancelled => false
  | CancelToken => ()
  | Elapsed _ _ => false
  | ReadReconciliation => Some default_report
  | LoadActiveCommands | LoadCapacityWaiting => 0%N
  | AwaitWake _ => ShutdownChanged false true
  end.
Definition quiet_env : Env CoreOp := fun _ X o => quiet_answer o.
