(* ===== verification/Reporting.v ===== *)
(** Bounded log delivery (core/src/reporting/runtime.rs).

    [LogState] is the struct behind the reporter's mutex; [accept_log],
    [take_batch] and [stop_delivery] are its critical sections.  [flush_pending]
    composes them with the control plane; [reporter_step] lets log lines of
    other tasks interleave with a flush that waits for an answer, or is dropped
    while it does. *)
From S2P Require Import Prelude Text Protocol Async Ports Redactor ApiClient.

#[local] Open Scope async_scope.

Definition DEFAULT_BATCH_LINES : N := 100.
Definition MAX_BATCH_BYTES : N := 512 * 1024.
Definition FLUSH_INTERVAL : Duration := from_millis 200.

Record LogState := {
  pending : list DeploymentLog;
  pending_bytes : N;
  bytes_sent : N;
  delivery_stopped : option string
}.
Definition default_log_state : LogState :=
  {| pending := []; pending_bytes := 0; bytes_sent := 0; delivery_stopped := None |}.

Record Reporter := {
  rp_command_id : Uuid;
  rp_log_bounds : LogBounds;
  rp_batch_max_lines : N;
  rp_flush_interval : Duration
}.
Definition with_flush_interval (id : Uuid) (bounds : LogBounds) (interval : Duration) : Reporter :=
  {| rp_command_id := id; rp_log_bounds := bounds;
     rp_batch_max_lines :=
       N.max (match max_batch_lines bounds with
              | Some lines => N.min lines DEFAULT_BATCH_LINES
              | None => DEFAULT_BATCH_LINES
              end) 1;
     rp_flush_interval := interval |}.
Definition new_reporter (id : Uuid) (bounds : LogBounds) : Reporter :=
  with_flush_interval id bounds FLUSH_INTERVAL.

(** ** Lines *)

Definition SPACE : ascii := " "%char.
(** Carriage returns and line feeds are single bytes. *)
Definition sanitise_byte (c : ascii) : ascii :=
  if bool_decide (c = CR) || bool_decide (c = LF) then SPACE else c.
Definition sanitise_line (value : bytes) : bytes := trim_end_bytes (map sanitise_byte value).

Definition truncate_utf8 (value : bytes) (maximum : option N) : bytes :=
  match maximum with
  | None => value
  | Some m =>
      if (N.of_nat (length value) <=? m)%N then value
      else take (floor_char_boundary value (N.to_nat m)) value
  end.

Definition message_len (l : DeploymentLog) : N := N.of_nat (String.length (log_message l)).
Definition set_message (l : DeploymentLog) (m : bytes) : DeploymentLog :=
  {| log_stream := log_stream l; log_message := string_of m; log_recorded_at := log_recorded_at l |}.

Definition bounded_log (l : DeploymentLog) (bounds : LogBounds) (sent : N) : Run (option DeploymentLog) :=
  if bool_decide (max_batch_lines bounds = Some 0%N) then Done None
  else
    redacted ← redact_line_bytes (bytes_of (log_message l));
    let message := truncate_utf8 (sanitise_line redacted) (max_line_length bounds) in
    Done match max_total_bytes bounds with
         | Some maximum =>
             if (maximum <=? sent)%N then None
             else match truncate_utf8 message (Some (maximum - sent)%N) with
                  | [] => None
                  | m => Some (set_message l m)
                  end
         | None => match message with [] => None | m => Some (set_message l m) end
         end.

(** ** Critical sections *)

Definition stopped_error (reason : string) : RuntimeExecutionError :=
  reporting ("log delivery stopped: " +:+ reason).

Inductive Accepted := Stopped (reason : string) | Dropped | Queued (flush_now : bool).

Definition accept_log (r : Reporter) (s : LogState) (l : DeploymentLog) : Run (Accepted * LogState) :=
  match delivery_stopped s with
  | Some reason => Done (Stopped reason, s)
  | None =>
      bounded ← bounded_log l (rp_log_bounds r) (bytes_sent s);
      Done match bounded with
           | None => (Dropped, s)
           | Some l' =>
               let s' := {| pending := pending s ++ [l'];
                            pending_bytes := (pending_bytes s + message_len l')%N;
                            bytes_sent := wrapping_add_u64 (bytes_sent s) (message_len l');
                            delivery_stopped := None |} in
               (Queued ((rp_batch_max_lines r <=? N.of_nat (length (pending s')))%N
                        || (MAX_BATCH_BYTES <=? pending_bytes s')%N), s')
           end
  end.

(** How many pending lines go into the next request, and their bytes. *)
Fixpoint batch_count (max_lines : N) (logs : list DeploymentLog) (count : nat) (bytes : N) : nat * N :=
  match logs with
  | [] => (count, bytes)
  | l :: rest =>
      if (Nat.ltb 0 count) && ((max_lines <=? N.of_nat count)%N || (MAX_BATCH_BYTES <? bytes + message_len l)%N)
      then (count, bytes)
      else batch_count max_lines rest (S count) (bytes + message_len l)%N
  end.

Definition take_batch (r : Reporter) (s : LogState)
  : Result RuntimeExecutionError (option (list DeploymentLog)) * LogState :=
  match delivery_stopped s, pending s with
  | Some reason, _ => (Err (stopped_error reason), s)
  | None, [] => (Ok None, s)
  | None, logs =>
      let (count, bytes) := batch_count (rp_batch_max_lines r) logs 0 0 in
      (Ok (Some (take count logs)),
       {| pending := drop count logs; pending_bytes := (pending_bytes s - bytes)%N;
          bytes_sent := bytes_sent s; delivery_stopped := None |})
  end.

Definition stop_delivery (s : LogState) (reason : string) : LogState :=
  {| pending := []; pending_bytes := 0; bytes_sent := bytes_sent s; delivery_stopped := Some reason |}.

(** ** Flushing, while no other task logs: the lines that are pending bound
    the rounds. *)
Section Flush.
Context {Op : Type -> Type} `{!ControlPlane Op} (r : Reporter).

Fixpoint flush_loop (fuel : nat) (s : LogState) : Prog Op (Run (Result RuntimeExecutionError () * LogState)) :=
  match take_batch r s with
  | (Err e, s) => Ret (Done (Err e, s))
  | (Ok None, s) => Ret (Done (Ok (), s))
  | (Ok (Some batch), s) =>
      match fuel with
      | O => Ret OutOfFuel
      | S fuel' =>
          outcome <~ cp_logs (rp_command_id r) batch ;;
          match outcome with
          | Ok _ => flush_loop fuel' s
          | Err e => Ret (Done (Err (stopped_error (core_error_text e)), stop_delivery s (core_error_text e)))
          end
      end
  end.
Definition flush_pending (s : LogState) : Prog Op (Run (Result RuntimeExecutionError () * LogState)) :=
  flush_loop (length (pending s)) s.

Definition reporter_event (e : DeploymentEvent) : Async Op RuntimeExecutionError () :=
  with_error (fun e => reporting (core_error_text e)) (cp_event (rp_command_id r) e ;;; ok ()).

(** [log]: a full batch is flushed at once, otherwise a flush is scheduled
    (the flag says so). *)
Definition reporter_log (s : LogState) (l : DeploymentLog)
  : Prog Op (Run (Result RuntimeExecutionError () * LogState * bool)) :=
  match accept_log r s l with
  | Done (Stopped reason, s) => Ret (Done (Err (stopped_error reason), s, false))
  | Done (Dropped, s) => Ret (Done (Ok (), s, false))
  | Done (Queued true, s) =>
      bind (flush_pending s) (fun out => Ret (result ← out; Done (result, false)))
  | Done (Queued false, s) => Ret (Done (Ok (), s, true))
  | Panicked => Ret Panicked
  | OutOfFuel => Ret OutOfFuel
  end.
End Flush.

(** ** The commit latch: the flag and the output are set together *)
Record Commit := { cm_committed : bool; cm_output : option CommandOutput }.
Definition not_committed : Commit := {| cm_committed := false; cm_output := None |}.
Definition mark_committed (_ : Commit) (output : CommandOutput) : Commit :=
  {| cm_committed := true; cm_output := Some output |}.
Definition commit_output (c : Commit) : option CommandOutput :=
  if cm_committed c then cm_output c else None.

(** ** Interleavings: log lines arrive while a flush waits for its answer.

    [rs_in_flight] is the batch that the task holding the flush lock has taken;
    a task may be dropped while it waits for the answer, and then what became of
    the batch is not known.  [rs_accepted] and [rs_sent] record the lines and
    the batches for the theorems. *)
Inductive Fate := Acknowledged | Rejected | Abandoned.
#[global] Instance Fate_eq_dec : EqDecision Fate. Proof. solve_decision. Defined.

Record ReporterState := {
  rs_log : LogState;
  rs_in_flight : option (list DeploymentLog);
  rs_accepted : list DeploymentLog;
  rs_sent : list (list DeploymentLog * Fate)
}.
Definition reporter_init : ReporterState :=
  {| rs_log := default_log_state; rs_in_flight := None; rs_accepted := []; rs_sent := [] |}.

Definition after_accept (st : ReporterState) (outcome : Accepted) (s' : LogState) : ReporterState :=
  {| rs_log := s'; rs_in_flight := rs_in_flight st;
     rs_accepted := match outcome with
                    | Queued _ => rs_accepted st ++ drop (length (pending (rs_log st))) (pending s')
                    | _ => rs_accepted st
                    end;
     rs_sent := rs_sent st |}.
Definition after_take (st : ReporterState) (batch : list DeploymentLog) (s' : LogState) : ReporterState :=
  {| rs_log := s'; rs_in_flight := Some batch; rs_accepted := rs_accepted st; rs_sent := rs_sent st |}.
Definition after_fate (st : ReporterState) (batch : list DeploymentLog) (f : Fate) (s' : LogState) : ReporterState :=
  {| rs_log := s'; rs_in_flight := None; rs_accepted := rs_accepted st; rs_sent := rs_sent st ++ [(batch, f)] |}.

Inductive reporter_step (r : Reporter) : ReporterState -> ReporterState -> Prop :=
| step_log st l outcome s' :
    accept_log r (rs_log st) l = Done (outcome, s') -> reporter_step r st (after_accept st outcome s')
| step_take st batch s' :
    rs_in_flight st = None -> take_batch r (rs_log st) = (Ok (Some batch), s') ->
    reporter_step r st (after_take st batch s')
| step_acknowledged st batch :
    rs_in_flight st = Some batch -> reporter_step r st (after_fate st batch Acknowledged (rs_log st))
| step_rejected st batch reason :
    rs_in_flight st = Some batch ->
    reporter_step r st (after_fate st batch Rejected (stop_delivery (rs_log st) reason))
| step_abandoned st batch :
    rs_in_flight st = Some batch -> reporter_step r st (after_fate st batch Abandoned (rs_log st)).

Inductive reporter_reaches (r : Reporter) : ReporterState -> Prop :=
| reach_init : reporter_reaches r reporter_init
| reach_step st st' : reporter_reaches r st -> reporter_step r st st' -> reporter_reaches r st'.

Definition sample_log (m : string) : DeploymentLog :=
  {| log_stream := Stdout; log_message := m; log_recorded_at := 0 |}.
Example bounded_redacts_first :
  bounded_log (sample_log "TOKEN=super-secret-value")
    {| max_line_length := Some 16%N; max_batch_lines := None; max_total_bytes := None |} 0
  = Done (Some (sample_log "TOKEN=[REDACTED]")).
Proof. vm_compute. reflexivity. Qed.
Example bounded_budget :
  bounded_log (sample_log "efgh")
    {| max_line_length := None; max_batch_lines := None; max_total_bytes := Some 6%N |} 4
  = Done (Some (sample_log "ef")).
Proof. vm_compute. reflexivity. Qed.
Example bounded_control_only : bounded_log (sample_log (string_of [CR; LF])) default_log_bounds 0 = Done None.
Proof. vm_compute. reflexivity. Qed.
