(* ===== verification/ReporterTasks.v ===== *)
(** The tasks of a reporter (core/src/reporting/runtime.rs): [log], [flush] and
    the flush that a line schedules, as programs over the reporter's shared
    state, and all their interleavings.  A task may be dropped wherever it
    awaits, as a deadline or a cancellation drops the future that logs. *)
From S2P Require Import Prelude Text Protocol Async Ports Redactor ApiClient Reporting.

#[local] Open Scope async_scope.

(** What a task does with [ReporterInner]: the flush lock, the critical
    sections of its state, the request, the flag of the scheduled flush, the
    task it spawns and the pause that one starts with. *)
Inductive QueueOp : Type -> Type :=
| LockFlush : QueueOp ()
| UnlockFlush : QueueOp ()
| AcceptLog (l : DeploymentLog) : QueueOp (Run Accepted)
| TakeBatch : QueueOp (Result RuntimeExecutionError (option (list DeploymentLog)))
| SendLogs (batch : list DeploymentLog) : QueueOp (Result CoreError ReportAcknowledgement)
| StopDelivery (reason : string) : QueueOp ()
| SwapScheduled : QueueOp bool
| ClearScheduled : QueueOp ()
| SpawnFlush : QueueOp ()
| FlushPause : QueueOp ().

(** Where a future may be suspended: locks, the request and the pause. *)
#[export] Instance QueueOp_awaits : Awaits QueueOp := fun X o =>
  match o with
  | LockFlush | AcceptLog _ | TakeBatch | SendLogs _ | StopDelivery _ | FlushPause => true
  | UnlockFlush | SwapScheduled | ClearScheduled | SpawnFlush => false
  end.

Abbreviation Task := (Prog QueueOp (Run (Result RuntimeExecutionError ()))).

(** The loop of [flush_pending]; other tasks may fill the queue while it runs,
    so nothing bounds its rounds. *)
Fixpoint flush_rounds (fuel : nat) : Task :=
  match fuel with
  | O => Ret OutOfFuel
  | S fuel =>
      batch <~ trigger TakeBatch ;;
      match batch with
      | Err e => Ret (Done (Err e))
      | Ok None => Ret (Done (Ok ()))
      | Ok (Some batch) =>
          answer <~ trigger (SendLogs batch) ;;
          match answer with
          | Ok _ => flush_rounds fuel
          | Err e =>
              _ <~ trigger (StopDelivery (core_error_text e)) ;;
              Ret (Done (Err (stopped_error (core_error_text e))))
          end
      end
  end.
Definition flush_task (fuel : nat) : Task :=
  _ <~ trigger LockFlush ;;
  out <~ flush_rounds fuel ;;
  match out with
  | Done result => _ <~ trigger UnlockFlush ;; Ret (Done result)
  | out => Ret out
  end.

(** The task [schedule_flush] spawns; the next line surfaces its failure. *)
Definition scheduled_task (fuel : nat) : Task :=
  _ <~ trigger FlushPause ;;
  _ <~ trigger ClearScheduled ;;
  out <~ flush_task fuel ;;
  Ret (_ ← out; Done (Ok ())).

Definition log_task (fuel : nat) (l : DeploymentLog) : Task :=
  accepted <~ trigger (AcceptLog l) ;;
  match accepted with
  | Done (Stopped reason) => Ret (Done (Err (stopped_error reason)))
  | Done Dropped => Ret (Done (Ok ()))
  | Done (Queued true) => flush_task fuel
  | Done (Queued false) =>
      scheduled <~ trigger SwapScheduled ;;
      _ <~ (if scheduled : bool then Ret () else trigger SpawnFlush) ;;
      Ret (Done (Ok ()))
  | Panicked => Ret Panicked
  | OutOfFuel => Ret OutOfFuel
  end.

(** ** The shared state *)

(** The reporter's state, the task that holds the flush lock, and whether a
    flush is scheduled. *)
Record Shared := { sh_state : ReporterState; sh_holder : option nat; sh_scheduled : bool }.
Definition shared_init : Shared := {| sh_state := reporter_init; sh_holder := None; sh_scheduled := false |}.
Definition with_state (s : Shared) (st : ReporterState) : Shared :=
  {| sh_state := st; sh_holder := sh_holder s; sh_scheduled := sh_scheduled s |}.
Definition with_holder (s : Shared) (h : option nat) : Shared :=
  {| sh_state := sh_state s; sh_holder := h; sh_scheduled := sh_scheduled s |}.
Definition with_scheduled (s : Shared) (b : bool) : Shared :=
  {| sh_state := sh_state s; sh_holder := sh_holder s; sh_scheduled := b |}.

(** What a call of task [i] answers, and what it leaves behind.  The control
    plane may answer anything; [SpawnFlush] is a step of the pool. *)
Definition serves (r : Reporter) (i : nat) (s : Shared) X (o : QueueOp X) : X -> Shared -> Prop :=
  let st := sh_state s in
  match o in QueueOp T return T -> Shared -> Prop with
  | LockFlush => fun _ s' => sh_holder s = None /\ s' = with_holder s (Some i)
  | UnlockFlush => fun _ s' => s' = with_holder s None
  | AcceptLog l => fun x s' =>
      match accept_log r (rs_log st) l with
      | Done (outcome, log) => x = Done outcome /\ s' = with_state s (after_accept st outcome log)
      | Panicked => x = Panicked /\ s' = s
      | OutOfFuel => x = OutOfFuel /\ s' = s
      end
  | TakeBatch => fun x s' =>
      x = (take_batch r (rs_log st)).1 /\
      s' = match take_batch r (rs_log st) with
           | (Ok (Some batch), log) => with_state s (after_take st batch log)
           | _ => s
           end
  | SendLogs batch => fun x s' =>
      s' = if is_ok x then with_state s (after_fate st batch Acknowledged (rs_log st)) else s
  | StopDelivery reason => fun _ s' =>
      s' = with_state s (after_fate st (default [] (rs_in_flight st)) Rejected (stop_delivery (rs_log st) reason))
  | SwapScheduled => fun x s' => x = sh_scheduled s /\ s' = with_scheduled s true
  | ClearScheduled => fun _ s' => s' = with_scheduled s false
  | SpawnFlush => fun _ _ => False
  | FlushPause => fun _ s' => s' = s
  end.

(** The guard of the flush lock goes with the task that is dropped, and so does
    the batch it took out of the queue. *)
Definition dropped (i : nat) (s : Shared) : Shared :=
  if bool_decide (sh_holder s = Some i)
  then with_holder (match rs_in_flight (sh_state s) with
                    | Some batch => with_state s (after_fate (sh_state s) batch Abandoned (rs_log (sh_state s)))
                    | None => s
                    end) None
  else s.

(** ** Interleavings *)

Record Pool := { po_shared : Shared; po_tasks : gmap nat Task }.
Definition pool_init : Pool := {| po_shared := shared_init; po_tasks := ∅ |}.

(** What a user of the reporter runs, and what it spawns itself. *)
Inductive reporter_task : Task -> Prop :=
| task_log fuel l : reporter_task (log_task fuel l)
| task_flush fuel : reporter_task (flush_task fuel).

Inductive pool_step (r : Reporter) : Pool -> Pool -> Prop :=
| pool_start p i t :
    po_tasks p !! i = None -> reporter_task t ->
    pool_step r p {| po_shared := po_shared p; po_tasks := <[i := t]> (po_tasks p) |}
| pool_call p i X (o : QueueOp X) k x s :
    po_tasks p !! i = Some (Vis o k) -> serves r i (po_shared p) X o x s ->
    pool_step r p {| po_shared := s; po_tasks := <[i := k x]> (po_tasks p) |}
| pool_spawn p i k j fuel :
    po_tasks p !! i = Some (Vis SpawnFlush k) -> po_tasks p !! j = None ->
    pool_step r p {| po_shared := po_shared p; po_tasks := <[j := scheduled_task fuel]> (<[i := k tt]> (po_tasks p)) |}
| pool_drop p i X (o : QueueOp X) k :
    po_tasks p !! i = Some (Vis o k) -> awaited o = true ->
    pool_step r p {| po_shared := dropped i (po_shared p); po_tasks := delete i (po_tasks p) |}.

Inductive pool_reaches (r : Reporter) : Pool -> Prop :=
| pool_reach_init : pool_reaches r pool_init
| pool_reach_step p p' : pool_reaches r p -> pool_step r p p' -> pool_reaches r p'.
