(* ===== verification/ReportingFacts.v ===== *)
(** Theorems about log delivery: what a queued line looks like, how batches
    are cut, and that lines are offered in order, each once, until a rejection
    latches the reporter. *)
From S2P Require Import Prelude Text Protocol Async Ports Redactor RedactorFacts ApiClient CoreOps Reporting.

#[local] Open Scope nat_scope.

(** ** Lines *)

Lemma sanitise_no_break l : Forall (fun c => c <> CR /\ c <> LF) (sanitise_line l).
Proof.
  assert (Forall (fun c => c <> CR /\ c <> LF) (map sanitise_byte l)) as H.
  { apply Forall_fmap, Forall_true. intros c. unfold sanitise_byte. cbn.
    destruct (decide (c = CR)) as [->|]; [done|]. destruct (decide (c = LF)) as [->|]; [done|].
    rewrite !bool_decide_false by done. done. }
  unfold sanitise_line. destruct (trim_end_prefix (map sanitise_byte l)) as [r Hr].
  rewrite Hr in H. by apply Forall_app in H as [H _].
Qed.

Lemma truncate_prefix l m : exists r, l = truncate_utf8 l m ++ r.
Proof.
  unfold truncate_utf8. destruct m as [m|]; [|exists []; by rewrite app_nil_r].
  case_match; [exists []; by rewrite app_nil_r|].
  eexists. symmetry. apply take_drop.
Qed.

Lemma truncate_length l m : (N.of_nat (length (truncate_utf8 l (Some m))) <= m)%N.
Proof.
  unfold truncate_utf8. destruct (N.leb_spec (N.of_nat (length l)) m); [done|].
  rewrite length_take. pose proof (floor_char_boundary_le l (N.to_nat m)). lia.
Qed.

(** A known prefix holds no space, so that what occurs in a shortened,
    sanitised line occurred in the line. *)
Lemma occurs_prefix p x y : occurs p x -> occurs p (x ++ y).
Proof.
  intros [i Hi]. exists i. rewrite occurs_at_spec in Hi. rewrite occurs_at_spec.
  intros k a Hk. destruct (Hi k a Hk) as (b & Hb & Hab). exists b. split; [|done].
  rewrite lookup_app_l; [done|]. by eapply lookup_lt_Some.
Qed.

Definition spaceless (p : bytes) : bool := forallb (fun a => negb (eq_ignore_ascii_case a SPACE)) p.

Lemma occurs_sanitised p l : spaceless p = true -> occurs p (sanitise_line l) -> occurs p l.
Proof.
  intros Hp Hocc. unfold sanitise_line in Hocc.
  destruct (trim_end_prefix (map sanitise_byte l)) as [r Hr].
  eapply (occurs_prefix _ _ r) in Hocc. rewrite <- Hr in Hocc. destruct Hocc as [i Hi].
  exists i. rewrite occurs_at_spec in Hi. rewrite occurs_at_spec. intros k a Hk.
  destruct (Hi k a Hk) as (b & Hb & Hab). exists b. split; [|done].
  rewrite list_lookup_fmap in Hb. destruct (l !! (i + k)) as [c|]; [|done]. injection Hb as <-. f_equal.
  unfold sanitise_byte in *. destruct (bool_decide (c = CR) || bool_decide (c = LF)); [|done].
  exfalso. unfold spaceless in Hp. rewrite forallb_forall in Hp. specialize (Hp a).
  rewrite Hab in Hp. discriminate Hp. apply list_elem_of_In. by eapply list_elem_of_lookup_2.
Qed.

Lemma prefixes_spaceless p : p ∈ TOKEN_PREFIXES -> spaceless p = true.
Proof.
  intros Hp. assert (Forall (fun p => spaceless p = true) TOKEN_PREFIXES) as H by (repeat constructor).
  rewrite Forall_forall in H. by apply H.
Qed.

(** What every queued line satisfies. *)
Definition line_ok (bounds : LogBounds) (l : DeploymentLog) : Prop :=
  log_message l <> EmptyString /\
  Forall (fun c => c <> CR /\ c <> LF) (bytes_of (log_message l)) /\
  (forall m, max_line_length bounds = Some m -> (message_len l <= m)%N) /\
  (forall p, p ∈ TOKEN_PREFIXES -> ~ occurs p (bytes_of (log_message l))).

Lemma line_of_prefix bounds l redacted x y z :
  redact_line_bytes (bytes_of (log_message l)) = Done redacted ->
  truncate_utf8 (sanitise_line redacted) (max_line_length bounds) = x ++ y -> x = z -> z <> [] ->
  line_ok bounds (set_message l z).
Proof.
  intros Hr Ht -> Hne. destruct (truncate_prefix (sanitise_line redacted) (max_line_length bounds)) as [t Ht'].
  pose proof (sanitise_no_break redacted) as Hsan. rewrite Ht', Ht in Hsan.
  split_and!; cbn.
  - by destruct z.
  - rewrite bytes_of_string_of. by do 2 apply Forall_app in Hsan as [Hsan _].
  - intros m Hm. unfold message_len. cbn. rewrite length_string_of.
    pose proof (truncate_length (sanitise_line redacted) m) as Hlen.
    rewrite Hm in Ht. rewrite Ht, length_app in Hlen. lia.
  - intros p Hp Hocc. rewrite bytes_of_string_of in Hocc.
    apply (occurs_prefix _ _ y) in Hocc. rewrite <- Ht in Hocc.
    apply (occurs_prefix _ _ t) in Hocc. rewrite <- Ht' in Hocc.
    apply occurs_sanitised in Hocc; [|by apply prefixes_spaceless].
    by eapply redacted_no_prefix.
Qed.

Lemma bounded_log_ok l bounds sent l' :
  bounded_log l bounds sent = Done (Some l') ->
  line_ok bounds l' /\
  (forall m, max_total_bytes bounds = Some m -> (sent + message_len l' <= m)%N).
Proof.
  unfold bounded_log. case_bool_decide; [done|].
  intros (redacted & Hr & H1)%Run_bind_Done. cbv zeta in H1.
  set (msg := truncate_utf8 (sanitise_line redacted) (max_line_length bounds)) in *.
  destruct (max_total_bytes bounds) as [m|] eqn:Hm.
  - destruct (N.leb_spec m sent); [done|].
    pose proof (truncate_length msg (m - sent)) as Hlen.
    destruct (truncate_prefix msg (Some (m - sent)%N)) as [y Hy].
    destruct (truncate_utf8 msg (Some (m - sent)%N)) as [|b bs] eqn:Hb; [done|].
    injection H1 as <-. split.
    + by eapply (line_of_prefix _ _ _ (b :: bs) y).
    + intros m' [= <-]. unfold message_len, set_message. cbn [log_message].
      rewrite length_string_of. lia.
  - destruct msg as [|b bs] eqn:Hb; [done|]. injection H1 as <-. split; [|done].
    eapply (line_of_prefix _ _ _ (b :: bs) []); [done| |done|done]. by rewrite app_nil_r.
Qed.

(** ** Batches *)

Fixpoint total_len (ls : list DeploymentLog) : N :=
  match ls with [] => 0 | l :: rest => message_len l + total_len rest end%N.

Lemma total_len_app a b : total_len (a ++ b) = (total_len a + total_len b)%N.
Proof. induction a as [|l a IH]; cbn [total_len app]; lia. Qed.

Definition batch_fits (max_lines : N) (count : nat) (bytes : N) : Prop :=
  (N.of_nat count <= max_lines)%N /\ (count <= 1 \/ (bytes <= MAX_BATCH_BYTES)%N).

Lemma batch_count_spec m logs count bytes count' bytes' :
  (1 <= m)%N -> batch_count m logs count bytes = (count', bytes') -> batch_fits m count bytes ->
  exists k, count' = count + k /\ k <= length logs /\
    bytes' = (bytes + total_len (take k logs))%N /\ batch_fits m count' bytes' /\
    (count = 0 -> logs <> [] -> 0 < k).
Proof.
  intros Hm. revert count bytes. induction logs as [|l logs IH]; intros count bytes; cbn [batch_count].
  - intros [= <- <-] Hfit. exists 0. cbn. split_and!; try done; try lia; intros; lia.
  - destruct (Nat.ltb 0 count && _) eqn:E.
    + intros [= <- <-] Hfit. apply andb_true_iff in E as [E%Nat.ltb_lt _]. exists 0. cbn.
      split_and!; try done; lia.
    + intros H Hfit. apply IH in H as (k & -> & Hk & -> & Hfit' & _).
      * exists (S k). cbn [length take total_len]. split_and!; try done; lia.
      * apply andb_false_iff in E. rewrite Nat.ltb_ge, orb_false_iff, N.leb_gt, N.ltb_ge in E.
        unfold batch_fits in *. lia.
Qed.

Definition batch_ok (r : Reporter) (batch : list DeploymentLog) : Prop :=
  batch <> [] /\ (N.of_nat (length batch) <= rp_batch_max_lines r)%N /\
  (length batch = 1 \/ (total_len batch <= MAX_BATCH_BYTES)%N).

Lemma take_batch_spec r s batch s' :
  (1 <= rp_batch_max_lines r)%N -> take_batch r s = (Ok (Some batch), s') ->
  pending s = batch ++ pending s' /\ batch_ok r batch /\
  delivery_stopped s = None /\ delivery_stopped s' = None /\ bytes_sent s' = bytes_sent s /\
  pending_bytes s' = (pending_bytes s - total_len batch)%N.
Proof.
  intros Hm. unfold take_batch. destruct (delivery_stopped s); [done|].
  destruct (pending s) as [|l ls] eqn:Hp; [done|].
  destruct (batch_count _ (l :: ls) 0 0) as [count bytes] eqn:Hc. intros [= <- <-].
  apply batch_count_spec in Hc as (k & Hk & Hle & Hb & Hfit & Hpos); [|done|unfold batch_fits; lia].
  cbn [Nat.add] in Hk. subst k. specialize (Hpos eq_refl ltac:(done)). cbn [pending].
  rewrite N.add_0_l in Hb. subst bytes.
  split_and!; [by rewrite take_drop| |done..].
  assert (length (take count (l :: ls)) = count) as Hlen by (rewrite length_take; lia).
  split_and!.
  - intros Hnil. rewrite Hnil in Hlen. cbn in Hlen. lia.
  - rewrite Hlen. by apply Hfit.
  - rewrite Hlen. destruct Hfit as [_ [?|?]]; [left; lia|by right].
Qed.

Lemma take_batch_ok_none r s s' :
  take_batch r s = (Ok None, s') -> s' = s /\ pending s = [] /\ delivery_stopped s = None.
Proof.
  unfold take_batch. destruct (delivery_stopped s); [done|].
  destruct (pending s); [by intros [= <-]|]. by destruct (batch_count _ _ _ _).
Qed.

(** ** A flush on its own *)

Definition batch_calls (id : Uuid) (outs : list (list DeploymentLog * Result CoreError ReportAcknowledgement))
  : list (Call CoreOp) := map (fun '(b, answer) => MkCall (CpLogs id b) answer) outs.

Lemma flush_loop_runs r fuel s tr out :
  (1 <= rp_batch_max_lines r)%N -> length (pending s) <= fuel ->
  runs (flush_loop (Op := CoreOp) r fuel s) tr out ->
  exists res s' outs,
    out = Done (res, s') /\ tr = batch_calls (rp_command_id r) outs /\ Forall (batch_ok r) outs.*1 /\
    match res with
    | Ok _ => Forall (fun o => is_ok o.2 = true) outs /\ List.concat outs.*1 = pending s /\
              pending s' = [] /\ delivery_stopped s' = None
    | Err _ =>
        (exists reason, delivery_stopped s = Some reason /\ outs = [] /\ s' = s) \/
        (exists before b e after, outs = before ++ [(b, Err e)] /\
           Forall (fun o => is_ok o.2 = true) before /\ List.concat outs.*1 ++ after = pending s /\
           pending s' = [] /\ delivery_stopped s' = Some (core_error_text e))
    end.
Proof.
  intros Hm. revert s tr. induction fuel as [|fuel IH]; intros s tr Hfuel; cbn [flush_loop];
    destruct (take_batch r s) as [[[batch|]|e] s1] eqn:Ht.
  - apply take_batch_spec in Ht as (Hp & (Hne & _) & _); [|done]. rewrite Hp, length_app in Hfuel.
    destruct batch; [done|cbn in Hfuel; lia].
  - apply take_batch_ok_none in Ht as (-> & Hp & Hd). intros [-> ->]. exists (Ok ()), s, []. by rewrite Hp.
  - intros [-> ->]. exists (Err e), s1, []. split_and!; [done..|]. left. unfold take_batch in Ht.
    destruct (delivery_stopped s) as [reason|]; [injection Ht as _ <-; eauto|].
    destruct (pending s); [done|]. by destruct (batch_count _ _ _ _).
  - apply take_batch_spec in Ht as (Hp & Hok & Hd & Hd1 & _); [|done].
    intros (answer & tr' & -> & H). cbn in H. rewrite Hp, length_app in Hfuel.
    assert (0 < length batch) by (destruct batch; [by destruct Hok|cbn; lia]).
    destruct answer as [ack|e].
    + destruct (IH s1 tr' ltac:(lia) H) as (res & s' & outs & -> & -> & Hall & Hres).
      exists res, s', ((batch, Ok ack) :: outs). split_and!; [done|done|by constructor|].
      destruct res as [[]|err].
      * destruct Hres as (Hoks & Hcat & Hp' & Hd'). cbn. rewrite Hcat. by split_and!; [constructor|..].
      * right. destruct Hres as [(reason & Hd2 & _)|(before & b & e & after & -> & Hb & Hcat & Hp' & Hd')];
          [congruence|].
        exists ((batch, Ok ack) :: before), b, e, after. split_and!; [done|by constructor| |done|done].
        cbn [fmap list_fmap List.concat fst app]. by rewrite <- app_assoc, Hcat.
    + destruct H as [-> ->]. eexists _, _, [(batch, Err e)]. split_and!; [done|done|by apply Forall_singleton|].
      right. exists [], batch, e, (pending s1). split_and!; [done|constructor| |done|done].
      cbn. by rewrite app_nil_r.
  - apply take_batch_ok_none in Ht as (-> & Hp & Hd). intros [-> ->]. exists (Ok ()), s, []. by rewrite Hp.
  - intros [-> ->]. exists (Err e), s1, []. split_and!; [done..|]. left. unfold take_batch in Ht.
    destruct (delivery_stopped s) as [reason|]; [injection Ht as _ <-; eauto|].
    destruct (pending s); [done|]. by destruct (batch_count _ _ _ _).
Qed.

Lemma new_reporter_lines id bounds interval : (1 <= rp_batch_max_lines (with_flush_interval id bounds interval) <= 100)%N.
Proof. cbn. unfold DEFAULT_BATCH_LINES. destruct (max_batch_lines bounds); lia. Qed.

(** A flush always ends and delivers exactly the pending lines: in order,
    each once, in batches that are not empty and respect the reporter's line
    limit and the byte limit; the first batch the control plane does not
    acknowledge stops delivery, and a stopped reporter sends nothing. *)
Theorem flush_delivers_pending id bounds interval s tr out :
  let r := with_flush_interval id bounds interval in
  runs (flush_pending (Op := CoreOp) r s) tr out ->
  exists res s' outs,
    out = Done (res, s') /\ tr = batch_calls id outs /\ Forall (batch_ok r) outs.*1 /\
    match res with
    | Ok _ => Forall (fun o => is_ok o.2 = true) outs /\ List.concat outs.*1 = pending s /\
              pending s' = [] /\ delivery_stopped s' = None
    | Err _ =>
        (exists reason, delivery_stopped s = Some reason /\ outs = [] /\ s' = s) \/
        (exists before b e after, outs = before ++ [(b, Err e)] /\
           Forall (fun o => is_ok o.2 = true) before /\ List.concat outs.*1 ++ after = pending s /\
           pending s' = [] /\ delivery_stopped s' = Some (core_error_text e))
    end.
Proof.
  intros r H. apply flush_loop_runs in H; [exact H| |done].
  apply new_reporter_lines.
Qed.

Definition three_lines : LogState :=
  {| pending := [sample_log "one"; sample_log "two"; sample_log "three"]; pending_bytes := 11;
     bytes_sent := 11; delivery_stopped := None |}.
Definition two_line_bounds : LogBounds :=
  {| max_line_length := None; max_batch_lines := Some 2%N; max_total_bytes := None |}.
Definition sample_uuid : Uuid := MkUuid "c0ffee00-0000-4000-8000-000000000000".
Definition sample_flush := run_with quiet_env
  (flush_pending (Op := CoreOp) (with_flush_interval sample_uuid two_line_bounds FLUSH_INTERVAL) three_lines).
Lemma flush_delivers_witness :
  length sample_flush.1 = 2 /\ exists res s' outs,
    sample_flush.2 = Done (res, s') /\ sample_flush.1 = batch_calls sample_uuid outs.
Proof.
  split; [vm_compute; reflexivity|].
  destruct (flush_delivers_pending sample_uuid two_line_bounds FLUSH_INTERVAL three_lines
    sample_flush.1 sample_flush.2 (runs_run_from _ _ _)) as (res & s' & outs & H1 & H2 & _).
  exists res, s', outs. split; [exact H1|exact H2].
Defined.

(** ** Flushes and log lines of several tasks *)

Definition in_flight_lines (st : ReporterState) : list DeploymentLog :=
  match rs_in_flight st with Some b => b | None => [] end.

Definition offered (st : ReporterState) : list DeploymentLog := List.concat (rs_sent st).*1.
Definition unrejected (b : list DeploymentLog * Fate) : Prop := b.2 <> Rejected.

Record reporter_inv (r : Reporter) (st : ReporterState) : Prop := {
  ri_order : match delivery_stopped (rs_log st) with
             | None => offered st ++ in_flight_lines st ++ pending (rs_log st) = rs_accepted st /\
                       Forall unrejected (rs_sent st)
             | Some _ => pending (rs_log st) = [] /\ rs_in_flight st = None /\
                         (exists lost, offered st ++ lost = rs_accepted st) /\
                         exists before b, rs_sent st = before ++ [(b, Rejected)] /\ Forall unrejected before
             end;
  ri_batches : Forall (batch_ok r) (rs_sent st).*1 /\
               match rs_in_flight st with Some b => batch_ok r b | None => True end;
  ri_lines : Forall (line_ok (rp_log_bounds r)) (rs_accepted st);
  ri_pending : pending_bytes (rs_log st) = total_len (pending (rs_log st));
  ri_sent : bytes_sent (rs_log st) = (total_len (rs_accepted st) mod (u64_max + 1))%N;
  ri_budget : forall m, max_total_bytes (rp_log_bounds r) = Some m -> (m <= u64_max)%N ->
              (total_len (rs_accepted st) <= m)%N
}.

Lemma accept_log_inv r s l outcome s' :
  accept_log r s l = Done (outcome, s') ->
  (s' = s /\ match outcome with Queued _ => False | _ => True end) \/
  exists l' b, outcome = Queued b /\ delivery_stopped s = None /\
    bounded_log l (rp_log_bounds r) (bytes_sent s) = Done (Some l') /\
    s' = {| pending := pending s ++ [l']; pending_bytes := (pending_bytes s + message_len l')%N;
            bytes_sent := wrapping_add_u64 (bytes_sent s) (message_len l'); delivery_stopped := None |}.
Proof.
  unfold accept_log. destruct (delivery_stopped s) as [reason|]; [intros [= <- <-]; by left|].
  intros ([l'|] & Hb & [= <- <-])%Run_bind_Done; [right; eauto 10|by left].
Qed.

(** A batch that met its fate was offered. *)
Lemma offered_snoc (sent : list (list DeploymentLog * Fate)) b f :
  List.concat (sent ++ [(b, f)]).*1 = List.concat sent.*1 ++ b.
Proof. rewrite fmap_app, concat_app. cbn. by rewrite app_nil_r. Qed.

Lemma fate_inv r st batch f :
  rs_in_flight st = Some batch -> f <> Rejected -> reporter_inv r st ->
  reporter_inv r (after_fate st batch f (rs_log st)).
Proof.
  intros Hf Hne [Hord [Hbs Hfl] Hls Hpb Hsent Hbud]. rewrite Hf in Hfl.
  destruct (delivery_stopped (rs_log st)) as [reason|] eqn:Hd; [naive_solver|]. destruct Hord as [Hord Hun].
  split; cbn; try done.
  - rewrite Hd. unfold offered in *. cbn [rs_sent]. rewrite offered_snoc. split; [|apply Forall_app; by split; [|apply Forall_singleton]].
    unfold in_flight_lines in *. rewrite Hf in Hord. cbn. by rewrite <- app_assoc.
  - rewrite fmap_app. split; [|done]. apply Forall_app. by split; [|apply Forall_singleton].
Qed.

Lemma reporter_inv_step r st st' :
  (1 <= rp_batch_max_lines r)%N -> reporter_inv r st -> reporter_step r st st' -> reporter_inv r st'.
Proof.
  intros Hm Hinv Hstep. pose proof Hinv as [Hord [Hbs Hfl] Hls Hpb Hsent Hbud].
  destruct Hstep as [st l outcome s' Ha|st batch s' Hf Ht|st batch Hf|st batch reason Hf|st batch Hf];
    try by apply fate_inv.
  - apply accept_log_inv in Ha as [[-> Ho]|(l' & b & -> & Hd & Hb & ->)].
    { by destruct outcome; [split..|]. }
    apply bounded_log_ok in Hb as [Hline Hmax]. rewrite Hd in Hord. destruct Hord as [Hord Hun].
    split; cbn [after_accept rs_log rs_in_flight rs_accepted rs_sent delivery_stopped pending pending_bytes bytes_sent];
      rewrite ?drop_app_length.
    + split; [|done]. rewrite <- Hord. unfold offered, in_flight_lines. cbn. by rewrite !app_assoc.
    + done.
    + apply Forall_app. split; [done|by apply Forall_singleton].
    + rewrite Hpb, total_len_app. cbn. lia.
    + rewrite Hsent, total_len_app. cbn [total_len]. unfold wrapping_add_u64.
      rewrite N.add_0_r, N.Div0.add_mod_idemp_l. done.
    + intros m Hmm Hle. specialize (Hmax m Hmm). specialize (Hbud m Hmm Hle).
      rewrite Hsent, N.mod_small in Hmax by lia. rewrite total_len_app. cbn. lia.
  - apply take_batch_spec in Ht as (Hp & Hok & Hd & Hd' & Hs & Hb); [|done].
    rewrite Hd in Hord. destruct Hord as [Hord Hun]. unfold in_flight_lines in Hord. rewrite Hf in Hord. cbn [app] in Hord.
    split; cbn; [|done|done| |by rewrite Hs|done].
    + rewrite Hd'. split; [|done]. unfold in_flight_lines. cbn. unfold offered in *. cbn. by rewrite <- Hp.
    + rewrite Hb, Hpb, Hp, total_len_app. lia.
  - destruct (delivery_stopped (rs_log st)) as [reason'|]; [naive_solver|]. destruct Hord as [Hord Hun].
    rewrite Hf in Hfl. split; cbn; try done.
    + unfold offered in *. cbn [rs_sent]. rewrite offered_snoc. split_and!; [done|done| |by exists (rs_sent st), batch].
      exists (pending (rs_log st)). unfold in_flight_lines in Hord. rewrite Hf in Hord. by rewrite <- app_assoc.
    + rewrite fmap_app. split; [|done]. apply Forall_app. by split; [|apply Forall_singleton].
Qed.

Lemma reporter_reaches_inv id bounds interval st :
  let r := with_flush_interval id bounds interval in
  reporter_reaches r st -> reporter_inv r st.
Proof.
  intros r. induction 1 as [|st st' _ IH Hstep].
  - split; cbn; try done. intros; lia.
  - eapply reporter_inv_step; [apply new_reporter_lines|exact IH|exact Hstep].
Qed.

(** However log lines and flushes of several tasks interleave, and
    whichever of them are dropped, the control plane is offered the accepted
    lines in order, each in one batch, in well-sized batches, up to the batch it
    rejects; nothing is offered behind that one, and before it every batch was
    acknowledged unless the task that sent it was dropped.  The byte counters are
    exact and the lines accepted never exceed the policy's total. *)
Theorem reporter_delivers_in_order id bounds interval st :
  let r := with_flush_interval id bounds interval in
  reporter_reaches r st -> reporter_inv r st.
Proof. apply reporter_reaches_inv. Qed.

(** Two lines queued, the first batch sent while the second line arrives. *)
Definition one_line_state : ReporterState :=
  {| rs_log := {| pending := []; pending_bytes := 0; bytes_sent := 5; delivery_stopped := None |};
     rs_in_flight := Some [sample_log "hello"]; rs_accepted := [sample_log "hello"]; rs_sent := [] |}.
Definition queued_state : ReporterState :=
  {| rs_log := {| pending := [sample_log "hello"]; pending_bytes := 5; bytes_sent := 5; delivery_stopped := None |};
     rs_in_flight := None; rs_accepted := [sample_log "hello"]; rs_sent := [] |}.
Lemma one_line_reaches : reporter_reaches (new_reporter sample_uuid default_log_bounds) one_line_state.
Proof.
  apply (reach_step _ queued_state).
  - apply (reach_step _ reporter_init); [apply reach_init|].
    exact (step_log (new_reporter sample_uuid default_log_bounds) reporter_init (sample_log "hello") (Queued false) (rs_log queued_state) eq_refl).
  - exact (step_take (new_reporter sample_uuid default_log_bounds) queued_state [sample_log "hello"]
      (rs_log one_line_state) eq_refl eq_refl).
Defined.
Lemma reporter_delivers_witness : reporter_inv (new_reporter sample_uuid default_log_bounds) one_line_state.
Proof. apply (reporter_delivers_in_order sample_uuid default_log_bounds FLUSH_INTERVAL), one_line_reaches. Defined.
