(* ===== verification/ReporterTasksFacts.v ===== *)
(** Theorems about the tasks of a reporter: their interleavings, drops
    included, are steps of the queue that [reporter_step] describes; and what a
    dropped flush takes with it.  A task that runs alone is the sequential code of
    Reporting. *)
From S2P Require Import Prelude Text Protocol Async Interp Monitor Ports Redactor ApiClient CoreOps Reporting ReportingFacts ReporterTasks.

#[local] Open Scope async_scope.

(** ** The discipline of one task

    Outside the flush lock a task takes no batch; inside it takes one at a time,
    sends what it took, and leaves with nothing in flight. *)
Inductive Position := Outside | Inside (in_flight : option (list DeploymentLog)).

Definition flush_discipline : Monitor QueueOp Position := {|
  allowed s X o :=
    match o with
    | LockFlush => s = Outside
    | UnlockFlush | TakeBatch => s = Inside None
    | SendLogs batch => s = Inside (Some batch)
    | StopDelivery _ => exists batch, s = Inside (Some batch)
    | _ => True
    end;
  plausible _ _ _ _ := True;
  after_call s X o :=
    match o in QueueOp T return T -> Position with
    | LockFlush => fun _ => Inside None
    | UnlockFlush => fun _ => Outside
    | TakeBatch => fun x => match x with Ok (Some batch) => Inside (Some batch) | _ => s end
    | SendLogs _ => fun x => if is_ok x then Inside None else s
    | StopDelivery _ => fun _ => Inside None
    | _ => fun _ => s
    end
|}.
Abbreviation disciplined t s := (wp flush_discipline t (fun _ _ => True) (fun _ => True) s).

Lemma rounds_wp fuel (R : Run (Result RuntimeExecutionError ()) -> Position -> Prop) :
  (forall out, R out (Inside None)) -> wp flush_discipline (flush_rounds fuel) R (fun _ => True) (Inside None).
Proof.
  intros HR. induction fuel as [|fuel IH]; cbn [flush_rounds]; [apply HR|].
  split_and!; [done|done|]. intros [[batch|]|e] _; cbn; [|apply HR..].
  split_and!; [done|done|]. intros [ack|e] _; cbn; [apply IH|].
  split_and!; [by eexists|done|]. intros [] _. apply HR.
Qed.
Lemma flush_wp fuel : disciplined (flush_task fuel) Outside.
Proof.
  split_and!; [done|done|]. intros [] _. cbn [bind]. apply wp_bind, rounds_wp.
  intros [result| |]; cbn; [|done..]. by split_and!.
Qed.
Lemma log_wp fuel l : disciplined (log_task fuel l) Outside.
Proof.
  split_and!; [done|done|]. intros [[reason| |[]]| |] _; cbn [bind]; try done; [apply flush_wp|].
  split_and!; [done|done|]. intros [] _; cbn; [done|]. by split_and!.
Qed.
Lemma scheduled_wp fuel : disciplined (scheduled_task fuel) Outside.
Proof.
  split_and!; [done|done|]. intros [] _. split_and!; [done|done|]. intros [] _. cbn [bind].
  apply wp_bind. eapply wp_mono; [| |apply flush_wp]; done.
Qed.

(** ** The pool *)

(** Where a task stands, by what is shared. *)
Definition position (s : Shared) (i : nat) : Position :=
  if bool_decide (sh_holder s = Some i) then Inside (rs_in_flight (sh_state s)) else Outside.
Lemma position_inside s i b : position s i = Inside b <-> sh_holder s = Some i /\ rs_in_flight (sh_state s) = b.
Proof. unfold position. case_bool_decide; naive_solver. Qed.
Lemma position_outside s i : position s i = Outside <-> sh_holder s <> Some i.
Proof. unfold position. case_bool_decide; naive_solver. Qed.

(** The lock invariant: nothing is in flight while the lock is free. *)
Record shared_ok (r : Reporter) (s : Shared) : Prop := {
  so_reaches : reporter_reaches r (sh_state s);
  so_free : sh_holder s = None -> rs_in_flight (sh_state s) = None
}.

Lemma reaches_more r st st' : reporter_reaches r st -> reporter_step r st st' -> reporter_reaches r st'.
Proof. intros H Hs. by eapply reach_step. Qed.

Lemma take_batch_otherwise r s : match take_batch r s with (Ok (Some _), _) => True | (_, s') => s' = s end.
Proof.
  unfold take_batch. destruct (delivery_stopped s); [done|]. destruct (pending s); [done|]. by destruct (batch_count _ _ _ _).
Qed.

(** What one call does to the queue. *)
Definition queue_moves (r : Reporter) (s s' : Shared) : Prop :=
  sh_state s' = sh_state s \/ reporter_step r (sh_state s) (sh_state s').
Lemma serves_state r i s X (o : QueueOp X) x s' :
  allowed flush_discipline (position s i) o -> serves r i s X o x s' -> queue_moves r s s'.
Proof.
  unfold queue_moves. intros Ho Hs. destruct o; cbn in Ho, Hs; try done; try (by subst s'; left); try (by destruct Hs as [_ ->]; left).
  - destruct (accept_log r (rs_log (sh_state s)) l) as [[outcome log]| |] eqn:Ha; destruct Hs as [-> ->]; [|by left..].
    right. by eapply step_log.
  - destruct Hs as [-> ->]. apply position_inside in Ho as [_ Hf]. pose proof (take_batch_otherwise r (rs_log (sh_state s))) as Ht.
    destruct (take_batch r (rs_log (sh_state s))) as [[[batch|]|e] log] eqn:E; [|by left..].
    right. by eapply step_take.
  - subst s'. apply position_inside in Ho as [_ Hf]. destruct x as [ack|e]; [|by left]. right. by apply step_acknowledged.
  - subst s'. destruct Ho as [batch [_ Hf]%position_inside]. right. cbn. rewrite Hf. by apply step_rejected.
Qed.

(** What one call leaves behind. *)
Definition moves (i : nat) (s s' : Shared) : Prop := sh_holder s' = sh_holder s \/ sh_holder s = None /\ sh_holder s' = Some i \/ sh_holder s = Some i /\ sh_holder s' = None.
Lemma serves_ok r i s X (o : QueueOp X) x s' :
  shared_ok r s -> allowed flush_discipline (position s i) o -> serves r i s X o x s' ->
  shared_ok r s' /\ moves i s s' /\ position s' i = after_call flush_discipline (position s i) o x.
Proof.
  intros [Hreach Hfree] Ho Hs.
  assert (reporter_reaches r (sh_state s')) as Hreach'.
  { destruct (serves_state _ _ _ _ _ _ _ Ho Hs) as [->|]; [done|by eapply reaches_more]. }
  cut ((sh_holder s' = None -> rs_in_flight (sh_state s') = None) /\ moves i s s' /\
       position s' i = after_call flush_discipline (position s i) o x); [by intros [? ?]|].
  clear Hreach Hreach'. unfold moves. destruct o; cbn in Ho, Hs |- *; try done;
    try (by subst s'; split_and!; [done|left|]); try (by destruct Hs as [_ ->]; split_and!; [done|left|]).
  - destruct Hs as [Hn ->]. split; [by intros [=]|]. split; [by right; left|].
    apply position_inside. split; [done|]. by apply Hfree.
  - subst s'. apply position_inside in Ho as [Hi Hf]. split; [done|]. split; [by right; right|]. by apply position_outside.
  - destruct (accept_log r (rs_log (sh_state s)) l) as [[outcome log]| |]; destruct Hs as [-> ->]; by split_and!; [|left|].
  - destruct Hs as [-> ->]. apply position_inside in Ho as [Hi Hf]. pose proof (take_batch_otherwise r (rs_log (sh_state s))) as Ht.
    destruct (take_batch r (rs_log (sh_state s))) as [[[batch|]|e] log]; cbn; [|by split_and!; [|left|]..].
    split; [congruence|]. split; [by left|]. by apply position_inside.
  - subst s'. apply position_inside in Ho as [Hi Hf]. destruct x as [ack|e]; cbn; [|by split_and!; [|left|]].
    split; [done|]. split; [by left|]. by apply position_inside.
  - subst s'. destruct Ho as [batch [Hi Hf]%position_inside]. split; [done|]. split; [by left|by apply position_inside].
Qed.

Lemma dropped_ok r i s : shared_ok r s -> shared_ok r (dropped i s) /\ sh_holder (dropped i s) <> Some i /\
  forall j, j <> i -> position (dropped i s) j = position s j.
Proof.
  intros [Hreach Hfree]. unfold dropped. case_bool_decide as Hi; [|done].
  assert (forall s1, sh_holder s1 = Some i -> forall j, j <> i -> position (with_holder s1 None) j = position s j) as Hothers.
  { intros s1 H1 j Hj. transitivity Outside; [by apply position_outside|symmetry; apply position_outside; congruence]. }
  destruct (rs_in_flight (sh_state s)) as [batch|] eqn:Hf.
  - split; [split; [eapply reaches_more; [done|by eapply step_abandoned]|done]|]. split; [done|by apply Hothers].
  - split; [by split|]. split; [done|by apply Hothers].
Qed.
Lemma moves_others i s s' j : moves i s s' -> j <> i -> (sh_holder s = Some j -> rs_in_flight (sh_state s') = rs_in_flight (sh_state s)) ->
  position s' j = position s j.
Proof.
  unfold moves, position. intros [Hm|[[Hn Hm]|[Hn Hm]]] Hj Hf; rewrite Hm.
  - case_bool_decide; [|done]. by rewrite Hf.
  - rewrite Hn. rewrite !bool_decide_eq_false_2; [done|done|congruence].
  - rewrite Hn. rewrite !bool_decide_eq_false_2; [done|congruence|done].
Qed.

(** Only the holder of the lock changes what is in flight. *)
Lemma serves_others r i s X (o : QueueOp X) x s' j :
  shared_ok r s -> allowed flush_discipline (position s i) o -> serves r i s X o x s' -> j <> i ->
  position s' j = position s j.
Proof.
  intros Hok Ho Hs Hj. destruct (serves_ok _ _ _ _ _ _ _ Hok Ho Hs) as (_ & Hm & _).
  apply (moves_others i); [done|done|]. intros Hholder.
  assert (position s i = Outside) as Hout by (apply position_outside; congruence).
  rewrite Hout in Ho. destruct o; cbn in Ho, Hs; try done.
  - by destruct Hs as [_ ->].
  - destruct (accept_log r (rs_log (sh_state s)) l) as [[outcome log]| |]; by destruct Hs as [_ ->].
  - by destruct Ho.
  - by destruct Hs as [_ ->].
  - by subst s'.
  - by subst s'.
Qed.

(** Every task follows the discipline from where it stands. *)
Record pool_ok (r : Reporter) (p : Pool) : Prop := {
  pk_shared : shared_ok r (po_shared p);
  pk_tasks : map_Forall (fun i t => disciplined t (position (po_shared p) i)) (po_tasks p);
  pk_holder : forall i, sh_holder (po_shared p) = Some i -> is_Some (po_tasks p !! i)
}.

Lemma pool_step_ok r p p' : pool_ok r p -> pool_step r p p' -> pool_ok r p'.
Proof.
  intros [Hshared Htasks Hholder] Hstep. destruct Hstep as [p i t Hi Ht|p i X o k x s Hi Hs|p i k j fuel Hi Hj|p i X o k Hi _].
  - assert (position (po_shared p) i = Outside) as Hout.
    { apply position_outside. intros [? H]%Hholder. congruence. }
    split; cbn; [done| |].
    + apply map_Forall_insert_2; [|done]. rewrite Hout. destruct Ht; [apply log_wp|apply flush_wp].
    + intros j Hj%Hholder. by apply lookup_insert_is_Some'; right.
  - pose proof (Htasks _ _ Hi) as (Ho & _ & Hk). specialize (Hk x I).
    destruct (serves_ok _ _ _ _ _ _ _ Hshared Ho Hs) as (Hok & Hm & Hpos).
    split; cbn; [done| |].
    + intros j t Ht. destruct (decide (j = i)) as [->|Hne].
      * rewrite lookup_insert in Ht. case_decide; [|done]. injection Ht as <-. by rewrite Hpos.
      * rewrite lookup_insert_ne in Ht by done. rewrite (serves_others _ _ _ _ _ _ _ _ Hshared Ho Hs Hne). by apply Htasks.
    + intros j Hj. apply lookup_insert_is_Some'. destruct (decide (i = j)); [by left|right]. apply Hholder.
      destruct Hm as [Hm|[[_ Hm]|[_ Hm]]]; congruence.
  - pose proof (Htasks _ _ Hi) as (_ & _ & Hk). specialize (Hk tt I). cbn in Hk.
    assert (position (po_shared p) j = Outside) as Hout.
    { apply position_outside. intros [? H]%Hholder. congruence. }
    split; cbn; [done| |].
    + apply map_Forall_insert_2; [rewrite Hout; apply scheduled_wp|]. by apply map_Forall_insert_2.
    + intros i' Hi'%Hholder. apply lookup_insert_is_Some'. right. apply lookup_insert_is_Some'. by right.
  - destruct (dropped_ok r i _ Hshared) as (Hok & Hfree & Hothers). split; cbn; [done| |].
    + intros j t [Hne Ht]%lookup_delete_Some. rewrite Hothers by done. by apply Htasks.
    + intros j Hj. assert (j <> i) as Hne by congruence. rewrite lookup_delete_ne by done. apply Hholder.
      revert Hj. unfold dropped. case_bool_decide; [|done]. by destruct (rs_in_flight _).
Qed.
Lemma pool_reaches_ok r p : pool_reaches r p -> pool_ok r p.
Proof.
  induction 1 as [|p p' _ IH Hstep]; [|by eapply pool_step_ok].
  split; [split; [apply reach_init|done]|apply map_Forall_empty|done].
Qed.

(** C19. However the tasks of a reporter interleave, and wherever they are
    dropped, its queue is worked as it should.  In every state that tasks
    logging lines, flushing, and flushing on schedule reach, with any answers of
    the control plane: the queue is one that lines, batches and their fates
    reach one after the other; only the task that holds the flush lock takes
    lines out, sends them or stops the delivery, it sends what it took, and
    nothing is in flight while the lock is free.  So the accepted lines are
    offered in order, each in one batch, redacted, within the limits of size and
    number, up to the batch that is rejected. *)
Theorem reporter_tasks_work_the_queue id bounds interval p :
  let r := with_flush_interval id bounds interval in
  let s := po_shared p in
  pool_reaches r p ->
  reporter_reaches r (sh_state s) /\ reporter_inv r (sh_state s) /\
  (sh_holder s = None -> rs_in_flight (sh_state s) = None) /\
  (forall i X (o : QueueOp X) k, po_tasks p !! i = Some (Vis o k) ->
     match o with
     | TakeBatch | UnlockFlush => sh_holder s = Some i /\ rs_in_flight (sh_state s) = None
     | SendLogs batch => sh_holder s = Some i /\ rs_in_flight (sh_state s) = Some batch
     | StopDelivery _ => sh_holder s = Some i /\ is_Some (rs_in_flight (sh_state s))
     | _ => True
     end).
Proof.
  intros r s [[Hreach Hfree] Htasks _]%pool_reaches_ok.
  split; [done|]. split; [by apply reporter_reaches_inv|]. split; [done|].
  intros i X o k Hi. destruct (Htasks _ _ Hi) as (Ho & _ & _). destruct o; try done; cbn in Ho.
  1-3: by apply position_inside in Ho.
  destruct Ho as [batch [Hi' Hf]%position_inside]. split; [done|]. by exists batch.
Qed.

(** ** A flush is a barrier

    Lines that were accepted before a flush began are settled when it succeeds:
    they are in batches that were acknowledged, or whose task was dropped.  A
    flush that fails leaves the delivery stopped. *)
Lemma dropped_state r i s : shared_ok r s -> queue_moves r s (dropped i s).
Proof.
  intros _. unfold dropped. case_bool_decide; [|by left].
  destruct (rs_in_flight (sh_state s)) as [batch|] eqn:Hf; [|by left]. right. by apply step_abandoned.
Qed.
Lemma pool_step_state r p p' : pool_ok r p -> pool_step r p p' -> queue_moves r (po_shared p) (po_shared p').
Proof.
  intros [Hshared Htasks _] Hstep. destruct Hstep as [p i t|p i X o k x s Hi Hs|p i k j fuel|p i X o k]; cbn; [by left| |by left|].
  - destruct (Htasks _ _ Hi) as (Ho & _ & _). by eapply serves_state.
  - by apply dropped_state.
Qed.

Definition lines_settled (lines : list DeploymentLog) (st : ReporterState) : Prop :=
  exists sent, sent `prefix_of` rs_sent st /\ lines `prefix_of` List.concat sent.*1 /\ Forall unrejected sent.
Definition halted (st : ReporterState) : Prop := is_Some (delivery_stopped (rs_log st)).

Lemma settled_less a b st : a `prefix_of` b -> lines_settled b st -> lines_settled a st.
Proof. intros Hab (sent & H1 & H2 & H3). exists sent. split_and!; [done|by etrans|done]. Qed.

(** The queue never forgets. *)
Lemma queue_keeps r st st' : reporter_step r st st' ->
  rs_accepted st `prefix_of` rs_accepted st' /\ rs_sent st `prefix_of` rs_sent st' /\ (halted st -> halted st').
Proof.
  unfold halted. intros [st0 l outcome s' Ha|st0 batch s' _ Ht|st0 batch _|st0 batch reason _|st0 batch _]; cbn;
    (split; [|split]); try done; try by apply prefix_app_r.
  - destruct outcome; [done..|]. by apply prefix_app_r.
  - apply accept_log_inv in Ha as [[-> _]|(l' & b & _ & -> & _)]; [done|]. by intros [? [=]].
  - unfold take_batch in Ht. destruct (delivery_stopped (rs_log st0)); [done|]. by intros [? [=]].
Qed.
Lemma moves_keep r s s' : queue_moves r s s' ->
  rs_accepted (sh_state s) `prefix_of` rs_accepted (sh_state s') /\
  (forall a, lines_settled a (sh_state s) -> lines_settled a (sh_state s')) /\ (halted (sh_state s) -> halted (sh_state s')).
Proof.
  intros [->|(Ha & Hs & Hh)%queue_keeps]; [done|]. split; [done|]. split; [|done].
  intros a (sent & H1 & H2 & H3). exists sent. split_and!; [by etrans|done|done].
Qed.

(** How far a flush is. *)
Inductive Progress := Working | Drained | Halted.
Definition flush_progress : Monitor QueueOp Progress := {|
  allowed _ _ _ := True;
  plausible _ _ _ _ := True;
  after_call g X o :=
    match o in QueueOp T return T -> Progress with
    | TakeBatch => fun x => match x with Ok None => Drained | Err _ => Halted | Ok (Some _) => g end
    | StopDelivery _ => fun _ => Halted
    | _ => fun _ => g
    end
|}.
Definition flush_ends (out : Run (Result RuntimeExecutionError ())) (g : Progress) : Prop :=
  match out with Done (Ok _) => g = Drained | Done (Err _) => g = Halted | _ => True end.
Abbreviation flushing t g := (wp flush_progress t flush_ends (fun _ => True) g).
Lemma flush_flushing fuel : flushing (flush_task fuel) Working.
Proof.
  split_and!; [done|done|]. intros [] _. cbn [bind]. apply wp_bind.
  apply (wp_mono _ _ flush_ends _ (fun _ => True)); [|done|].
  { intros [[[]|e]| |] g; cbn; try done; by split_and!. }
  change (flushing (flush_rounds fuel) Working). induction fuel as [|fuel IH]; cbn [flush_rounds]; [done|].
  split_and!; [done|done|]. intros [[batch|]|e] _; cbn; [|done..].
  split_and!; [done|done|]. intros [ack|e] _; cbn; [apply IH|]. by split_and!.
Qed.

Definition reached (lines : list DeploymentLog) (g : Progress) (st : ReporterState) : Prop :=
  match g with Working => True | Drained => lines_settled lines st | Halted => halted st end.
(** Task [i] is a flush behind [lines]. *)
Definition flushes (lines : list DeploymentLog) (p : Pool) (i : nat) : Prop :=
  exists t g, po_tasks p !! i = Some t /\ flushing t g /\
    lines `prefix_of` rs_accepted (sh_state (po_shared p)) /\ reached lines g (sh_state (po_shared p)).

Lemma reached_keeps r lines g s s' :
  queue_moves r s s' -> reached lines g (sh_state s) -> reached lines g (sh_state s').
Proof. intros (_ & Hs & Hh)%moves_keep. destruct g; cbn; auto. Qed.
Lemma drained_settles id bounds interval s lines :
  reporter_reaches (with_flush_interval id bounds interval) (sh_state s) ->
  lines `prefix_of` rs_accepted (sh_state s) -> rs_in_flight (sh_state s) = None ->
  pending (rs_log (sh_state s)) = [] -> delivery_stopped (rs_log (sh_state s)) = None -> lines_settled lines (sh_state s).
Proof.
  intros [Hord _ _ _ _ _]%reporter_reaches_inv Hl Hf Hp Hd. rewrite Hd, Hp in Hord. destruct Hord as [Hord Hun].
  unfold in_flight_lines in Hord. rewrite Hf, !app_nil_r in Hord. exists (rs_sent (sh_state s)).
  split_and!; [done|by unfold offered in Hord; rewrite Hord|done].
Qed.
Lemma serves_progress id bounds interval i s X (o : QueueOp X) x s' lines g :
  let r := with_flush_interval id bounds interval in
  reporter_reaches r (sh_state s) -> allowed flush_discipline (position s i) o -> serves r i s X o x s' ->
  lines `prefix_of` rs_accepted (sh_state s) -> reached lines g (sh_state s) ->
  reached lines (after_call flush_progress g o x) (sh_state s').
Proof.
  intros r Hreach Ho Hs Hl Hg. pose proof (reached_keeps _ _ _ _ _ (serves_state _ _ _ _ _ _ _ Ho Hs) Hg) as Hkeep.
  destruct o; try exact Hkeep; cbn in Ho, Hs |- *.
  - destruct Hs as [-> ->]. apply position_inside in Ho as [_ Hf].
    destruct (take_batch r (rs_log (sh_state s))) as [[[batch|]|e] log] eqn:E; [exact Hkeep| |]; cbn.
    + apply take_batch_ok_none in E as (_ & Hp & Hd). by eapply drained_settles.
    + unfold halted. unfold take_batch in E. destruct (delivery_stopped (rs_log (sh_state s))); [done|].
      destruct (pending (rs_log (sh_state s))); [done|]. by destruct (batch_count _ _ _ _).
  - subst s'. by eexists.
Qed.

(** A flush stays one while its task is in the pool. *)
Lemma flushes_step id bounds interval p p' lines i :
  let r := with_flush_interval id bounds interval in
  pool_ok r p -> pool_step r p p' -> is_Some (po_tasks p' !! i) -> flushes lines p i -> flushes lines p' i.
Proof.
  intros r Hok Hstep Hin (t & g & Ht & Hwp & Hl & Hg). pose proof (pool_step_state _ _ _ Hok Hstep) as Hmoves.
  pose proof (moves_keep _ _ _ Hmoves) as (Hacc & _).
  cut (exists t' g', po_tasks p' !! i = Some t' /\ flushing t' g' /\ reached lines g' (sh_state (po_shared p'))).
  { intros (t' & g' & Ht' & Hwp' & Hg'). exists t', g'. split_and!; [done|done|by etrans|done]. }
  pose proof (reached_keeps _ _ _ _ _ Hmoves Hg) as Hkeep. destruct Hok as [[Hreach _] Htasks _].
  destruct Hstep as [p j u Hj Hu|p j X o k x s Hj Hs|p j k j' fuel Hj Hj'|p j X o k Hj _]; cbn in *.
  - exists t, g. split_and!; [|done|done]. rewrite lookup_insert_ne; [done|congruence].
  - destruct (decide (j = i)) as [->|Hne].
    + rewrite Ht in Hj. injection Hj as ->. destruct Hwp as (_ & _ & Hk). destruct (Htasks _ _ Ht) as (Ho & _ & _).
      exists (k x), (after_call flush_progress g o x). split_and!; [by rewrite lookup_insert; case_decide|by apply Hk|].
      by eapply serves_progress.
    + exists t, g. split_and!; [by rewrite lookup_insert_ne|done|done].
  - assert (j' <> i) by congruence. rewrite lookup_insert_ne by done. destruct (decide (j = i)) as [->|Hne].
    + rewrite Ht in Hj. injection Hj as ->. destruct Hwp as (_ & _ & Hk).
      exists (k tt), g. split_and!; [by rewrite lookup_insert; case_decide|by apply (Hk tt)|done].
    + exists t, g. split_and!; [by rewrite lookup_insert_ne|done|done].
  - destruct (decide (j = i)) as [->|Hne]; [rewrite lookup_delete in Hin; case_decide; [by destruct Hin|done]|].
    exists t, g. split_and!; [by rewrite lookup_delete_ne|done|done].
Qed.
Lemma flush_starts p i fuel : po_tasks p !! i = Some (flush_task fuel) ->
  flushes (rs_accepted (sh_state (po_shared p))) p i.
Proof. intros Hi. exists (flush_task fuel), Working. split_and!; [done|apply flush_flushing|done|done]. Qed.
Lemma flush_ended p i lines result : flushes lines p i -> po_tasks p !! i = Some (Ret (Done result)) ->
  if is_ok result then lines_settled lines (sh_state (po_shared p)) else halted (sh_state (po_shared p)).
Proof.
  intros (t & g & Ht & Hwp & _ & Hg) Hi. rewrite Ht in Hi. injection Hi as ->. destruct result; cbn in Hwp; by subst g.
Qed.

(** ** A task on its own

    Without other tasks the lock is free, the queue is a state that the task
    carries, and the tasks are [flush_pending] and [reporter_log]; so a flush
    ends when its rounds exceed the lines that are pending. *)
Section Alone.
Context {Op : Type -> Type} `{!ControlPlane Op} (r : Reporter).

Fixpoint alone {A} (s : LogState) (t : Prog QueueOp A) : Prog Op (A * LogState) :=
  match t with
  | Ret a => Ret (a, s)
  | @Vis _ _ X o k =>
      match o in QueueOp T return (T -> LogState -> Prog Op (A * LogState)) -> Prog Op (A * LogState) with
      | AcceptLog l => fun go =>
          match accept_log r s l with
          | Done (outcome, s') => go (Done outcome) s'
          | Panicked => go Panicked s
          | OutOfFuel => go OutOfFuel s
          end
      | TakeBatch => fun go => let (x, s') := take_batch r s in go x s'
      | SendLogs batch => fun go => answer <~ cp_logs (rp_command_id r) batch ;; go answer s
      | StopDelivery reason => fun go => go tt (stop_delivery s reason)
      | SwapScheduled => fun go => go false s
      | LockFlush | UnlockFlush | ClearScheduled | SpawnFlush | FlushPause => fun go => go tt s
      end (fun x s' => alone s' (k x))
  end.

(** The sequential code's answers, in the shape of a task's. *)
Definition as_task (s : LogState) (out : Run (Result RuntimeExecutionError () * LogState))
  : Run (Result RuntimeExecutionError ()) * LogState :=
  match out with Done (result, s') => (Done result, s') | Panicked => (Panicked, s) | OutOfFuel => (OutOfFuel, s) end.

Lemma alone_bind {A B} s (t : Prog QueueOp A) (f : A -> Prog QueueOp B) :
  alone s (bind t f) ≡ bind (alone s t) (fun out => alone out.2 (f out.1)).
Proof.
  revert s. induction t as [a|X o k IH]; intros s; [done|]. destruct o; cbn; try apply IH.
  - destruct (accept_log r s l) as [[outcome s']| |]; apply IH.
  - destruct (take_batch r s) as [x s']. apply IH.
  - rewrite bind_assoc. apply bind_proper; [done|]. intros x. apply IH.
Qed.

Lemma rounds_alone (Hlines : (1 <= rp_batch_max_lines r)%N) f1 f2 s s0 :
  length (pending s) <= f1 -> length (pending s) <= f2 ->
  alone s (flush_rounds (S f1)) ≡ (out <~ flush_loop r f2 s ;; Ret (as_task s0 out)).
Proof.
  revert f2 s. induction f1 as [|f1 IH]; intros f2 s H1 H2; destruct f2 as [|f2]; cbn [flush_rounds flush_loop alone trigger bind];
    destruct (take_batch r s) as [[[batch|]|e] s1] eqn:Ht; try done;
    apply take_batch_spec in Ht as (Hp & (Hne & _) & _); try done; rewrite Hp, length_app in H1, H2;
    (destruct batch as [|l batch]; [done|]); cbn [length] in H1, H2; try lia.
  cbn [bind alone]. rewrite bind_assoc. apply bind_proper; [done|]. intros [ack|e]; [|done]. apply IH; lia.
Qed.
Lemma flush_alone (Hlines : (1 <= rp_batch_max_lines r)%N) fuel s :
  length (pending s) < fuel -> alone s (flush_task fuel) ≡ (out <~ flush_pending r s ;; Ret (as_task s out)).
Proof.
  intros Hfuel. destruct fuel as [|fuel]; [lia|]. unfold flush_task, flush_pending. cbn [trigger bind alone].
  rewrite alone_bind, (rounds_alone Hlines fuel (length (pending s)) s s), bind_assoc by lia.
  apply bind_proper; [done|]. by intros [[result s']| |].
Qed.
End Alone.

(** A task alone is the sequential code: [log_task] is [reporter_log], and
    [flush_task], with more rounds than there are pending lines, is
    [flush_pending], which always ends ([flush_delivers_pending]). *)
Theorem task_alone_is_sequential {Op : Type -> Type} `{!ControlPlane Op} id bounds interval fuel l s :
  let r := with_flush_interval id bounds interval in
  length (pending s) < fuel ->
  alone (Op := Op) r s (flush_task fuel) ≡ (out <~ flush_pending r s ;; Ret (as_task s out)) /\
  exists s', alone (Op := Op) r s (log_task (S fuel) l) ≡
    (out <~ reporter_log r s l ;; Ret (as_task s' (result ← out; Done result.1))).
Proof.
  intros r Hfuel. assert ((1 <= rp_batch_max_lines r)%N) as Hlines by apply new_reporter_lines.
  split; [by apply flush_alone|]. unfold log_task, reporter_log. cbn [trigger bind alone].
  destruct (accept_log r s l) as [[[reason| |[]] s']| |] eqn:Ha; try by exists s.
  apply accept_log_inv in Ha as [[_ []]|(l' & b & _ & _ & _ & Hs)].
  assert (length (pending s') < S fuel) as Hlen by (subst s'; cbn; rewrite length_app; cbn; lia).
  exists s'. rewrite flush_alone by done. rewrite bind_assoc. apply bind_proper; [done|]. by intros [[result s1]| |].
Qed.

(** ** A dropped flush *)

Definition single_lines : Reporter := with_flush_interval sample_uuid
  {| max_line_length := None; max_batch_lines := Some 1%N; max_total_bytes := None |} FLUSH_INTERVAL.
Definition last_words : DeploymentLog := sample_log "last words".
Definition queue_of (lines : list DeploymentLog) : LogState :=
  {| pending := lines; pending_bytes := total_len lines; bytes_sent := 10; delivery_stopped := None |}.
Definition queued : ReporterState :=
  {| rs_log := queue_of [last_words]; rs_in_flight := None; rs_accepted := [last_words]; rs_sent := [] |}.
Definition sending : ReporterState := after_take queued [last_words] (queue_of []).
Definition lost : ReporterState := after_fate sending [last_words] Abandoned (queue_of []).
Definition held (st : ReporterState) (h : option nat) : Shared :=
  {| sh_state := st; sh_holder := h; sh_scheduled := false |}.
Ltac task_calls H i x s :=
  eapply pool_reach_step in H; [|eapply (pool_call _ _ i _ _ _ x s); [reflexivity|vm_compute; repeat split]].

(** C40. A task that is dropped while it waits for the control plane takes its
    batch with it.  A line is queued by a task that is then dropped, as the
    deadline of a build or a cancellation drops it, while its request is
    pending.  The flush that precedes the end of the command finds the queue
    empty and succeeds, delivery goes on as if nothing had happened, and the
    line was accepted but never acknowledged. *)
Theorem dropped_flush_loses_lines :
  exists p, pool_reaches single_lines p /\
    po_tasks p !! 0 = None /\ po_tasks p !! 1 = Some (Ret (Done (Ok ()))) /\
    rs_accepted (sh_state (po_shared p)) = [last_words] /\
    rs_sent (sh_state (po_shared p)) = [([last_words], Abandoned)] /\
    pending (rs_log (sh_state (po_shared p))) = [] /\
    delivery_stopped (rs_log (sh_state (po_shared p))) = None.
Proof.
  pose proof (pool_reach_init single_lines) as H.
  eapply pool_reach_step in H; [|apply (pool_start _ _ 0 (log_task 1 last_words)); [reflexivity|constructor]].
  task_calls H 0 (Done (Queued true)) (held queued None).
  task_calls H 0 tt (held queued (Some 0)).
  task_calls H 0 (Ok (Some [last_words]) : Result RuntimeExecutionError _) (held sending (Some 0)).
  eapply pool_reach_step in H; [|eapply (pool_drop _ _ 0); reflexivity].
  eapply pool_reach_step in H; [|apply (pool_start _ _ 1 (flush_task 1)); [reflexivity|constructor]].
  task_calls H 1 tt (held lost (Some 1)).
  task_calls H 1 (Ok None : Result RuntimeExecutionError (option (list DeploymentLog))) (held lost (Some 1)).
  task_calls H 1 tt (held lost None).
  eexists. split; [exact H|]. split_and!; vm_compute; reflexivity.
Qed.

(** ** Witness *)

Lemma reporter_tasks_witness : reporter_reaches single_lines sending /\ reporter_inv single_lines sending.
Proof.
  pose proof (pool_reach_init single_lines) as H.
  eapply pool_reach_step in H; [|apply (pool_start _ _ 0 (log_task 1 last_words)); [reflexivity|constructor]].
  task_calls H 0 (Done (Queued true)) (held queued None).
  task_calls H 0 tt (held queued (Some 0)).
  task_calls H 0 (Ok (Some [last_words]) : Result RuntimeExecutionError _) (held sending (Some 0)).
  destruct (reporter_tasks_work_the_queue sample_uuid _ FLUSH_INTERVAL _ H) as (Hreach & Hinv & _).
  split; [exact Hreach|exact Hinv].
Defined.
