(* ===== verification/Processor.v ===== *)
(** The life of one claimed command (core/src/commands/processor.rs): claim,
    bounded execution with its deadline and the grace after a cutover, flush of
    the logs, terminal transition. *)
From S2P Require Import Prelude Text Protocol Async Ports NodeState ApiClient Dispatcher CoreOps.

#[local] Open Scope async_scope.

Record ProcessorConfig := { command_timeout : Duration; post_commit_grace : Duration }.
Definition POST_COMMIT_FINALIZATION_GRACE : Duration := from_secs 30.

Definition command_policy {codec : PayloadCodec} (cfg : ProcessorConfig) (c : AgentCommand)
  : Result RuntimeExecutionError (Duration * LogBounds) :=
  if negb (bool_decide (cmd_command_type c = DeployProject)) then Ok (command_timeout cfg, default_log_bounds)
  else
    payload ← payload_error "invalid DeployProject payload: " (deploy_payload (cmd_payload c));
    let maximum := as_secs (command_timeout cfg) in
    let requested := default maximum (command_timeout_seconds (dp_timeouts payload)) in
    if (requested =? 0)%N || (maximum <? requested)%N
    then Err (invalid_command ("command_timeout_seconds (" +:+ pretty requested
                +:+ "s) exceeds the node maximum of " +:+ pretty maximum +:+ "s"))
    else Ok (from_secs requested, dp_log_bounds payload).

(** [deferred_committed_output] on the output recorded at cutover. *)
Definition mark_deferred (output : CommandOutput) (reason : FinalizationDeferredReason) : CommandOutput :=
  {| co_result := match co_result output with
       | Object fields =>
           Object (field_insert (field_insert fields "finalization_deferred" (Bool true))
                     "finalization_deferred_reason" (Str (serde_name reason)))
       | committed_result =>
           Object [("committed_result", committed_result); ("finalization_deferred", Bool true);
                   ("finalization_deferred_reason", Str (serde_name reason))]
       end |}.

Section Process.
Context {Op : Type -> Type} `{!ControlPlane Op} `{!RuntimeReporter Op} `{!Ambient Op} `{!Timers Op}
        {codec : PayloadCodec}.
Context (cfg : ProcessorConfig).

Definition deferred_committed_output (reason : FinalizationDeferredReason) : Prog Op CommandOutput :=
  output <~ committed_output ;; Ret (mark_deferred (default default_output output) reason).

(** The future under its deadline. *)
Definition bounded_execution (timeout : Duration) (execution : Async Op RuntimeExecutionError CommandOutput)
  : Async Op RuntimeExecutionError CommandOutput :=
  raced <~ race (elapsed ExecutionTimeout timeout) execution ;;
  match raced with
  | inl result => Ret result
  | inr rest =>
      committed <~ deployment_committed ;;
      if committed : bool then
        graced <~ race (elapsed FinalizationGrace (post_commit_grace cfg)) rest ;;
        match graced with
        | inl (Ok output) => ok output
        | inl (Err _) => output <~ deferred_committed_output FinalizationRuntimeError ;; ok output
        | inr _ =>
            _ <~ cancel_token ;;
            output <~ deferred_committed_output GraceElapsed ;; ok output
        end
      else
        _ <~ cancel_token ;;
        _ <~ race (elapsed CleanupWindow (from_secs 1)) rest ;;
        err (new_error "runtime_timeout"
               ("command execution exceeded its " +:+ pretty (as_secs timeout) +:+ "s timeout"))
  end.

Definition prefer_commit (result : Result RuntimeExecutionError CommandOutput)
  : Async Op RuntimeExecutionError CommandOutput :=
  match result with
  | Err e =>
      committed <~ deployment_committed ;;
      if committed : bool
      then output <~ deferred_committed_output FinalizationRuntimeError ;; ok output
      else err e
  | Ok output => ok output
  end.

Definition claimed_event (now : Z) : DeploymentEvent :=
  {| ev_type := "command.claimed"; ev_level := Info; ev_message := "Agent claimed command.";
     ev_metadata := Object []; ev_occurred_at := now |}.

Definition finish (c : AgentCommand) (result : Result RuntimeExecutionError CommandOutput)
  : Async Op CoreError () :=
  match result with
  | Ok output => cp_complete (cmd_id c) (co_result output) ;;; ok ()
  | Err e => cp_fail (cmd_id c) (ree_code e) (ree_message e) ;;; err (Runtime e)
  end.

(** [process], over the dispatch of the command. *)
Definition process (c : AgentCommand) (execution : Async Op RuntimeExecutionError CommandOutput)
  : Async Op CoreError () :=
  claimed <- attempt (cp_claim (cmd_id c)) ;;
  match claimed with
  | Err CommandNotClaimable => ok ()
  | Err e => err e
  | Ok _ =>
      now <~ now_utc ;;
      cp_event (cmd_id c) (claimed_event now) ;;;
      match command_policy cfg c with
      | Err e => cp_fail (cmd_id c) (ree_code e) (ree_message e) ;;; err (Runtime e)
      | Ok (timeout, _) =>
          result <~ bounded_execution timeout execution ;;
          result <~ prefer_commit result ;;
          ignore report_flush ;;;
          finish c result
      end
  end.
End Process.

(** The processor with its dispatcher: [CommandProcessor::with_node_lifecycle]
    supplies a reporter factory. *)
Definition process_command {Op : Type -> Type} `{!ControlPlane Op} `{!RuntimeReporter Op} `{!Ambient Op}
    `{!Timers Op} `{!RuntimeExecutor Op} `{!RepositoryCredentialProvider Op} `{!LifecycleOps Op}
    {codec : PayloadCodec} (cfg : ProcessorConfig) (c : AgentCommand) : Async Op CoreError () :=
  process cfg c (dispatch true c).
