(* ===== verification/ProcessorFacts.v ===== *)
(** Theorems about dispatch and command processing. *)
From S2P Require Import Prelude Text Protocol Async Ports NodeState ApiClient Dispatcher CoreOps Processor.

#[local] Open Scope async_scope.

(** ** What dispatch may call *)

(** Terminal transitions and claims are the processor's own. *)
Definition not_terminal X (o : CoreOp X) : Prop :=
  match o with CpClaim _ | CpComplete _ _ | CpFail _ _ _ => False | _ => True end.

Lemma dispatch_not_terminal {codec : PayloadCodec} factory c :
  only not_terminal (dispatch (Op := CoreOp) factory c).
Proof.
  unfold dispatch, handle_inspect, handle_deploy, handle_lifecycle, handle_reconcile, handle_cleanup,
    handle_drain, handle_resume, set_lifecycle. destruct (cmd_command_type c); cbn -[has_fatal_failure]; only_calls.
Qed.

(** ** Bounded execution *)

Lemma deferred_not_terminal reason : only not_terminal (deferred_committed_output (Op := CoreOp) reason).
Proof. unfold deferred_committed_output. cbn. only_calls. Qed.

Lemma runs_deferred (f : CommandOutput -> Async CoreOp RuntimeExecutionError CommandOutput) reason tr r :
  runs (bind (deferred_committed_output reason) f) tr r ->
  exists o tr', tr = MkCall RpCommittedOutput o :: tr' /\
    runs (f (mark_deferred (default default_output o) reason)) tr' r.
Proof. intros (o & tr' & -> & H). eauto. Qed.

Lemma bounded_execution_calls cfg timeout execution tr r :
  only not_terminal execution ->
  runs (bounded_execution (Op := CoreOp) cfg timeout execution) tr r ->
  Forall (fun c => not_terminal _ (call_op c)) tr.
Proof.
  intros Hex H. unfold bounded_execution in H.
  apply runs_bind in H as (t1 & t2 & [result|rest] & -> & H1 & H2); apply Forall_app; split;
    try (eapply only_runs; [|exact H1]; apply only_race; [by split|exact Hex]).
  - by destruct H2 as [-> _].
  - eapply only_race_rest in H1; [|exact Hex].
    eapply only_runs; [|exact H2]. pose proof (deferred_not_terminal). only_calls; try done.
Qed.

(** ** Processing *)

Definition claim_calls (c : AgentCommand) (now : Z) (answer : Result CoreError ReportAcknowledgement)
  : list (Call CoreOp) :=
  [MkCall (CpClaim (cmd_id c)) (Ok ()); MkCall NowUtc now;
   MkCall (CpEvent (cmd_id c) (claimed_event now)) answer].

(** The terminal transition of an outcome, and what [process] returns. *)
Definition terminal_call (c : AgentCommand) (result : Result RuntimeExecutionError CommandOutput)
    (answer : Result CoreError ()) : Call CoreOp :=
  match result with
  | Ok output => MkCall (CpComplete (cmd_id c) (co_result output)) answer
  | Err e => MkCall (CpFail (cmd_id c) (ree_code e) (ree_message e)) answer
  end.
Definition process_result (result : Result RuntimeExecutionError CommandOutput) (answer : Result CoreError ())
  : Result CoreError () :=
  match answer, result with
  | Err e, _ => Err e
  | Ok _, Ok _ => Ok ()
  | Ok _, Err e => Err (Runtime e)
  end.

Lemma finish_runs c result tr r :
  runs (finish (Op := CoreOp) c result) tr r ->
  exists answer, tr = [terminal_call c result answer] /\ r = process_result result answer.
Proof.
  destruct result as [output|e]; intros (answer & tr' & -> & H); exists answer;
    destruct answer as [[]|err]; cbn in H; by destruct H as [-> ->].
Qed.

Lemma prefer_commit_runs result tr r :
  runs (prefer_commit (Op := CoreOp) result) tr r ->
  Forall (fun c => not_terminal _ (call_op c)) tr /\
  match r with
  | Ok output =>
      match result with
      | Ok o => output = o /\ tr = []
      | Err _ => exists o, output = mark_deferred (default default_output o) FinalizationRuntimeError /\
                   tr = [MkCall RpCommitted true; MkCall RpCommittedOutput o]
      end
  | Err e => result = Err e /\ tr = [MkCall RpCommitted false]
  end.
Proof.
  destruct result as [output|e]; cbn; [by intros [-> ->]|].
  intros ([|] & tr' & -> & H); cbn in H; [|by destruct H as [-> ->]; repeat constructor].
  destruct H as (o & tr'' & -> & -> & ->). split; [by repeat constructor|]. eauto.
Qed.

Lemma process_runs {codec : PayloadCodec} cfg c execution tr r :
  only not_terminal execution ->
  runs (process (Op := CoreOp) cfg c execution) tr r ->
  (exists e, tr = [MkCall (CpClaim (cmd_id c)) (Err e)] /\
     r = match e with CommandNotClaimable => Ok () | _ => Err e end) \/
  (exists now e, tr = claim_calls c now (Err e) /\ r = Err e) \/
  (exists now ack e answer, command_policy cfg c = Err e /\
     tr = claim_calls c now (Ok ack) ++ [terminal_call c (Err e) answer] /\
     r = process_result (Err e) answer) \/
  (exists now ack during result flushed answer,
     tr = claim_calls c now (Ok ack) ++ during ++ [MkCall RpFlush flushed; terminal_call c result answer] /\
     Forall (fun call => not_terminal _ (call_op call)) during /\
     r = process_result result answer /\
     (is_err result = true -> last during = Some (MkCall RpCommitted false))).
Proof.
  intros Hex (claimed & tr1 & -> & H). cbn in H.
  destruct claimed as [[]|e].
  2: { left. exists e. destruct e; by destruct H as [-> ->]. }
  destruct H as (now & tr2 & -> & answer & tr3 & -> & H). cbn in H.
  destruct answer as [ack|e]; [|right; left; exists now, e; by destruct H as [-> ->]].
  right; right. cbn in H. destruct (command_policy cfg c) as [[timeout bounds]|e] eqn:Hp.
  2: { left. apply finish_runs with (result := Err e) in H as (answer & -> & ->).
       exists now, ack, e, answer. done. }
  right.
  apply runs_bind in H as (t1 & t2 & result & -> & H1 & H).
  apply runs_bind in H as (t3 & t4 & result' & -> & H2 & H).
  destruct H as (flushed & t5 & -> & H). cbn in H.
  apply finish_runs in H as (answer & -> & ->).
  apply bounded_execution_calls in H1; [|done]. apply prefer_commit_runs in H2 as [Hc H2].
  exists now, ack, (t1 ++ t3), result', flushed, answer. split_and!.
  - unfold claim_calls. cbn. by rewrite <- !app_assoc.
  - by apply Forall_app.
  - done.
  - destruct result' as [|e]; [done|]. destruct H2 as [_ ->]. intros _. by rewrite last_snoc.
Qed.

(** Every command that was claimed gets exactly one terminal transition,
    as the last thing the processor does. Whatever the control plane, the
    runtime and the timers answer: a lost claim makes no further call; a claim
    whose first event is not acknowledged ends there; a rejected policy is
    reported as a failure and nothing is executed; otherwise the execution and
    its deadline make no claim or terminal call, the logs are flushed next, and
    then comes one [complete] or [fail], a [fail] only after the reporter said
    that no deployment was committed. *)
Theorem one_terminal_transition {codec : PayloadCodec} cfg c tr r :
  runs (process_command (Op := CoreOp) cfg c) tr r ->
  (exists e, tr = [MkCall (CpClaim (cmd_id c)) (Err e)] /\
     r = match e with CommandNotClaimable => Ok () | _ => Err e end) \/
  (exists now e, tr = claim_calls c now (Err e) /\ r = Err e) \/
  (exists now ack e answer, command_policy cfg c = Err e /\
     tr = claim_calls c now (Ok ack) ++ [terminal_call c (Err e) answer] /\
     r = process_result (Err e) answer) \/
  (exists now ack during result flushed answer,
     tr = claim_calls c now (Ok ack) ++ during ++ [MkCall RpFlush flushed; terminal_call c result answer] /\
     Forall (fun call => not_terminal _ (call_op call)) during /\
     r = process_result result answer /\
     (is_err result = true -> last during = Some (MkCall RpCommitted false))).
Proof.
  intros H. apply (process_runs cfg c (dispatch true c)); [apply dispatch_not_terminal|exact H].
Qed.

(** ** Committed deployments *)

Definition said_committed (c : Call CoreOp) : bool :=
  match call_op c in CoreOp T return T -> bool with RpCommitted => fun b => b | _ => fun _ => false end
    (call_answer c).
Definition is_fail_call (c : Call CoreOp) : bool :=
  match call_op c with CpFail _ _ _ => true | _ => false end.
Definition asks_committed (c : Call CoreOp) : bool :=
  match call_op c with RpCommitted | RpCommittedOutput | CpFail _ _ _ => true | _ => false end.

Definition keeps_commit X (o : CoreOp X) : Prop :=
  match o with RpCommitted | RpCommittedOutput | CpFail _ _ _ => False | _ => True end.

Lemma dispatch_keeps_commit {codec : PayloadCodec} factory c :
  only keeps_commit (dispatch (Op := CoreOp) factory c).
Proof.
  unfold dispatch, handle_inspect, handle_deploy, handle_lifecycle, handle_reconcile, handle_cleanup,
    handle_drain, handle_resume, set_lifecycle. destruct (cmd_command_type c); cbn -[has_fatal_failure]; only_calls.
Qed.

Lemma elapsed_keeps w d : only keeps_commit (elapsed (Op := CoreOp) w d).
Proof. by split. Qed.

Lemma keeps_commit_calls tr :
  Forall (fun c => keeps_commit _ (call_op c)) tr ->
  existsb said_committed tr = false /\ existsb is_fail_call tr = false.
Proof.
  induction 1 as [|[X o x] tr Ho _ [IH1 IH2]]; [done|]. cbn [existsb]. rewrite IH1, IH2.
  cbn in Ho. by destruct o.
Qed.

(** An output that is the execution's own, or the committed one marked as
    deferred. *)
Definition deferred_output (output : CommandOutput) : Prop :=
  exists o reason, output = mark_deferred (default default_output o) reason.

Lemma bounded_execution_commit cfg timeout execution tr r :
  only keeps_commit execution ->
  runs (bounded_execution (Op := CoreOp) cfg timeout execution) tr r ->
  existsb is_fail_call tr = false /\
  (existsb said_committed tr = true ->
   exists output, r = Ok output /\
     (deferred_output output \/ exists t, runs execution t (Ok output))).
Proof.
  intros Hex H. unfold bounded_execution in H.
  apply runs_bind in H as (t1 & t2 & raced & -> & H1 & H2).
  pose proof (only_runs keeps_commit _ _ _
    (only_race _ (elapsed ExecutionTimeout timeout) _ (elapsed_keeps _ _) Hex) H1) as Hk1.
  apply keeps_commit_calls in Hk1 as [Hc1 Hf1]. rewrite !existsb_app, Hc1, Hf1. cbn [orb].
  destruct raced as [result|rest]; [by destruct H2 as [-> ->]|].
  pose proof (only_race_rest _ _ _ _ _ Hex H1) as Hrest.
  destruct H2 as (committed & t3 & -> & H2). cbn in H2. destruct committed.
  - apply runs_bind in H2 as (t4 & t5 & graced & -> & H3 & H4).
    pose proof (only_runs keeps_commit _ _ _
      (only_race _ (elapsed FinalizationGrace (post_commit_grace cfg)) _ (elapsed_keeps _ _) Hrest) H3) as Hk3.
    apply keeps_commit_calls in Hk3 as [Hc3 Hf3].
    destruct graced as [[output|e]|rest'].
    + destruct H4 as [-> ->]. rewrite app_nil_r. split; [exact Hf3|]. intros _.
      exists output. split; [done|right]. by eapply race_resumed.
    + apply runs_deferred in H4 as (o & t6 & -> & -> & ->). cbn [existsb]. rewrite !existsb_app, Hf3. split; [done|].
      intros _. eexists. split; [done|]. left. by eexists _, _.
    + destruct H4 as ([] & t6 & -> & H4). apply runs_deferred in H4 as (o & t7 & -> & -> & ->). cbn [existsb]. rewrite !existsb_app, Hf3. split; [done|].
      intros _. eexists. split; [done|]. left. by eexists _, _.
  - destruct H2 as ([] & t4 & -> & H2). apply runs_bind in H2 as (t5 & t6 & raced & -> & H3 & H4).
    pose proof (only_runs keeps_commit _ _ _
      (only_race _ (elapsed CleanupWindow (from_secs 1)) _ (elapsed_keeps _ _) Hrest) H3) as Hk3.
    apply keeps_commit_calls in Hk3 as [Hc3 Hf3]. destruct H4 as [-> ->].
    cbn [existsb]. rewrite !existsb_app, Hf3, Hc3. done.
Qed.

Lemma prefer_commit_output result tr r :
  runs (prefer_commit (Op := CoreOp) result) tr r ->
  existsb is_fail_call tr = false /\
  (is_ok result = true -> existsb said_committed tr = false) /\
  (is_ok result = true \/ existsb said_committed tr = true ->
   exists output, r = Ok output /\ (deferred_output output \/ result = Ok output)).
Proof.
  intros H. apply prefer_commit_runs in H as [_ H]. destruct r as [output|e].
  - destruct result as [o|e]; [destruct H as [-> ->]|destruct H as (o & -> & ->)];
      (split; [done|split; [done|]]); intros _; eexists; (split; [done|]); [by right|left]. by eexists _, _.
  - destruct H as [-> ->]. split; [done|split; [done|]]. by intros [[=]|[=]].
Qed.

(** A deployment that was committed is never reported as failed: once the
    reporter has said that the cutover happened, the processor makes no [fail]
    call, its last call is [complete], and the result it sends is the
    execution's own or the one recorded at cutover, marked as deferred. *)
Theorem committed_never_failed {codec : PayloadCodec} cfg c tr r :
  runs (process_command (Op := CoreOp) cfg c) tr r ->
  existsb said_committed tr = true ->
  existsb is_fail_call tr = false /\
  exists output answer,
    last tr = Some (MkCall (CpComplete (cmd_id c) (co_result output)) answer) /\
    (deferred_output output \/ exists t, runs (dispatch (Op := CoreOp) true c) t (Ok output)).
Proof.
  intros (claimed & tr1 & -> & H). cbn in H.
  destruct claimed as [[]|e]; [|by destruct e; destruct H as [-> ->]].
  destruct H as (now & tr2 & -> & answer & tr3 & -> & H). cbn in H.
  destruct answer as [ack|e]; [|by destruct H as [-> ->]].
  cbn in H. destruct (command_policy cfg c) as [[timeout bounds]|e] eqn:Hp.
  2: { apply finish_runs with (result := Err e) in H as (answer & -> & ->). done. }
  apply runs_bind in H as (t1 & t2 & result & -> & H1 & H).
  apply runs_bind in H as (t3 & t4 & result' & -> & H2 & H).
  destruct H as (flushed & t5 & -> & H). cbn in H. apply finish_runs in H as (answer & -> & ->).
  apply bounded_execution_commit in H1 as [Hf1 H1]; [|apply dispatch_keeps_commit].
  apply prefer_commit_output in H2 as (Hf2 & Hno & H2). cbn. rewrite !existsb_app. cbn.
  intros Hsaid. rewrite Hf1, Hf2. cbn.
  assert (existsb said_committed t1 = true \/ existsb said_committed t3 = true) as Hs.
  { destruct (existsb said_committed t1); [by left|]. destruct (existsb said_committed t3); [by right|].
    destruct result'; discriminate Hsaid. }
  assert (exists output, result' = Ok output /\
            (deferred_output output \/ exists t, runs (dispatch true c) t (Ok output)))
    as (output & -> & Hout).
  { destruct Hs as [Hs|Hs].
    - destruct (H1 Hs) as (o & -> & Ho). destruct H2 as (output & -> & [Hd|[= <-]]); [by left|eauto..].
    - destruct (H2 (or_intror Hs)) as (output & -> & [Hd|Hr]); [eauto|].
      subst result. by rewrite (Hno eq_refl) in Hs. }
  split; [done|]. exists output, answer. split; [|done]. rewrite !last_cons. 
  by rewrite !last_app.
Qed.

(** A deferred output always says so: both deferral fields can be read
    from the result, and nothing of the committed result is lost, its other
    fields when it is an object and the whole value otherwise. *)
Theorem deferred_output_marked output reason :
  let v := co_result (mark_deferred output reason) in
  value_get v "finalization_deferred" = Some (Bool true) /\
  value_get v "finalization_deferred_reason" = Some (Str (serde_name reason)) /\
  match co_result output with
  | Object fields =>
      forall k, k <> "finalization_deferred" -> k <> "finalization_deferred_reason" ->
      value_get v k = field_get fields k
  | committed => value_get v "committed_result" = Some committed
  end.
Proof.
  unfold mark_deferred. cbn [co_result]. destruct (co_result output) as [| | | | |fields]; try done.
  cbn [value_get]. split_and!.
  - rewrite field_get_insert_ne by done. apply field_get_insert.
  - apply field_get_insert.
  - intros k H1 H2. rewrite !field_get_insert_ne by done. done.
Qed.

(** A command policy never exceeds the node's: a deployment may ask for
    between one second and the node's whole seconds and gets exactly that, a
    deployment that does not ask gets the node's maximum, any other request is
    refused, and every other command runs under the node's own timeout. *)
Theorem policy_within_node_maximum {codec : PayloadCodec} cfg c :
  match command_policy cfg c with
  | Ok (timeout, bounds) =>
      (timeout <= command_timeout cfg)%N /\
      (cmd_command_type c = DeployProject -> exists payload,
         deploy_payload (cmd_payload c) = Ok payload /\ bounds = dp_log_bounds payload /\
         (1 <= as_secs timeout)%N /\
         timeout = from_secs (default (as_secs (command_timeout cfg)) (command_timeout_seconds (dp_timeouts payload)))) /\
      (cmd_command_type c <> DeployProject -> timeout = command_timeout cfg /\ bounds = default_log_bounds)
  | Err e =>
      cmd_command_type c = DeployProject /\ ree_code e = "invalid_runtime_command" /\
      match deploy_payload (cmd_payload c) with
      | Ok payload =>
          let requested := default (as_secs (command_timeout cfg)) (command_timeout_seconds (dp_timeouts payload)) in
          requested = 0%N \/ (as_secs (command_timeout cfg) < requested)%N
      | Err _ => True
      end
  end.
Proof.
  unfold command_policy. case_bool_decide as Hd; cbn [negb]; [|by split_and!].
  destruct (deploy_payload (cmd_payload c)) as [payload|e] eqn:Hp; cbn; [|done].
  set (requested := default _ _). set (maximum := as_secs (command_timeout cfg)) in *.
  destruct (N.eqb_spec requested 0) as [H0|H0]; cbn; [by split_and!; auto|].
  destruct (N.ltb_spec maximum requested) as [Hlt|Hle]; cbn; [by split_and!; auto|].
  assert (from_secs requested <= command_timeout cfg)%N as Hmax.
  { unfold from_secs, maximum, as_secs in *.
    pose proof (N.Div0.mul_div_le (command_timeout cfg) 1000000000). lia. }
  split_and!; [done| |done]. intros _. exists payload. split_and!; [done..| |done].
  unfold as_secs, from_secs. rewrite N.div_mul by done. lia.
Qed.

(** ** Dispatch *)

Definition stores_active (c : Call CoreOp) : bool :=
  match call_op c with StoreLifecycle l => bool_decide (l = with_state Active) | _ => false end.
Definition runs_cleanup (c : Call CoreOp) : bool :=
  match call_op c with RtCleanup _ => true | _ => false end.
Definition runs_deploy (c : Call CoreOp) : bool :=
  match call_op c with RtDeploy _ => true | _ => false end.

Definition guarded_op X (o : CoreOp X) : Prop :=
  match o with
  | StoreLifecycle l => l <> with_state Active
  | RtCleanup _ | RtDeploy _ => False
  | _ => True
  end.

Lemma guarded_calls tr :
  Forall (fun c => guarded_op _ (call_op c)) tr ->
  existsb stores_active tr = false /\ existsb runs_cleanup tr = false /\ existsb runs_deploy tr = false.
Proof.
  induction 1 as [|[X o x] tr Ho _ (IH1 & IH2 & IH3)]; [done|]. cbn [existsb]. rewrite IH1, IH2, IH3.
  destruct o; cbn in Ho |- *; try done. split; [|done]. rewrite orb_false_r. by apply bool_decide_eq_false.
Qed.

Lemma guarded_runs {A} (p : Prog CoreOp A) tr a :
  only guarded_op p -> runs p tr a ->
  existsb stores_active tr = false /\ existsb runs_cleanup tr = false /\ existsb runs_deploy tr = false.
Proof. intros Hp H. apply guarded_calls. by eapply only_runs. Qed.

Lemma handle_resume_runs tr r :
  runs (handle_resume (Op := CoreOp)) tr r -> existsb stores_active tr = true ->
  exists report cap rest, has_fatal_failure report = false /\
    tr = MkCall RtPreflight (Ok report) :: MkCall RtCapacity (Ok cap)
         :: MkCall (StoreLifecycle (with_state Active)) () :: rest.
Proof.
  intros (report & t1 & -> & H). cbn -[has_fatal_failure] in H.
  destruct report as [report|e]; [|by destruct H as [-> ->]]. cbn -[has_fatal_failure] in H.
  destruct (has_fatal_failure report) eqn:Hf; [by destruct H as [-> ->]|].
  destruct H as (cap & t2 & -> & H). cbn in H. destruct cap as [cap|e]; [|by destruct H as [-> ->]].
  destruct H as ([] & t3 & -> & _). intros _. by exists report, cap, t3.
Qed.

(** Every handler but three makes guarded calls only. *)
Lemma dispatch_guarded {codec : PayloadCodec} factory c :
  cmd_command_type c <> DeployProject -> cmd_command_type c <> CleanupRuntime ->
  cmd_command_type c <> ResumeNode -> only guarded_op (dispatch (Op := CoreOp) factory c).
Proof.
  intros Hd Hc Hr.
  unfold dispatch, handle_inspect, handle_lifecycle, handle_reconcile, handle_drain, set_lifecycle.
  destruct (cmd_command_type c); try done; cbn; only_calls; done.
Qed.

Lemma handle_deploy_runs {codec : PayloadCodec} c tr r :
  runs (handle_deploy (Op := CoreOp) c) tr r ->
  existsb stores_active tr = false /\ existsb runs_cleanup tr = false /\
  (existsb runs_deploy tr = true -> exists project deployment payload lease,
       cmd_project_id c = Some project /\ cmd_deployment_id c = Some deployment /\
       deploy_payload (cmd_payload c) = Ok payload /\
       tr = [MkCall (CredentialFor (cmd_id c) (dp_repository_access payload)) (Ok lease);
             MkCall (RtDeploy {| dq_command_id := cmd_id c; dq_project_id := project;
               dq_deployment_id := deployment; dq_payload := payload; dq_credential := lease |}) r]).
Proof.
  unfold handle_deploy, require.
  destruct (cmd_project_id c) as [project|]; cbn; [|by intros [-> ->]].
  destruct (cmd_deployment_id c) as [deployment|]; cbn; [|by intros [-> ->]].
  destruct (deploy_payload (cmd_payload c)) as [payload|e]; cbn; [|by intros [-> ->]].
  intros (lease & t1 & -> & H). destruct lease as [lease|e]; cbn in H; [|by destruct H as [-> ->]].
  destruct H as (answer & t2 & -> & -> & ->). split_and!; [done..|]. intros _.
  by exists project, deployment, payload, lease.
Qed.

Lemma handle_cleanup_runs {codec : PayloadCodec} c tr r :
  runs (handle_cleanup (Op := CoreOp) c) tr r ->
  existsb stores_active tr = false /\ existsb runs_deploy tr = false /\
  (existsb runs_cleanup tr = true -> exists payload,
       cleanup_runtime_payload (cmd_payload c) = Ok payload /\ cr_approved payload = true /\
       cr_targets payload <> [] /\
       tr = [MkCall (RtCleanup {| cq_command_id := cmd_id c; cq_approved := true;
                                  cq_targets := cr_targets payload |}) r]).
Proof.
  unfold handle_cleanup.
  destruct (cleanup_runtime_payload (cmd_payload c)) as [payload|e]; cbn; [|by intros [-> ->]].
  destruct (cr_approved payload) eqn:Ha; cbn; [|by intros [-> ->]].
  destruct (cr_targets payload) as [|t ts] eqn:Ht; cbn; [by intros [-> ->]|].
  intros (answer & t2 & -> & -> & ->). split_and!; [done..|]. intros _.
  exists payload. by rewrite Ht.
Qed.

Lemma resume_no_mutation tr r :
  runs (handle_resume (Op := CoreOp)) tr r ->
  existsb runs_cleanup tr = false /\ existsb runs_deploy tr = false.
Proof.
  intros H.
  assert (Forall (fun c => match call_op c with RtCleanup _ | RtDeploy _ => False | _ => True end) tr) as Hall.
  { apply (only_runs (fun X o => match o with RtCleanup _ | RtDeploy _ => False | _ => True end) (handle_resume (Op := CoreOp)) tr r); [|exact H].
    unfold handle_resume, set_lifecycle. cbn -[has_fatal_failure]. only_calls. }
  clear H. induction Hall as [|[X o x] tr Ho _ [IH1 IH2]]; [done|]. cbn [existsb]. rewrite IH1, IH2.
  by destruct o.
Qed.

(** What changes the node or its workloads for good is dispatched under
    its guard only: the node is made active again only by ResumeNode, after a
    preflight without fatal failures and a capacity answer; the runtime cleans
    up only for an approved CleanupRuntime with at least one target, with those
    targets; and it deploys only for a DeployProject that names its project and
    deployment, with the decoded payload and the credential obtained for it. *)
Theorem dispatch_guards {codec : PayloadCodec} factory c tr r :
  runs (dispatch (Op := CoreOp) factory c) tr r ->
  (existsb stores_active tr = true ->
     cmd_command_type c = ResumeNode /\ exists report cap rest, has_fatal_failure report = false /\
       tr = MkCall RtPreflight (Ok report) :: MkCall RtCapacity (Ok cap)
            :: MkCall (StoreLifecycle (with_state Active)) () :: rest) /\
  (existsb runs_cleanup tr = true ->
     cmd_command_type c = CleanupRuntime /\ exists payload,
       cleanup_runtime_payload (cmd_payload c) = Ok payload /\ cr_approved payload = true /\
       cr_targets payload <> [] /\
       tr = [MkCall (RtCleanup {| cq_command_id := cmd_id c; cq_approved := true;
                                  cq_targets := cr_targets payload |}) r]) /\
  (existsb runs_deploy tr = true ->
     cmd_command_type c = DeployProject /\ exists project deployment payload lease,
       cmd_project_id c = Some project /\ cmd_deployment_id c = Some deployment /\
       deploy_payload (cmd_payload c) = Ok payload /\
       tr = [MkCall (CredentialFor (cmd_id c) (dp_repository_access payload)) (Ok lease);
             MkCall (RtDeploy {| dq_command_id := cmd_id c; dq_project_id := project;
               dq_deployment_id := deployment; dq_payload := payload; dq_credential := lease |}) r]).
Proof.
  intros H. destruct (decide (cmd_command_type c = DeployProject)) as [Hd|Hd].
  { unfold dispatch in H. rewrite Hd in H. apply handle_deploy_runs in H as (-> & -> & H).
    split; [done|split; [done|auto]]. }
  destruct (decide (cmd_command_type c = CleanupRuntime)) as [Hc|Hc].
  { unfold dispatch in H. rewrite Hc in H. apply handle_cleanup_runs in H as (-> & -> & H).
    split; [done|split; [auto|done]]. }
  destruct (decide (cmd_command_type c = ResumeNode)) as [Hr|Hr].
  { unfold dispatch in H. rewrite Hr in H. pose proof (resume_no_mutation _ _ H) as [-> ->].
    split; [|split; done]. intros Hs. split; [done|]. by apply handle_resume_runs in H. }
  apply guarded_runs in H as (-> & -> & ->); [done|]. by apply dispatch_guarded.
Qed.

(** ** Witnesses: a deployment whose deadline passes after its cutover *)

Definition sample_payload : DeployProjectPayload :=
  {| dp_repository_url := "https://github.com/example/app.git"; dp_commit_sha := "0123456789abcdef0123456789abcdef01234567";
     dp_repository_access := Public; dp_domain := "app.example"; dp_container_port := 3000; dp_builder := Auto;
     dp_environment := []; dp_resources := default_resource_limits; dp_timeouts := default_timeout_limits;
     dp_log_bounds := default_log_bounds |}.
Definition sample_payload_codec : PayloadCodec := {|
  deploy_payload _ := Ok sample_payload;
  inspect_payload _ := Err "missing field";
  reconcile_workload_payload _ := Err "missing field";
  cleanup_runtime_payload _ := Ok {| cr_approved := true; cr_targets := [StaleImages] |}
|}.
Definition sample_command (t : CommandType) : AgentCommand :=
  {| cmd_id := MkUuid "c0ffee00-0000-4000-8000-000000000001"; cmd_command_type := t; cmd_status := Pending;
     cmd_project_id := Some (MkUuid "c0ffee00-0000-4000-8000-000000000002");
     cmd_deployment_id := Some (MkUuid "c0ffee00-0000-4000-8000-000000000003"); cmd_payload := Null |}.
Definition sample_config : ProcessorConfig :=
  {| command_timeout := from_secs 900; post_commit_grace := POST_COMMIT_FINALIZATION_GRACE |}.

(** Every timer fires at once and the deployment has been committed. *)
Definition late_commit_env : Env CoreOp := fun _ X o =>
  match o in CoreOp T return T with
  | Elapsed _ _ => true
  | RpCommitted => true
  | RpCommittedOutput => Some (with_result (Object [("applied_resources", Null)]))
  | o => quiet_answer o
  end.
Definition late_run := run_with late_commit_env
  (process_command (Op := CoreOp) (codec := sample_payload_codec) sample_config (sample_command DeployProject)).

Lemma one_terminal_witness : exists pre last, late_run.1 = pre ++ [last] /\ late_run.2 = Ok ().
Proof.
  destruct (one_terminal_transition (codec := sample_payload_codec) sample_config (sample_command DeployProject)
    late_run.1 late_run.2 (runs_run_from _ _ _))
    as [(e & H & _)|[(now & e & H & _)|[(now & ack & e & a & _ & H & _)|(now & ack & during & res & fl & a & H & _)]]].
  - exfalso. apply (f_equal length) in H. vm_compute in H. discriminate H.
  - exfalso. apply (f_equal length) in H. vm_compute in H. discriminate H.
  - eexists _, _. split; [exact H|vm_compute; reflexivity].
  - exists (claim_calls (sample_command DeployProject) now (Ok ack) ++ during ++ [MkCall RpFlush fl]).
    eexists. split; [rewrite H, <- !app_assoc; reflexivity|vm_compute; reflexivity].
Defined.

Lemma committed_never_failed_witness :
  existsb said_committed late_run.1 = true /\ existsb is_fail_call late_run.1 = false.
Proof.
  assert (existsb said_committed late_run.1 = true) as H by (vm_compute; reflexivity).
  split; [exact H|].
  apply (committed_never_failed (codec := sample_payload_codec) sample_config (sample_command DeployProject)
    late_run.1 late_run.2 (runs_run_from _ _ _) H).
Defined.

Definition cleanup_run := run_with quiet_env
  (dispatch (Op := CoreOp) (codec := sample_payload_codec) true (sample_command CleanupRuntime)).
Lemma dispatch_guards_witness :
  existsb runs_cleanup cleanup_run.1 = true /\ length cleanup_run.1 = 1%nat.
Proof.
  assert (existsb runs_cleanup cleanup_run.1 = true) as H by (vm_compute; reflexivity).
  split; [exact H|].
  destruct (dispatch_guards (codec := sample_payload_codec) true (sample_command CleanupRuntime)
    cleanup_run.1 cleanup_run.2 (runs_run_from _ _ _)) as (_ & Hc & _).
  destruct (Hc H) as (_ & payload & _ & _ & _ & Ht). rewrite Ht. reflexivity.
Defined.
