(* ===== verification/RuntimeError.v ===== *)
(** Errors of the runtime crate (runtime/src/error.rs): their codes, their
    texts, the classification of failed processes and the conversions to and
    from the port's error. *)
From S2P Require Import Prelude Text Protocol Ports.

Inductive RuntimeError :=
| Configuration (m : string)
| InvalidCommand (m : string)
| Dependency (m : string)
| Repository (m : string)
| RepositoryNotFound
| RepositoryAccessDenied
| RepositoryAuthFailed
| RepositoryCredentialExpired
| RepositoryCommitNotFound
| RepositoryCheckoutFailed
| Execution (m : string)
| Build (m : string)
| Container (m : string)
| Health (m : string)
| RoutingError (m : string)
| Capacity (m : string)
| DiskPressure (m : string)
| WorkloadNotFound
| WorkloadNotRunning
| CancelledError
| Timeout (operation : string) (seconds : N)
| Reporting (m : string)
| Filesystem (io : string).
#[global] Instance RuntimeError_eq_dec : EqDecision RuntimeError. Proof. solve_decision. Defined.

Definition runtime_error_text (e : RuntimeError) : string :=
  match e with
  | Configuration m => "invalid runtime configuration: " +:+ m
  | InvalidCommand m => "invalid runtime command: " +:+ m
  | Dependency m => "runtime dependency failed: " +:+ m
  | Repository m => "runtime repository operation failed: " +:+ m
  | RepositoryNotFound => "repository was not found"
  | RepositoryAccessDenied => "repository access was denied"
  | RepositoryAuthFailed => "repository authentication failed"
  | RepositoryCredentialExpired => "repository credential has expired or is no longer valid"
  | RepositoryCommitNotFound => "requested repository commit was not found"
  | RepositoryCheckoutFailed => "repository checkout failed"
  | Execution m => "runtime operation failed: " +:+ m
  | Build m => "runtime build failed: " +:+ m
  | Container m => "runtime container operation failed: " +:+ m
  | Health m => "runtime health check failed: " +:+ m
  | RoutingError m => "runtime routing failed: " +:+ m
  | Capacity m => "runtime capacity exceeded: " +:+ m
  | DiskPressure m => "runtime disk pressure: " +:+ m
  | WorkloadNotFound => "managed workload was not found"
  | WorkloadNotRunning => "managed workload is not running"
  | CancelledError => "runtime operation was cancelled"
  | Timeout operation seconds =>
      "runtime operation " +:+ operation +:+ " exceeded its " +:+ pretty seconds +:+ "s timeout"
  | Reporting m => "runtime reporting failed: " +:+ m
  | Filesystem io => "runtime filesystem operation failed: " +:+ io
  end.

Definition runtime_error_code (e : RuntimeError) : string :=
  match e with
  | Configuration _ => "invalid_runtime_configuration"
  | InvalidCommand _ => "invalid_runtime_command"
  | Dependency _ => "runtime_dependency_failed"
  | Repository _ => "runtime_repository_failed"
  | RepositoryNotFound => "repository_not_found"
  | RepositoryAccessDenied => "repository_access_denied"
  | RepositoryAuthFailed => "repository_auth_failed"
  | RepositoryCredentialExpired => "repository_credential_expired"
  | RepositoryCommitNotFound => "repository_commit_not_found"
  | RepositoryCheckoutFailed => "repository_checkout_failed"
  | Execution _ => "runtime_execution_failed"
  | Build _ => "runtime_build_failed"
  | Container _ => "runtime_container_failed"
  | Health _ => "runtime_health_check_failed"
  | RoutingError _ => "runtime_routing_failed"
  | Capacity _ => "runtime_capacity_exceeded"
  | DiskPressure _ => "runtime_disk_pressure"
  | WorkloadNotFound => "runtime_workload_not_found"
  | WorkloadNotRunning => "runtime_workload_not_running"
  | CancelledError => "runtime_cancelled"
  | Timeout _ _ => "runtime_timeout"
  | Reporting _ => "runtime_reporting_failed"
  | Filesystem _ => "runtime_filesystem_failed"
  end.

(** [{status:?}] of an [Option<i32>]. *)
Definition status_debug (status : option Z) : string :=
  match status with Some s => "Some(" +:+ pretty s +:+ ")" | None => "None" end.

Definition failed_operation (phase : string) (status : option Z) : RuntimeError :=
  let summary := phase +:+ " exited with status " +:+ status_debug status in
  if starts_with phase "git-" then Repository summary
  else if contains phase "build" || starts_with phase "railpack-" then Build summary
  else if starts_with phase "docker-" then Container summary
  else if starts_with phase "caddy-" then RoutingError summary
  else Execution summary.

Definition classify_repository_failure (stderr : string) : RuntimeError :=
  let detail := to_ascii_lowercase stderr in
  if contains detail "repository not found" then RepositoryNotFound
  else if contains detail "authentication failed" || contains detail "http basic: access denied"
          || contains detail "invalid username or token"
  then RepositoryAuthFailed
  else if contains detail "expired" || contains detail "token has been revoked"
          || contains detail "token is not valid"
  then RepositoryCredentialExpired
  else if contains detail "permission denied"
          || contains detail "could not read from remote repository"
          || contains detail "access denied"
  then RepositoryAccessDenied
  else if contains detail "couldn't find remote ref" || contains detail "not our ref"
          || contains detail "reference is not a tree" || contains detail "unknown revision"
  then RepositoryCommitNotFound
  else RepositoryCheckoutFailed.

Definition failed_process (phase : string) (status : option Z) (stderr : string) : RuntimeError :=
  if starts_with phase "git-" then classify_repository_failure stderr
  else failed_operation phase status.

(** The two [From] conversions. *)
Definition to_execution_error (e : RuntimeError) : RuntimeExecutionError :=
  new_error (runtime_error_code e) (runtime_error_text e).
Definition from_execution_error (e : RuntimeExecutionError) : RuntimeError :=
  Reporting (ree_message e).

Example classifies_revoked :
  failed_process "git-fetch" (Some 128%Z) "fatal: GitHub App installation token has been revoked"
  = RepositoryCredentialExpired.
Proof. vm_compute. reflexivity. Qed.

Definition repository_failures : list RuntimeError :=
  [RepositoryNotFound; RepositoryAuthFailed; RepositoryCredentialExpired; RepositoryAccessDenied;
   RepositoryCommitNotFound; RepositoryCheckoutFailed].

(** A failed git process is reported by one of six fixed texts and codes,
    whatever git printed: nothing of its error output, which may hold a
    credential, reaches the control plane; any other process is reported by
    its phase and exit status alone. *)
Theorem git_output_is_not_reported phase status stderr :
  (starts_with phase "git-" = true ->
     to_execution_error (failed_process phase status stderr) ∈ map to_execution_error repository_failures) /\
  (starts_with phase "git-" = false ->
     forall stderr', failed_process phase status stderr = failed_process phase status stderr').
Proof.
  unfold failed_process. split; intros ->; [|done].
  apply list_elem_of_fmap. eexists. split; [done|].
  unfold classify_repository_failure, repository_failures.
  repeat (case_match; [repeat constructor|]). repeat constructor.
Qed.
Lemma git_output_witness :
  to_execution_error (failed_process "git-fetch" (Some 128%Z) "fatal: token ghs_secret has expired")
    ∈ map to_execution_error repository_failures.
Proof.
  apply (git_output_is_not_reported "git-fetch" (Some 128%Z) "fatal: token ghs_secret has expired").
  vm_compute. reflexivity.
Defined.
