(* ===== verification/Limits.v ===== *)
(** Resource and deadline ceilings of the node (runtime/src/containers/limits.rs,
    runtime/src/config.rs). *)
From S2P Require Import Prelude Text Protocol Ports ApiClient RuntimeError.

Record ResourceSafetyConfig := {
  default_memory_mb : N;
  max_memory_mb : N;
  default_cpu_millis : N;
  max_cpu_millis : N;
  default_pids_limit : N;
  max_pids_limit : N
}.
Definition default_resource_safety : ResourceSafetyConfig :=
  {| default_memory_mb := 256; max_memory_mb := 512; default_cpu_millis := 500;
     max_cpu_millis := 1000; default_pids_limit := 128; max_pids_limit := 256 |}.

Definition resolve_limit (name : string) (requested : option N) (dflt maximum : N) : Result RuntimeError N :=
  let value := default dflt requested in
  if (value =? 0)%N
  then Err (InvalidCommand ("requested " +:+ name +:+ " must be greater than zero"))
  else if (maximum <? value)%N
  then Err (InvalidCommand ("requested " +:+ name +:+ " (" +:+ pretty value
              +:+ ") exceeds this node's maximum (" +:+ pretty maximum +:+ ")"))
  else Ok value.

(** The loop over the three limits stops at the first bad one. *)
Definition safety_check (name : string) (dflt maximum : N) : Result RuntimeError () :=
  if (dflt =? 0)%N || (maximum =? 0)%N || (maximum <? dflt)%N
  then Err (Configuration ("invalid resource safety config for " +:+ name +:+ ": default="
              +:+ pretty dflt +:+ ", maximum=" +:+ pretty maximum))
  else Ok ().
Definition validate_safety_config (c : ResourceSafetyConfig) : Result RuntimeError () :=
  _ ← safety_check "memory_mb" (default_memory_mb c) (max_memory_mb c);
  _ ← safety_check "cpu_millis" (default_cpu_millis c) (max_cpu_millis c);
  safety_check "pids_limit" (default_pids_limit c) (max_pids_limit c).

Definition resolve_resources (c : ResourceSafetyConfig) (requested : RuntimeResourceLimits)
  : Result RuntimeError AppliedRuntimeResources :=
  _ ← validate_safety_config c;
  memory ← resolve_limit "memory_mb" (req_memory_mb requested) (default_memory_mb c) (max_memory_mb c);
  cpu ← resolve_limit "cpu_millis" (req_cpu_millis requested) (default_cpu_millis c) (max_cpu_millis c);
  pids ← resolve_limit "pids_limit" (req_pids_limit requested) (default_pids_limit c) (max_pids_limit c);
  Ok {| memory_mb := memory; cpu_millis := cpu; pids_limit := pids |}.

(** [format!("{remainder:03}")] and [trim_end_matches('0')]. *)
Definition pad3 (n : N) : string :=
  let s := pretty n in
  if (n <? 10)%N then "00" +:+ s else if (n <? 100)%N then "0" +:+ s else s.
Definition trim_end_zeros (s : string) : string :=
  string_of (rev (drop_while (fun c => bool_decide (c = "0"%char)) (rev (bytes_of s)))).

Definition docker_cpu_value (millis : N) : string :=
  let whole := (millis / 1000)%N in
  let remainder := (millis mod 1000)%N in
  if (remainder =? 0)%N then pretty whole
  else trim_end_zeros (pretty whole +:+ "." +:+ pad3 remainder).

(** ** Deadlines *)

Record TimeoutSafetyConfig := {
  max_build_timeout : Duration; max_start_timeout : Duration; max_command_timeout : Duration }.
Definition default_timeout_safety : TimeoutSafetyConfig :=
  {| max_build_timeout := from_secs 600; max_start_timeout := from_secs 120;
     max_command_timeout := from_secs 900 |}.
Record AppliedRuntimeTimeouts := { at_build : Duration; at_start : Duration }.

Definition resolve_timeout (name : string) (requested : option N) (maximum : Duration)
  : Result RuntimeError Duration :=
  let seconds := default (as_secs maximum) requested in
  if (seconds =? 0)%N then Err (InvalidCommand (name +:+ " must be greater than zero"))
  else if (as_secs maximum <? seconds)%N
  then Err (InvalidCommand (name +:+ " (" +:+ pretty seconds +:+ "s) exceeds the node maximum of "
              +:+ pretty (as_secs maximum) +:+ "s"))
  else Ok (from_secs seconds).

Definition resolve_timeouts (c : TimeoutSafetyConfig) (requested : RuntimeTimeoutLimits)
  : Result RuntimeError AppliedRuntimeTimeouts :=
  build ← resolve_timeout "build_timeout_seconds" (build_timeout_seconds requested) (max_build_timeout c);
  start ← resolve_timeout "start_timeout_seconds" (start_timeout_seconds requested) (max_start_timeout c);
  command ← resolve_timeout "command_timeout_seconds" (command_timeout_seconds requested) (max_command_timeout c);
  if (command <=? build)%N || (command <=? start)%N
  then Err (InvalidCommand "build and start timeouts must each be shorter than command_timeout_seconds")
  else Ok {| at_build := build; at_start := start |}.

Record DockerRuntimeConfig := {
  dc_agent_id : string;
  dc_workspace_root : string;
  dc_workspace_gc_max_age : Duration;
  dc_image_gc_max_age : Duration;
  dc_min_workspace_free_bytes : N;
  dc_runtime_network : string;
  dc_caddy_sites_dir : string;
  dc_caddy_container : string;
  dc_railpack_frontend : string;
  dc_resource_safety : ResourceSafetyConfig;
  dc_timeout_safety : TimeoutSafetyConfig;
  dc_max_concurrent_builds : N;
  dc_max_active_containers : N;
  dc_health_attempts : N;
  dc_health_interval : Duration
}.
Definition default_docker_config : DockerRuntimeConfig := {|
  dc_agent_id := "local-agent-01";
  dc_workspace_root := "/var/lib/sakala/builds";
  dc_workspace_gc_max_age := from_secs 86400;
  dc_image_gc_max_age := from_secs 604800;
  dc_min_workspace_free_bytes := 1024 * 1024 * 1024;
  dc_runtime_network := "sakala-runtime";
  dc_caddy_sites_dir := "/var/lib/sakala/caddy/sites";
  dc_caddy_container := "sakala-caddy";
  dc_railpack_frontend := "ghcr.io/railwayapp/railpack-frontend:v0.23.0";
  dc_resource_safety := default_resource_safety;
  dc_timeout_safety := default_timeout_safety;
  dc_max_concurrent_builds := 1;
  dc_max_active_containers := 20;
  dc_health_attempts := 10;
  dc_health_interval := from_secs 1
|}.

Example cpu_half : docker_cpu_value 500 = "0.5". Proof. vm_compute. reflexivity. Qed.
Example cpu_one : docker_cpu_value 1000 = "1". Proof. vm_compute. reflexivity. Qed.
Example cpu_more : docker_cpu_value 1250 = "1.25". Proof. vm_compute. reflexivity. Qed.

(** ** Theorems *)

Lemma resolve_limit_Ok name requested dflt maximum v :
  resolve_limit name requested dflt maximum = Ok v <->
  v = default dflt requested /\ (0 < v <= maximum)%N.
Proof.
  unfold resolve_limit. set (value := default dflt requested).
  destruct (N.eqb_spec value 0); [split; [done|intros [-> ?]; lia]|].
  destruct (N.ltb_spec maximum value); (split; [|intros [-> ?]]); try done; try lia.
  intros [= <-]. split; [done|lia].
Qed.

Lemma resolve_timeout_Ok name requested maximum d :
  resolve_timeout name requested maximum = Ok d <->
  exists s, d = from_secs s /\ s = default (as_secs maximum) requested /\ (0 < s <= as_secs maximum)%N.
Proof.
  unfold resolve_timeout. set (seconds := default (as_secs maximum) requested).
  destruct (N.eqb_spec seconds 0); [split; [done|intros (s & _ & -> & ?); lia]|].
  destruct (N.ltb_spec (as_secs maximum) seconds);
    (split; [|intros (s & -> & -> & ?)]); try done; try lia.
  intros [= <-]. exists seconds. split_and!; [done|done|lia|lia].
Qed.

Lemma safety_check_Ok name dflt maximum :
  safety_check name dflt maximum = Ok () <-> (0 < dflt <= maximum)%N.
Proof.
  unfold safety_check.
  destruct (N.eqb_spec dflt 0), (N.eqb_spec maximum 0), (N.ltb_spec maximum dflt);
    cbn; split; try done; lia.
Qed.

Definition safe_config (c : ResourceSafetyConfig) : Prop :=
  (0 < default_memory_mb c <= max_memory_mb c)%N /\
  (0 < default_cpu_millis c <= max_cpu_millis c)%N /\
  (0 < default_pids_limit c <= max_pids_limit c)%N.

Lemma validate_safety_config_Ok c : validate_safety_config c = Ok () <-> safe_config c.
Proof.
  unfold validate_safety_config, safe_config. rewrite <- !(safety_check_Ok EmptyString).
  assert (forall n d m, is_ok (safety_check n d m) = is_ok (safety_check EmptyString d m)) as Hn
    by (intros; unfold safety_check; by destruct (_ || _ || _)).
  assert (forall r : Result RuntimeError (), r = Ok () <-> is_ok r = true) as Hok by (by intros [[]|]).
  rewrite !Hok, <- (Hn "memory_mb"%string), <- (Hn "cpu_millis"%string), <- (Hn "pids_limit"%string).
  destruct (safety_check "memory_mb" _ _) as [[]|], (safety_check "cpu_millis" _ _) as [[]|],
    (safety_check "pids_limit" _ _) as [[]|]; cbn; naive_solver.
Qed.

(** A request that asks for nothing is served by sound ceilings. *)
Lemma default_resources_resolve c :
  safe_config c -> is_ok (resolve_resources c default_resource_limits) = true.
Proof.
  intros Hs. unfold resolve_resources. rewrite (proj2 (validate_safety_config_Ok c) Hs).
  destruct Hs as (H1 & H2 & H3). cbn.
  rewrite (proj2 (resolve_limit_Ok "memory_mb" None _ _ _) (conj eq_refl H1)). cbn.
  rewrite (proj2 (resolve_limit_Ok "cpu_millis" None _ _ _) (conj eq_refl H2)). cbn.
  by rewrite (proj2 (resolve_limit_Ok "pids_limit" None _ _ _) (conj eq_refl H3)).
Qed.

Lemma default_timeouts_resolve c :
  (0 < as_secs (max_build_timeout c) < as_secs (max_command_timeout c))%N ->
  (0 < as_secs (max_start_timeout c) < as_secs (max_command_timeout c))%N ->
  is_ok (resolve_timeouts c default_timeout_limits) = true.
Proof.
  intros Hb Hs. unfold resolve_timeouts, resolve_timeout. cbn [default build_timeout_seconds
    start_timeout_seconds command_timeout_seconds default_timeout_limits].
  rewrite !N.ltb_irrefl.
  rewrite !(proj2 (N.eqb_neq _ _)) by lia. cbn.
  rewrite !(proj2 (N.leb_gt _ _)) by (unfold from_secs; lia). done.
Qed.

(** The resources a container gets are those requested, or the node's
    defaults, and always between one and the node's maximum; a request is
    refused exactly when the node's ceilings are unsound or a value is zero or
    above its maximum. *)
Theorem resources_within_ceilings c requested :
  (forall a, resolve_resources c requested = Ok a <->
     safe_config c /\
     memory_mb a = default (default_memory_mb c) (req_memory_mb requested) /\
     cpu_millis a = default (default_cpu_millis c) (req_cpu_millis requested) /\
     pids_limit a = default (default_pids_limit c) (req_pids_limit requested) /\
     (0 < memory_mb a <= max_memory_mb c)%N /\ (0 < cpu_millis a <= max_cpu_millis c)%N /\
     (0 < pids_limit a <= max_pids_limit c)%N) /\
  (safe_config c -> is_ok (resolve_resources c default_resource_limits) = true).
Proof.
  assert (forall a, resolve_resources c requested = Ok a <->
    validate_safety_config c = Ok () /\
    resolve_limit "memory_mb" (req_memory_mb requested) (default_memory_mb c) (max_memory_mb c) = Ok (memory_mb a) /\
    resolve_limit "cpu_millis" (req_cpu_millis requested) (default_cpu_millis c) (max_cpu_millis c) = Ok (cpu_millis a) /\
    resolve_limit "pids_limit" (req_pids_limit requested) (default_pids_limit c) (max_pids_limit c) = Ok (pids_limit a))
    as Hsplit.
  { intros [m u p]. unfold resolve_resources.
    destruct (validate_safety_config c) as [[]|e]; cbn; [|naive_solver].
    destruct (resolve_limit "memory_mb" _ _ _) as [m'|e]; cbn; [|naive_solver].
    destruct (resolve_limit "cpu_millis" _ _ _) as [u'|e]; cbn; [|naive_solver].
    destruct (resolve_limit "pids_limit" _ _ _) as [p'|e]; cbn; naive_solver. }
  split.
  - intros a. rewrite Hsplit, validate_safety_config_Ok, !resolve_limit_Ok. tauto.
  - apply default_resources_resolve.
Qed.
Lemma resources_within_ceilings_witness :
  is_ok (resolve_resources default_resource_safety default_resource_limits) = true.
Proof.
  apply (resources_within_ceilings default_resource_safety default_resource_limits).
  unfold safe_config. cbn. lia.
Defined.

(** The phase deadlines of a deployment are whole seconds, at least one,
    within the node's ceilings, and the build and the start of a container each
    end strictly before the command's own deadline. *)
Theorem phase_deadlines_fit c requested t :
  resolve_timeouts c requested = Ok t ->
  let command := from_secs (default (as_secs (max_command_timeout c)) (command_timeout_seconds requested)) in
  (from_secs 1 <= at_build t)%N /\ (at_build t <= max_build_timeout c)%N /\ (at_build t < command)%N /\
  (from_secs 1 <= at_start t)%N /\ (at_start t <= max_start_timeout c)%N /\ (at_start t < command)%N /\
  (command <= max_command_timeout c)%N.
Proof.
  intros (b & Hb & (s & Hs & (k & Hk & H)%Result_bind_Ok)%Result_bind_Ok)%Result_bind_Ok.
  apply resolve_timeout_Ok in Hb as (nb & -> & _ & Hb), Hs as (ns & -> & _ & Hs), Hk as (nk & -> & -> & Hk).
  destruct (N.leb_spec (from_secs (default (as_secs (max_command_timeout c)) (command_timeout_seconds requested)))
    (from_secs nb)); [done|].
  destruct (N.leb_spec (from_secs (default (as_secs (max_command_timeout c)) (command_timeout_seconds requested)))
    (from_secs ns)); [done|].
  injection H as <-. cbn [at_build at_start].
  assert (forall d, (1000000000 * as_secs d <= d)%N) as Hd by (intros d; apply N.Div0.mul_div_le).
  pose proof (Hd (max_build_timeout c)). pose proof (Hd (max_start_timeout c)).
  pose proof (Hd (max_command_timeout c)). unfold from_secs in *. split_and!; lia.
Qed.
Lemma phase_deadlines_witness :
  (from_secs 600 < from_secs 900)%N.
Proof.
  apply (phase_deadlines_fit default_timeout_safety default_timeout_limits
    {| at_build := from_secs 600; at_start := from_secs 120 |}).
  vm_compute. reflexivity.
Defined.

(** ** The CPU value read back *)

(** A decimal with at most three fractional digits, in thousandths. *)
Definition parse_cpus (s : string) : option N :=
  match split_bytes "."%char (bytes_of s) with
  | [w] => whole ← digits_value 0 w; Some (whole * 1000)%N
  | [w; f] =>
      whole ← digits_value 0 w;
      fraction ← digits_value 0 f;
      if Nat.leb (length f) 3 && Nat.ltb 0 (length f)
      then Some (whole * 1000 + fraction * 10 ^ N.of_nat (3 - length f))%N else None
  | _ => None
  end.

Definition fraction_digits (r : N) : bytes :=
  rev (drop_while (fun c => bool_decide (c = "0"%char)) (rev (bytes_of (pad3 r)))).
Definition fraction_ok (r : N) : bool :=
  let f := fraction_digits r in
  Nat.leb (length f) 3 && Nat.ltb 0 (length f) &&
  bool_decide (digits_value 0 f = Some (r / 10 ^ N.of_nat (3 - length f))%N) &&
  (r =? r / 10 ^ N.of_nat (3 - length f) * 10 ^ N.of_nat (3 - length f))%N.

Lemma fraction_all r : (0 < r < 1000)%N -> fraction_ok r = true.
Proof.
  intros Hr.
  assert (forallb (fun n => fraction_ok (N.of_nat n)) (seq 1 999) = true) as H by (vm_compute; reflexivity).
  rewrite forallb_forall in H. specialize (H (N.to_nat r)). rewrite N2Nat.id in H.
  apply H, List.in_seq. lia.
Qed.

Lemma digits_not_dot l v : digits_value 0 l = Some v -> Forall (fun c => c <> "."%char) l.
Proof.
  intros H%digits_value_digits. eapply Forall_impl; [exact H|]. by intros c Hc ->.
Qed.

(** The CPU quota passed to Docker is exactly the one applied: read as a
    decimal of CPUs it is the number of thousandths, for every quota. *)
Theorem docker_cpu_value_exact millis : parse_cpus (docker_cpu_value millis) = Some millis.
Proof.
  pose proof (N.div_mod millis 1000 ltac:(done)) as Hdm.
  pose proof (N.mod_lt millis 1000 ltac:(done)) as Hlt. unfold docker_cpu_value. cbv zeta.
  pose proof (digits_value_pretty (millis / 1000)) as Hw.
  set (w := (millis / 1000)%N) in *. set (r := (millis mod 1000)%N) in *. clearbody w r.
  pose proof (digits_not_dot _ _ Hw) as Hnd.
  destruct (N.eqb_spec r 0) as [->|Hr]; unfold parse_cpus.
  - rewrite split_bytes_none by done. rewrite Hw. cbn. f_equal. lia.
  - pose proof (fraction_all r ltac:(lia)) as Hf. unfold fraction_ok in Hf. cbv zeta in Hf.
    apply andb_true_iff in Hf as [[[Hl3 Hl0]%andb_true_iff Hd%bool_decide_eq_true]%andb_true_iff Hq%N.eqb_eq].
    assert (bytes_of (trim_end_zeros (pretty w +:+ "." +:+ pad3 r))
      = (bytes_of (pretty w) ++ "."%char :: fraction_digits r)%list) as ->.
    { unfold trim_end_zeros, fraction_digits in *. rewrite bytes_of_string_of, !bytes_of_app.
      cbn [String.list_ascii_of_string app]. rewrite rev_app_distr. cbn [rev].
      rewrite <- app_assoc, drop_while_app.
      - rewrite !rev_app_distr. cbn [rev app]. rewrite rev_involutive. by rewrite <- app_assoc.
      - intros E. rewrite E in Hl0. done. }
    rewrite split_bytes_app by done. rewrite split_bytes_none by (by eapply digits_not_dot).
    rewrite Hw, Hd. cbn -[N.div N.pow Nat.leb Nat.ltb]. rewrite Hl3, Hl0. cbn -[N.div N.pow]. f_equal. lia.
Qed.
