(* ===== verification/Config.v ===== *)
(** Configuration (core/src/config.rs, apps/sakala-agent/src/config.rs): values
    by name, from the environment and the command line, checked and resolved. *)
From S2P Require Import Prelude Text Protocol Ports ApiClient RuntimeError Limits.

Abbreviation Values := (gmap string string).

(** ** Readers *)

Definition get (values : Values) (key dflt : string) : string := default dflt (values !! key).

(** [positive_u32], [positive_u64] and [positive_usize] differ in the type
    they parse. *)
Definition positive_number (max : N) (values : Values) (key : string) (dflt : N) : Result CoreError N :=
  value ← ok_or (parse_uint max (default (pretty dflt) (values !! key)))
                (InvalidConfiguration (key +:+ " must be a number"));
  if (value =? 0)%N then Err (InvalidConfiguration (key +:+ " must be greater than zero")) else Ok value.
Definition positive_u64 := positive_number u64_max.
Definition positive_usize := positive_number u64_max.
Definition positive_u32 := positive_number u32_max.

(** ** The agent *)

Inductive AgentMode := Local | Connected.
#[global] Instance AgentMode_eq_dec : EqDecision AgentMode. Proof. solve_decision. Defined.
Definition mode_text (m : AgentMode) : string :=
  match m with Local => "local" | Connected => "connected" end.
Definition parse_mode (value : string) : Result CoreError AgentMode :=
  let v := to_ascii_lowercase value in
  if bool_decide (v = "local") then Ok Local
  else if bool_decide (v = "connected") then Ok Connected
  else Err (InvalidConfiguration ("SAKALA_AGENT_MODE must be local or connected, received " +:+ value)).

Record AgentConfig := {
  ac_mode : AgentMode;
  ac_agent_id : string;
  ac_agent_token : option string;
  ac_api_url : string;
  ac_poll_interval_seconds : N;
  ac_heartbeat_interval_seconds : N;
  ac_command_timeout_seconds : N;
  ac_max_concurrent_commands : N;
  ac_shutdown_grace_seconds : N;
  ac_runtime_network : string;
  ac_capabilities : list string
}.

Definition agent_from_values (values : Values) : Result CoreError AgentConfig :=
  mode ← parse_mode (get values "SAKALA_AGENT_MODE" "local");
  let agent_token := match values !! "SAKALA_AGENT_TOKEN" with
                     | Some value => if is_empty (trim value) then None else Some value
                     | None => None
                     end in
  if bool_decide (mode = Connected)
     && match agent_token with Some token => bool_decide (token = "change-me") | None => true end
  then Err (InvalidConfiguration
              "SAKALA_AGENT_TOKEN must contain a non-placeholder token in connected mode")
  else
    poll ← positive_u64 values "SAKALA_POLL_INTERVAL_SECONDS" 3;
    heartbeat ← positive_u64 values "SAKALA_HEARTBEAT_INTERVAL_SECONDS" 10;
    command ← positive_u64 values "SAKALA_COMMAND_TIMEOUT_SECONDS" 900;
    concurrent ← positive_usize values "SAKALA_MAX_CONCURRENT_COMMANDS" 4;
    grace ← positive_u64 values "SAKALA_SHUTDOWN_GRACE_SECONDS" 30;
    Ok {| ac_mode := mode;
          ac_agent_id := get values "SAKALA_AGENT_ID" "local-agent-01";
          ac_agent_token := agent_token;
          ac_api_url := get values "SAKALA_API_URL" "http://localhost:8000";
          ac_poll_interval_seconds := poll;
          ac_heartbeat_interval_seconds := heartbeat;
          ac_command_timeout_seconds := command;
          ac_max_concurrent_commands := concurrent;
          ac_shutdown_grace_seconds := grace;
          ac_runtime_network := get values "SAKALA_RUNTIME_NETWORK" "sakala-runtime";
          ac_capabilities := ["noop-runtime"] |}.

Definition poll_interval (c : AgentConfig) : Duration := from_secs (ac_poll_interval_seconds c).
Definition heartbeat_interval (c : AgentConfig) : Duration := from_secs (ac_heartbeat_interval_seconds c).
Definition agent_command_timeout (c : AgentConfig) : Duration := from_secs (ac_command_timeout_seconds c).
Definition shutdown_grace (c : AgentConfig) : Duration := from_secs (ac_shutdown_grace_seconds c).

(** ** The application *)

Inductive RuntimeDriver := Noop | Docker.
#[global] Instance RuntimeDriver_eq_dec : EqDecision RuntimeDriver. Proof. solve_decision. Defined.
Definition driver_text (d : RuntimeDriver) : string := match d with Noop => "noop" | Docker => "docker" end.
Definition parse_driver (value : string) : Result CoreError RuntimeDriver :=
  let v := to_ascii_lowercase value in
  if bool_decide (v = "noop") then Ok Noop
  else if bool_decide (v = "docker") then Ok Docker
  else Err (InvalidConfiguration ("SAKALA_RUNTIME_DRIVER must be noop or docker, received " +:+ value)).

Definition driver_capabilities (d : RuntimeDriver) : list string :=
  match d with
  | Noop => ["noop-runtime"]
  | Docker => ["docker-runtime"; "project-inspection"; "dockerfile-build"; "railpack-info";
               "railpack-build"; "caddy-file-routing"]
  end.

Record AppConfig := {
  app_agent : AgentConfig;
  app_runtime_driver : RuntimeDriver;
  app_docker_runtime : DockerRuntimeConfig;
  app_runtime_health_interval : Duration;
  app_log_level : string
}.

Definition ceiling_check (name : string) (dflt maximum : N) : Result CoreError () :=
  if (maximum <? dflt)%N
  then Err (InvalidConfiguration ("default " +:+ name +:+ " limit (" +:+ pretty dflt
              +:+ ") cannot exceed node maximum (" +:+ pretty maximum +:+ ")"))
  else Ok ().

Definition resource_safety (values : Values) : Result CoreError ResourceSafetyConfig :=
  dmem ← positive_u64 values "SAKALA_DEFAULT_CONTAINER_MEMORY_MB" 256;
  mmem ← positive_u64 values "SAKALA_MAX_CONTAINER_MEMORY_MB" 512;
  dcpu ← positive_u32 values "SAKALA_DEFAULT_CONTAINER_CPU_MILLIS" 500;
  mcpu ← positive_u32 values "SAKALA_MAX_CONTAINER_CPU_MILLIS" 1000;
  dpids ← positive_u32 values "SAKALA_DEFAULT_CONTAINER_PIDS_LIMIT" 128;
  mpids ← positive_u32 values "SAKALA_MAX_CONTAINER_PIDS_LIMIT" 256;
  _ ← ceiling_check "container memory" dmem mmem;
  _ ← ceiling_check "container CPU" dcpu mcpu;
  _ ← ceiling_check "container process" dpids mpids;
  Ok {| default_memory_mb := dmem; max_memory_mb := mmem; default_cpu_millis := dcpu;
        max_cpu_millis := mcpu; default_pids_limit := dpids; max_pids_limit := mpids |}.

Definition set_capabilities (c : AgentConfig) (caps : list string) : AgentConfig :=
  {| ac_mode := ac_mode c; ac_agent_id := ac_agent_id c; ac_agent_token := ac_agent_token c;
     ac_api_url := ac_api_url c; ac_poll_interval_seconds := ac_poll_interval_seconds c;
     ac_heartbeat_interval_seconds := ac_heartbeat_interval_seconds c;
     ac_command_timeout_seconds := ac_command_timeout_seconds c;
     ac_max_concurrent_commands := ac_max_concurrent_commands c;
     ac_shutdown_grace_seconds := ac_shutdown_grace_seconds c;
     ac_runtime_network := ac_runtime_network c; ac_capabilities := caps |}.

Definition app_from_values (values : Values) : Result CoreError AppConfig :=
  driver ← parse_driver (get values "SAKALA_RUNTIME_DRIVER" "noop");
  agent ← agent_from_values values;
  let agent := set_capabilities agent (driver_capabilities driver) in
  safety ← resource_safety values;
  free_mb ← positive_u64 values "SAKALA_MIN_WORKSPACE_FREE_MB" 1024;
  free_bytes ← ok_or (checked_mul_u64 free_mb (1024 * 1024))
                     (InvalidConfiguration "SAKALA_MIN_WORKSPACE_FREE_MB is too large to represent");
  build ← positive_u64 values "SAKALA_BUILD_TIMEOUT_SECONDS" 600;
  start ← positive_u64 values "SAKALA_START_TIMEOUT_SECONDS" 120;
  if (ac_command_timeout_seconds agent <=? build)%N || (ac_command_timeout_seconds agent <=? start)%N
  then Err (InvalidConfiguration
    ("SAKALA_BUILD_TIMEOUT_SECONDS (" +:+ pretty build +:+ ") and SAKALA_START_TIMEOUT_SECONDS ("
     +:+ pretty start +:+ ") must be shorter than SAKALA_COMMAND_TIMEOUT_SECONDS ("
     +:+ pretty (ac_command_timeout_seconds agent) +:+ ")"))
  else
    gc_age ← positive_u64 values "SAKALA_WORKSPACE_GC_MAX_AGE_SECONDS" 86400;
    image_age ← positive_u64 values "SAKALA_IMAGE_GC_MAX_AGE_SECONDS" 604800;
    builds ← positive_usize values "SAKALA_MAX_CONCURRENT_BUILDS" 1;
    containers ← positive_u32 values "SAKALA_MAX_ACTIVE_CONTAINERS" 20;
    health ← positive_u64 values "SAKALA_RUNTIME_HEALTH_INTERVAL_SECONDS" 30;
    Ok {| app_docker_runtime := {|
            dc_agent_id := ac_agent_id agent;
            dc_workspace_root := get values "SAKALA_RUNTIME_WORKSPACE" "/var/lib/sakala/builds";
            dc_workspace_gc_max_age := from_secs gc_age;
            dc_image_gc_max_age := from_secs image_age;
            dc_min_workspace_free_bytes := free_bytes;
            dc_runtime_network := ac_runtime_network agent;
            dc_caddy_sites_dir := get values "SAKALA_CADDY_SITES_DIR" "/var/lib/sakala/caddy/sites";
            dc_caddy_container := get values "SAKALA_CADDY_CONTAINER" "sakala-caddy";
            dc_railpack_frontend :=
              get values "SAKALA_RAILPACK_FRONTEND" "ghcr.io/railwayapp/railpack-frontend:v0.23.0";
            dc_resource_safety := safety;
            dc_timeout_safety := {| max_build_timeout := from_secs build;
                                    max_start_timeout := from_secs start;
                                    max_command_timeout := agent_command_timeout agent |};
            dc_max_concurrent_builds := builds;
            dc_max_active_containers := containers;
            dc_health_attempts := dc_health_attempts default_docker_config;
            dc_health_interval := dc_health_interval default_docker_config |};
          app_runtime_health_interval := from_secs health;
          app_agent := agent;
          app_runtime_driver := driver;
          app_log_level := get values "SAKALA_LOG_LEVEL" "info" |}.

(** The options of [Cli]: the long name clap derives from the field, and the
    variable it falls back to. *)
Definition CLI_OPTIONS : list (string * string) :=
  [("mode", "SAKALA_AGENT_MODE");
   ("agent-id", "SAKALA_AGENT_ID");
   ("agent-token", "SAKALA_AGENT_TOKEN");
   ("api-url", "SAKALA_API_URL");
   ("poll-interval-seconds", "SAKALA_POLL_INTERVAL_SECONDS");
   ("heartbeat-interval-seconds", "SAKALA_HEARTBEAT_INTERVAL_SECONDS");
   ("command-timeout-seconds", "SAKALA_COMMAND_TIMEOUT_SECONDS");
   ("max-concurrent-commands", "SAKALA_MAX_CONCURRENT_COMMANDS");
   ("shutdown-grace-seconds", "SAKALA_SHUTDOWN_GRACE_SECONDS");
   ("runtime-network", "SAKALA_RUNTIME_NETWORK");
   ("runtime-driver", "SAKALA_RUNTIME_DRIVER");
   ("runtime-workspace", "SAKALA_RUNTIME_WORKSPACE");
   ("workspace-gc-max-age-seconds", "SAKALA_WORKSPACE_GC_MAX_AGE_SECONDS");
   ("image-gc-max-age-seconds", "SAKALA_IMAGE_GC_MAX_AGE_SECONDS");
   ("runtime-health-interval-seconds", "SAKALA_RUNTIME_HEALTH_INTERVAL_SECONDS");
   ("min-workspace-free-mb", "SAKALA_MIN_WORKSPACE_FREE_MB");
   ("caddy-sites-dir", "SAKALA_CADDY_SITES_DIR");
   ("caddy-container", "SAKALA_CADDY_CONTAINER");
   ("railpack-frontend", "SAKALA_RAILPACK_FRONTEND");
   ("build-timeout-seconds", "SAKALA_BUILD_TIMEOUT_SECONDS");
   ("start-timeout-seconds", "SAKALA_START_TIMEOUT_SECONDS");
   ("max-concurrent-builds", "SAKALA_MAX_CONCURRENT_BUILDS");
   ("max-active-containers", "SAKALA_MAX_ACTIVE_CONTAINERS");
   ("default-container-memory-mb", "SAKALA_DEFAULT_CONTAINER_MEMORY_MB");
   ("max-container-memory-mb", "SAKALA_MAX_CONTAINER_MEMORY_MB");
   ("default-container-cpu-millis", "SAKALA_DEFAULT_CONTAINER_CPU_MILLIS");
   ("max-container-cpu-millis", "SAKALA_MAX_CONTAINER_CPU_MILLIS");
   ("default-container-pids-limit", "SAKALA_DEFAULT_CONTAINER_PIDS_LIMIT");
   ("max-container-pids-limit", "SAKALA_MAX_CONTAINER_PIDS_LIMIT");
   ("log-level", "SAKALA_LOG_LEVEL")].
(** [Cli::parse]: [args] gives the value of a long option, when it was given
    (clap parses and checks the argument vector). *)
Definition cli_parse (args : string -> option string) (env : Values) (option_ : string * string) : option string :=
  match args option_.1 with Some v => Some v | None => env !! option_.2 end.
Definition insert_value (values : Values) (key : string) (value : option string) : Values :=
  match value with Some v => <[key := v]> values | None => values end.
Definition apply_cli (args : string -> option string) (env values : Values) : Values :=
  fold_left (fun vs o => insert_value vs o.2 (cli_parse args env o)) CLI_OPTIONS values.
(** [load]: the options replace the environment's values of the same name. *)
Definition load (args : string -> option string) (env : Values) : Result CoreError AppConfig :=
  app_from_values (apply_cli args env env).

(** ** Theorems *)

Lemma positive_number_Ok max values key dflt v :
  positive_number max values key dflt = Ok v ->
  (0 < v)%N /\ parse_uint max (default (pretty dflt) (values !! key)) = Some v.
Proof.
  unfold positive_number. intros (x & Hx & H)%Result_bind_Ok.
  destruct (parse_uint _ _) as [y|]; [|done]. injection Hx as <-.
  destruct (N.eqb_spec y 0); [done|]. injection H as <-. split; [lia|done].
Qed.

Lemma parse_uint_max max s v : parse_uint max s = Some v -> (v <= max)%N.
Proof.
  unfold parse_uint. set (ds := match bytes_of s with [] => _ | _ => _ end).
  destruct ds; [done|]. destruct (digits_value 0 _) as [w|]; [|done]. cbn.
  destruct (N.leb_spec w max); [|done]. by intros [= <-].
Qed.

Lemma positive_number_bounds max values key dflt v :
  positive_number max values key dflt = Ok v -> (0 < v <= max)%N.
Proof. intros (H0 & H1%parse_uint_max)%positive_number_Ok. lia. Qed.

Lemma ceiling_check_Ok name d m : ceiling_check name d m = Ok () -> (d <= m)%N.
Proof. unfold ceiling_check. destruct (N.ltb_spec m d); [done|]. done. Qed.

(** Opens a [?] chain that succeeded. *)
Ltac opened H :=
  repeat match type of H with
  | (_ ≫= _) = Ok _ =>
      let x := fresh "x" in let Hx := fresh "Hx" in apply Result_bind_Ok in H as (x & Hx & H)
  end.

Lemma resource_safety_safe values s : resource_safety values = Ok s -> safe_config s.
Proof.
  unfold resource_safety. intros H. opened H. injection H as <-.
  repeat match goal with
  | Hc : ceiling_check _ _ _ = Ok ?u |- _ => destruct u; apply ceiling_check_Ok in Hc
  | Hp : positive_u64 _ _ _ = Ok _ |- _ => apply positive_number_bounds in Hp
  | Hp : positive_u32 _ _ _ = Ok _ |- _ => apply positive_number_bounds in Hp
  end.
  unfold safe_config. cbn. lia.
Qed.

Definition agent_ok (a : AgentConfig) : Prop :=
  (0 < ac_poll_interval_seconds a <= u64_max)%N /\
  (0 < ac_heartbeat_interval_seconds a <= u64_max)%N /\
  (0 < ac_command_timeout_seconds a <= u64_max)%N /\
  (0 < ac_max_concurrent_commands a <= u64_max)%N /\
  (0 < ac_shutdown_grace_seconds a <= u64_max)%N /\
  (ac_mode a = Connected -> exists t, ac_agent_token a = Some t /\ t <> "change-me"%string /\ is_empty (trim t) = false).

Lemma agent_from_values_ok values a : agent_from_values values = Ok a -> agent_ok a.
Proof.
  unfold agent_from_values. intros H. apply Result_bind_Ok in H as (mode & _ & H). cbv zeta in H.
  set (token := match values !! "SAKALA_AGENT_TOKEN" with Some value => _ | None => None end) in H.
  assert (forall t, token = Some t -> is_empty (trim t) = false) as Ht.
  { unfold token. intros t. destruct (values !! "SAKALA_AGENT_TOKEN") as [v|]; [|done].
    destruct (is_empty (trim v)) eqn:E; [done|]. by intros [= <-]. }
  destruct (_ && _) eqn:E; [done|]. opened H. injection H as <-.
  repeat match goal with
  | Hp : positive_u64 _ _ _ = Ok _ |- _ => apply positive_number_bounds in Hp
  | Hp : positive_usize _ _ _ = Ok _ |- _ => apply positive_number_bounds in Hp
  end.
  split_and!; cbn; try lia. intros ->. rewrite bool_decide_true in E by done. cbn in E.
  destruct token as [t|]; [|done]. apply bool_decide_eq_false in E. exists t. auto.
Qed.

(** *** What each setting is read from

    A number: the variable's text, or the default when it is not set, read in
    decimal as a positive number that fits its type.  A text: the variable, or
    the default. *)
Section Reads.
Context (values : Values).

Definition reads (key : string) (dflt max n : N) : Prop :=
  (0 < n <= max)%N /\ parse_uint max (default (pretty dflt) (values !! key)) = Some n.
Definition reads_seconds (key : string) (dflt : N) (d : Duration) : Prop :=
  exists seconds, reads key dflt u64_max seconds /\ d = from_secs seconds.
Definition reads_text (key dflt text : string) : Prop := default dflt (values !! key) = text.

Record agent_settings (a : AgentConfig) : Prop := {
  reads_mode : to_ascii_lowercase (default "local" (values !! "SAKALA_AGENT_MODE")) =
    match ac_mode a with Local => "local" | Connected => "connected" end;
  reads_agent_id : reads_text "SAKALA_AGENT_ID" "local-agent-01" (ac_agent_id a);
  reads_api_url : reads_text "SAKALA_API_URL" "http://localhost:8000" (ac_api_url a);
  reads_network : reads_text "SAKALA_RUNTIME_NETWORK" "sakala-runtime" (ac_runtime_network a);
  reads_poll : reads "SAKALA_POLL_INTERVAL_SECONDS" 3 u64_max (ac_poll_interval_seconds a);
  reads_heartbeat : reads "SAKALA_HEARTBEAT_INTERVAL_SECONDS" 10 u64_max (ac_heartbeat_interval_seconds a);
  reads_command : reads "SAKALA_COMMAND_TIMEOUT_SECONDS" 900 u64_max (ac_command_timeout_seconds a);
  reads_concurrent : reads "SAKALA_MAX_CONCURRENT_COMMANDS" 4 u64_max (ac_max_concurrent_commands a);
  reads_grace : reads "SAKALA_SHUTDOWN_GRACE_SECONDS" 30 u64_max (ac_shutdown_grace_seconds a) }.
Record limit_settings (c : ResourceSafetyConfig) : Prop := {
  reads_default_memory : reads "SAKALA_DEFAULT_CONTAINER_MEMORY_MB" 256 u64_max (default_memory_mb c);
  reads_max_memory : reads "SAKALA_MAX_CONTAINER_MEMORY_MB" 512 u64_max (max_memory_mb c);
  reads_default_cpu : reads "SAKALA_DEFAULT_CONTAINER_CPU_MILLIS" 500 u32_max (default_cpu_millis c);
  reads_max_cpu : reads "SAKALA_MAX_CONTAINER_CPU_MILLIS" 1000 u32_max (max_cpu_millis c);
  reads_default_pids : reads "SAKALA_DEFAULT_CONTAINER_PIDS_LIMIT" 128 u32_max (default_pids_limit c);
  reads_max_pids : reads "SAKALA_MAX_CONTAINER_PIDS_LIMIT" 256 u32_max (max_pids_limit c) }.
Record node_settings (d : DockerRuntimeConfig) : Prop := {
  reads_root : reads_text "SAKALA_RUNTIME_WORKSPACE" "/var/lib/sakala/builds" (dc_workspace_root d);
  reads_sites : reads_text "SAKALA_CADDY_SITES_DIR" "/var/lib/sakala/caddy/sites" (dc_caddy_sites_dir d);
  reads_caddy : reads_text "SAKALA_CADDY_CONTAINER" "sakala-caddy" (dc_caddy_container d);
  reads_frontend : reads_text "SAKALA_RAILPACK_FRONTEND" "ghcr.io/railwayapp/railpack-frontend:v0.23.0" (dc_railpack_frontend d);
  reads_workspace_age : reads_seconds "SAKALA_WORKSPACE_GC_MAX_AGE_SECONDS" 86400 (dc_workspace_gc_max_age d);
  reads_image_age : reads_seconds "SAKALA_IMAGE_GC_MAX_AGE_SECONDS" 604800 (dc_image_gc_max_age d);
  reads_build : reads_seconds "SAKALA_BUILD_TIMEOUT_SECONDS" 600 (max_build_timeout (dc_timeout_safety d));
  reads_start : reads_seconds "SAKALA_START_TIMEOUT_SECONDS" 120 (max_start_timeout (dc_timeout_safety d));
  reads_reserve : exists mb, reads "SAKALA_MIN_WORKSPACE_FREE_MB" 1024 u64_max mb /\
    dc_min_workspace_free_bytes d = (mb * 1048576)%N /\ (dc_min_workspace_free_bytes d <= u64_max)%N;
  reads_builds : reads "SAKALA_MAX_CONCURRENT_BUILDS" 1 u64_max (dc_max_concurrent_builds d);
  reads_containers : reads "SAKALA_MAX_ACTIVE_CONTAINERS" 20 u32_max (dc_max_active_containers d) }.

Lemma positive_number_reads max key dflt n : positive_number max values key dflt = Ok n -> reads key dflt max n.
Proof. intros H. split; [by apply positive_number_bounds in H|by apply positive_number_Ok in H as [_ H]]. Qed.
Ltac settings :=
  repeat match goal with
  | Hp : positive_u64 _ _ _ = Ok _ |- _ => apply positive_number_reads in Hp
  | Hp : positive_u32 _ _ _ = Ok _ |- _ => apply positive_number_reads in Hp
  | Hp : positive_usize _ _ _ = Ok _ |- _ => apply positive_number_reads in Hp
  end; split; try done.

Lemma agent_from_values_reads a : agent_from_values values = Ok a -> agent_settings a.
Proof.
  unfold agent_from_values. intros H. apply Result_bind_Ok in H as (mode & Hmode & H). cbv zeta in H.
  destruct (_ && _); [done|]. opened H. injection H as <-. settings. cbn. unfold parse_mode, get in Hmode.
  repeat case_bool_decide; by simplify_eq.
Qed.
Lemma resource_safety_reads c : resource_safety values = Ok c -> limit_settings c.
Proof. unfold resource_safety. intros H. opened H. injection H as <-. settings. Qed.
End Reads.



Lemma insert_value_lookup vs key v k :
  insert_value vs key v !! k = match (if bool_decide (k = key) then v else None) with Some x => Some x | None => vs !! k end.
Proof.
  unfold insert_value. destruct v as [x|]; case_bool_decide as Hk; try done.
  - subst. by rewrite lookup_insert_eq.
  - by rewrite lookup_insert_ne.
Qed.

Lemma apply_options_lookup f options vs k :
  NoDup (options.*2) ->
  fold_left (fun (vs : Values) (o : string * string) => insert_value vs o.2 (f o)) options vs !! k =
  match find (fun o => bool_decide (o.2 = k)) options ≫= f with Some x => Some x | None => vs !! k end.
Proof.
  revert vs. induction options as [|o options IH]; intros vs Hnd; [done|]. cbn [fold_left find fmap list_fmap] in *.
  apply NoDup_cons in Hnd as [Ho Hnd]. rewrite IH, insert_value_lookup by done.
  destruct (decide (o.2 = k)) as [<-|Hne].
  - rewrite !bool_decide_true by done. cbn.
    destruct (find _ options) as [o'|] eqn:E; [|by destruct (f o)].
    apply find_some in E as [Hin E%bool_decide_eq_true]. destruct Ho.
    rewrite <- E. apply list_elem_of_fmap_2. by apply list_elem_of_In.
  - rewrite (bool_decide_false (k = o.2)), (bool_decide_false (o.2 = k)) by done. done.
Qed.

Lemma options_distinct : NoDup CLI_OPTIONS.*1 /\ NoDup CLI_OPTIONS.*2.
Proof. split; apply (bool_decide_unpack _); vm_compute; exact I. Qed.

(** The command line wins over the environment, name by name: options
    and variables are in one-to-one correspondence, an option that is given
    is the value read for its variable, every other name keeps its
    environment value, and the result is that of the merged values. *)
Theorem command_line_wins args env key dflt :
  load args env = app_from_values (apply_cli args env env) /\
  NoDup CLI_OPTIONS.*1 /\ NoDup CLI_OPTIONS.*2 /\
  get (apply_cli args env env) key dflt =
    match find (fun o => bool_decide (o.2 = key)) CLI_OPTIONS ≫= (fun o => args o.1) with
    | Some v => v
    | None => get env key dflt
    end.
Proof.
  split; [done|]. split; [apply options_distinct|]. split; [apply options_distinct|].
  unfold get, apply_cli. rewrite apply_options_lookup by apply options_distinct.
  destruct (find _ _) as [o|] eqn:E; cbn; [|done]. apply find_some in E as [_ E%bool_decide_eq_true].
  unfold cli_parse. destruct (args o.1) as [v|]; [done|]. rewrite E. by destruct (env !! key).
Qed.
