(* ===== verification/Heartbeat.v ===== *)
(** The heartbeat worker (core/src/heartbeat/worker.rs): what a node reports
    about itself on every tick, and the loop that reports it. *)
From S2P Require Import Prelude Text Protocol Async Ports NodeState ApiClient Dispatcher CoreOps Config.

#[local] Open Scope async_scope.

Definition MAX_HEARTBEAT_DETAIL_ITEMS : nat := 50.
(** [env!("CARGO_PKG_VERSION")] of the workspace. *)
Definition CARGO_PKG_VERSION : string := "0.2.3".

Definition bounded_values {T} (items : list T) (mapper : T -> Value) : Value :=
  Array (map mapper (take MAX_HEARTBEAT_DETAIL_ITEMS items)).

Definition disk_pressure_state (available_bytes : option N) (minimum_free_bytes : N) : string :=
  match available_bytes with
  | Some available => if (available <? minimum_free_bytes)%N then "critical" else "normal"
  | None => "unknown"
  end.

(** ** Workloads *)

Record WorkloadStatistics := {
  ws_active : option N;
  ws_stopped : option N;
  ws_starting : option N;
  ws_unhealthy : option N;
  ws_active_builds : option N;
  ws_maximum_concurrent_builds : option N;
  ws_unhealthy_details : list RuntimeHealthSnapshot;
  ws_capacity_available : bool;
  ws_health_available : bool
}.

Definition is_starting (s : RuntimeHealthSnapshot) : bool :=
  contains (to_ascii_lowercase (wl_status (hs_workload s))) "starting".
Definition is_unhealthy (s : RuntimeHealthSnapshot) : bool := negb (hs_ready s) && negb (is_starting s).

Definition probe_timeout : Duration := from_secs 2.

(** What the two probes, each [None] when it failed or timed out, say. *)
Definition statistics_of (capacity : option RuntimeCapacity) (snapshots : option (list RuntimeHealthSnapshot))
  : WorkloadStatistics :=
  {| ws_active := capacity ≫= active_workloads;
     ws_stopped := capacity ≫= stopped_workloads;
     ws_starting := (fun l => N.of_nat (length (List.filter is_starting l))) <$> snapshots;
     ws_unhealthy := (fun l => N.of_nat (length (List.filter is_unhealthy l))) <$> snapshots;
     ws_active_builds := capacity ≫= active_builds;
     ws_maximum_concurrent_builds := capacity ≫= maximum_concurrent_builds;
     ws_unhealthy_details := match snapshots with Some l => List.filter is_unhealthy l | None => [] end;
     ws_capacity_available := bool_decide (is_Some capacity);
     ws_health_available := bool_decide (is_Some snapshots) |}.

(** ** The payload *)

Record HeartbeatRuntimeContext := {
  hc_runtime_driver : string;
  hc_startup_reconciliation_at : Z;
  hc_minimum_workspace_free_bytes : N
}.

Definition lifecycle_name (s : NodeLifecycleState) : string :=
  match s with
  | Active => "active" | Draining => "draining" | Drained => "drained" | Maintenance => "maintenance"
  end.

Definition heartbeat_status (minimum : N) (state : NodeLifecycleState) (telemetry_available : bool)
  (resources : NodeTelemetry) (workloads : WorkloadStatistics) : NodeStatus :=
  match state with
  | Active =>
      if negb telemetry_available
         || bool_decide (nt_runtime_operational resources = Some false)
         || negb (ws_capacity_available workloads)
         || negb (ws_health_available workloads)
         || bool_decide (disk_pressure_state (nt_disk_available_bytes resources) minimum = "critical"%string)
      then NodeDegraded else NodeReady
  | Draining => NodeDraining
  | Drained => NodeDrained
  | Maintenance => NodeMaintenance
  end.

Definition uuid_value (u : Uuid) : Value := Str (uuid_text u).

Definition unhealthy_value (s : RuntimeHealthSnapshot) : Value :=
  Object [("container_id", Str (wl_container_id (hs_workload s)));
          ("project_id", uuid_value (wl_project_id (hs_workload s)));
          ("deployment_id", uuid_value (wl_deployment_id (hs_workload s)));
          ("status", Str (wl_status (hs_workload s)));
          ("reason", opt_value Str (hs_reason s))].
Definition recovered_value (w : RuntimeWorkload) : Value :=
  Object [("container_id", Str (wl_container_id w)); ("project_id", uuid_value (wl_project_id w));
          ("deployment_id", uuid_value (wl_deployment_id w)); ("status", Str (wl_status w))].
Definition orphan_value (o : RuntimeOrphan) : Value :=
  Object [("container_id", Str (or_container_id o)); ("project_id", opt_value uuid_value (or_project_id o));
          ("reason", Str (or_reason o))].
Definition stale_route_value (r : RuntimeStaleRoute) : Value :=
  Object [("path", Str (sr_path r)); ("project_id", uuid_value (sr_project_id r));
          ("deployment_id", opt_value uuid_value (sr_deployment_id r))].
Definition stale_image_value (i : RuntimeStaleImage) : Value :=
  Object [("image_id", Str (si_image_id i)); ("project_id", opt_value uuid_value (si_project_id i));
          ("deployment_id", opt_value uuid_value (si_deployment_id i))].
Definition issue_value (i : RuntimeCompatibilityIssue) : Value :=
  Object [("container_id", Str (ci_container_id i)); ("project_id", uuid_value (ci_project_id i));
          ("deployment_id", uuid_value (ci_deployment_id i)); ("reason", Str (ci_reason i))].

Definition resources_value (t : NodeTelemetry) : Value :=
  Object [("cpu_total", opt_value num (nt_cpu_total t));
          ("cpu_load_1m", opt_value (fun v => v) (nt_cpu_load_1m t));
          ("memory_total_bytes", opt_value num (nt_memory_total_bytes t));
          ("memory_available_bytes", opt_value num (nt_memory_available_bytes t));
          ("disk_total_bytes", opt_value num (nt_disk_total_bytes t));
          ("disk_available_bytes", opt_value num (nt_disk_available_bytes t));
          ("workspace_used_bytes", opt_value num (nt_workspace_used_bytes t))].
Definition disk_pressure_value (minimum : N) (t : NodeTelemetry) : Value :=
  Object [("state", Str (disk_pressure_state (nt_disk_available_bytes t) minimum));
          ("minimum_workspace_free_bytes", num minimum);
          ("available_workspace_bytes", opt_value num (nt_disk_available_bytes t))].
Definition workloads_value (w : WorkloadStatistics) : Value :=
  Object [("active", opt_value num (ws_active w)); ("starting", opt_value num (ws_starting w));
          ("unhealthy", opt_value num (ws_unhealthy w)); ("stopped", opt_value num (ws_stopped w));
          ("unhealthy_details", bounded_values (ws_unhealthy_details w) unhealthy_value)].
(** [queued_local_commands] is the constant zero. *)
Definition execution_value (active waiting : N) (w : WorkloadStatistics) : Value :=
  Object [("active_commands", num active); ("queued_local_commands", num 0);
          ("capacity_waiting_commands", num waiting);
          ("active_builds", opt_value num (ws_active_builds w));
          ("maximum_concurrent_builds", opt_value num (ws_maximum_concurrent_builds w))].
Definition reconciliation_value (captured_at : string) (r : RuntimeReconciliationReport) : Value :=
  Object [("captured_at", Str captured_at);
          ("inspected_containers", num (inspected_containers r));
          ("cleaned_workspaces", num (cleaned_workspaces r));
          ("reattached_log_followers", num (reattached_log_followers r));
          ("recovered_execution_records", num (recovered_execution_records r));
          ("recovered_workloads", bounded_values (workloads r) recovered_value);
          ("orphans", bounded_values (orphans r) orphan_value);
          ("stale_routes", bounded_values (stale_routes r) stale_route_value);
          ("stale_images", bounded_values (stale_images r) stale_image_value);
          ("compatibility_issues", bounded_values (compatibility_issues r) issue_value)].
Definition length_value {T} (l : list T) : Value := num (N.of_nat (length l)).
Definition detail_counts_value (w : WorkloadStatistics) (r : RuntimeReconciliationReport) : Value :=
  Object [("unhealthy_details", length_value (ws_unhealthy_details w));
          ("recovered_workloads", length_value (workloads r)); ("orphans", length_value (orphans r));
          ("stale_routes", length_value (stale_routes r)); ("stale_images", length_value (stale_images r));
          ("compatibility_issues", length_value (compatibility_issues r))].

Definition heartbeat_metadata `{!WireCodec} (x : HeartbeatRuntimeContext) (state : NodeLifecycleState)
  (t : NodeTelemetry) (w : WorkloadStatistics) (r : RuntimeReconciliationReport) (active waiting : N) : Value :=
  Object [("version", Str CARGO_PKG_VERSION); ("protocol_version", num PROTOCOL_VERSION);
          ("lifecycle_state", Str (lifecycle_name state)); ("runtime_driver", Str (hc_runtime_driver x));
          ("uptime_seconds", opt_value num (nt_uptime_seconds t));
          ("resources", resources_value t);
          ("disk_pressure", disk_pressure_value (hc_minimum_workspace_free_bytes x) t);
          ("workloads", workloads_value w);
          ("execution", execution_value active waiting w);
          ("startup_reconciliation", reconciliation_value (rfc3339 (hc_startup_reconciliation_at x)) r);
          ("detail_counts", detail_counts_value w r);
          ("runtime_dependencies", nt_runtime_dependencies t)].

Section Worker.
Context {Op : Type -> Type} `{!RuntimeExecutor Op} `{!Timers Op} `{!LifecycleOps Op} `{!WorkerPort Op}
  `{!Ambient Op} `{!ControlPlane Op} {codec : WireCodec}.
Context (config : AgentConfig) (context : HeartbeatRuntimeContext).

(** [timeout(probe_timeout(), probe).await.ok().and_then(Result::ok)] *)
Definition within_probe_timeout {A} (probe : Async Op RuntimeExecutionError A) : Prog Op (option A) :=
  raced <~ race (elapsed ProbeTimeout probe_timeout) probe ;;
  Ret (match raced with inl (Ok a) => Some a | _ => None end).

Definition workload_statistics : Prog Op WorkloadStatistics :=
  c <~ within_probe_timeout capacity ;;
  snapshots <~ within_probe_timeout health_snapshot ;;
  Ret (statistics_of c snapshots).

(** The lifecycle state is loaded for the status and again for the metadata. *)
Definition payload : Prog Op HeartbeatPayload :=
  telemetry <~ node_telemetry ;;
  let resources := match telemetry with Ok t => t | Err _ => default_telemetry end in
  workloads <~ workload_statistics ;;
  report <~ read_reconciliation ;;
  let reconciliation := default default_report report in
  status_state <~ load_lifecycle ;;
  metadata_state <~ load_lifecycle ;;
  active <~ load_active_commands ;;
  waiting <~ load_capacity_waiting ;;
  now <~ now_utc ;;
  Ret {| hb_status := heartbeat_status (hc_minimum_workspace_free_bytes context)
                        (lifecycle_state status_state) (is_ok telemetry) resources workloads;
         hb_node := {| ni_hostname := default "unknown-host"%string (nt_hostname resources);
                       ni_runtime_network := ac_runtime_network config;
                       ni_capabilities := ac_capabilities config |};
         hb_metadata := heartbeat_metadata context (lifecycle_state metadata_state) resources workloads
                          reconciliation active waiting;
         hb_sent_at := now |}.

(** One turn of the loop; [client] says whether a control plane is configured.
    A heartbeat that cannot be sent is logged. *)
Definition heartbeat_turn (client : bool) : Prog Op Wake :=
  p <~ payload ;;
  _ <~ (if client then cp_heartbeat p else ok ()) ;;
  await_wake (heartbeat_interval config).

(** The loop, cut off after a number of turns; [true]: it has stopped. *)
Fixpoint heartbeat_run (client : bool) (turns : nat) : Prog Op bool :=
  match turns with
  | O => Ret false
  | S later =>
      wake <~ heartbeat_turn client ;;
      if stops wake then Ret true else heartbeat_run client later
  end.
End Worker.
