(* ===== verification/HeartbeatFacts.v ===== *)
(** Theorems about the heartbeat: the status it reports is the one the node's
    own probes justify, its payload stays bounded and well-typed on the wire,
    and the worker runs until it is told to stop. *)
From S2P Require Import Prelude Text Protocol Async Ports NodeState ApiClient Dispatcher CoreOps Config Heartbeat ApiClientFacts.

#[local] Open Scope async_scope.

(** ** What one payload observed *)

Record Observation := {
  ob_telemetry : Result RuntimeExecutionError NodeTelemetry;
  ob_capacity : option RuntimeCapacity;
  ob_health : option (list RuntimeHealthSnapshot);
  ob_report : option RuntimeReconciliationReport;
  ob_status_state : NodeLifecycle;
  ob_metadata_state : NodeLifecycle;
  ob_active : N;
  ob_waiting : N;
  ob_now : Z
}.

(** The calls of a probe that was seen to answer [seen], in time or not. *)
Definition probe_calls {X} (o : CoreOp (Result RuntimeExecutionError X)) (seen : option X)
  (tr : list (Call CoreOp)) : Prop :=
  (tr = [MkCall (Elapsed ProbeTimeout probe_timeout) true] /\ seen = None) \/
  (exists r, tr = [MkCall (Elapsed ProbeTimeout probe_timeout) false; MkCall o r] /\ seen = result_ok r).

Definition observed (ob : Observation) (tr : list (Call CoreOp)) : Prop :=
  exists t1 t2, probe_calls RtCapacity (ob_capacity ob) t1 /\ probe_calls RtHealthSnapshot (ob_health ob) t2 /\
  tr = MkCall RtNodeTelemetry (ob_telemetry ob) :: t1 ++ t2 ++
    [MkCall ReadReconciliation (ob_report ob); MkCall LoadLifecycle (ob_status_state ob);
     MkCall LoadLifecycle (ob_metadata_state ob); MkCall LoadActiveCommands (ob_active ob);
     MkCall LoadCapacityWaiting (ob_waiting ob); MkCall NowUtc (ob_now ob)].

Definition seen_telemetry (ob : Observation) : NodeTelemetry :=
  match ob_telemetry ob with Ok t => t | Err _ => default_telemetry end.
Definition seen_report (ob : Observation) : RuntimeReconciliationReport := default default_report (ob_report ob).
Definition seen_statistics (ob : Observation) : WorkloadStatistics :=
  statistics_of (ob_capacity ob) (ob_health ob).

Section Payload.
Context {codec : WireCodec} (config : AgentConfig) (context : HeartbeatRuntimeContext).

Definition payload_of (ob : Observation) : HeartbeatPayload :=
  {| hb_status := heartbeat_status (hc_minimum_workspace_free_bytes context)
                    (lifecycle_state (ob_status_state ob)) (is_ok (ob_telemetry ob)) (seen_telemetry ob)
                    (seen_statistics ob);
     hb_node := {| ni_hostname := default "unknown-host"%string (nt_hostname (seen_telemetry ob));
                   ni_runtime_network := ac_runtime_network config;
                   ni_capabilities := ac_capabilities config |};
     hb_metadata := heartbeat_metadata context (lifecycle_state (ob_metadata_state ob)) (seen_telemetry ob)
                      (seen_statistics ob) (seen_report ob) (ob_active ob) (ob_waiting ob);
     hb_sent_at := ob_now ob |}.

Lemma probe_runs {X} (o : CoreOp (Result RuntimeExecutionError X)) tr seen :
  runs (within_probe_timeout (trigger o)) tr seen -> probe_calls o seen tr.
Proof.
  intros (late & t1 & -> & H). destruct late; cbn in H.
  - destruct H as [-> ->]. by left.
  - destruct H as (r & t2 & -> & -> & ->). right. exists r. by destruct r.
Qed.

Lemma payload_runs tr p :
  runs (payload (Op := CoreOp) config context) tr p -> exists ob, observed ob tr /\ p = payload_of ob.
Proof.
  intros (telemetry & t1 & -> & H). cbn [bind] in H.
  apply runs_bind in H as (t2 & t3 & workloads & -> & Hw & H). unfold workload_statistics in Hw.
  apply runs_bind in Hw as (u1 & u2 & cap & -> & Hc%probe_runs & Hw).
  apply runs_bind in Hw as (u3 & u4 & snaps & -> & Hs%probe_runs & [-> ->]).
  cbn in H. destruct H as (report & ? & -> & l1 & ? & -> & l2 & ? & -> & a & ? & -> & w & ? & -> & now & ? & -> & -> & ->).
  exists {| ob_telemetry := telemetry; ob_capacity := cap; ob_health := snaps; ob_report := report;
       ob_status_state := l1; ob_metadata_state := l2; ob_active := a; ob_waiting := w; ob_now := now |}.
  split; [|done]. exists u1, u3. rewrite app_nil_r, <-!app_assoc. by split_and!.
Qed.

(** The node can do its work as far as the probes can tell. *)
Definition sound_node (ob : Observation) : Prop :=
  (exists t, ob_telemetry ob = Ok t /\ nt_runtime_operational t <> Some false /\
     forall free, nt_disk_available_bytes t = Some free -> (hc_minimum_workspace_free_bytes context <= free)%N) /\
  is_Some (ob_capacity ob) /\ is_Some (ob_health ob).

Lemma disk_critical available minimum :
  disk_pressure_state available minimum = "critical"%string <->
  exists free, available = Some free /\ (free < minimum)%N.
Proof.
  destruct available as [free|]; cbn; [|split; [done|naive_solver]].
  destruct (N.ltb_spec free minimum); split; try done; naive_solver lia.
Qed.

Lemma status_active_sound ob :
  lifecycle_state (ob_status_state ob) = Active ->
  hb_status (payload_of ob) = NodeReady /\ sound_node ob \/
  hb_status (payload_of ob) = NodeDegraded /\ ~ sound_node ob.
Proof.
  intros Hactive. cbn. unfold heartbeat_status, sound_node, seen_telemetry. rewrite Hactive.
  destruct (ob_telemetry ob) as [t|e]; cbn [is_ok negb orb]; [|right; naive_solver].
  case_bool_decide as Hop; [right; naive_solver|].
  cbn [orb statistics_of seen_statistics ws_capacity_available ws_health_available].
  destruct (ob_capacity ob) as [c|]; cbn; [|right; split; [done|intros (_ & [? [=]] & _)]].
  destruct (ob_health ob) as [h|]; cbn; [|right; split; [done|intros (_ & _ & [? [=]])]].
  case_bool_decide as Hdisk; rewrite disk_critical in Hdisk.
  - right. split; [done|]. destruct Hdisk as (free & Hf & Hlt).
    intros ((t' & [= <-] & _ & Hfree) & _). specialize (Hfree free Hf). lia.
  - left. split_and!; [done| |eauto|eauto]. exists t. split_and!; [done|done|].
    intros free Hf. destruct (decide (free < hc_minimum_workspace_free_bytes context)%N); [|lia].
    destruct Hdisk. eauto.
Qed.
End Payload.

(** C25. The status of a heartbeat is the one its probes justify. In every run
    of the payload, with whatever the probes answer or fail to answer in time,
    an active node is reported ready exactly when its telemetry was read and does
    not deny that the runtime works, its free disk space is not known to be
    below the reserve, and both runtime probes answered within their timeout;
    otherwise it is degraded.  In particular an active node whose free disk
    space is not known, since its probe failed, is reported ready if all else is
    well, where docs/RUNTIME_HARDENING.md asks for a working disk guard.  A node
    under maintenance is reported in the state the operator set, whatever its
    probes say. *)
Theorem heartbeat_status_truthful {codec : WireCodec} config context tr p :
  runs (payload (Op := CoreOp) config context) tr p ->
  exists ob, observed ob tr /\
    let state := lifecycle_state (ob_status_state ob) in
    (hb_status p = NodeReady <-> state = Active /\ sound_node context ob) /\
    (hb_status p = NodeDegraded <-> state = Active /\ ~ sound_node context ob) /\
    (forall t, ob_telemetry ob = Ok t -> nt_disk_available_bytes t = None -> nt_runtime_operational t <> Some false ->
       is_Some (ob_capacity ob) -> is_Some (ob_health ob) -> state = Active -> hb_status p = NodeReady) /\
    (state <> Active -> serde_name (hb_status p) = lifecycle_name state) /\
    hb_sent_at p = ob_now ob.
Proof.
  intros (ob & Hob & ->)%payload_runs. exists ob. split; [done|]. cbv zeta.
  destruct (decide (lifecycle_state (ob_status_state ob) = Active)) as [Ha|Hn].
  - assert (Hdisk : forall t, ob_telemetry ob = Ok t -> nt_disk_available_bytes t = None ->
      nt_runtime_operational t <> Some false -> is_Some (ob_capacity ob) -> is_Some (ob_health ob) -> sound_node context ob).
    { intros t Ht Hfree Hop Hc Hh. split_and!; [|done|done]. exists t. split_and!; [done|done|]. by rewrite Hfree. }
    destruct (status_active_sound config context ob Ha) as [[Hs Hsound]|[Hs Hsound]]; rewrite Hs; naive_solver.
  - cbn [hb_status payload_of hb_sent_at]. unfold heartbeat_status.
    destruct (lifecycle_state _); naive_solver.
Qed.

(** ** What goes over the wire *)

(** Every node of a JSON value satisfies [ok], with the key it is found under
    (the items of an array with the array's). *)
Fixpoint every_node (ok : string -> Value -> bool) (key : string) (v : Value) : bool :=
  ok key v &&
  match v with
  | Array items => forallb (every_node ok key) items
  | Object fields => forallb (fun '(k, v) => every_node ok k v) fields
  | _ => true
  end.
Definition bounded_node (_ : string) (v : Value) : bool :=
  match v with Array items => Nat.leb (length items) 50 | _ => true end.
(** A field named [.._at] holds a text. *)
Definition dated_node (key : string) (v : Value) : bool :=
  negb (ends_with key "_at") || match v with Str _ => true | _ => false end.
Definition wire_node (key : string) (v : Value) : bool := bounded_node key v && dated_node key v.

Definition flat (v : Value) : bool := match v with Array _ | Object _ => false | _ => true end.
Lemma every_flat ok key v : flat v = true -> every_node ok key v = ok key v.
Proof. by destruct v; cbn; rewrite ?andb_true_r. Qed.
Lemma wire_flat key v : ends_with key "_at" = false -> flat v = true -> every_node wire_node key v = true.
Proof. intros Hk Hf. rewrite every_flat by done. unfold wire_node, dated_node. rewrite Hk. by destruct v. Qed.
Lemma wire_text key s : every_node wire_node key (Str s) = true.
Proof. cbn. unfold wire_node, dated_node. cbn. by rewrite orb_true_r. Qed.
Lemma flat_opt {A} (f : A -> Value) o : (forall a, flat (f a) = true) -> flat (opt_value f o) = true.
Proof. by destruct o; cbn. Qed.

Lemma wire_bounded_values {T} key (items : list T) f :
  ends_with key "_at" = false -> (forall x, every_node wire_node key (f x) = true) ->
  every_node wire_node key (bounded_values items f) = true.
Proof.
  intros Hk Hf. unfold bounded_values. cbn [every_node]. unfold wire_node at 1, dated_node. rewrite Hk. cbn.
  apply andb_true_intro. split.
  { rewrite andb_true_r. apply Nat.leb_le. rewrite length_map, length_take. apply Nat.le_min_l. }
  apply forallb_forall. intros v (x & <- & _)%in_map_iff. apply Hf.
Qed.

(** Walks through the fields of an object. *)
Ltac wire :=
  repeat first
    [ reflexivity | assumption
    | match goal with |- (_ && _)%bool = true => apply andb_true_intro; split end
    | apply wire_text
    | apply wire_bounded_values; [reflexivity|intros ?]
    | apply wire_flat; [reflexivity | first [reflexivity | apply flat_opt; intros; reflexivity]]
    | progress cbn [every_node forallb] ].

Lemma detail_values_wire key :
  ends_with key "_at" = false ->
  (forall s, every_node wire_node key (unhealthy_value s) = true) /\
  (forall w, every_node wire_node key (recovered_value w) = true) /\
  (forall o, every_node wire_node key (orphan_value o) = true) /\
  (forall r, every_node wire_node key (stale_route_value r) = true) /\
  (forall i, every_node wire_node key (stale_image_value i) = true) /\
  (forall i, every_node wire_node key (issue_value i) = true).
Proof.
  intros Hk. assert (Hn : forall fs, wire_node key (Object fs) = true)
    by (intros; unfold wire_node, dated_node; by rewrite Hk).
  split_and!; intros []; cbn [every_node forallb unhealthy_value recovered_value orphan_value stale_route_value
    stale_image_value issue_value]; rewrite Hn; cbn [andb]; wire.
Qed.

(** What the runtime's own telemetry must be for the payload to be well typed:
    a float is no array or object, and so for every node of the dependency
    report. *)
Definition telemetry_wire (t : NodeTelemetry) : Prop :=
  match nt_cpu_load_1m t with Some v => flat v = true | None => True end /\
  every_node wire_node "runtime_dependencies" (nt_runtime_dependencies t) = true.

Lemma metadata_wire {codec : WireCodec} context state t w r active waiting :
  telemetry_wire t ->
  every_node wire_node "metadata" (heartbeat_metadata context state t w r active waiting) = true.
Proof.
  intros [Hload Hdeps].
  assert (Hcpu : every_node wire_node "cpu_load_1m" (opt_value (fun v => v) (nt_cpu_load_1m t)) = true)
    by (destruct (nt_cpu_load_1m t) as [v|]; [by apply wire_flat|reflexivity]).
  unfold heartbeat_metadata. cbn [every_node forallb].
  rewrite Hdeps. unfold resources_value, disk_pressure_value, workloads_value, execution_value,
    reconciliation_value, detail_counts_value. cbn [every_node forallb]. rewrite Hcpu.
  wire; by apply detail_values_wire.
Qed.

Lemma every_node_mono (f g : string -> Value -> bool) (Hfg : forall k v, f k v = true -> g k v = true) :
  forall v key, every_node f key v = true -> every_node g key v = true.
Proof.
  fix IH 1. intros v key. destruct v as [| | | |items|fields]; cbn [every_node];
    intros [Hf Hrest]%andb_prop; apply andb_true_intro; split; auto; clear Hf.
  - revert Hrest. induction items as [|v items IHi]; [done|]. cbn [forallb].
    intros [H1 H2]%andb_prop. apply andb_true_intro. split; auto.
  - revert Hrest. induction fields as [|[k v] fields IHf]; [done|]. cbn [forallb].
    intros [H1 H2]%andb_prop. apply andb_true_intro. split; auto.
Qed.

(** ** The worker *)

Definition wake_of (c : Call CoreOp) : option Wake :=
  match call_op c in CoreOp T return T -> option Wake with
  | AwaitWake _ => fun w => Some w
  | _ => fun _ => None
  end (call_answer c).
Definition wakes (tr : list (Call CoreOp)) : list Wake := omap wake_of tr.
Definition is_heartbeat (c : Call CoreOp) : bool :=
  match call_op c with CpHeartbeat _ => true | _ => false end.
Definition heartbeats (tr : list (Call CoreOp)) : nat := length (List.filter is_heartbeat tr).

Definition observes X (o : CoreOp X) : Prop :=
  match o with CpHeartbeat _ | AwaitWake _ => False | _ => True end.

Lemma observes_silent tr :
  Forall (fun c => observes _ (call_op c)) tr -> wakes tr = [] /\ heartbeats tr = 0%nat.
Proof.
  induction 1 as [|[X o x] tr Ho _ [IHw IHh]]; [done|]. unfold wakes, heartbeats in *. cbn.
  by destruct o; cbn in *; rewrite ?IHw.
Qed.

Section Run.
Context {codec : WireCodec} (config : AgentConfig) (context : HeartbeatRuntimeContext) (client : bool).

Lemma turn_runs tr w :
  runs (heartbeat_turn (Op := CoreOp) config context client) tr w ->
  wakes tr = [w] /\ heartbeats tr = (if client then 1 else 0)%nat.
Proof.
  intros (t1 & t2 & p & -> & H1 & H2)%runs_bind.
  assert (Forall (fun c => observes _ (call_op c)) t1) as [Hw Hh]%observes_silent.
  { eapply only_runs; [|exact H1]. unfold payload, workload_statistics, within_probe_timeout. cbn. only_calls. }
  unfold wakes, heartbeats in *. rewrite omap_app, List.filter_app, length_app, Hw, Hh. clear Hw Hh H1.
  destruct client.
  - destruct H2 as (sent & t3 & -> & H2). cbn in H2. by destruct H2 as (w' & t4 & -> & -> & ->).
  - cbn in H2. by destruct H2 as (w' & t4 & -> & -> & ->).
Qed.
End Run.

Lemma wakes_app t1 t2 : wakes (t1 ++ t2) = wakes t1 ++ wakes t2.
Proof. apply omap_app. Qed.
Lemma heartbeats_app t1 t2 : heartbeats (t1 ++ t2) = (heartbeats t1 + heartbeats t2)%nat.
Proof. unfold heartbeats. by rewrite List.filter_app, length_app. Qed.

(** The worker beats until it is told to stop. However long it is watched
    and whatever fails (probes, the lock of the report, the delivery of a
    heartbeat), it sends one heartbeat in every turn, pauses once after each,
    and has stopped exactly when one of its pauses ended with the shutdown
    signal, which is then the last thing it saw; a pause that ended with the
    sleep, or with a change of the channel that is no shutdown, starts the next
    turn. *)
Theorem heartbeat_until_shutdown {codec : WireCodec} config context client turns tr stopped :
  runs (heartbeat_run (Op := CoreOp) config context client turns) tr stopped ->
  heartbeats tr = (if client then length (wakes tr) else 0%nat) /\
  (if stopped : bool
   then exists before last, wakes tr = before ++ [last] /\ stops last = true /\
          Forall (fun w => stops w = false) before /\ (length before < turns)%nat
   else length (wakes tr) = turns /\ Forall (fun w => stops w = false) (wakes tr)).
Proof.
  revert tr stopped. induction turns as [|later IH]; intros tr stopped; cbn [heartbeat_run].
  - intros [-> ->]. cbn. destruct client; split; try done; split; done.
  - intros (t1 & t2 & w & -> & [Hw Hh]%turn_runs & H)%runs_bind.
    rewrite wakes_app, heartbeats_app, Hw, Hh. destruct (stops w) eqn:Hstop.
    + destruct H as [-> ->]. cbn. split; [by destruct client|].
      exists [], w. split_and!; [done|done|constructor|cbn; lia].
    + apply IH in H as [Hbeats H]. rewrite Hbeats. split; [destruct client; cbn; lia|].
      destruct stopped.
      * destruct H as (before & last & -> & Hlast & Hbefore & Hlen). exists (w :: before), last.
        split_and!; [done|done|by constructor|cbn; lia].
      * destruct H as [Hlen Hall]. cbn. split; [lia|by constructor].
Qed.

(** ** Witnesses *)

Definition sample_agent : AgentConfig :=
  {| ac_mode := Connected; ac_agent_id := "node-1"; ac_agent_token := Some "token"; ac_api_url := "http://api";
     ac_poll_interval_seconds := 3; ac_heartbeat_interval_seconds := 10; ac_command_timeout_seconds := 900;
     ac_max_concurrent_commands := 4; ac_shutdown_grace_seconds := 30; ac_runtime_network := "sakala";
     ac_capabilities := ["deploy"] |}.
Definition sample_context : HeartbeatRuntimeContext :=
  {| hc_runtime_driver := "docker"; hc_startup_reconciliation_at := 0; hc_minimum_workspace_free_bytes := 100 |}.
(** A node that works, but for a disk that is nearly full. *)
Definition full_disk_env : Env CoreOp := fun past X o =>
  match o in CoreOp T return T with
  | RtNodeTelemetry =>
      Ok {| nt_hostname := Some "node-1"%string; nt_uptime_seconds := Some 5%N; nt_cpu_total := None;
            nt_cpu_load_1m := None; nt_memory_total_bytes := None; nt_memory_available_bytes := None;
            nt_disk_total_bytes := None; nt_disk_available_bytes := Some 99%N; nt_workspace_used_bytes := None;
            nt_runtime_operational := Some true; nt_runtime_dependencies := Null |}
  | AwaitWake _ => if Nat.ltb (length past) 20 then SleepEnded else ShutdownChanged false true
  | o => quiet_answer o
  end.
Definition full_disk_run :=
  run_with full_disk_env (payload (Op := CoreOp) (codec := sample_codec) sample_agent sample_context).

Lemma heartbeat_status_witness :
  hb_status full_disk_run.2 = NodeDegraded /\ exists ob, observed ob full_disk_run.1 /\ ~ sound_node sample_context ob.
Proof.
  split; [reflexivity|].
  destruct (heartbeat_status_truthful (codec := sample_codec) sample_agent sample_context full_disk_run.1 full_disk_run.2
    (runs_run_from _ _ _)) as (ob & Hob & _ & Hdegraded & _).
  exists ob. split; [exact Hob|]. apply (proj1 Hdegraded). reflexivity.
Defined.

Definition beating_run :=
  run_with full_disk_env (heartbeat_run (Op := CoreOp) (codec := sample_codec) sample_agent sample_context true 5).
Lemma heartbeat_until_shutdown_witness :
  beating_run.2 = true /\ heartbeats beating_run.1 = length (wakes beating_run.1).
Proof.
  split; [vm_compute; reflexivity|].
  exact (proj1 (heartbeat_until_shutdown (codec := sample_codec) sample_agent sample_context true 5 _ _
    (runs_run_from full_disk_env [] _))).
Defined.
