(* ===== verification/App.v ===== *)
(** The application (apps/sakala-agent/src/app.rs): startup checks, the workers
    it spawns, and its shutdown; the process around it (main.rs, telemetry.rs). *)
From S2P Require Import Prelude Text Protocol Async Ports NodeState ApiClient RuntimeError Limits Config Heartbeat.

#[local] Open Scope async_scope.

Inductive Worker := RuntimeHealthWorker | HeartbeatWorker | PollerWorker.
#[global] Instance Worker_eq_dec : EqDecision Worker. Proof. solve_decision. Defined.

(** What the workers are given: the restored lifecycle state for the poller and
    the heartbeat, the heartbeat's context. *)
Record WorkerSetup := {
  su_client : bool;
  su_lifecycle : NodeLifecycle;
  su_heartbeat : HeartbeatRuntimeContext;
  su_health_interval : Duration
}.

(** The rest of the process: the client's constructor, the state endpoint of
    the control plane, the lock of the reconciliation report, spawned tasks,
    the signal and the shutdown channel.  A joined task gives [false] when it
    panicked or was cancelled, a send [false] when nobody listens. *)
Class AppPort (Op : Type -> Type) : Type := {
  build_client : AgentConfig -> Async Op CoreError ();
  fetch_node_lifecycle : Async Op CoreError DesiredNodeLifecycleState;
  store_reconciliation : RuntimeReconciliationReport -> Prog Op ();
  spawn_worker : Worker -> WorkerSetup -> Prog Op ();
  join_worker : Worker -> Prog Op bool;
  wait_ctrl_c : Prog Op bool;
  send_shutdown : Prog Op bool
}.

(** An [anyhow] error, by its outermost text. *)
Abbreviation AppError := string (only parsing).
Definition with_context {Op E A} (context : AppError) (m : Async Op E A) : Async Op AppError A :=
  with_error (fun _ => context) m.
Definition succeeded {Op} (context : AppError) (p : Prog Op bool) : Async Op AppError () :=
  done <~ p ;; if done : bool then ok () else err context.

Section Application.
Context {Op : Type -> Type} `{!RuntimeExecutor Op} `{!AppPort Op} `{!Ambient Op}.

Definition connected (config : AppConfig) : bool := bool_decide (ac_mode (app_agent config) = Connected).

(** The recovery of what runs on the node, and the lifecycle state the control
    plane holds for it. *)
Definition restore_state (config : AppConfig) : Async Op AppError WorkerSetup :=
  reconciled_at <~ now_utc ;;
  recovered <~ recover (connected config) ;;
  _ <~ (match recovered with Ok found => store_reconciliation found | Err _ => Ret () end) ;;
  _ <~ health_snapshot ;;
  desired <- (if connected config
              then state <- with_context "failed to restore authoritative node lifecycle state"%string
                              fetch_node_lifecycle ;; ok (from_desired state)
              else ok Active) ;;
  ok {| su_client := connected config; su_lifecycle := with_state desired;
        su_heartbeat := {| hc_runtime_driver := driver_text (app_runtime_driver config);
                           hc_startup_reconciliation_at := reconciled_at;
                           hc_minimum_workspace_free_bytes :=
                             dc_min_workspace_free_bytes (app_docker_runtime config) |};
        su_health_interval := app_runtime_health_interval config |}.

(** The client and the preflight come first. *)
Definition startup (config : AppConfig) : Async Op AppError WorkerSetup :=
  (if connected config then with_error core_error_text (build_client (app_agent config)) else ok ()) ;;;
  report <- with_context "runtime preflight failed"%string preflight ;;
  if has_fatal_failure report
  then err "runtime preflight found one or more fatal dependency failures"%string
  else restore_state config.

(** The workers run until the signal; then each is joined before the runtime is
    shut down. *)
Definition supervise_workers (setup : WorkerSetup) : Async Op AppError () :=
  _ <~ spawn_worker RuntimeHealthWorker setup ;;
  _ <~ spawn_worker HeartbeatWorker setup ;;
  _ <~ spawn_worker PollerWorker setup ;;
  succeeded "failed to listen for Ctrl+C"%string wait_ctrl_c ;;;
  succeeded "failed to notify agent workers of shutdown"%string send_shutdown ;;;
  succeeded "heartbeat worker task failed"%string (join_worker HeartbeatWorker) ;;;
  succeeded "command poller task failed"%string (join_worker PollerWorker) ;;;
  succeeded "runtime health worker task failed"%string (join_worker RuntimeHealthWorker) ;;;
  with_context "failed to shut down runtime background tasks"%string shutdown.

Definition app_run (config : AppConfig) : Async Op AppError () :=
  setup <- startup config ;; supervise_workers setup.
End Application.

(** ** The process *)

(** [tracing_subscriber]: whether a filter parses, and the installation of the
    subscriber. *)
Class LoggingPort (Op : Type -> Type) : Type := {
  env_filter_try_new : string -> Prog Op bool;
  subscriber_try_init : string -> Prog Op (Result string ())
}.

Section Process.
Context {Op : Type -> Type} `{!RuntimeExecutor Op} `{!AppPort Op} `{!Ambient Op} `{!LoggingPort Op}.

Definition init_logging (log_level : string) : Async Op AppError () :=
  succeeded ("invalid SAKALA_LOG_LEVEL filter: " +:+ log_level) (env_filter_try_new log_level) ;;;
  with_error (fun e => "failed to initialize tracing subscriber: " +:+ e) (subscriber_try_init log_level).

Definition main (args : string -> option string) (env : Values) : Async Op AppError () :=
  config <- lift (map_err core_error_text (load args env)) ;;
  init_logging (app_log_level config) ;;;
  app_run config.
End Process.
