(* ===== verification/AppFacts.v ===== *)
(** Theorems about the application: nothing is started on a node that did not
    pass its checks, and the runtime is shut down behind its workers. *)
From S2P Require Import Prelude Text Protocol Async Ports NodeState ApiClient RuntimeError Limits Dispatcher CoreOps Config Heartbeat App Monitor.

#[local] Open Scope async_scope.

(** ** The effects of the application *)

Inductive AppOp : Type -> Type :=
| AppCore X (o : CoreOp X) : AppOp X
| BuildClient (c : AgentConfig) : AppOp (Result CoreError ())
| FetchNodeLifecycle : AppOp (Result CoreError DesiredNodeLifecycleState)
| StoreReconciliation (r : RuntimeReconciliationReport) : AppOp ()
| SpawnWorker (w : Worker) (s : WorkerSetup) : AppOp ()
| JoinWorker (w : Worker) : AppOp bool
| WaitCtrlC : AppOp bool
| SendShutdown : AppOp bool
| FilterNew (level : string) : AppOp bool
| SubscriberInit (level : string) : AppOp (Result string ()).
Arguments AppCore {_} _.

#[export] Instance AppOp_port : AppPort AppOp := {
  build_client c := trigger (BuildClient c);
  fetch_node_lifecycle := trigger FetchNodeLifecycle;
  store_reconciliation r := trigger (StoreReconciliation r);
  spawn_worker w s := trigger (SpawnWorker w s);
  join_worker w := trigger (JoinWorker w);
  wait_ctrl_c := trigger WaitCtrlC;
  send_shutdown := trigger SendShutdown
}.
#[export] Instance AppOp_logging : LoggingPort AppOp := {
  env_filter_try_new level := trigger (FilterNew level);
  subscriber_try_init level := trigger (SubscriberInit level)
}.
#[export] Instance AppOp_ambient : Ambient AppOp := {
  now_utc := trigger (AppCore NowUtc);
  is_cancelled := trigger (AppCore IsCancelled)
}.
#[export] Instance AppOp_executor : RuntimeExecutor AppOp := {
  preflight := trigger (AppCore RtPreflight);
  reconcile := trigger (AppCore RtReconcile);
  recover f := trigger (AppCore (RtRecover f));
  health_snapshot := trigger (AppCore RtHealthSnapshot);
  node_telemetry := trigger (AppCore RtNodeTelemetry);
  shutdown := trigger (AppCore RtShutdown);
  capacity := trigger (AppCore RtCapacity);
  inspect_project r := trigger (AppCore (RtInspect r));
  deploy_project r := trigger (AppCore (RtDeploy r));
  restart_project r := trigger (AppCore (RtLifecycle RestartProject r));
  stop_project r := trigger (AppCore (RtLifecycle StopProject r));
  sleep_project r := trigger (AppCore (RtLifecycle SleepProject r));
  wake_project r := trigger (AppCore (RtLifecycle WakeProject r));
  health_check r := trigger (AppCore (RtLifecycle HealthCheck r));
  refresh_route r := trigger (AppCore (RtLifecycle RefreshRoute r));
  reconcile_workload r := trigger (AppCore (RtReconcileWorkload r));
  cleanup_runtime r := trigger (AppCore (RtCleanup r))
}.

(** ** The order of a life *)

(** What happened so far: whether the preflight passed, what recovery answered
    and whether its report was stored, the name of the lifecycle state the
    control plane answered, the workers started and joined, the signal, the broadcast, the shutdown. *)
Record Life := MkLife {
  passed : bool;
  recovery : option (option RuntimeReconciliationReport);
  stored : bool;
  desired : option string;
  spawned : list Worker;
  signalled : bool;
  notified : bool;
  joined : list Worker;
  shut_down : bool }.
Definition life_started : Life := MkLife false None false None [] false false [] false.

(** Whether the settings name a control plane, and whether no check of the
    preflight that is fatal failed. *)
Definition has_control_plane (config : AppConfig) : bool :=
  match ac_mode (app_agent config) with Connected => true | Local => false end.
Definition no_fatal (report : RuntimePreflightReport) : bool :=
  forallb (fun c => pc_ready c || negb (pc_fatal c)) (checks report).
Lemma connected_control_plane config : connected config = has_control_plane config.
Proof. unfold connected, has_control_plane. by destruct (ac_mode (app_agent config)). Qed.
Lemma no_fatal_passes report : no_fatal report = negb (has_fatal_failure report).
Proof.
  unfold no_fatal, has_fatal_failure. induction (checks report) as [|c cs IH]; [done|]. cbn. rewrite IH.
  by destruct (pc_ready c), (pc_fatal c).
Qed.

(** What the workers are given: whether there is a control plane, the lifecycle
    state it answered (active without one), the driver's name and the reserve of
    the disk for the heartbeat, the interval of the health worker. *)
Definition given (config : AppConfig) (answered : option string) (setup : WorkerSetup) : Prop :=
  su_client setup = has_control_plane config /\
  (if has_control_plane config then answered else Some "active"%string) =
    Some (lifecycle_name (lifecycle_state (su_lifecycle setup))) /\
  hc_runtime_driver (su_heartbeat setup) =
    match app_runtime_driver config with Noop => "noop"%string | Docker => "docker"%string end /\
  hc_minimum_workspace_free_bytes (su_heartbeat setup) = dc_min_workspace_free_bytes (app_docker_runtime config) /\
  su_health_interval setup = app_runtime_health_interval config.

Section Monitor.
Context (config : AppConfig).

Definition life_allows (s : Life) X (o : AppOp X) : Prop :=
  match o with
  | BuildClient c => has_control_plane config = true /\ c = app_agent config /\ passed s = false
  | AppCore RtPreflight => passed s = false
  | AppCore NowUtc => passed s = true
  | AppCore (RtRecover factory) => passed s = true /\ recovery s = None /\ factory = has_control_plane config
  | StoreReconciliation r => recovery s = Some (Some r) /\ stored s = false
  | AppCore RtHealthSnapshot => is_Some (recovery s)
  | FetchNodeLifecycle => has_control_plane config = true /\ is_Some (recovery s)
  | SpawnWorker w setup =>
      w ∉ spawned s /\ signalled s = false /\
      (forall r, recovery s = Some (Some r) -> stored s = true) /\ is_Some (recovery s) /\
      given config (desired s) setup
  | WaitCtrlC => spawned s = [PollerWorker; HeartbeatWorker; RuntimeHealthWorker] /\ signalled s = false
  | SendShutdown => signalled s = true /\ notified s = false
  | JoinWorker w => notified s = true /\ w ∈ spawned s /\ w ∉ joined s
  | AppCore RtShutdown => joined s = [RuntimeHealthWorker; PollerWorker; HeartbeatWorker] /\ shut_down s = false
  | _ => False
  end.
Definition life_next (s : Life) X (o : AppOp X) (x : X) : Life :=
  match o in AppOp T return T -> Life with
  | AppCore o => fun x =>
      match o in CoreOp T return T -> Life with
      | RtPreflight => fun r =>
          MkLife (match r with Ok report => no_fatal report | Err _ => false end)
            (recovery s) (stored s) (desired s) (spawned s) (signalled s) (notified s) (joined s) (shut_down s)
      | RtRecover _ => fun r =>
          MkLife (passed s) (Some (result_ok r)) (stored s) (desired s) (spawned s) (signalled s) (notified s) (joined s) (shut_down s)
      | RtShutdown => fun r =>
          MkLife (passed s) (recovery s) (stored s) (desired s) (spawned s) (signalled s) (notified s) (joined s) (is_ok r)
      | _ => fun _ => s
      end x
  | StoreReconciliation _ => fun _ =>
      MkLife (passed s) (recovery s) true (desired s) (spawned s) (signalled s) (notified s) (joined s) (shut_down s)
  | FetchNodeLifecycle => fun r =>
      MkLife (passed s) (recovery s) (stored s) (match r with Ok d => Some (serde_name d) | Err _ => None end)
        (spawned s) (signalled s) (notified s) (joined s) (shut_down s)
  | SpawnWorker w _ => fun _ =>
      MkLife (passed s) (recovery s) (stored s) (desired s) (w :: spawned s) (signalled s) (notified s) (joined s) (shut_down s)
  | WaitCtrlC => fun b =>
      MkLife (passed s) (recovery s) (stored s) (desired s) (spawned s) b (notified s) (joined s) (shut_down s)
  | SendShutdown => fun b =>
      MkLife (passed s) (recovery s) (stored s) (desired s) (spawned s) (signalled s) b (joined s) (shut_down s)
  | JoinWorker w => fun b =>
      MkLife (passed s) (recovery s) (stored s) (desired s) (spawned s) (signalled s) (notified s)
        (if b : bool then w :: joined s else joined s) (shut_down s)
  | BuildClient _ | FilterNew _ | SubscriberInit _ => fun _ => s
  end x.
Definition life_monitor : Monitor AppOp Life :=
  {| allowed := life_allows; plausible := fun _ _ _ _ => True; after_call := life_next |}.

(** A start that failed has started nothing; a process that ends well has
    joined every worker and shut the runtime down. *)
Definition life_outcome (r : Result string ()) (s : Life) : Prop :=
  match r with
  | Ok _ => passed s = true /\ signalled s = true /\ shut_down s = true /\
            joined s = [RuntimeHealthWorker; PollerWorker; HeartbeatWorker]
  | Err _ => shut_down s = false /\ (spawned s = [] \/ length (spawned s) = 3%nat)
  end.

#[local] Instance every_call_awaited : Awaits AppOp := fun _ _ => true.
Abbreviation anywhere := (fun _ : Life => True).
Abbreviation m := life_monitor.
Ltac state := cbn [allowed plausible after_call life_monitor life_allows life_next is_ok result_ok
  passed recovery stored desired spawned signalled notified joined shut_down] in *.
Ltac step x := apply wp_trigger; state; [| done | intros x _; state].

Ltac next := apply wp_trigger; state; [| done | intros ? _; state].

Lemma succeeded_wp context o (R : Result string () -> Life -> Prop) s :
  life_allows s _ o -> R (Ok ()) (life_next s _ o true) -> R (Err context) (life_next s _ o false) ->
  wp m (succeeded context (trigger o)) R anywhere s.
Proof. intros Ho Hyes Hno. apply wp_bind. step b; [exact Ho|]. by destruct b. Qed.

Definition ready_to_start (setup : WorkerSetup) (s : Life) : Prop :=
  exists found d,
    s = MkLife true (Some found) (bool_decide (is_Some found)) d [] false false [] false /\ given config d setup.

Lemma supervise_wp setup s :
  ready_to_start setup s -> wp m (supervise_workers (Op := AppOp) setup) life_outcome anywhere s.
Proof.
  intros (found & d & -> & Hgiven). unfold supervise_workers.
  assert (Hstored : forall r, Some found = Some (Some r) -> bool_decide (is_Some found) = true)
    by (intros r [= ->]; reflexivity).
  do 3 (apply wp_bind; next; [split_and!; [set_solver|done|exact Hstored|done|exact Hgiven]|]).
  apply wp_and_then, succeeded_wp; state; [done| |by cbn; auto].
  apply wp_and_then, succeeded_wp; state; [done| |by cbn; auto].
  do 3 (apply wp_and_then, succeeded_wp; state; [split_and!; [done|set_solver|set_solver]| |by cbn; auto]).
  apply wp_bind. step r; [done|]. destruct r as [[]|e]; cbn; auto.
Qed.

Definition start_outcome (r : Result string WorkerSetup) (s : Life) : Prop :=
  match r with Ok setup => ready_to_start setup s | Err _ => shut_down s = false /\ spawned s = [] end.

Lemma restore_wp :
  wp m (restore_state (Op := AppOp) config) start_outcome anywhere
    (MkLife true None false None [] false false [] false).
Proof.
  unfold restore_state, with_context. rewrite !connected_control_plane.
  apply wp_bind. step reconciled_at; [done|].
  apply wp_bind. step recovered; [done|].
  assert (Hafter : forall found, wp m
    (_ <~ health_snapshot ;;
     desired <- (if has_control_plane config
                 then state <- with_error (fun _ => "failed to restore authoritative node lifecycle state"%string)
                                 fetch_node_lifecycle ;; ok (from_desired state)
                 else ok Active) ;;
     ok {| su_client := has_control_plane config; su_lifecycle := with_state desired;
           su_heartbeat := {| hc_runtime_driver := driver_text (app_runtime_driver config);
                              hc_startup_reconciliation_at := reconciled_at;
                              hc_minimum_workspace_free_bytes := dc_min_workspace_free_bytes (app_docker_runtime config) |};
           su_health_interval := app_runtime_health_interval config |})
    start_outcome anywhere
    (MkLife true (Some found) (bool_decide (is_Some found)) None [] false false [] false)).
  { intros found. apply wp_bind. next; [by eexists|]. apply wp_and_then. destruct (has_control_plane config) eqn:Hc.
    - apply wp_and_then, wp_bind. step d; [done|]. destruct d as [d|e]; cbn; [|done].
      exists found, (Some (serde_name d)). split; [done|]. unfold given. rewrite Hc. cbn.
      split_and!; [done|by destruct d|by destruct (app_runtime_driver config)|done|done].
    - cbn. exists found, None. split; [done|]. unfold given. rewrite Hc. cbn.
      split_and!; [done|done|by destruct (app_runtime_driver config)|done|done]. }
  apply wp_bind. destruct recovered as [found|e]; cbn [result_ok].
  - next; [done|]. apply (Hafter (Some found)).
  - cbn [wp]. apply (Hafter None).
Qed.

Lemma startup_wp : wp m (startup (Op := AppOp) config) start_outcome anywhere life_started.
Proof.
  unfold startup, with_context. rewrite connected_control_plane.
  assert (Hpreflight : wp m
    (report <- with_error (fun _ => "runtime preflight failed"%string) (preflight (Op := AppOp)) ;;
     if has_fatal_failure report
     then err "runtime preflight found one or more fatal dependency failures"%string
     else restore_state config) start_outcome anywhere life_started).
  { apply wp_and_then, wp_bind. step r; [done|]. destruct r as [report|e]; [|done]. cbn [wp map_err].
    rewrite no_fatal_passes. destruct (has_fatal_failure report); [done|]. apply restore_wp. }
  apply wp_and_then. destruct (has_control_plane config) eqn:Hc; [|exact Hpreflight].
  apply wp_bind. step r; [done|]. destruct r as [[]|e]; [exact Hpreflight|done].
Qed.
End Monitor.

(** Setting up the logging, and whether it was set up. *)
Definition logging_calls (level : string) (logging : list (Call AppOp)) (set_up : bool) : Prop :=
  if set_up then logging = [MkCall (FilterNew level) true; MkCall (SubscriberInit level) (Ok ())]
  else logging = [MkCall (FilterNew level) false] \/
       exists e, logging = [MkCall (FilterNew level) true; MkCall (SubscriberInit level) (Err e)].

Lemma init_logging_runs level tr r :
  runs (init_logging (Op := AppOp) level) tr r -> logging_calls level tr (is_ok r).
Proof.
  intros [(e & (b & t & -> & H) & ->)|(t1 & t2 & [] & -> & (b & t & -> & H) & Hinit)]%runs_and_then.
  - destruct b; destruct H as [-> H]; [done|]. by left.
  - destruct b; destruct H as [-> H]; [|done]. destruct Hinit as (x & t & -> & -> & ->). destruct x as [[]|e]; [done|].
    right. by exists e.
Qed.

Lemma app_run_life config tr r :
  runs (app_run (Op := AppOp) config) tr r ->
  obeys (life_monitor config) life_started tr /\
  life_outcome r (final (life_monitor config) life_started tr).
Proof.
  intros Hr. eapply wp_sound; [|exact Hr|].
  - apply wp_and_then. eapply wp_mono; [| |apply startup_wp]; [|done].
    intros [setup|e] s; [intros Hs; by apply supervise_wp|]. cbn. intros [Hs Hn]. auto.
  - clear Hr. generalize life_started. induction tr as [|c tr IH]; intros s; [done|]. split; [done|apply IH].
Qed.

(** C26. The life of the agent's process.  With settings that are refused it
    does nothing at all.  In every other run, whatever answers it gets, logging
    is set up first, with the level of the settings, and when it cannot be set
    up the process ends with an error and does nothing else.  Then: nothing is
    recovered before a preflight without a fatal failure; no worker is started
    before the recovery of the node was tried and, if it gave a report, that
    report was stored for the heartbeat (a recovery that failed is passed over),
    nor before the lifecycle state was restored from the control plane (a local
    agent is active); each worker is started once, with that state, the driver's
    name and the disk reserve and health interval of the settings; a start that
    fails has started nothing; the shutdown is broadcast only behind the signal,
    each worker is joined behind the broadcast, and the runtime is shut down
    only when all three have ended, which is the only way the process ends
    well. *)
Theorem app_life args env tr r :
  runs (main (Op := AppOp) args env) tr r ->
  match load args env with
  | Err e => tr = [] /\ r = Err (core_error_text e)
  | Ok config =>
      (logging_calls (app_log_level config) tr false /\ is_err r = true) \/
      exists logging life, tr = logging ++ life /\ logging_calls (app_log_level config) logging true /\
        obeys (life_monitor config) life_started life /\
        life_outcome r (final (life_monitor config) life_started life)
  end.
Proof.
  unfold main. destruct (load args env) as [config|e]; cbn [map_err lift and_then bind]; [|done].
  intros [(e & H%init_logging_runs & ->)|(t1 & t2 & [] & -> & H%init_logging_runs & Hr)]%runs_and_then; [by left|right].
  exists t1, t2. split; [done|]. split; [done|]. by apply app_run_life.
Qed.

(** ** Witness *)

Definition calm_app : Env AppOp := fun _ X o =>
  match o in AppOp T return T with
  | AppCore o => quiet_answer o
  | BuildClient _ => Ok ()
  | FetchNodeLifecycle => Ok DesiredDraining
  | StoreReconciliation _ => ()
  | SpawnWorker _ _ => ()
  | JoinWorker _ => true
  | WaitCtrlC => true
  | SendShutdown => true
  | FilterNew _ => true
  | SubscriberInit _ => Ok ()
  end.
Definition connected_values : Values :=
  <["SAKALA_AGENT_MODE" := "connected"]> (<["SAKALA_AGENT_TOKEN" := "secret"]> ∅).
Definition no_args (option_ : string) : option string := None.
Definition connected_life := run_with calm_app (main (Op := AppOp) no_args connected_values).
Lemma app_life_witness : connected_life.2 = Ok () /\ exists config logging life,
  load no_args connected_values = Ok config /\ connected_life.1 = logging ++ life /\
  life_outcome (Ok ()) (final (life_monitor config) life_started life).
Proof.
  assert (connected_life.2 = Ok ()) as Hr by (vm_compute; reflexivity). split; [exact Hr|].
  pose proof (app_life no_args connected_values _ _ (runs_run_from calm_app [] _)) as H. cbn beta in H.
  fold connected_life in H. change (run_from calm_app [] _) with connected_life in H. rewrite Hr in H.
  destruct (load no_args connected_values) as [config|e] eqn:E; [|vm_compute in E; discriminate E].
  destruct H as [[_ H]|(logging & life & Htr & _ & _ & Hout)]; [discriminate H|]. exists config, logging, life. split_and!; [reflexivity|exact Htr|exact Hout].
Defined.
