(* ===== verification/HealthWorker.v ===== *)
(** The health worker (core/src/health/worker.rs): one batch observation of
    the workloads per interval, with the changes it logs. *)
From S2P Require Import Prelude Text Protocol Async Ports NodeState ApiClient Dispatcher CoreOps.

#[local] Open Scope async_scope.

Record HealthState := { hw_ready : bool; hw_status : string; hw_reason : option string }.
#[global] Instance HealthState_eq_dec : EqDecision HealthState. Proof. solve_decision. Defined.

(** The lines the worker logs about a workload. *)
Inductive HealthEvent :=
| HealthObserved (s : RuntimeHealthSnapshot)
| BecameReady (s : RuntimeHealthSnapshot)
| HealthDegraded (s : RuntimeHealthSnapshot)
| Disappeared (container_id : string) (was_ready : bool).

Abbreviation Known := (gmap string HealthState).

Definition container_of (s : RuntimeHealthSnapshot) : string := wl_container_id (hs_workload s).
Definition health_state_of (s : RuntimeHealthSnapshot) : HealthState :=
  {| hw_ready := hs_ready s; hw_status := wl_status (hs_workload s); hw_reason := hs_reason s |}.

(** The body of the loop over the snapshots. *)
Definition observe_one (known : Known) (seen : Known * list HealthEvent) (s : RuntimeHealthSnapshot)
  : Known * list HealthEvent :=
  let next := health_state_of s in
  let events :=
    match known !! container_of s with
    | None => [HealthObserved s]
    | Some previous =>
        if negb (bool_decide (previous = next))
        then (if hw_ready next then [BecameReady s] else [HealthDegraded s])
        else []
    end in
  (<[container_of s := next]> seen.1, seen.2 ++ events).

(** The order in which a [HashMap] is walked is not specified; [map_to_list]
    stands for one. *)
Definition disappeared (known current : Known) : list HealthEvent :=
  omap (fun '(id, previous) =>
    match current !! id with
    | None => Some (Disappeared id (hw_ready previous))
    | Some _ => None
    end) (map_to_list known).

Definition observe (known : Known) (snapshots : list RuntimeHealthSnapshot) : Known * list HealthEvent :=
  let '(current, events) := fold_left (observe_one known) snapshots (∅, []) in
  (current, events ++ disappeared known current).

(** ** Spreading the checks over the nodes *)

Definition u128_modulus : N := 2 ^ 128.
Definition as_millis (d : Duration) : N := (d / 1000000)%N.
Definition agent_hash (agent_id : string) : N :=
  fold_left (fun hash b => ((hash * 31) mod u128_modulus + byte b) mod u128_modulus)%N (bytes_of agent_id) 0%N.
Definition jitter (agent_id : string) (interval : Duration) : Duration :=
  let ceiling_ms := N.min (as_millis interval / 5) 5000 in
  if (ceiling_ms =? 0)%N then 0%N else from_millis (agent_hash agent_id mod (ceiling_ms + 1)).

Section Worker.
Context {Op : Type -> Type} `{!RuntimeExecutor Op} `{!Timers Op} `{!WorkerPort Op}.
Context (agent_id : string) (interval : Duration).

(** [interval.clamp(1s, 10s)] *)
Definition probe_deadline : Duration := N.min (N.max interval (from_secs 1)) (from_secs 10).

Definition health_check_turn (known : Known) : Prog Op (Known * list HealthEvent) :=
  raced <~ race (elapsed HealthProbeDeadline probe_deadline) health_snapshot ;;
  Ret (match raced with
       | inl (Ok snapshots) => observe known snapshots
       | inl (Err _) | inr _ => (known, [])
       end).

(** The loop, cut off after a number of turns: whether it has stopped, what it
    knows, what it has logged. *)
Fixpoint health_worker_loop (known : Known) (turns : nat) : Prog Op (bool * Known * list HealthEvent) :=
  match turns with
  | O => Ret (false, known, [])
  | S later =>
      checked <~ health_check_turn known ;;
      wake <~ await_wake interval ;;
      if stops wake then Ret (true, checked.1, checked.2)
      else
        rest <~ health_worker_loop checked.1 later ;;
        Ret (rest.1, checked.2 ++ rest.2)
  end.

Definition health_worker_run (turns : nat) : Prog Op (bool * Known * list HealthEvent) :=
  if (jitter agent_id interval =? 0)%N then health_worker_loop ∅ turns
  else
    wake <~ await_wake (jitter agent_id interval) ;;
    if stops wake then Ret (true, ∅, []) else health_worker_loop ∅ turns.
End Worker.
