(* ===== verification/HealthWorkerFacts.v ===== *)
(** Theorems about the health worker: its incremental bookkeeping equals the
    comparison of consecutive snapshots, and its first check is spread within
    its bounds. *)
From S2P Require Import Prelude Text Protocol Async Ports NodeState ApiClient Dispatcher CoreOps HealthWorker.

#[local] Open Scope async_scope.

(** ** The reference: comparing two snapshots *)

(** What a list of snapshots says: the last one of a container counts. *)
Definition tracked (snapshots : list RuntimeHealthSnapshot) : Known :=
  list_to_map (reverse ((fun s => (container_of s, health_state_of s)) <$> snapshots)).

(** The line a snapshot gives rise to, by what was known of its container. *)
Definition transition (known : Known) (s : RuntimeHealthSnapshot) : list HealthEvent :=
  match known !! container_of s with
  | None => [HealthObserved s]
  | Some previous =>
      if decide (previous = health_state_of s) then []
      else if hs_ready s then [BecameReady s] else [HealthDegraded s]
  end.

Definition changes (known : Known) (snapshots : list RuntimeHealthSnapshot) : list HealthEvent :=
  flat_map (transition known) snapshots ++ disappeared known (tracked snapshots).

Fixpoint history (known : Known) (rounds : list (list RuntimeHealthSnapshot)) : Known * list HealthEvent :=
  match rounds with
  | [] => (known, [])
  | snapshots :: later =>
      let '(last, events) := history (tracked snapshots) later in (last, changes known snapshots ++ events)
  end.

Lemma tracked_snoc snapshots s :
  tracked (snapshots ++ [s]) = <[container_of s := health_state_of s]> (tracked snapshots).
Proof. unfold tracked. by rewrite fmap_app, reverse_app. Qed.

Lemma fold_tracked snapshots :
  fold_left (fun m s => <[container_of s := health_state_of s]> m) snapshots (∅ : Known) = tracked snapshots.
Proof.
  induction snapshots as [|s rest IH] using rev_ind; [done|]. by rewrite fold_left_app, IH, tracked_snoc.
Qed.

Lemma observe_one_split known s0 e0 snapshots :
  fold_left (observe_one known) snapshots (s0, e0) =
  (fold_left (fun m s => <[container_of s := health_state_of s]> m) snapshots s0,
   e0 ++ flat_map (transition known) snapshots).
Proof.
  revert s0 e0. induction snapshots as [|s rest IH]; intros s0 e0; cbn; [by rewrite app_nil_r|].
  unfold observe_one at 2. rewrite IH. cbn. f_equal. rewrite <-app_assoc. do 2 f_equal.
  unfold transition. destruct (known !! container_of s) as [previous|]; [|done].
  case_bool_decide; destruct (decide _); done.
Qed.

Lemma observe_is_changes known snapshots :
  observe known snapshots = (tracked snapshots, changes known snapshots).
Proof.
  unfold observe, changes. by rewrite observe_one_split, fold_tracked.
Qed.

(** ** What the reference says of one container *)

Lemma tracked_lookup snapshots id :
  tracked snapshots !! id = health_state_of <$> last (filter (fun s => container_of s = id) snapshots).
Proof.
  induction snapshots as [|s rest IH] using rev_ind; [done|].
  rewrite tracked_snoc, filter_app, filter_cons, filter_nil, lookup_insert.
  case_decide as Hs.
  - by rewrite last_snoc.
  - by rewrite app_nil_r, <-IH.
Qed.

Lemma tracked_known snapshots id :
  is_Some (tracked snapshots !! id) <-> exists s, s ∈ snapshots /\ container_of s = id.
Proof.
  rewrite tracked_lookup, fmap_is_Some, last_is_Some. split.
  - intros Hne. destruct (filter _ snapshots) as [|s l] eqn:E; [done|].
    assert (s ∈ filter (fun s => container_of s = id) snapshots) as [Hc Hs]%list_elem_of_filter
      by (rewrite E; apply list_elem_of_here). eauto.
  - intros (s & Hs & Hc) Hnil. assert (s ∈ filter (fun s => container_of s = id) snapshots) as Hin
      by (by apply list_elem_of_filter). rewrite Hnil in Hin. by apply elem_of_nil in Hin.
Qed.

Lemma changes_disappeared known snapshots id r :
  Disappeared id r ∈ changes known snapshots <->
  (exists previous, known !! id = Some previous /\ hw_ready previous = r) /\
  ~ exists s, s ∈ snapshots /\ container_of s = id.
Proof.
  unfold changes. rewrite elem_of_app, <-tracked_known. split.
  - intros [Hin|Hin].
    + apply list_elem_of_In, in_flat_map in Hin as (s & _ & Hin). unfold transition in Hin.
      destruct (known !! container_of s); [destruct (decide _); [done|destruct (hs_ready s)]|];
        cbn in Hin; naive_solver.
    + apply list_elem_of_omap in Hin as ([id' previous] & Hm%elem_of_map_to_list & He).
      destruct (tracked snapshots !! id') eqn:E; [done|]. injection He as <- <-. rewrite E.
      split; [eauto|]. by intros [? [=]].
  - intros [(previous & Hk & <-) Hgone]. right. apply list_elem_of_omap. exists (id, previous).
    split; [by apply elem_of_map_to_list|]. destruct (tracked snapshots !! id); [destruct Hgone; eauto|done].
Qed.

Lemma changes_of_snapshot known snapshots s e :
  s ∈ snapshots -> transition known s = [e] -> e ∈ changes known snapshots.
Proof.
  intros Hs He. unfold changes. rewrite elem_of_app. left. apply list_elem_of_In, in_flat_map.
  exists s. split; [by apply list_elem_of_In|]. rewrite He. by left.
Qed.

Lemma transition_observed known s e : e ∈ transition known s ->
  match e with
  | HealthObserved s' => s' = s /\ known !! container_of s = None
  | BecameReady s' => s' = s /\ hs_ready s = true /\
      exists previous, known !! container_of s = Some previous /\ previous <> health_state_of s
  | HealthDegraded s' => s' = s /\ hs_ready s = false /\
      exists previous, known !! container_of s = Some previous /\ previous <> health_state_of s
  | Disappeared _ _ => False
  end.
Proof.
  unfold transition. destruct (known !! container_of s) as [previous|] eqn:E.
  - destruct (decide _); [by intros ?%elem_of_nil|].
    destruct (hs_ready s) eqn:Hr; intros ->%list_elem_of_singleton; eauto.
  - by intros ->%list_elem_of_singleton.
Qed.

Lemma not_disappeared known current e : e ∈ disappeared known current -> exists id r, e = Disappeared id r.
Proof.
  intros ([id previous] & _ & He)%list_elem_of_omap. destruct (current !! id); [done|]. injection He as <-. eauto.
Qed.

Lemma logged_about known snapshots s e :
  (e = HealthObserved s \/ e = BecameReady s \/ e = HealthDegraded s) ->
  e ∈ (observe known snapshots).2 <-> s ∈ snapshots /\ e ∈ transition known s.
Proof.
  intros He. rewrite observe_is_changes. cbn. unfold changes. rewrite elem_of_app. split.
  - intros [Hin|(? & ? & ->)%not_disappeared]; [|naive_solver].
    apply list_elem_of_In, in_flat_map in Hin as (s' & Hs'%list_elem_of_In & Hin%list_elem_of_In).
    pose proof (transition_observed _ _ _ Hin) as Ht.
    assert (s' = s) as -> by (destruct He as [-> | [-> | ->]]; naive_solver). done.
  - intros [Hs Ht]. left. apply list_elem_of_In, in_flat_map. exists s. by rewrite <-!list_elem_of_In.
Qed.

Lemma tracked_distinct snapshots s :
  NoDup (container_of <$> snapshots) -> s ∈ snapshots ->
  tracked snapshots !! container_of s = Some (health_state_of s).
Proof.
  intros Hnd Hs. unfold tracked. apply elem_of_list_to_map.
  - by rewrite fmap_reverse, <-list_fmap_compose, reverse_Permutation.
  - apply elem_of_reverse, list_elem_of_fmap. eauto.
Qed.

Lemma unchanged_quiet snapshots :
  NoDup (container_of <$> snapshots) -> changes (tracked snapshots) snapshots = [].
Proof.
  intros Hnd. apply elem_of_nil_inv. intros e [Hin|Hin]%elem_of_app.
  - apply list_elem_of_In, in_flat_map in Hin as (s & Hs%list_elem_of_In & Hin).
    unfold transition in Hin. rewrite tracked_distinct, decide_True in Hin by done. done.
  - apply list_elem_of_omap in Hin as ([id previous] & Hm%elem_of_map_to_list & He). by rewrite Hm in He.
Qed.

(** What the health worker logs is what changed. For every state it may
    know and every batch of snapshots: a container is announced when it is
    seen and was not known, a change of its state is logged as recovery or as
    degradation by whether it is ready now, a container that was known and is
    not in the batch is reported gone, nothing else is logged, and a batch that
    repeats the one before is silent. *)
Theorem health_changes_logged known snapshots :
  let events := (observe known snapshots).2 in
  let changed s := exists previous, known !! container_of s = Some previous /\ previous <> health_state_of s in
  (forall s, HealthObserved s ∈ events <-> s ∈ snapshots /\ known !! container_of s = None) /\
  (forall s, BecameReady s ∈ events <-> s ∈ snapshots /\ hs_ready s = true /\ changed s) /\
  (forall s, HealthDegraded s ∈ events <-> s ∈ snapshots /\ hs_ready s = false /\ changed s) /\
  (forall id r, Disappeared id r ∈ events <->
     (exists previous, known !! id = Some previous /\ hw_ready previous = r) /\
     ~ exists s, s ∈ snapshots /\ container_of s = id) /\
  (NoDup (container_of <$> snapshots) -> (observe (observe known snapshots).1 snapshots).2 = []).
Proof.
  intros events changed. split_and!.
  - intros s. unfold events. rewrite logged_about by auto. split; intros [Hs Ht]; (split; [done|]).
    + by apply transition_observed in Ht as [_ Ht].
    + unfold transition. rewrite Ht. by left.
  - intros s. unfold events. rewrite logged_about by auto. split; intros [Hs Ht]; (split; [done|]).
    + by apply transition_observed in Ht as [_ Ht].
    + destruct Ht as (Hr & previous & Hk & Hne). unfold transition. rewrite Hk, decide_False, Hr by done. by left.
  - intros s. unfold events. rewrite logged_about by auto. split; intros [Hs Ht]; (split; [done|]).
    + by apply transition_observed in Ht as [_ Ht].
    + destruct Ht as (Hr & previous & Hk & Hne). unfold transition. rewrite Hk, decide_False, Hr by done. by left.
  - intros id r. unfold events. rewrite observe_is_changes. apply changes_disappeared.
  - intros Hnd. rewrite !observe_is_changes. cbn. by apply unchanged_quiet.
Qed.

(** ** The worker *)

(** The batches that were answered in time, and the pauses. *)
Definition round_of (c : Call CoreOp) : option (list RuntimeHealthSnapshot) :=
  match call_op c in CoreOp T return T -> option (list RuntimeHealthSnapshot) with
  | RtHealthSnapshot => result_ok
  | _ => fun _ => None
  end (call_answer c).
Definition rounds (tr : list (Call CoreOp)) : list (list RuntimeHealthSnapshot) := omap round_of tr.

Lemma rounds_app t1 t2 : rounds (t1 ++ t2) = rounds t1 ++ rounds t2.
Proof. apply omap_app. Qed.

Lemma turn_history interval known tr r :
  runs (health_check_turn (Op := CoreOp) interval known) tr r -> r = history known (rounds tr).
Proof.
  intros (late & t1 & -> & H). destruct late; cbn in H.
  - destruct H as [-> ->]. done.
  - destruct H as (a & t2 & -> & -> & ->). destruct a as [snapshots|e]; [|done].
    cbn. by rewrite observe_is_changes, app_nil_r.
Qed.

Lemma history_app known r1 r2 :
  history known (r1 ++ r2) =
  ((history (history known r1).1 r2).1, (history known r1).2 ++ (history (history known r1).1 r2).2).
Proof.
  revert known. induction r1 as [|s r1 IH]; intros known; cbn; [by destruct (history known r2)|].
  rewrite IH. destruct (history (tracked s) r1) as [last events]. cbn. by rewrite <-app_assoc.
Qed.

Lemma loop_history interval turns known tr stopped known' events :
  runs (health_worker_loop (Op := CoreOp) interval known turns) tr (stopped, known', events) ->
  history known (rounds tr) = (known', events).
Proof.
  revert known tr stopped known' events. induction turns as [|later IH]; intros known tr stopped known' events;
    cbn [health_worker_loop].
  - by intros [-> [= -> -> ->]].
  - intros (t1 & t2 & r & -> & ->%turn_history & H)%runs_bind.
    destruct H as (w & t3 & -> & H). cbn [bind] in H.
    rewrite rounds_app. change (rounds (MkCall (AwaitWake interval) w :: t3)) with (rounds t3).
    destruct (stops w).
    + destruct H as [-> [= -> -> ->]]. cbn. rewrite app_nil_r. by destruct (history known _).
    + apply runs_bind in H as (t4 & t5 & [[s' k'] e'] & -> & Hrest%IH & [-> [= -> -> ->]]).
      by rewrite app_nil_r, history_app, Hrest.
Qed.

(** *** What consecutive batches say

    The last snapshot of a container in a batch, whether two snapshots say the
    same of it, and the lines a batch gives rise to behind another: one for each
    of its snapshots that is new or says something else, then one for each
    container that is gone, in any order. *)
Definition latest (id : string) (batch : list RuntimeHealthSnapshot) : option RuntimeHealthSnapshot :=
  last (filter (fun s => wl_container_id (hs_workload s) = id) batch).
Definition says_same (s s' : RuntimeHealthSnapshot) : bool :=
  bool_decide ((hs_ready s, wl_status (hs_workload s), hs_reason s) = (hs_ready s', wl_status (hs_workload s'), hs_reason s')).
Definition line_of (previous : list RuntimeHealthSnapshot) (s : RuntimeHealthSnapshot) : list HealthEvent :=
  match latest (wl_container_id (hs_workload s)) previous with
  | None => [HealthObserved s]
  | Some s' => if says_same s' s then [] else if hs_ready s then [BecameReady s] else [HealthDegraded s]
  end.
Definition batch_lines (previous batch : list RuntimeHealthSnapshot) (events : list HealthEvent) : Prop :=
  exists gone, events = flat_map (line_of previous) batch ++ gone /\ NoDup gone /\
    forall e, e ∈ gone <-> exists id s, e = Disappeared id (hs_ready s) /\
      latest id previous = Some s /\ latest id batch = None.
Fixpoint run_lines (previous : list RuntimeHealthSnapshot) (batches : list (list RuntimeHealthSnapshot))
  (events : list HealthEvent) : Prop :=
  match batches with
  | [] => events = []
  | batch :: later => exists now after, events = now ++ after /\ batch_lines previous batch now /\ run_lines batch later after
  end.

Lemma tracked_latest batch id : tracked batch !! id = health_state_of <$> latest id batch.
Proof. apply tracked_lookup. Qed.
Lemma transition_line previous s : transition (tracked previous) s = line_of previous s.
Proof.
  unfold transition, line_of, says_same. rewrite tracked_latest. change (container_of s) with (wl_container_id (hs_workload s)).
  destruct (latest _ previous) as [s'|]; [|done]. cbn [fmap option_fmap option_map].
  case_bool_decide as Hsame; case_decide as Hstate; try done.
  - destruct Hstate. unfold health_state_of. by injection Hsame as -> -> ->.
  - destruct Hsame. by injection Hstate as -> -> ->.
Qed.
Lemma disappeared_lines previous batch e :
  e ∈ disappeared (tracked previous) (tracked batch) <->
  exists id s, e = Disappeared id (hs_ready s) /\ latest id previous = Some s /\ latest id batch = None.
Proof.
  split.
  - intros ([id state] & Hm%elem_of_map_to_list & He)%list_elem_of_omap. rewrite tracked_latest in Hm, He.
    destruct (latest id previous) as [s|] eqn:Hs; [|done]. injection Hm as <-.
    destruct (latest id batch) eqn:Hb; [done|]. injection He as <-. by exists id, s.
  - intros (id & s & -> & Hs & Hb). apply list_elem_of_omap. exists (id, health_state_of s).
    rewrite elem_of_map_to_list, !tracked_latest, Hs, Hb. done.
Qed.
Lemma disappeared_distinct known current : NoDup (disappeared known current).
Proof.
  unfold disappeared. pose proof (NoDup_fst_map_to_list known) as Hd.
  induction (map_to_list known) as [|[id state] l IH]; [constructor|]. cbn in Hd. apply NoDup_cons in Hd as [Hid Hd].
  cbn [omap list_omap]. destruct (current !! id); [by apply IH|]. apply NoDup_cons. split; [|by apply IH].
  intros ([id' state'] & Hin & He)%list_elem_of_omap. destruct (current !! id'); [done|]. injection He as -> _.
  apply Hid. apply list_elem_of_fmap. by exists (id, state').
Qed.
Lemma changes_lines previous batch : batch_lines previous batch (changes (tracked previous) batch).
Proof.
  exists (disappeared (tracked previous) (tracked batch)). split_and!; [|apply disappeared_distinct|apply disappeared_lines].
  unfold changes. f_equal. apply flat_map_ext. apply transition_line.
Qed.
Lemma history_lines previous batches : run_lines previous batches (history (tracked previous) batches).2.
Proof.
  revert previous. induction batches as [|batch later IH]; intros previous; [done|]. cbn [history run_lines].
  specialize (IH batch). destruct (history (tracked batch) later) as [last events]. cbn [snd].
  exists (changes (tracked previous) batch), events. split_and!; [done|apply changes_lines|exact IH].
Qed.

(** C27. The worker's bookkeeping is the comparison of consecutive batches.
    However many checks fail or run past their deadline, what the worker has
    logged is what changed from each batch that was answered in time to the
    next: a container that was not in the batch before is announced, one whose
    readiness, status or reason differs from what the batch before said last of
    it is logged as recovered or degraded by whether it is ready now, and one
    that is in the batch before and not in this one is reported gone, once;
    nothing else is logged.  And what it knows is what the last such batch says,
    the last snapshot of a container counting. *)
Theorem health_worker_equals_reference agent_id interval turns tr stopped known events :
  runs (health_worker_run (Op := CoreOp) agent_id interval turns) tr (stopped, known, events) ->
  run_lines [] (rounds tr) events /\
  (rounds tr = [] -> known = ∅) /\
  (forall before batch id, rounds tr = before ++ [batch] ->
     known !! id = (fun s => {| hw_ready := hs_ready s; hw_status := wl_status (hs_workload s); hw_reason := hs_reason s |})
                     <$> latest id batch).
Proof.
  intros H. assert (Hh : history (tracked []) (rounds tr) = (known, events)).
  { unfold health_worker_run in H. destruct (_ =? 0)%N; [by eapply loop_history|].
    destruct H as (w & t1 & -> & H). cbn [bind] in H. destruct (stops w).
    - by destruct H as [-> [= -> -> ->]].
    - by apply loop_history in H. }
  pose proof (history_lines [] (rounds tr)) as Hlines. rewrite Hh in Hlines. split_and!; [done| |].
  - intros Hr. rewrite Hr in Hh. by injection Hh as <- _.
  - intros before batch id Hr. rewrite Hr, history_app in Hh. injection Hh as <- _. apply tracked_latest.
Qed.

(** ** The jitter *)

(** The hash without machine integers. *)
Definition polynomial (l : bytes) (start : N) : N := fold_left (fun h b => h * 31 + byte b)%N l start.

Lemma hash_is_polynomial l h h' : (h = h' mod u128_modulus)%N ->
  fold_left (fun hash b => ((hash * 31) mod u128_modulus + byte b) mod u128_modulus)%N l h =
  (polynomial l h' mod u128_modulus)%N.
Proof.
  revert h h'. induction l as [|b l IH]; intros h h' ->; [done|]. cbn [fold_left polynomial].
  apply IH. rewrite N.Div0.mul_mod_idemp_l, N.Div0.add_mod_idemp_l. done.
Qed.

(** The first check of a node comes at a point of its own, within bounds:
    the delay is a fixed function of the agent's name, a whole number of
    milliseconds, at most a fifth of the interval and at most five seconds,
    zero for intervals too short to spread; the hash behind it is the
    polynomial hash of the name's bytes modulo 2^128, and no cast truncates
    it. *)
Theorem jitter_spread agent_id interval :
  (jitter agent_id interval <= interval / 5)%N /\ (jitter agent_id interval <= from_secs 5)%N /\
  ((interval < from_millis 5)%N -> jitter agent_id interval = 0%N) /\
  agent_hash agent_id = (polynomial (bytes_of agent_id) 0 mod 2 ^ 128)%N /\
  exists ms, (ms <= u64_max)%N /\ jitter agent_id interval = from_millis ms /\
    ((from_millis 5 <= interval)%N ->
     ms = agent_hash agent_id mod (N.min (as_millis interval / 5) 5000 + 1))%N.
Proof.
  unfold jitter. set (c := N.min (as_millis interval / 5) 5000).
  assert (Hc : (c <= as_millis interval / 5)%N /\ (c <= 5000)%N) by (subst c; lia).
  assert (Hi : (as_millis interval / 5 = interval / 5000000)%N)
    by (unfold as_millis; rewrite N.Div0.div_div; reflexivity).
  pose proof (N.Div0.div_div interval 5 1000000) as Hd. change (5 * 1000000)%N with 5000000%N in Hd.
  pose proof (N.Div0.mul_div_le (interval / 5) 1000000) as Hm.
  assert (Hsmall : forall m, (m <= c)%N -> (from_millis m <= interval / 5)%N /\ (from_millis m <= from_secs 5)%N).
  { intros m Hm'. unfold from_millis, from_secs. lia. }
  assert (Hzero : (interval < from_millis 5)%N -> c = 0%N).
  { intros Hlt. unfold from_millis in Hlt. rewrite Hi in Hc. rewrite N.div_small in Hc by lia. lia. }
  destruct (N.eqb_spec c 0) as [H0|H0].
  - split_and!; try lia.
    + by apply hash_is_polynomial.
    + exists 0%N. split_and!; [done|done|]. rewrite H0. by rewrite N.mod_1_r.
  - assert (Hmod : (agent_hash agent_id mod (c + 1) <= c)%N)
      by (pose proof (N.mod_lt (agent_hash agent_id) (c + 1)); lia).
    split_and!; [by apply Hsmall|by apply Hsmall| | |].
    + intros Hlt%Hzero. done.
    + by apply hash_is_polynomial.
    + exists (agent_hash agent_id mod (c + 1))%N. split_and!; [|done|done]. unfold u64_max. lia.
Qed.

(** ** Witness *)

Definition sample_workload (id status : string) : RuntimeWorkload :=
  {| wl_container_id := id; wl_project_id := MkUuid "p"; wl_deployment_id := MkUuid "d"; wl_status := status |}.
Definition sample_snapshot (id : string) (ready : bool) : RuntimeHealthSnapshot :=
  {| hs_workload := sample_workload id "Up"; hs_ready := ready; hs_reason := None |}.
Definition flapping_env : Env CoreOp := fun past X o =>
  match o in CoreOp T return T with
  | RtHealthSnapshot =>
      if Nat.ltb (length past) 4 then Ok [sample_snapshot "a" true; sample_snapshot "b" true]
      else Ok [sample_snapshot "a" false]
  | AwaitWake _ => if Nat.ltb (length past) 5 then SleepEnded else ShutdownChanged true false
  | o => quiet_answer o
  end.
Definition flapping_run :=
  run_with flapping_env (health_worker_run (Op := CoreOp) "node-1" (from_secs 30) 4).
Lemma health_worker_witness :
  flapping_run.2.2 = [HealthObserved (sample_snapshot "a" true); HealthObserved (sample_snapshot "b" true);
                      HealthDegraded (sample_snapshot "a" false); Disappeared "b" true] /\
  run_lines [] (rounds flapping_run.1) flapping_run.2.2.
Proof.
  split; [vm_compute; reflexivity|].
  exact (proj1 (health_worker_equals_reference "node-1" (from_secs 30) 4 flapping_run.1 flapping_run.2.1.1
    flapping_run.2.1.2 flapping_run.2.2 (runs_run_from flapping_env [] _))).
Defined.
