(* ===== verification/Process.v ===== *)
(** Running external commands (runtime/src/process, runtime/src/logs/process.rs):
    the command description, the supervised child with its deadline and
    cancellation, the bounded capture of its output and the reporting sink. *)
From S2P Require Import Prelude Text Protocol Async Ports ApiClient RuntimeError.

#[local] Open Scope async_scope.

Record CommandSpec := {
  program : string;
  args : list string;
  current_dir : option string;
  environment : list (string * string);
  secret_environment : list (string * SecretString);
  spec_timeout : option Duration;
  timeout_disabled : bool;
  has_cancellation : bool  (** whether the command carries the caller's token *)
}.
Definition command_new (p : string) : CommandSpec :=
  {| program := p; args := []; current_dir := None; environment := []; secret_environment := [];
     spec_timeout := None; timeout_disabled := false; has_cancellation := false |}.
Definition add_args (c : CommandSpec) (l : list string) : CommandSpec :=
  {| program := program c; args := args c ++ l; current_dir := current_dir c;
     environment := environment c; secret_environment := secret_environment c;
     spec_timeout := spec_timeout c; timeout_disabled := timeout_disabled c;
     has_cancellation := has_cancellation c |}.
(** A chain of [.arg(..)] calls. *)
Definition command (p : string) (l : list string) : CommandSpec := add_args (command_new p) l.
Definition in_dir (c : CommandSpec) (d : string) : CommandSpec :=
  {| program := program c; args := args c; current_dir := Some d;
     environment := environment c; secret_environment := secret_environment c;
     spec_timeout := spec_timeout c; timeout_disabled := timeout_disabled c;
     has_cancellation := has_cancellation c |}.
Fixpoint map_insert {V} (m : list (string * V)) (k : string) (v : V) : list (string * V) :=
  match m with
  | [] => [(k, v)]
  | (k', v') :: rest =>
      if bool_decide (k = k') then (k, v) :: rest
      else if bytes_ltb (bytes_of k) (bytes_of k') then (k, v) :: (k', v') :: rest
      else (k', v') :: map_insert rest k v
  end.
Definition env (c : CommandSpec) (k v : string) : CommandSpec :=
  {| program := program c; args := args c; current_dir := current_dir c;
     environment := map_insert (environment c) k v; secret_environment := secret_environment c;
     spec_timeout := spec_timeout c; timeout_disabled := timeout_disabled c;
     has_cancellation := has_cancellation c |}.
Definition secret_env (c : CommandSpec) (k : string) (v : SecretString) : CommandSpec :=
  {| program := program c; args := args c; current_dir := current_dir c;
     environment := environment c; secret_environment := map_insert (secret_environment c) k v;
     spec_timeout := spec_timeout c; timeout_disabled := timeout_disabled c;
     has_cancellation := has_cancellation c |}.
Definition with_timeout (c : CommandSpec) (t : Duration) : CommandSpec :=
  {| program := program c; args := args c; current_dir := current_dir c;
     environment := environment c; secret_environment := secret_environment c;
     spec_timeout := Some t; timeout_disabled := timeout_disabled c; has_cancellation := has_cancellation c |}.
Definition without_timeout (c : CommandSpec) : CommandSpec :=
  {| program := program c; args := args c; current_dir := current_dir c;
     environment := environment c; secret_environment := secret_environment c;
     spec_timeout := spec_timeout c; timeout_disabled := true; has_cancellation := has_cancellation c |}.
Definition with_cancellation (c : CommandSpec) : CommandSpec :=
  {| program := program c; args := args c; current_dir := current_dir c;
     environment := environment c; secret_environment := secret_environment c;
     spec_timeout := spec_timeout c; timeout_disabled := timeout_disabled c; has_cancellation := true |}.

Record ProcessOutput := { po_success : bool; po_code : option Z; po_stdout : string; po_stderr : string }.
Inductive ProcessStream := StdoutStream | StderrStream.

(** Where the lines of a process go. *)
Inductive OutputSink := NullOutputSink | ReporterOutputSink (phase : string).

Class ProcessRunner (Op : Type -> Type) : Type :=
  runner_run : CommandSpec -> OutputSink -> Async Op RuntimeError ProcessOutput.

Definition run_checked {Op} `{!ProcessRunner Op} (c : CommandSpec) (phase : string)
  : Async Op RuntimeError ProcessOutput :=
  output <- runner_run c (ReporterOutputSink phase) ;;
  if po_success output then ok output
  else err (failed_process phase (po_code output) (po_stderr output)).

(** ** The reporting sink *)
Definition log_stream_of (s : ProcessStream) : LogStream :=
  match s with StdoutStream => Stdout | StderrStream => Stderr end.

(** What one line becomes: a frame per carriage return, blank ones dropped. *)
Definition frames (phase line : string) : list string :=
  List.map (fun frame => "[" +:+ phase +:+ "] " +:+ frame)
    (List.filter (fun frame => negb (is_empty (trim frame)))
       (List.map trim_end (str_split line CR))).

Section Sink.
Context {Op : Type -> Type} `{!RuntimeReporter Op} `{!Ambient Op}.

(** The first frame that is not delivered ends the line. *)
Fixpoint report_frames (s : LogStream) (fs : list string) : Async Op RuntimeError () :=
  match fs with
  | [] => ok ()
  | f :: rest =>
      now <~ now_utc ;;
      delivered <- attempt (report_log {| log_stream := s; log_message := f; log_recorded_at := now |}) ;;
      match delivered with Ok _ => report_frames s rest | Err _ => ok () end
  end.

Definition sink_line (sink : OutputSink) (s : ProcessStream) (line : string) : Async Op RuntimeError () :=
  match sink with
  | NullOutputSink => ok ()
  | ReporterOutputSink phase => report_frames (log_stream_of s) (frames phase line)
  end.
End Sink.

(** ** Bounded capture *)
Definition MAX_CAPTURE_BYTES : nat := N.to_nat (1024 * 1024).
#[global] Arguments MAX_CAPTURE_BYTES : simpl never.

Definition append_bounded_to (max : nat) (output line : bytes) : bytes :=
  if Nat.leb max (length output) then output
  else
    let remaining := max - length output in
    let line := if Nat.leb (length line) remaining then line
                else take (floor_char_boundary line remaining) line in
    let output := output ++ line in
    if Nat.ltb (length output) max then output ++ [LF] else output.
Definition append_bounded : bytes -> bytes -> bytes := append_bounded_to MAX_CAPTURE_BYTES.

(** ** The supervised child

    The environment chooses what [select!] sees next: a line or the end of a
    stream that is still read, a read error, the token, the deadline, and in the
    end the exit status. *)
Inductive ChildEvent :=
| Line (s : ProcessStream) (line : string)
| Eof (s : ProcessStream)
| ReadError (s : ProcessStream) (io : string)
| TokenCancelled
| DeadlineElapsed
| Exited (success : bool) (code : option Z)
| WaitError (io : string).

Record Child := {
  ch_stdout_done : bool; ch_stderr_done : bool;
  ch_stdout : bytes; ch_stderr : bytes
}.
Definition child_started : Child :=
  {| ch_stdout_done := false; ch_stderr_done := false; ch_stdout := []; ch_stderr := [] |}.
Definition stream_done (c : Child) (s : ProcessStream) : bool :=
  match s with StdoutStream => ch_stdout_done c | StderrStream => ch_stderr_done c end.
Definition capture (c : Child) (s : ProcessStream) (line : bytes) : Child :=
  match s with
  | StdoutStream => {| ch_stdout_done := ch_stdout_done c; ch_stderr_done := ch_stderr_done c;
                       ch_stdout := append_bounded (ch_stdout c) line; ch_stderr := ch_stderr c |}
  | StderrStream => {| ch_stdout_done := ch_stdout_done c; ch_stderr_done := ch_stderr_done c;
                       ch_stdout := ch_stdout c; ch_stderr := append_bounded (ch_stderr c) line |}
  end.
Definition mark_done (c : Child) (s : ProcessStream) : Child :=
  match s with
  | StdoutStream => {| ch_stdout_done := true; ch_stderr_done := ch_stderr_done c;
                       ch_stdout := ch_stdout c; ch_stderr := ch_stderr c |}
  | StderrStream => {| ch_stdout_done := ch_stdout_done c; ch_stderr_done := true;
                       ch_stdout := ch_stdout c; ch_stderr := ch_stderr c |}
  end.

(** How a run ended: its result, and whether the process group was killed. *)
Record Ended := { en_result : Result RuntimeError ProcessOutput; en_group_killed : bool }.

Section Runner.
Context {Op : Type -> Type} `{!RuntimeReporter Op} `{!Ambient Op}.
Context (default_timeout : Duration) (spec : CommandSpec) (sink : OutputSink).

Definition effective_timeout : option Duration :=
  if timeout_disabled spec then None else Some (default default_timeout (spec_timeout spec)).

Definition killed (e : RuntimeError) : Ended := {| en_result := Err e; en_group_killed := true |}.
Definition timeout_error : RuntimeError :=
  Timeout (program spec) (match effective_timeout with Some t => as_secs t | None => 0%N end).

(** [None]: the events ran out before the child ended. *)
Fixpoint supervise (events : list ChildEvent) (c : Child) : Prog Op (option Ended) :=
  match events with
  | [] => Ret None
  | e :: rest =>
      match e with
      | TokenCancelled =>
          if has_cancellation spec then Ret (Some (killed CancelledError)) else supervise rest c
      | DeadlineElapsed =>
          match effective_timeout with Some _ => Ret (Some (killed timeout_error)) | None => supervise rest c end
      | Line s line =>
          if stream_done c s then supervise rest c
          else
            delivered <~ sink_line sink s line ;;
            match delivered with
            | Ok _ => supervise rest (capture c s (bytes_of line))
            | Err e => Ret (Some (killed e))
            end
      | Eof s => if stream_done c s then supervise rest c else supervise rest (mark_done c s)
      | ReadError s io => if stream_done c s then supervise rest c else Ret (Some (killed (Filesystem io)))
      | Exited success code =>
          if ch_stdout_done c && ch_stderr_done c
          then Ret (Some {| en_result := Ok {| po_success := success; po_code := code;
                              po_stdout := string_of (ch_stdout c); po_stderr := string_of (ch_stderr c) |};
                            en_group_killed := false |})
          else supervise rest c
      | WaitError io =>
          if ch_stdout_done c && ch_stderr_done c
          then Ret (Some (killed (Dependency ("could not wait for " +:+ program spec +:+ ": " +:+ io))))
          else supervise rest c
      end
  end.

(** [TokioProcessRunner::run]: spawning can fail before there is a child. *)
Definition tokio_run (spawned : Result string ()) (events : list ChildEvent) : Prog Op (option Ended) :=
  match spawned with
  | Err io => Ret (Some {| en_result := Err (Dependency ("could not start " +:+ program spec +:+ ": " +:+ io));
                           en_group_killed := false |})
  | Ok _ => supervise events child_started
  end.
End Runner.

Example frames_progress : frames "build" (string_of (bytes_of "#5 0.1 downloading" ++ [CR] ++ bytes_of "#5 1.0 done"))
  = ["[build] #5 0.1 downloading"; "[build] #5 1.0 done"].
Proof. vm_compute. reflexivity. Qed.
