(* ===== verification/ProcessFacts.v ===== *)
(** Theorems about the process runner and its reporting sink. *)
From S2P Require Import Prelude Text Protocol Async Ports ApiClient CoreOps RuntimeError Process.

#[local] Open Scope nat_scope.

(** ** Capture *)

Lemma append_bounded_length max output line :
  length output <= max -> length (append_bounded_to max output line) <= max.
Proof.
  intros Ho. unfold append_bounded_to. destruct (Nat.leb_spec max (length output)); [done|].
  set (l := if Nat.leb (length line) (max - length output) then line
            else take (floor_char_boundary line (max - length output)) line).
  assert (length l <= max - length output) as Hl.
  { unfold l. destruct (Nat.leb_spec (length line) (max - length output)); [done|].
    rewrite length_take. pose proof (floor_char_boundary_le line (max - length output)). lia. }
  destruct (Nat.ltb_spec (length (output ++ l)) max); rewrite ?length_app in *; cbn; lia.
Qed.

Lemma append_bounded_exact max output line :
  length output + length line < max -> append_bounded_to max output line = output ++ line ++ [LF].
Proof.
  intros H. unfold append_bounded_to. destruct (Nat.leb_spec max (length output)); [lia|].
  destruct (Nat.leb_spec (length line) (max - length output)); [|lia].
  destruct (Nat.ltb_spec (length (output ++ line)) max); [by rewrite app_assoc|].
  rewrite length_app in *. lia.
Qed.

Definition capture_ok (c : Child) : Prop :=
  length (ch_stdout c) <= MAX_CAPTURE_BYTES /\ length (ch_stderr c) <= MAX_CAPTURE_BYTES.

Lemma capture_ok_step c s line : capture_ok c -> capture_ok (capture c s line).
Proof.
  intros [H1 H2]. destruct s; split; cbn [ch_stdout ch_stderr capture]; try done;
    by apply append_bounded_length.
Qed.

Lemma capture_ok_done c s : capture_ok c -> capture_ok (mark_done c s).
Proof. intros [H1 H2]. by destruct s; split. Qed.

(** ** The sink *)

Definition logged (c : Call CoreOp) : list string :=
  match call_op c with RpLog l => [log_message l] | _ => [] end.
Definition log_failed (c : Call CoreOp) : bool :=
  match call_op c in CoreOp T return T -> bool with
  | RpLog _ => fun r => is_err r
  | _ => fun _ => false
  end (call_answer c).

Lemma report_frames_runs stream fs tr r :
  runs (report_frames (Op := CoreOp) stream fs) tr r ->
  r = Ok () /\ (exists rest, fs = flat_map logged tr ++ rest) /\
  (existsb log_failed tr = false -> flat_map logged tr = fs).
Proof.
  revert tr. induction fs as [|f fs IH]; intros tr; cbn [report_frames].
  - intros [-> ->]. split_and!; [done|by exists []|done].
  - intros (now & t1 & -> & answer & t2 & -> & H). cbn in H |- *.
    destruct answer as [[]|e].
    + destruct (IH _ H) as (-> & (rest & Hr) & Hall). split_and!; [done|by exists rest; f_equal|].
      intros Hn. f_equal. by apply Hall.
    + destruct H as [-> ->]. split_and!; [done|by exists fs|done].
Qed.

Lemma sink_line_runs sink s line tr r :
  runs (sink_line (Op := CoreOp) sink s line) tr r -> r = Ok ().
Proof. destruct sink; cbn [sink_line]; [by intros [_ ->]|]. intros H. by apply report_frames_runs in H as [-> _]. Qed.

Lemma split_no_sep sep l : Forall (fun piece => Forall (fun c => c <> sep) piece) (split_bytes sep l).
Proof.
  induction l as [|c l IH]; cbn; [by repeat constructor|].
  case_bool_decide as Hc; [by constructor|].
  destruct (split_bytes sep l) as [|p ps]; [by repeat constructor|].
  inversion IH; subst. by repeat constructor.
Qed.

Lemma frames_no_break phase line f :
  f ∈ frames phase line ->
  exists text, f = "[" +:+ phase +:+ "] " +:+ text /\ Forall (fun c => c <> CR) (bytes_of text) /\
    is_empty (trim text) = false.
Proof.
  unfold frames. rewrite list_elem_of_In, List.in_map_iff. intros (text & <- & Hin).
  apply List.filter_In in Hin as [Hin Hne]. apply negb_true_iff in Hne.
  apply List.in_map_iff in Hin as (piece & <- & Hin). exists (trim_end piece). split_and!; [done| |done].
  unfold str_split in Hin. apply List.in_map_iff in Hin as (bs & <- & Hin).
  pose proof (split_no_sep CR (bytes_of line)) as Hall. rewrite List.Forall_forall in Hall.
  specialize (Hall bs Hin). unfold trim_end. autorewrite with text.
  destruct (trim_end_prefix bs) as [r Hr]. rewrite Hr in Hall. by apply Forall_app in Hall as [Hall _].
Qed.

(** Log delivery never fails a process: whatever the reporter answers,
    the sink accepts the line; it reports the line's frames in order, all of
    them unless one is not delivered, and every frame is the phase followed by
    text that is not blank and holds no carriage return. *)
Theorem sink_never_fails phase stream line tr r :
  runs (sink_line (Op := CoreOp) (ReporterOutputSink phase) stream line) tr r ->
  r = Ok () /\ (exists rest, frames phase line = flat_map logged tr ++ rest) /\
  (existsb log_failed tr = false -> flat_map logged tr = frames phase line) /\
  (forall f, f ∈ flat_map logged tr -> exists text, f = "[" +:+ phase +:+ "] " +:+ text /\
     Forall (fun c => c <> CR) (bytes_of text) /\ is_empty (trim text) = false).
Proof.
  intros H. apply report_frames_runs in H as (-> & [rest Hr] & Hall).
  split_and!; [done|by exists rest|done|]. intros f Hf. apply (frames_no_break phase line).
  rewrite Hr. apply elem_of_app. by left.
Qed.
Definition sink_run := run_with quiet_env (sink_line (Op := CoreOp) (ReporterOutputSink "build") StdoutStream "ok").
Lemma sink_never_fails_witness : sink_run.2 = Ok () /\ flat_map logged sink_run.1 = ["[build] ok"].
Proof.
  split; [apply (sink_never_fails "build" StdoutStream "ok" sink_run.1 sink_run.2 (runs_run_from _ _ _))|].
  vm_compute. reflexivity.
Defined.

(** ** The child *)

Definition ended_ok (spec : CommandSpec) (dflt : Duration) (events : list ChildEvent) (e : Ended) : Prop :=
  en_group_killed e = is_err (en_result e) /\
  match en_result e with
  | Ok out =>
      String.length (po_stdout out) <= MAX_CAPTURE_BYTES /\
      String.length (po_stderr out) <= MAX_CAPTURE_BYTES /\
      Exited (po_success out) (po_code out) ∈ events
  | Err CancelledError => has_cancellation spec = true /\ TokenCancelled ∈ events
  | Err (Timeout op s) =>
      op = program spec /\ DeadlineElapsed ∈ events /\
      exists t, effective_timeout dflt spec = Some t /\ s = as_secs t
  | Err (Filesystem io) => exists s, ReadError s io ∈ events
  | Err (Dependency _) => exists io, WaitError io ∈ events
  | Err _ => False
  end.

Lemma ended_ok_more spec dflt e0 events e : ended_ok spec dflt events e -> ended_ok spec dflt (e0 :: events) e.
Proof.
  intros [Hk H]. split; [done|]. destruct (en_result e) as [out|err]; [|destruct err; try done].
  - destruct H as (? & ? & ?). split_and!; [done..|by right].
  - destruct H as [io ?]. exists io. by right.
  - destruct H as [? ?]. split; [done|by right].
  - destruct H as (? & ? & ?). split_and!; [done|by right|done].
  - destruct H as [s ?]. exists s. by right.
Qed.

Lemma supervise_runs dflt spec sink events c tr ended :
  capture_ok c -> runs (supervise (Op := CoreOp) dflt spec sink events c) tr (Some ended) ->
  ended_ok spec dflt events ended.
Proof.
  revert c tr. induction events as [|e events IH]; intros c tr Hc; cbn [supervise]; [by intros [_ [=]]|].
  destruct e as [s line|s|s io| | |success code|io].
  - destruct (stream_done c s); [intros H; eapply ended_ok_more, IH; eauto|].
    rewrite runs_bind. intros (t1 & t2 & r & -> & H1 & H2). apply sink_line_runs in H1 as ->.
    eapply ended_ok_more, IH; [|exact H2]. by apply capture_ok_step.
  - destruct (stream_done c s); intros H; (eapply ended_ok_more, IH; [|exact H]); [done|].
    by apply capture_ok_done.
  - destruct (stream_done c s); [intros H; eapply ended_ok_more, IH; eauto|].
    intros [_ [= ->]]. split; [done|]. exists s. left.
  - destruct (has_cancellation spec) eqn:E; [|intros H; eapply ended_ok_more, IH; eauto].
    intros [_ [= ->]]. split; [done|]. split; [done|left].
  - destruct (effective_timeout dflt spec) as [t|] eqn:E; [|intros H; eapply ended_ok_more, IH; eauto].
    intros [_ [= ->]]. unfold timeout_error. rewrite E. split; [done|]. split_and!; [done|left|eauto].
  - destruct (_ && _); [|intros H; eapply ended_ok_more, IH; eauto].
    intros [_ [= ->]]. split; [done|]. cbn. rewrite !length_string_of. destruct Hc. split_and!; [done..|left].
  - destruct (_ && _); [|intros H; eapply ended_ok_more, IH; eauto].
    intros [_ [= ->]]. split; [done|]. exists io. left.
Qed.

Lemma supervise_ends dflt spec sink success code events c tr r :
  runs (supervise (Op := CoreOp) dflt spec sink
    (events ++ [Eof StdoutStream; Eof StderrStream; Exited success code]) c) tr r -> r <> None.
Proof.
  revert c tr. induction events as [|e events IH]; intros c tr.
  - destruct c as [[] [] o e]; cbn; by intros [_ ->].
  - cbn [supervise app]. destruct e as [s line|s|s io| | |sc cd|io].
    + destruct (stream_done c s); [apply IH|]. rewrite runs_bind. intros (t1 & t2 & [?|?] & -> & H1 & H2);
        [by eapply IH|by destruct H2 as [_ ->]].
    + destruct (stream_done c s); apply IH.
    + destruct (stream_done c s); [apply IH|by intros [_ ->]].
    + destruct (has_cancellation spec); [by intros [_ ->]|apply IH].
    + destruct (effective_timeout dflt spec); [by intros [_ ->]|apply IH].
    + destruct (_ && _); [by intros [_ ->]|apply IH].
    + destruct (_ && _); [by intros [_ ->]|apply IH].
Qed.

(** C34. A supervised process ends as its environment decides and leaves no
    process behind: the process group is killed in every ending but the
    process's own exit; a result holds at most 1 MiB of each stream and the
    status the process exited with; cancellation and timeout are reported only
    when the command carries a token or a deadline and it fired; and once both
    streams end and the process exits, the run has ended. *)
Theorem process_supervised dflt spec sink events tr ended :
  runs (supervise (Op := CoreOp) dflt spec sink events child_started) tr ended ->
  (forall e, ended = Some e -> ended_ok spec dflt events e) /\
  (forall before success code, events = before ++ [Eof StdoutStream; Eof StderrStream; Exited success code] ->
     ended <> None).
Proof.
  intros H. split.
  - intros e ->. eapply supervise_runs; [|exact H]. split; cbn; lia.
  - intros before success code ->. by eapply supervise_ends.
Qed.
Definition sample_events : list ChildEvent :=
  [Line StdoutStream "hello"; Eof StdoutStream; Eof StderrStream; Exited true (Some 0%Z)].
Definition supervised_run := run_with quiet_env
  (supervise (Op := CoreOp) (from_secs 120) (command "git" ["--version"]) NullOutputSink sample_events child_started).
Lemma process_supervised_witness : supervised_run.2 <> None.
Proof.
  apply (process_supervised (from_secs 120) (command "git" ["--version"]) NullOutputSink sample_events
    supervised_run.1 supervised_run.2 (runs_run_from _ _ _)) with (before := [Line StdoutStream "hello"])
    (success := true) (code := Some 0%Z).
  reflexivity.
Defined.
