(* ===== verification/Routing.v ===== *)
(** Route files and their activation (runtime/src/routing): one Caddy file per
    project, written through a temporary file, validated and reloaded, and
    restored when Caddy refuses it. *)
From S2P Require Import Prelude Text Protocol Async Ports RuntimeError Process.

#[local] Open Scope async_scope.

(** ** Files

    An I/O error is its text and whether its kind is [NotFound]. *)
Record IoError := { io_not_found : bool; io_text : string }.
Definition io_error {A} (r : Result IoError A) : Result RuntimeError A :=
  map_err (fun e => Filesystem (io_text e)) r.

Record DirEntry := {
  de_path : string;
  de_name : option string;  (** the file name when it is UTF-8 *)
  de_type : Result IoError (bool * bool)  (** is a file, is a symbolic link *)
}.

Class FileSystem (Op : Type -> Type) : Type := {
  fs_create_dir_all : string -> Prog Op (Result IoError ());
  fs_read : string -> Prog Op (Result IoError string);
  fs_read_to_string : string -> Prog Op (Result IoError string);
  fs_write : string -> string -> Prog Op (Result IoError ());
  fs_rename : string -> string -> Prog Op (Result IoError ());
  fs_remove_file : string -> Prog Op (Result IoError ());
  fs_read_dir : string -> Prog Op (Result IoError (list (Result IoError DirEntry)))
}.

(** [Path::join] of a relative name. *)
Definition path_join (dir name : string) : string :=
  if ends_with dir "/" then dir +:+ name else dir +:+ "/" +:+ name.

(** ** Routes *)

Record RouteIdentity := { ri_project_id : Uuid; ri_deployment_id : option Uuid }.
#[global] Instance RouteIdentity_eq_dec : EqDecision RouteIdentity. Proof. solve_decision. Defined.
Record RouteSpec := {
  rs_project_id : Uuid; rs_deployment_id : Uuid; rs_domain : string; rs_upstream : string; rs_port : N }.

Definition MANAGED_ROUTE_PREFIX : string := "# Managed by sakala-agent for project ".

Definition newline : string := string_of [LF].
Definition tab : string := string_of [TAB].

Definition route_path (sites_dir : string) (p : Uuid) : string :=
  path_join sites_dir (uuid_text p +:+ ".Caddyfile").
Definition temporary_path (sites_dir : string) (p : Uuid) : string :=
  path_join sites_dir ("." +:+ uuid_text p +:+ ".Caddyfile.tmp").
Definition route_content (r : RouteSpec) : string :=
  MANAGED_ROUTE_PREFIX +:+ uuid_text (rs_project_id r) +:+ " deployment " +:+ uuid_text (rs_deployment_id r)
  +:+ "." +:+ newline +:+ rs_domain r +:+ ":80 {" +:+ newline +:+ tab +:+ "reverse_proxy "
  +:+ rs_upstream r +:+ ":" +:+ pretty (rs_port r) +:+ newline +:+ "}" +:+ newline.

Definition legacy_prefix (p : Uuid) : string := MANAGED_ROUTE_PREFIX +:+ uuid_text p +:+ ".".
Definition current_prefix (p : Uuid) : string := MANAGED_ROUTE_PREFIX +:+ uuid_text p +:+ " deployment ".
Definition deployment_prefix (p d : Uuid) : string :=
  MANAGED_ROUTE_PREFIX +:+ uuid_text p +:+ " deployment " +:+ uuid_text d +:+ ".".

Record RouteSnapshot := { sn_path : string; sn_previous : option string; sn_changed : bool }.

(** What a removal does with a file it found. *)
Inductive Removal := Refuse | Keep | Delete.
Definition removal_of (identity : RouteIdentity) (content : string) : Removal :=
  let p := ri_project_id identity in
  if negb (starts_with content (legacy_prefix p)) && negb (starts_with content (current_prefix p))
  then Refuse
  else match ri_deployment_id identity with
       | Some d => if starts_with content (deployment_prefix p d) then Delete else Keep
       | None => if starts_with content (legacy_prefix p) then Delete else Keep
       end.

(** The Caddy container behind its reloader. *)
Class CaddyReloader (Op : Type -> Type) : Type := {
  validate_and_reload : Async Op RuntimeError ();
  reload_after_rollback : Prog Op ()
}.

Class RouteManager (Op : Type -> Type) : Type := {
  discover_stale_routes : list RouteIdentity -> Async Op RuntimeError (list RuntimeStaleRoute);
  activate : RouteSpec -> Async Op RuntimeError ();
  deactivate : RouteIdentity -> Async Op RuntimeError bool;
  cleanup_stale_routes : list RouteIdentity -> Async Op RuntimeError N
}.

(** [DockerExecCaddyReloader]. *)
Section Reloader.
Context {Op : Type -> Type} `{!ProcessRunner Op} (container : string).

Definition caddy_command (action : string) : CommandSpec :=
  command "docker" ["exec"; container; "caddy"; action; "--config"; "/etc/caddy/Caddyfile";
                    "--adapter"; "caddyfile"].
Definition exec_validate_and_reload : Async Op RuntimeError () :=
  for_each (fun action => run_checked (caddy_command action) ("caddy-" +:+ action) ;;; ok ())
    ["validate"; "reload"].
Definition exec_reload_after_rollback : Prog Op () :=
  _ <~ runner_run (caddy_command "reload") NullOutputSink ;; Ret ().

#[export] Instance DockerExecCaddyReloader : CaddyReloader Op := {
  validate_and_reload := exec_validate_and_reload;
  reload_after_rollback := exec_reload_after_rollback
}.
End Reloader.

Section CaddyFiles.
Context {Op : Type -> Type} `{!FileSystem Op} `{!CaddyReloader Op}.
Context (parse_uuid : string -> option Uuid) (sites_dir : string).

Definition io {A} (p : Prog Op (Result IoError A)) : Async Op RuntimeError A := bind p (fun r => Ret (io_error r)).

(** A read whose [NotFound] is no error. *)
Definition read_previous (path : string) : Async Op RuntimeError (option string) :=
  content <~ fs_read path ;;
  match content with
  | Ok c => ok (Some c)
  | Err e => if io_not_found e then ok None else err (Filesystem (io_text e))
  end.

Definition write_route (route : RouteSpec) : Async Op RuntimeError RouteSnapshot :=
  io (fs_create_dir_all sites_dir) ;;;
  let path := route_path sites_dir (rs_project_id route) in
  let temporary := temporary_path sites_dir (rs_project_id route) in
  previous <- read_previous path ;;
  io (fs_write temporary (route_content route)) ;;;
  io (fs_rename temporary path) ;;;
  ok {| sn_path := path; sn_previous := previous; sn_changed := true |}.

Definition restore (s : RouteSnapshot) : Async Op RuntimeError () :=
  match sn_previous s with
  | Some content => io (fs_write (sn_path s) content)
  | None =>
      removed <~ fs_remove_file (sn_path s) ;;
      match removed with
      | Ok _ => ok ()
      | Err e => if io_not_found e then ok () else err (Filesystem (io_text e))
      end
  end.

Definition remove_route (identity : RouteIdentity) : Async Op RuntimeError RouteSnapshot :=
  let path := route_path sites_dir (ri_project_id identity) in
  previous <- read_previous path ;;
  match previous with
  | None => ok {| sn_path := path; sn_previous := None; sn_changed := false |}
  | Some content =>
      match removal_of identity content with
      | Refuse => err (RoutingError ("refusing to delete route " +:+ path
                         +:+ " because it is not owned by Sakala"))
      | Keep => ok {| sn_path := path; sn_previous := previous; sn_changed := false |}
      | Delete =>
          io (fs_remove_file path) ;;;
          ok {| sn_path := path; sn_previous := previous; sn_changed := true |}
      end
  end.

(** Reload, and restore the snapshot when Caddy refuses. *)
Definition reload_or_restore (s : RouteSnapshot) : Async Op RuntimeError () :=
  reloaded <- attempt validate_and_reload ;;
  match reloaded with
  | Ok _ => ok ()
  | Err e => restore s ;;; _ <~ reload_after_rollback ;; err e
  end.

Definition activate_route (route : RouteSpec) : Async Op RuntimeError () :=
  snapshot <- write_route route ;; reload_or_restore snapshot.

Definition deactivate_route (identity : RouteIdentity) : Async Op RuntimeError bool :=
  snapshot <- remove_route identity ;;
  if sn_changed snapshot then reload_or_restore snapshot ;;; ok true else ok false.

(** The deployment a route file names on its first line. *)
Definition route_deployment (p : Uuid) (content : string) : option Uuid :=
  line ← head (lines content);
  value ← strip_prefix line (current_prefix p);
  value ← strip_suffix value ".";
  parse_uuid value.

Definition route_is_known (known : list RouteIdentity) (p : Uuid) (deployment : option Uuid) : bool :=
  match deployment with
  | Some d => bool_decide ({| ri_project_id := p; ri_deployment_id := Some d |} ∈ known)
  | None => existsb (fun i => bool_decide (ri_project_id i = p)) known
  end.

Definition inspect_entry (known : list RouteIdentity) (entry : Result IoError DirEntry)
  : Async Op RuntimeError (list RuntimeStaleRoute) :=
  entry <- lift (io_error entry) ;;
  kind <- lift (io_error (de_type entry)) ;;
  if negb kind.1 || kind.2 then ok []
  else match (name ← de_name entry; project ← strip_suffix name ".Caddyfile"; parse_uuid project) with
  | None => ok []
  | Some p =>
      content <- io (fs_read_to_string (de_path entry)) ;;
      if negb (starts_with content (MANAGED_ROUTE_PREFIX +:+ uuid_text p)) then ok []
      else
        let deployment := route_deployment p content in
        if route_is_known known p deployment then ok []
        else ok [{| sr_path := de_path entry; sr_project_id := p; sr_deployment_id := deployment |}]
  end.

Definition discover (known : list RouteIdentity) : Async Op RuntimeError (list RuntimeStaleRoute) :=
  entries <~ fs_read_dir sites_dir ;;
  match entries with
  | Err e => if io_not_found e then ok [] else err (Filesystem (io_text e))
  | Ok entries =>
      fold_each (fun stale entry => found <- inspect_entry known entry ;; ok (stale ++ found)) [] entries
  end.

Definition cleanup_stale (known : list RouteIdentity) : Async Op RuntimeError N :=
  stale <- discover known ;;
  fold_each (fun cleaned route =>
    removed <- deactivate_route {| ri_project_id := sr_project_id route;
                                   ri_deployment_id := sr_deployment_id route |} ;;
    ok (if removed : bool then cleaned + 1 else cleaned)%N) 0%N stale.

#[export] Instance CaddyFileRouteManager : RouteManager Op := {
  discover_stale_routes := discover;
  activate := activate_route;
  deactivate := deactivate_route;
  cleanup_stale_routes := cleanup_stale
}.
End CaddyFiles.
