(* ===== verification/RoutingFacts.v ===== *)
(** Theorems about route files: what activation and deactivation leave on
    disk, faults and rollbacks included, and which files they may touch. *)
From S2P Require Import Prelude Text Protocol Async Ports RuntimeError Process Routing.

(** ** A file system that may fail

    An operation that succeeds has its effect; one that fails changes nothing,
    a write excepted, which may leave anything in its own file; [NotFound] is
    answered only for a file that is not there. *)
Inductive FileOp : Type -> Type :=
| FCreateDir (d : string) : FileOp (Result IoError ())
| FRead (p : string) : FileOp (Result IoError string)
| FReadString (p : string) : FileOp (Result IoError string)
| FWrite (p c : string) : FileOp (Result IoError ())
| FRename (a b : string) : FileOp (Result IoError ())
| FRemove (p : string) : FileOp (Result IoError ())
| FReadDir (d : string) : FileOp (Result IoError (list (Result IoError DirEntry)))
| CaddyReload : FileOp (Result RuntimeError ())
| CaddyReloadAgain : FileOp ().
#[export] Instance FileOp_fs : FileSystem FileOp := {
  fs_create_dir_all d := trigger (FCreateDir d);
  fs_read p := trigger (FRead p);
  fs_read_to_string p := trigger (FReadString p);
  fs_write p c := trigger (FWrite p c);
  fs_rename a b := trigger (FRename a b);
  fs_remove_file p := trigger (FRemove p);
  fs_read_dir d := trigger (FReadDir d)
}.
#[export] Instance FileOp_caddy : CaddyReloader FileOp := {
  validate_and_reload := trigger CaddyReload;
  reload_after_rollback := trigger CaddyReloadAgain
}.

Abbreviation Files := (gmap string string).

Definition file_step {X} (o : FileOp X) : X -> Files -> Files -> Prop :=
  match o in FileOp T return T -> Files -> Files -> Prop with
  | FRead p | FReadString p => fun r f f' => f' = f /\
      match r with Ok c => f !! p = Some c | Err e => io_not_found e = true -> f !! p = None end
  | FWrite p c => fun r f f' =>
      match r with Ok _ => f' = <[p := c]> f | Err _ => exists o, f' = partial_alter (fun _ => o) p f end
  | FRename a b => fun r f f' =>
      match r with Ok _ => exists c, f !! a = Some c /\ f' = <[b := c]> (delete a f) | Err _ => f' = f end
  | FRemove p => fun r f f' =>
      match r with Ok _ => f' = delete p f | Err e => f' = f /\ (io_not_found e = true -> f !! p = None) end
  | FCreateDir _ | FReadDir _ => fun _ f f' => f' = f
  | CaddyReload | CaddyReloadAgain => fun _ f f' => f' = f
  end.
Fixpoint replay (f : Files) (tr : list (Call FileOp)) (f' : Files) : Prop :=
  match tr with
  | [] => f' = f
  | c :: rest => exists f1, file_step (call_op c) (call_answer c) f f1 /\ replay f1 rest f'
  end.

(** No operation failed, but for a file that was not there. *)
Definition faultless (c : Call FileOp) : bool :=
  match call_op c in FileOp T return T -> bool with
  | FCreateDir _ | FWrite _ _ | FRename _ _ => fun r => is_ok r
  | FRead _ | FReadString _ => fun r => match r with Ok _ => true | Err e => io_not_found e end
  | FRemove _ => fun r => match r with Ok _ => true | Err e => io_not_found e end
  | FReadDir _ => fun r => match r with Ok _ => true | Err e => io_not_found e end
  | CaddyReload => fun _ => true
  | CaddyReloadAgain => fun _ => true
  end (call_answer c).

Lemma replay_app f t1 t2 f' : replay f (t1 ++ t2) f' <-> exists f1, replay f t1 f1 /\ replay f1 t2 f'.
Proof.
  revert f. induction t1 as [|c t1 IH]; intros f; cbn.
  - split; [eauto|by intros (f1 & -> & H)].
  - setoid_rewrite IH. naive_solver.
Qed.

(** ** Frame: which files a computation may touch *)

Definition touches_only (a b : string) X (o : FileOp X) : Prop :=
  match o with
  | FWrite p _ | FRemove p => p = a \/ p = b
  | FRename p q => (p = a \/ p = b) /\ (q = a \/ q = b)
  | _ => True
  end.

Lemma replay_frame a b tr f f' q :
  Forall (fun c => touches_only a b _ (call_op c)) tr -> replay f tr f' -> q <> a -> q <> b ->
  f' !! q = f !! q.
Proof.
  intros Hall. revert f. induction Hall as [|[X o x] tr Ho _ IH]; intros f; cbn; [by intros ->|].
  intros (f1 & Hstep & Hrest) Ha Hb. rewrite (IH f1 Hrest Ha Hb). cbn in Ho, Hstep. clear IH Hrest.
  destruct o; cbn in Ho, Hstep; try (destruct Hstep as [-> _]; done); try by subst.
  - destruct x; [subst|destruct Hstep as [o ->]].
    + rewrite lookup_insert_ne; [done|]. naive_solver.
    + rewrite lookup_partial_alter_ne; [done|]. naive_solver.
  - destruct x; [|by subst]. destruct Hstep as (c & _ & ->).
    rewrite lookup_insert_ne, lookup_delete_ne; naive_solver.
  - destruct x; [subst|by destruct Hstep as [-> _]]. rewrite lookup_delete_ne; naive_solver.
Qed.

Lemma route_paths_differ dir p : route_path dir p <> temporary_path dir p.
Proof.
  unfold route_path, temporary_path, path_join. intros H.
  apply (f_equal (fun s => length (bytes_of s))) in H.
  destruct (ends_with dir "/"); autorewrite with text in H; rewrite !length_app in H; cbn in H;
    rewrite ?length_app in H; cbn in H; lia.
Qed.

Section Facts.
Context (parse_uuid : string -> option Uuid) (dir : string).

Lemma restore_touches s b : only (touches_only (sn_path s) b) (restore (Op := FileOp) s).
Proof.
  unfold restore, io. destruct (sn_previous s); cbn.
  - by split; [left|intros []].
  - split; [by left|]. intros [|e]; cbn; [done|]. by destruct (io_not_found e).
Qed.

Lemma reload_touches s b : only (touches_only (sn_path s) b) (reload_or_restore (Op := FileOp) s).
Proof.
  unfold reload_or_restore. apply only_and_then; [by split|]. intros [|e]; [done|].
  apply only_and_then; [apply restore_touches|]. intros _. by split.
Qed.

Lemma activate_touches r :
  only (touches_only (route_path dir (rs_project_id r)) (temporary_path dir (rs_project_id r)))
    (activate_route (Op := FileOp) dir r).
Proof.
  unfold activate_route, write_route, read_previous, io.
  cbn. split; [done|]. intros [|e]; cbn; [|done]. split; [done|]. intros [c|e]; cbn.
  - split; [by right|]. intros [|e]; cbn; [|done]. split; [split; auto|]. intros [|e]; cbn; [|done].
    exact (reload_touches {| sn_path := _; sn_previous := Some c; sn_changed := true |} _).
  - destruct (io_not_found e); cbn; [|done].
    split; [by right|]. intros [|e']; cbn; [|done]. split; [split; auto|]. intros [|e']; cbn; [|done].
    exact (reload_touches {| sn_path := _; sn_previous := None; sn_changed := true |} _).
Qed.

Lemma deactivate_touches i b :
  only (touches_only (route_path dir (ri_project_id i)) b) (deactivate_route (Op := FileOp) dir i).
Proof.
  unfold deactivate_route, remove_route, read_previous, io. cbn. split; [done|].
  intros [c|e]; cbn; [|by destruct (io_not_found e)].
  destruct (removal_of i c); cbn; [done|done|]. split; [by left|]. intros [|e]; cbn; [|done].
    
  exact (only_and_then (touches_only (route_path dir (ri_project_id i)) b)
    (reload_or_restore (Op := FileOp) {| sn_path := route_path dir (ri_project_id i);
       sn_previous := Some c; sn_changed := true |}) (fun _ => ok true) (reload_touches _ b) (fun _ => I)).
Qed.

(** The rollback puts the file back as it was found, if its own operation
    does not fail. *)
Lemma reload_or_restore_runs s tr r f f' :
  runs (reload_or_restore (Op := FileOp) s) tr r -> replay f tr f' ->
  match r with
  | Ok _ => f' = f /\ tr = [MkCall CaddyReload (Ok ())]
  | Err _ => Forall (fun c => faultless c = true) tr -> f' !! sn_path s = sn_previous s
  end.
Proof.
  intros (reloaded & t1 & -> & H) (f1 & Hstep & Hreplay). cbn in Hstep, H. subst f1.
  destruct reloaded as [[]|e]; cbn in H; [destruct H as [-> ->]; cbn in Hreplay; by subst|].
  unfold restore, io in H. destruct (sn_previous s) as [content|] eqn:Hprev.
  - destruct H as (written & t2 & -> & H). cbn in Hreplay, H. destruct Hreplay as (f2 & Hw & Hreplay).
    destruct written as [[]|e']; cbn in H.
    + destruct H as ([] & t3 & -> & -> & ->). cbn in Hreplay. destruct Hreplay as (f3 & -> & ->).
      intros _. subst f2. apply lookup_insert_eq.
    + destruct H as [-> ->]. cbn in Hreplay. intros Hall. inversion Hall as [|? ? _ Hall2]; subst.
      inversion Hall2 as [|? ? Hbad _]; subst. done.
  - destruct H as (removed & t2 & -> & H). cbn in Hreplay, H. destruct Hreplay as (f2 & Hw & Hreplay).
    destruct removed as [[]|e']; cbn in H.
    + destruct H as ([] & t3 & -> & -> & ->). cbn in Hreplay. destruct Hreplay as (f3 & -> & ->).
      intros _. subst f2. apply lookup_delete_eq.
    + destruct Hw as [-> Hnf]. destruct (io_not_found e') eqn:Hk; cbn in H.
      * destruct H as ([] & t3 & -> & -> & ->). cbn in Hreplay. destruct Hreplay as (f3 & -> & ->).
        intros _. by apply Hnf.
      * destruct H as [-> ->]. cbn in Hreplay. intros Hall. inversion Hall as [|? ? _ Hall2]; subst.
        inversion Hall2 as [|? ? Hbad _]; subst. cbn in Hbad. congruence.
Qed.
End Facts.

(** C11. Activation is a cutover or nothing. At any point of any run only the
    project's own route file and its temporary file may differ from before;
    success means that Caddy accepted the reload with the new route in place;
    and a failure, file system faults aside, leaves the project's route as it
    was, the previous deployment's or none. *)
Theorem activation_cutover_or_rollback dir route tr r :
  runs (activate_route (Op := FileOp) dir route) tr r ->
  let path := route_path dir (rs_project_id route) in
  let temporary := temporary_path dir (rs_project_id route) in
  (forall t1 t2 f f1 q, tr = t1 ++ t2 -> replay f t1 f1 -> q <> path -> q <> temporary -> f1 !! q = f !! q) /\
  (forall f f', replay f tr f' ->
     match r with
     | Ok _ => f' !! path = Some (route_content route) /\ f' !! temporary = None /\
               last tr = Some (MkCall CaddyReload (Ok ()))
     | Err _ => Forall (fun c => faultless c = true) tr -> f' !! path = f !! path
     end).
Proof.
  intros H path temporary. split.
  { intros t1 t2 f f1 q -> Hreplay Hp Ht.
    pose proof (only_runs _ _ _ _ (activate_touches dir route) H) as Hall.
    apply Forall_app in Hall as [Hall _]. by eapply replay_frame. }
  intros f f' Hreplay.
  destruct H as (created & t1 & -> & H). destruct Hreplay as (f1 & Hs & Hreplay). cbn in Hs, H. subst f1.
  destruct created as [[]|e]; cbn in H.
  2: { destruct H as [-> ->]. cbn in Hreplay. by subst. }
  destruct H as (read & t2 & -> & H). destruct Hreplay as (f1 & Hs & Hreplay). cbn in Hs, H.
  destruct Hs as [-> Hread]. fold path in Hread. set (previous := f !! path).
  assert (runs (snapshot <- (io (fs_write temporary (route_content route)) ;;;
      io (fs_rename temporary path) ;;;
      ok {| sn_path := path; sn_previous := previous; sn_changed := true |}) ;; reload_or_restore (Op := FileOp) snapshot)%async
      t2 r \/ (exists e, r = Err e /\ t2 = [])) as [Hrun|(e & -> & ->)].
  { destruct read as [c|e]; cbn in H.
    - left. unfold previous. rewrite Hread. exact H.
    - destruct (io_not_found e) eqn:Hk; cbn in H; [|right; destruct H as [-> ->]; eauto].
      left. unfold previous. rewrite Hread by done. exact H. }
  2: { cbn in Hreplay. by subst. }
  clear H. destruct Hrun as (written & t3 & -> & H). cbn in H. destruct Hreplay as (f1 & Hs & Hreplay).
  cbn in Hs. pose proof (route_paths_differ dir (rs_project_id route)) as Hne.
  destruct written as [[]|e]; cbn in H.
  2: { destruct H as [-> ->]. cbn in Hreplay. subst f1. destruct Hs as [o ->]. intros _.
       by rewrite lookup_partial_alter_ne. }
  subst f1. destruct H as (renamed & t4 & -> & H). destruct Hreplay as (f1 & Hs & Hreplay). cbn in Hs, H.
  destruct renamed as [[]|e]; cbn in H.
  2: { destruct H as [-> ->]. cbn in Hreplay. subst. intros _. by rewrite lookup_insert_ne. }
  destruct Hs as (c & Hc & ->). rewrite lookup_insert_eq in Hc. injection Hc as <-.
  pose proof (reload_or_restore_runs _ _ _ _ _ H Hreplay) as Hr. cbn in Hr.
  destruct r as [[]|e].
  - destruct Hr as [-> ->]. split_and!.
    + apply lookup_insert_eq.
    + rewrite lookup_insert_ne by done. apply lookup_delete_eq.
    + done.
  - intros Hall. apply Hr. by repeat (apply Forall_cons in Hall as [_ Hall]).
Qed.

Lemma remove_route_runs dir i tr r f f' :
  runs (remove_route (Op := FileOp) dir i) tr r -> replay f tr f' ->
  let path := route_path dir (ri_project_id i) in
  match r with
  | Ok s =>
      sn_path s = path /\
      if sn_changed s
      then exists c, f !! path = Some c /\ removal_of i c = Delete /\ f' = delete path f /\ sn_previous s = Some c
      else f' = f /\ forall c, f !! path = Some c -> removal_of i c = Keep
  | Err _ => f' = f
  end.
Proof.
  intros (read & t1 & -> & H) (f1 & Hs & Hreplay) path. cbn in Hs, H. destruct Hs as [-> Hread]. fold path in Hread.
  destruct read as [c|e]; cbn in H.
  - destruct (removal_of i c) eqn:Hrem; cbn in H.
    + destruct H as [-> ->]. cbn in Hreplay. by subst.
    + destruct H as [-> ->]. cbn in Hreplay |- *. subst. split_and!; [done|done|]. intros c' Hc. congruence.
    + destruct H as (removed & t2 & -> & H). destruct Hreplay as (f2 & Hs & Hreplay). cbn in Hs, H.
      destruct removed as [[]|e]; cbn in H; destruct H as [-> ->]; cbn in Hreplay |- *; subst.
      * split; [done|]. eauto.
      * by destruct Hs.
  - destruct (io_not_found e) eqn:Hk; cbn in H; destruct H as [-> ->]; cbn in Hreplay |- *; subst; [|done].
    split_and!; [done|done|]. intros c Hc. by rewrite Hread in Hc.
Qed.

Lemma deactivate_route_files dir i tr r f f' :
  runs (deactivate_route (Op := FileOp) dir i) tr r -> replay f tr f' ->
  let path := route_path dir (ri_project_id i) in
  (forall q, q <> path -> f' !! q = f !! q) /\
  (forall c, f !! path = Some c -> removal_of i c <> Delete -> f' = f) /\
  match r with
  | Ok true => (exists c, f !! path = Some c /\ removal_of i c = Delete) /\ f' !! path = None
  | Ok false => f' = f /\ forall c, f !! path = Some c -> removal_of i c = Keep
  | Err _ => Forall (fun c => faultless c = true) tr -> f' !! path = f !! path
  end.
Proof.
  intros H Hreplay path. split.
  { intros q Hq. pose proof (only_runs _ _ _ _ (deactivate_touches dir i path) H) as Hall.
    by eapply replay_frame. }
  apply runs_and_then in H as [(e & H & ->)|(t1 & t2 & s & -> & H & Hrest)].
  { pose proof (remove_route_runs _ _ _ _ _ _ H Hreplay) as Hr. cbn in Hr. by subst. }
  apply replay_app in Hreplay as (f1 & Hreplay1 & Hreplay2).
  pose proof (remove_route_runs _ _ _ _ _ _ H Hreplay1) as [Hpath Hr]. fold path in Hpath, Hr.
  destruct (sn_changed s) eqn:Hch.
  - destruct Hr as (c & Hc & Hdel & -> & Hprev).
    split; [intros c' Hc' Hno; congruence|].
    apply runs_and_then in Hrest as [(e & Hrest & ->)|(t3 & t4 & [] & -> & Hrest & -> & ->)].
    + pose proof (reload_or_restore_runs _ _ _ _ _ Hrest Hreplay2) as Hback. cbn in Hback.
      rewrite Hpath, Hprev in Hback. intros Hall. rewrite Hc. apply Hback.
      by apply Forall_app in Hall as [_ Hall].
    + rewrite app_nil_r in Hreplay2.
      pose proof (reload_or_restore_runs _ _ _ _ _ Hrest Hreplay2) as [-> _].
      split; [eauto|apply lookup_delete_eq].
  - destruct Hr as [-> Hkeep]. destruct Hrest as [-> ->]. cbn in Hreplay2. by subst.
Qed.

(** Deactivation deletes only what it may. Every other file is left
    alone; a route file that the identity does not own, or that names another
    deployment, is left exactly as it is; [true] means that the owned file was
    there and is gone; [false] that nothing changed, and that the route, if any,
    is another deployment's; and after a failure, file system faults aside, the
    route is as it was. *)
Theorem deactivation_deletes_owned_route dir i tr r f f' :
  runs (deactivate_route (Op := FileOp) dir i) tr r -> replay f tr f' ->
  let path := route_path dir (ri_project_id i) in
  (forall q, q <> path -> f' !! q = f !! q) /\
  (forall c, f !! path = Some c -> removal_of i c <> Delete -> f' = f) /\
  match r with
  | Ok true => (exists c, f !! path = Some c /\ removal_of i c = Delete) /\ f' !! path = None
  | Ok false => f' = f /\ forall c, f !! path = Some c -> removal_of i c = Keep
  | Err _ => Forall (fun c => faultless c = true) tr -> f' !! path = f !! path
  end.
Proof. apply deactivate_route_files. Qed.

(** ** Ownership of route files *)

Lemma prefix_same_length (a b x y : bytes) :
  bytes_prefix (a ++ x) (b ++ y) = true -> length a = length b -> a = b.
Proof.
  intros [r Hr]%bytes_prefix_spec Hl. rewrite <- app_assoc in Hr. by apply app_inj_1 in Hr as [-> _].
Qed.

(** A starts_with test on two texts that begin alike. *)
Lemma starts_with_strip p s t : starts_with (p +:+ s) (p +:+ t) = starts_with s t.
Proof.
  unfold starts_with. rewrite !bytes_of_app.
  destruct (bytes_prefix (bytes_of t) (bytes_of s)) eqn:E.
  - apply bytes_prefix_spec. apply bytes_prefix_spec in E as [r ->]. exists r. by rewrite app_assoc.
  - apply not_true_iff_false. intros [r Hr]%bytes_prefix_spec. rewrite <- app_assoc in Hr.
    apply app_inv_head in Hr. assert (bytes_prefix (bytes_of t) (bytes_of s) = true); [|congruence].
    apply bytes_prefix_spec. eauto.
Qed.

Lemma starts_with_uuid p d s t :
  uuid_wf p -> uuid_wf d ->
  starts_with (uuid_text p +:+ s) (uuid_text d +:+ t) = bool_decide (p = d) && starts_with s t.
Proof.
  intros [Hp _] [Hd _]. case_bool_decide as Hpd; cbn [andb].
  - subst. apply starts_with_strip.
  - apply not_true_iff_false. unfold starts_with. rewrite !bytes_of_app. intros Hpre.
    apply prefix_same_length in Hpre; [|by rewrite !length_bytes_of, Hp, Hd].
    apply Hpd. destruct p, d. cbn in *. f_equal.
    by rewrite <- (string_of_bytes_of uuid_text), <- (string_of_bytes_of uuid_text0), Hpre.
Qed.

(** A route file is owned by exactly one deployment: deactivating the
    deployment that wrote it deletes it, any other deployment of the project
    and a legacy removal leave it, and a removal for another project's file is
    refused. *)
Theorem route_file_ownership route i :
  uuid_wf (rs_project_id route) -> uuid_wf (rs_deployment_id route) -> uuid_wf (ri_project_id i) ->
  (forall d, ri_deployment_id i = Some d -> uuid_wf d) ->
  removal_of i (route_content route) =
    if bool_decide (ri_project_id i = rs_project_id route)
    then match ri_deployment_id i with
         | Some d => if bool_decide (d = rs_deployment_id route) then Delete else Keep
         | None => Keep
         end
    else Refuse.
Proof.
  intros Hp Hd Hi Hdi. unfold removal_of, route_content, legacy_prefix, deployment_prefix, current_prefix.
  rewrite !starts_with_strip, !(starts_with_uuid (rs_project_id route) (ri_project_id i)) by done.
  destruct (decide (ri_project_id i = rs_project_id route)) as [E|E].
  2: { rewrite !bool_decide_false by congruence. done. }
  rewrite !(bool_decide_true (rs_project_id route = ri_project_id i)) by congruence.
  rewrite (bool_decide_true (ri_project_id i = rs_project_id route)) by done.
  destruct (ri_deployment_id i) as [d|]; [|done].
  rewrite starts_with_strip, (starts_with_uuid (rs_project_id route)) by done.
  rewrite (bool_decide_true (rs_project_id route = ri_project_id i)) by congruence.
  rewrite (starts_with_strip " deployment "), (starts_with_uuid (rs_deployment_id route)) by auto.
  destruct (decide (d = rs_deployment_id route)) as [->|Hne].
  - rewrite !bool_decide_true by done. reflexivity.
  - rewrite !bool_decide_false by congruence. reflexivity.
Qed.

(** ** Witnesses *)

Definition project_a : Uuid := MkUuid "ff66ed4a-6303-4be6-8ef4-63c28b112680".
Definition deployment_a : Uuid := MkUuid "4f1f21ef-730d-42d5-a46d-d965353cb993".
Definition deployment_b : Uuid := MkUuid "4f1f21ef-730d-42d5-a46d-d965353cb994".
Definition sample_route : RouteSpec :=
  {| rs_project_id := project_a; rs_deployment_id := deployment_a; rs_domain := "app.run.sakala.dev";
     rs_upstream := "sakala-app"; rs_port := 3000 |}.

(** An empty disk on which Caddy accepts, or refuses, the reload. *)
Definition empty_disk (caddy : Result RuntimeError ()) : Env FileOp := fun _ X o =>
  match o in FileOp T return T with
  | FRead _ | FReadString _ => Err {| io_not_found := true; io_text := "not found" |}
  | FReadDir _ => Ok []
  | CaddyReload => caddy
  | CaddyReloadAgain => tt
  | FCreateDir _ | FWrite _ _ | FRename _ _ | FRemove _ => Ok tt
  end.
Definition refused_run :=
  run_with (empty_disk (Err (RoutingError "refused"))) (activate_route (Op := FileOp) "/sites" sample_route).

Definition sample_path : string := route_path "/sites" project_a.
Definition sample_temporary : string := temporary_path "/sites" project_a.
Definition rolled_back : Files :=
  delete sample_path (<[sample_path := route_content sample_route]>
    (delete sample_temporary (<[sample_temporary := route_content sample_route]> ∅))).
Lemma refused_run_replays : replay ∅ refused_run.1 rolled_back.
Proof.
  eexists; split; [reflexivity|]. eexists; split; [split; [reflexivity|intros _; apply lookup_empty]|].
  eexists; split; [reflexivity|].
  eexists; split; [eexists; split; [apply lookup_insert_eq|reflexivity]|].
  eexists; split; [reflexivity|]. eexists; split; [reflexivity|]. eexists; split; [reflexivity|]. reflexivity.
Qed.
Lemma activation_witness :
  replay ∅ refused_run.1 rolled_back /\ rolled_back !! route_path "/sites" project_a = None.
Proof.
  split; [exact refused_run_replays|].
  destruct (activation_cutover_or_rollback "/sites" sample_route refused_run.1 refused_run.2
    (runs_run_from _ _ _)) as [_ Hr].
  apply (Hr ∅ rolled_back refused_run_replays). repeat constructor.
Defined.

Definition owned_files : Files := {[ route_path "/sites" project_a := route_content sample_route ]}.
Definition owner : RouteIdentity := {| ri_project_id := project_a; ri_deployment_id := Some deployment_a |}.
Definition owned_disk : Env FileOp := fun past X o =>
  match o in FileOp T return T with
  | FRead _ => Ok (route_content sample_route)
  | o => empty_disk (Ok tt) past _ o
  end.
Definition owner_run := run_with owned_disk (deactivate_route (Op := FileOp) "/sites" owner).
Definition files_left : Files := delete sample_path owned_files.
Lemma owner_run_replays : replay owned_files owner_run.1 files_left.
Proof.
  eexists; split; [split; [reflexivity|apply lookup_insert_eq]|]. eexists; split; [reflexivity|].
  eexists; split; reflexivity.
Qed.
Lemma deactivation_witness :
  owner_run.2 = Ok true /\ replay owned_files owner_run.1 files_left /\
  files_left !! route_path "/sites" project_a = None.
Proof.
  split; [reflexivity|]. split; [exact owner_run_replays|].
  destruct (deactivation_deletes_owned_route "/sites" owner owner_run.1 (Ok true) owned_files files_left
    (runs_run_from _ _ _) owner_run_replays) as (_ & _ & Hgone).
  exact (proj2 Hgone).
Defined.

Lemma route_file_ownership_witness :
  removal_of {| ri_project_id := project_a; ri_deployment_id := Some deployment_a |} (route_content sample_route) = Delete.
Proof.
  rewrite (route_file_ownership sample_route {| ri_project_id := project_a; ri_deployment_id := Some deployment_a |}).
  - vm_compute. reflexivity.
  - vm_compute. split; reflexivity.
  - vm_compute. split; reflexivity.
  - vm_compute. split; reflexivity.
  - intros d [= <-]. vm_compute. split; reflexivity.
Defined.
