(* ===== verification/Containers.v ===== *)
(** Managed containers (runtime/src/containers): their names and labels, the
    interface the executor uses and its Docker implementation. *)
From S2P Require Import Prelude Text Protocol Async Ports ApiClient RuntimeError Limits Process Routing Redactor.

#[local] Open Scope async_scope.

Record RunContainerRequest := {
  rc_command_id : Uuid;
  rc_project_id : Uuid;
  rc_deployment_id : Uuid;
  rc_name : string;
  rc_image : string;
  rc_workspace : string;
  rc_environment : list (string * string);
  rc_resources : AppliedRuntimeResources;
  rc_domain : string;
  rc_port : N;
  rc_log_bounds : LogBounds
}.
Record ManagedWorkload := {
  mw_container_id : string;
  mw_status : string;
  mw_project_id : Uuid;
  mw_deployment_id : Uuid;
  mw_domain : string;
  mw_port : N;
  mw_command_id : option Uuid;
  mw_log_bounds : LogBounds
}.

(** [&text[..n]]; the callers' texts are longer. *)
Definition str_take (n : nat) (s : string) : string := string_of (take n (bytes_of s)).
Definition image_name (project_id deployment_id : Uuid) (commit_sha : string) : string :=
  "sakala/project-" +:+ uuid_text project_id +:+ ":" +:+ str_take 12 commit_sha +:+ "-"
  +:+ str_take 8 (uuid_text deployment_id).
Definition container_name (project_id deployment_id : Uuid) : string :=
  "sakala-app-" +:+ str_take 8 (uuid_text project_id) +:+ "-" +:+ uuid_text deployment_id.

(** A docker status of a running container. *)
Definition status_is (status prefix : string) : bool := starts_with (to_ascii_lowercase status) prefix.
Definition is_up (w : ManagedWorkload) : bool := status_is (mw_status w) "up".

Class ContainerEngine (Op : Type -> Type) : Type := {
  ce_resolve_resources : RuntimeResourceLimits -> Result RuntimeError AppliedRuntimeResources;
  ce_ensure_capacity : Uuid -> Async Op RuntimeError ();
  ce_detect_orphans : Async Op RuntimeError RuntimeReconciliationReport;
  ce_capacity : Async Op RuntimeError RuntimeCapacity;
  ce_health_snapshot : Async Op RuntimeError (list RuntimeHealthSnapshot);
  ce_workload : Uuid -> Uuid -> Async Op RuntimeError (option ManagedWorkload);
  ce_restart : ManagedWorkload -> N -> Async Op RuntimeError ();
  ce_stop : ManagedWorkload -> N -> Async Op RuntimeError ();
  ce_start_existing : ManagedWorkload -> Async Op RuntimeError ();
  ce_remove : ManagedWorkload -> Async Op RuntimeError ();
  ce_start : RunContainerRequest -> Async Op RuntimeError ();
  ce_report_startup_logs : string -> Async Op RuntimeError ();
  (** a follower bound to the command whose reporter it uses *)
  ce_start_log_follower : string -> option Uuid -> LogBounds -> Prog Op bool;
  ce_cleanup_previous : Uuid -> string -> Async Op RuntimeError ();
  ce_cleanup_candidate : string -> string -> Async Op RuntimeError ();
  ce_detect_stale_images : Duration -> Async Op RuntimeError (list RuntimeStaleImage);
  ce_cleanup_stale_images : Duration -> Async Op RuntimeError N;
  ce_shutdown : Prog Op ()
}.

(** ** The Docker implementation *)

Definition quoted (s : string) : string := string_of [DQUOTE] +:+ s +:+ string_of [DQUOTE].
Definition label_template (key : string) : string := "{{.Label " +:+ quoted key +:+ "}}".
Definition tabbed (l : list string) : string := String.concat tab l.

Definition MANAGED_LABEL : string := "dev.sakala.managed=true".
Definition AGENT_ID_LABEL : string := "dev.sakala.agent-id".
Definition WORKLOAD_KIND_LABEL : string := "dev.sakala.workload-kind=web".
Definition DOMAIN_LABEL : string := "dev.sakala.domain".
Definition PORT_LABEL : string := "dev.sakala.port".
Definition COMMAND_ID_LABEL : string := "dev.sakala.command-id".
Definition LOG_MAX_LINE_LABEL : string := "dev.sakala.log-max-line-length".
Definition LOG_MAX_BATCH_LABEL : string := "dev.sakala.log-max-batch-lines".
Definition LOG_MAX_TOTAL_LABEL : string := "dev.sakala.log-max-total-bytes".
Definition PROJECT_LABEL : string := "dev.sakala.project-id".
Definition DEPLOYMENT_LABEL : string := "dev.sakala.deployment-id".

Definition managed_filter : list string := ["--filter"; "label=" +:+ MANAGED_LABEL].

(** Lines of an output that are not blank, and their tab-separated fields. *)
Definition output_lines (stdout : string) : list string :=
  List.filter (fun line => negb (is_empty (trim line))) (lines stdout).
Definition fields_of (line : string) : list string := str_split line TAB.
Definition field (fs : list string) (i : nat) : string := default EmptyString (fs !! i).

Section Parsing.
Context (parse_uuid : string -> option Uuid).

Definition uuid_field (fs : list string) (i : nat) : option Uuid := value ← fs !! i; parse_uuid value.

(** Why a container found by reconciliation is an orphan, if it is. *)
Definition orphan_reason (project_id deployment_id : option Uuid) (status : string) : option string :=
  match project_id, deployment_id with
  | None, _ => Some "managed container has an unknown project identity"
  | Some _, None => Some "managed container has incomplete deployment identity labels"
  | Some _, Some _ =>
      if starts_with status "Created" then Some "dangling candidate container was never started"
      else if starts_with status "Exited" || starts_with status "Dead"
      then Some "stale stopped deployment container" else None
  end.

Definition add_line (report : RuntimeReconciliationReport) (line : string) : RuntimeReconciliationReport :=
  let fs := fields_of line in
  let container_id := field fs 0 in
  let status := field fs 1 in
  let project_id := uuid_field fs 2 in
  let deployment_id := uuid_field fs 3 in
  let with_lists workloads orphans :=
    {| inspected_containers := (inspected_containers report + 1)%N;
       cleaned_workspaces := cleaned_workspaces report;
       reclaimed_image_bytes := reclaimed_image_bytes report;
       Ports.workloads := workloads; Ports.orphans := orphans;
       stale_routes := stale_routes report; stale_images := stale_images report;
       reattached_log_followers := reattached_log_followers report;
       recovered_execution_records := recovered_execution_records report;
       compatibility_issues := compatibility_issues report |} in
  match orphan_reason project_id deployment_id status, project_id, deployment_id with
  | Some reason, _, _ =>
      with_lists (workloads report)
        (orphans report ++ [{| or_container_id := container_id; or_project_id := project_id;
                               or_reason := reason |}])
  | None, Some p, Some d =>
      with_lists (workloads report ++ [{| wl_container_id := container_id; wl_project_id := p;
                                          wl_deployment_id := d; wl_status := status |}])
        (orphans report)
  | None, _, _ => with_lists (workloads report) (orphans report)
  end.

Definition health_state (status : string) : bool * option string :=
  let normalized := to_ascii_lowercase status in
  if contains normalized "unhealthy" then (false, Some "Docker health status is unhealthy")
  else if contains normalized "health: starting" then (false, Some "Docker health check is still starting")
  else if starts_with normalized "up" then (true, None)
  else (false, Some ("container is not running: " +:+ status)).

Definition snapshot_of (line : string) : option RuntimeHealthSnapshot :=
  let fs := fields_of line in
  project_id ← uuid_field fs 2;
  deployment_id ← uuid_field fs 3;
  let status := field fs 1 in
  let (ready, reason) := health_state status in
  Some {| hs_workload := {| wl_container_id := field fs 0; wl_project_id := project_id;
                            wl_deployment_id := deployment_id; wl_status := status |};
          hs_ready := ready; hs_reason := reason |}.

Definition parse_optional_label (value : option string) : option N :=
  v ← value; if is_empty v then None else parse_uint u64_max v.

Definition parse_workload (project_id deployment_id : Uuid) (line : string) : Result RuntimeError ManagedWorkload :=
  let fs := fields_of line in
  domain ← ok_or (d ← fs !! 2; if is_empty d then None else Some d)
                 (Container "managed workload is missing its domain label");
  port ← ok_or (v ← fs !! 3; p ← parse_uint u16_max v; if (0 <? p)%N then Some p else None)
               (Container "managed workload has an invalid port label");
  Ok {| mw_container_id := field fs 0; mw_status := field fs 1; mw_project_id := project_id;
        mw_deployment_id := deployment_id; mw_domain := domain; mw_port := port;
        mw_command_id := uuid_field fs 4;
        mw_log_bounds := {| max_line_length := parse_optional_label (fs !! 5);
                            max_batch_lines := parse_optional_label (fs !! 6);
                            max_total_bytes := parse_optional_label (fs !! 7) |} |}.
End Parsing.

(** [entry("PORT").or_insert_with(port)] and the lines of the env file. *)
Definition effective_environment (environment : list (string * string)) (port : N) : list (string * string) :=
  btree_or_insert environment "PORT" (pretty port).
Definition env_line (kv : string * string) : string := kv.1 +:+ "=" +:+ kv.2 +:+ newline.

(** The arguments of [docker run]. *)
Definition run_arguments (runtime_network agent_id : string) (r : RunContainerRequest) (env_file : option string)
  : list string :=
  let label l := ["--label"; l] in
  let bound (name : string) (v : option N) := match v with Some n => label (name +:+ "=" +:+ pretty n) | None => [] end in
  let a := rc_resources r in
  let b := rc_log_bounds r in
  ["run"; "--detach"; "--name"; rc_name r; "--network"; runtime_network; "--restart"; "unless-stopped";
   "--security-opt"; "no-new-privileges:true"; "--cap-drop"; "ALL";
   "--memory"; pretty (memory_mb a) +:+ "m"; "--memory-swap"; pretty (memory_mb a) +:+ "m";
   "--cpus"; docker_cpu_value (cpu_millis a); "--pids-limit"; pretty (pids_limit a)]
  ++ label MANAGED_LABEL ++ label (PROJECT_LABEL +:+ "=" +:+ uuid_text (rc_project_id r))
  ++ label (DEPLOYMENT_LABEL +:+ "=" +:+ uuid_text (rc_deployment_id r))
  ++ label (DOMAIN_LABEL +:+ "=" +:+ rc_domain r) ++ label (PORT_LABEL +:+ "=" +:+ pretty (rc_port r))
  ++ label (COMMAND_ID_LABEL +:+ "=" +:+ uuid_text (rc_command_id r)) ++ label WORKLOAD_KIND_LABEL
  ++ label (AGENT_ID_LABEL +:+ "=" +:+ agent_id)
  ++ bound LOG_MAX_LINE_LABEL (max_line_length b) ++ bound LOG_MAX_BATCH_LABEL (max_batch_lines b)
  ++ bound LOG_MAX_TOTAL_LABEL (max_total_bytes b)
  ++ match env_file with Some f => ["--env-file"; f] | None => [] end
  ++ [rc_image r].

(** ** Log followers: running tasks by container *)
Definition Followers : Type := gmap string bool.  (** whether the task is finished *)
Definition register_follower (fs : Followers) (container : string) : bool * Followers :=
  let live := filter (fun kv : string * bool => kv.2 = false) fs in
  match live !! container with
  | Some _ => (false, live)
  | None => (true, <[container := false]> live)
  end.

Class FollowerTasks (Op : Type -> Type) : Type := {
  with_followers : forall A, (Followers -> A * Followers) -> Prog Op A;
  spawn_follower : CommandSpec -> OutputSink -> option Uuid -> LogBounds -> Prog Op ();
  abort_followers : Prog Op ()
}.

(** The env file: created anew with mode 0600. *)
Class EnvFile (Op : Type -> Type) : Type := {
  env_create_new : string -> Prog Op (Result IoError ());
  env_write_all : string -> string -> Prog Op (Result IoError ());
  env_flush : string -> Prog Op (Result IoError ())
}.

(** [trim_start_matches('/')]. *)
Definition trim_start_slashes (s : string) : string :=
  string_of (drop_while (fun c => bool_decide (c = "/"%char)) (bytes_of s)).

Section Docker.
Context {Op : Type -> Type} `{!ProcessRunner Op} `{!FileSystem Op} `{!EnvFile Op} `{!FollowerTasks Op} `{!Ambient Op}.
Context (parse_uuid : string -> option Uuid).
(** RFC 3339 timestamps of Docker, in nanoseconds; decimal sizes as f64. *)
Context (parse_rfc3339 : string -> Result string Z) (f64_scaled : string -> N -> option N).
Context (runtime_network : string) (resource_safety : ResourceSafetyConfig)
        (max_active_containers : N) (agent_id : string).

(** A read-only query: its output when docker succeeded. *)
Definition docker_query (what : string) (l : list string) : Async Op RuntimeError string :=
  output <- runner_run (command "docker" l) NullOutputSink ;;
  if po_success output then ok (po_stdout output)
  else err (Container (what +:+ " exited with status " +:+ status_debug (po_code output))).

Definition run_container_command (l : list string) (phase : string) : Async Op RuntimeError () :=
  output <- runner_run (command "docker" l) NullOutputSink ;;
  if po_success output then ok ()
  else err (failed_process phase (po_code output) (po_stderr output)).

Definition ensure_capacity (project_id : Uuid) : Async Op RuntimeError () :=
  stdout <- docker_query "docker capacity inspection"
    (["ps"] ++ managed_filter ++ ["--format"; label_template PROJECT_LABEL]) ;;
  let active := List.filter (fun v => negb (is_empty v)) (List.map trim (lines stdout)) in
  let replacement := existsb (fun a => bool_decide (a = uuid_text project_id)) active in
  if negb replacement && (max_active_containers <=? N.of_nat (length active))%N
  then err (Capacity ("node already runs " +:+ pretty (N.of_nat (length active))
              +:+ " managed containers; configured maximum is " +:+ pretty max_active_containers))
  else ok ().

Definition identity_format : string :=
  tabbed ["{{.ID}}"; "{{.Status}}"; label_template PROJECT_LABEL; label_template DEPLOYMENT_LABEL].

Definition detect_orphans : Async Op RuntimeError RuntimeReconciliationReport :=
  stdout <- docker_query "docker orphan inspection"
    (["ps"; "--all"] ++ managed_filter ++ ["--format"; identity_format]) ;;
  ok (fold_left (add_line parse_uuid) (output_lines stdout) default_report).

Definition docker_capacity : Async Op RuntimeError RuntimeCapacity :=
  report <- detect_orphans ;;
  ok {| active_workloads := Some (N.of_nat (length (workloads report)));
        stopped_workloads := Some (N.of_nat (length (List.filter
          (fun o => bool_decide (or_reason o = "stale stopped deployment container")) (orphans report))));
        maximum_active_workloads := Some max_active_containers;
        active_builds := None; maximum_concurrent_builds := None |}.

Definition docker_health_snapshot : Async Op RuntimeError (list RuntimeHealthSnapshot) :=
  stdout <- docker_query "docker health inspection" (["ps"] ++ managed_filter ++ ["--format"; identity_format]) ;;
  ok (omap (snapshot_of parse_uuid) (output_lines stdout)).

Definition docker_workload (project_id deployment_id : Uuid) : Async Op RuntimeError (option ManagedWorkload) :=
  stdout <- docker_query "docker workload lookup"
    (["ps"; "--all"] ++ managed_filter
     ++ ["--filter"; "label=" +:+ PROJECT_LABEL +:+ "=" +:+ uuid_text project_id;
         "--filter"; "label=" +:+ DEPLOYMENT_LABEL +:+ "=" +:+ uuid_text deployment_id; "--format";
         tabbed (["{{.ID}}"; "{{.Status}}"] ++ List.map label_template
           [DOMAIN_LABEL; PORT_LABEL; COMMAND_ID_LABEL; LOG_MAX_LINE_LABEL; LOG_MAX_BATCH_LABEL;
            LOG_MAX_TOTAL_LABEL])]) ;;
  match output_lines stdout with
  | [] => ok None
  | line :: _ => w <- lift (parse_workload parse_uuid project_id deployment_id line) ;; ok (Some w)
  end.

Definition docker_restart (w : ManagedWorkload) (grace : N) : Async Op RuntimeError () :=
  run_container_command ["restart"; "--time"; pretty grace; mw_container_id w] "docker-restart".
Definition docker_stop (w : ManagedWorkload) (grace : N) : Async Op RuntimeError () :=
  if negb (is_up w) then ok ()
  else run_container_command ["stop"; "--time"; pretty grace; mw_container_id w] "docker-stop".
Definition docker_start_existing (w : ManagedWorkload) : Async Op RuntimeError () :=
  if is_up w then ok () else run_container_command ["start"; mw_container_id w] "docker-start".
Definition docker_remove (w : ManagedWorkload) : Async Op RuntimeError () :=
  run_container_command ["rm"; mw_container_id w] "docker-remove".

Definition write_env_file (workspace : string) (environment : list (string * string))
  : Async Op RuntimeError (option string) :=
  match environment with
  | [] => ok None
  | _ =>
      let path := path_join workspace "runtime.env" in
      io (env_create_new path) ;;;
      for_each (fun kv => io (env_write_all path (env_line kv))) environment ;;;
      io (env_flush path) ;;;
      ok (Some path)
  end.

(** The env file is removed whether or not the container started; its
    removal fails the start only when nothing else did. *)
Definition docker_start (r : RunContainerRequest) : Async Op RuntimeError () :=
  env_file <- write_env_file (rc_workspace r) (effective_environment (rc_environment r) (rc_port r)) ;;
  result <- attempt (run_checked (command "docker" (run_arguments runtime_network agent_id r env_file)) "docker-run") ;;
  match env_file with
  | Some f =>
      removed <~ fs_remove_file f ;;
      match result with
      | Ok _ => lift (io_error removed)
      | Err e => err e
      end
  | None => match result with Ok _ => ok () | Err e => err e end
  end.

Definition docker_report_startup_logs (container : string) : Async Op RuntimeError () :=
  run_checked (command "docker" ["logs"; "--tail"; "100"; container]) "runtime" ;;; ok ().

Definition docker_start_log_follower (container : string) (reporter : option Uuid) (bounds : LogBounds)
  : Prog Op bool :=
  started <~ with_followers _ (fun fs => register_follower fs container) ;;
  if started : bool then
    _ <~ spawn_follower (without_timeout (command "docker" ["logs"; "--follow"; "--tail"; "0"; container]))
           (ReporterOutputSink "runtime") reporter bounds ;;
    Ret true
  else Ret false.

(** One container of the project: stopped and removed unless it is the
    current one. *)
Definition cleanup_container (current container_id : string) : Async Op RuntimeError () :=
  stdout <- docker_query "docker-inspect-previous"
    ["inspect"; "--format"; tabbed ["{{.State.Running}}"; "{{.Name}}"]; container_id] ;;
  let fs := fields_of (trim stdout) in
  let running := bool_decide (fs !! 0%nat = Some "true") in
  let name := trim_start_slashes (field fs 1) in
  if bool_decide (name = current) then ok ()
  else
    (if running
     then run_checked (command "docker" ["stop"; "--time"; "10"; container_id]) "docker-stop-previous" ;;; ok ()
     else ok ()) ;;;
    run_checked (command "docker" ["rm"; container_id]) "docker-remove-previous" ;;; ok ().

Definition docker_cleanup_previous (project_id : Uuid) (current : string) : Async Op RuntimeError () :=
  stdout <- docker_query "docker-list-previous"
    (["ps"; "--all"; "--quiet"; "--filter"; "label=" +:+ PROJECT_LABEL +:+ "=" +:+ uuid_text project_id]
     ++ managed_filter) ;;
  for_each (cleanup_container current) (output_lines stdout).

(** One artifact of a candidate: why it could not be removed, if so. *)
Definition remove_artifact (artifact : string) (l : list string) : Prog Op (list string) :=
  outcome <~ runner_run (command "docker" l) NullOutputSink ;;
  match outcome with
  | Ok output => if po_success output then Ret []
                 else Ret [artifact +:+ " exited with status " +:+ status_debug (po_code output)]
  | Err e => Ret [artifact +:+ ": " +:+ runtime_error_text e]
  end.
Definition docker_cleanup_candidate (container image : string) : Async Op RuntimeError () :=
  f1 <~ remove_artifact "candidate container" ["rm"; "--force"; container] ;;
  f2 <~ remove_artifact "candidate image" ["image"; "rm"; "--force"; image] ;;
  match f1 ++ f2 with
  | [] => ok ()
  | failures => err (Container ("candidate cleanup incomplete: " +:+ String.concat "; " failures))
  end.

Definition i64_max : N := 9223372036854775807.

Definition inspect_image (now minimum_age : Z) (line : string) : Async Op RuntimeError (list RuntimeStaleImage) :=
  let fs := fields_of line in
  stdout <- docker_query "Sakala image age inspection"
    ["image"; "inspect"; "--format"; "{{.Created}}"; field fs 0] ;;
  created <- lift (map_err (fun e => Container ("Docker returned an invalid image creation timestamp: " +:+ e))
                     (parse_rfc3339 (trim stdout))) ;;
  if (now - created <? minimum_age)%Z then ok []
  else ok [{| si_image_id := field fs 0; si_project_id := uuid_field parse_uuid fs 1;
              si_deployment_id := uuid_field parse_uuid fs 2 |}].

Definition docker_detect_stale_images (max_age : Duration) : Async Op RuntimeError (list RuntimeStaleImage) :=
  stdout <- docker_query "Sakala stale image inspection"
    (["image"; "ls"; "--filter"; "dangling=true"] ++ managed_filter
     ++ ["--format"; tabbed ["{{.ID}}"; label_template PROJECT_LABEL; label_template DEPLOYMENT_LABEL]]) ;;
  if (i64_max <? as_secs max_age)%N then err (Configuration "image GC maximum age is too large")
  else
    now <~ now_utc ;;
    fold_each (fun stale line => found <- inspect_image now (Z.of_N max_age) line ;; ok (stale ++ found))
      [] (output_lines stdout).

(** [value.find(|c| !(c.is_ascii_digit() || c == '.'))] splits number and unit. *)
Definition size_split (value : string) : string * string :=
  let l := bytes_of value in
  let n := match position (fun c => negb (is_ascii_digit c || bool_decide (c = "."%char))) l with
           | Some i => i | None => length l end in
  (string_of (take n l), string_of (drop n l)).
Definition unit_multiplier (unit : string) : option N :=
  let u := to_ascii_lowercase (trim unit) in
  if bool_decide (u ∈ ["b"; "bytes"; EmptyString]) then Some 1%N
  else if bool_decide (u ∈ ["kb"; "kib"]) then Some 1024%N
  else if bool_decide (u ∈ ["mb"; "mib"]) then Some (1024 * 1024)%N
  else if bool_decide (u ∈ ["gb"; "gib"]) then Some (1024 * 1024 * 1024)%N
  else None.
(** An output that cannot be read counts as nothing reclaimed. *)
Definition reclaimed_bytes (stdout : string) : N :=
  match head (omap (fun line => strip_prefix line "Total reclaimed space: ") (lines stdout)) with
  | None => 0
  | Some value =>
      let (number, unit) := size_split (trim value) in
      default 0%N (m ← unit_multiplier unit; f64_scaled number m)
  end.
Definition docker_cleanup_stale_images (max_age : Duration) : Async Op RuntimeError N :=
  stdout <- docker_query "Sakala image GC"
    (["image"; "prune"; "--force"] ++ managed_filter
     ++ ["--filter"; "until=" +:+ pretty (as_secs max_age) +:+ "s"]) ;;
  ok (reclaimed_bytes stdout).

#[export] Instance DockerContainerEngine : ContainerEngine Op := {
  ce_resolve_resources := resolve_resources resource_safety;
  ce_ensure_capacity := ensure_capacity;
  ce_detect_orphans := detect_orphans;
  ce_capacity := docker_capacity;
  ce_health_snapshot := docker_health_snapshot;
  ce_workload := docker_workload;
  ce_restart := docker_restart;
  ce_stop := docker_stop;
  ce_start_existing := docker_start_existing;
  ce_remove := docker_remove;
  ce_start := docker_start;
  ce_report_startup_logs := docker_report_startup_logs;
  ce_start_log_follower := docker_start_log_follower;
  ce_cleanup_previous := docker_cleanup_previous;
  ce_cleanup_candidate := docker_cleanup_candidate;
  ce_detect_stale_images := docker_detect_stale_images;
  ce_cleanup_stale_images := docker_cleanup_stale_images;
  ce_shutdown := _ <~ with_followers _ (fun _ => (tt, ∅)) ;; abort_followers
}.
End Docker.
