(* ===== verification/Workspace.v ===== *)
(** Workspaces of a deployment (runtime/src/workspace): checkout of the
    requested commit with a temporary credential, cleanup, removal of stale
    workspaces, free disk space. *)
From S2P Require Import Prelude Text Protocol Async Ports ApiClient RuntimeError Process Routing.

#[local] Open Scope async_scope.

Record RepositorySource := {
  src_repository_url : string; src_commit_sha : string; src_credential : option RepositoryCredential }.
Definition without_credential (s : RepositorySource) : RepositorySource :=
  {| src_repository_url := src_repository_url s; src_commit_sha := src_commit_sha s; src_credential := None |}.

Record DeploymentWorkspace := { dw_root : string; dw_source : string }.
Definition new_workspace (root : string) : DeploymentWorkspace :=
  {| dw_root := root; dw_source := path_join root "source" |}.

Class WorkspaceManager (Op : Type -> Type) : Type := {
  wm_checkout : Uuid -> RepositorySource -> Async Op RuntimeError DeploymentWorkspace;
  wm_cleanup : DeploymentWorkspace -> Async Op RuntimeError ();
  wm_cleanup_stale : Duration -> Async Op RuntimeError N;
  wm_available_disk_bytes : Async Op RuntimeError N
}.

(** ** Git workspaces *)

(** A directory entry: its lossy name, its path, whether it is a directory and
    a symbolic link, and when it was modified (nanoseconds). *)
Record WorkspaceEntry := {
  we_name : string;
  we_path : string;
  we_type : Result IoError (bool * bool);
  we_modified : Result IoError Z
}.
Class WorkspaceFiles (Op : Type -> Type) : Type := {
  wf_try_exists : string -> Prog Op (Result IoError bool);
  wf_create_dir_all : string -> Prog Op (Result IoError ());
  wf_remove_dir_all : string -> Prog Op (Result IoError ());
  wf_set_mode : string -> N -> Prog Op (Result IoError ());
  wf_write : string -> string -> Prog Op (Result IoError ());
  wf_remove_file : string -> Prog Op (Result IoError ());
  wf_read_dir : string -> Prog Op (Result IoError (list (Result IoError WorkspaceEntry)))
}.

Definition OWNER_ONLY : N := 448.  (** 0o700 *)
Definition shell_lines (l : list string) : string := String.concat EmptyString (List.map (fun s => s +:+ newline) l).
Definition shell_quoted (s : string) : string := string_of ["034"%char] +:+ s +:+ string_of ["034"%char].
Definition ASKPASS_SCRIPT : string :=
  shell_lines ["#!/bin/sh"; "case " +:+ shell_quoted "$1" +:+ " in";
    "  *Username*) printf '%s\n' " +:+ shell_quoted "$SAKALA_GIT_ASKPASS_USERNAME" +:+ " ;;";
    "  *) printf '%s\n' " +:+ shell_quoted "$SAKALA_GIT_ASKPASS_TOKEN" +:+ " ;;"; "esac"].
Definition askpass_path (root : string) : string := path_join root ".sakala-git-askpass".

(** The commands of a checkout, each with its phase. *)
Definition git_init (source : string) : CommandSpec :=
  with_cancellation (command "git" ["init"; "--initial-branch=sakala"; source]).
Definition git_remote (source url : string) : CommandSpec :=
  with_cancellation (command "git" ["-C"; source; "remote"; "add"; "origin"; url]).
Definition git_fetch (source commit_sha : string) : CommandSpec :=
  with_cancellation (command "git" ["-C"; source; "fetch"; "--depth=1"; "origin"; commit_sha]).
Definition git_checkout (source : string) : CommandSpec :=
  with_cancellation (command "git" ["-C"; source; "checkout"; "--detach"; "FETCH_HEAD"]).
Definition authenticated (fetch : CommandSpec) (askpass : string) (c : RepositoryCredential) : CommandSpec :=
  secret_env (env (env (env fetch "GIT_TERMINAL_PROMPT" "0") "GIT_ASKPASS" askpass)
                  "SAKALA_GIT_ASKPASS_USERNAME" (rc_username c))
             "SAKALA_GIT_ASKPASS_TOKEN" (rc_token c).
Definition fetch_command (w : DeploymentWorkspace) (s : RepositorySource) (askpass : option string) : CommandSpec :=
  let fetch := git_fetch (dw_source w) (src_commit_sha s) in
  match src_credential s, askpass with
  | Some c, Some f => authenticated fetch f c
  | _, _ => fetch
  end.

(** [df -Pk]: the fourth column of the last line, in blocks of 1024 bytes. *)
Definition parse_available_disk_bytes (output : string) : Result RuntimeError N :=
  line ← ok_or (head (List.filter (fun l => negb (is_empty (trim l))) (rev (lines output))))
               (Dependency "workspace disk inspection returned no data");
  word ← ok_or (split_whitespace line !! 3%nat) (Dependency "workspace disk inspection format is invalid");
  blocks ← ok_or (parse_uint u64_max word) (Dependency "workspace disk availability is invalid");
  ok_or (checked_mul_u64 blocks 1024) (Dependency "workspace disk availability is too large to represent").

Section Git.
Context {Op : Type -> Type} `{!WorkspaceFiles Op} `{!ProcessRunner Op} `{!Ambient Op}.
Context (parse_uuid : string -> option Uuid) (root : string).

Definition restrict_workspace_permissions (path : string) : Async Op RuntimeError () :=
  io (wf_set_mode path OWNER_ONLY).
Definition write_askpass (path : string) : Async Op RuntimeError string :=
  let file := askpass_path path in
  io (wf_write file ASKPASS_SCRIPT) ;;;
  io (wf_set_mode file OWNER_ONLY) ;;;
  ok file.

Definition workspace_cleanup (w : DeploymentWorkspace) : Async Op RuntimeError () :=
  removed <~ wf_remove_dir_all (dw_root w) ;;
  match removed with
  | Ok _ => ok ()
  | Err e => if io_not_found e then ok () else err (Filesystem (io_text e))
  end.

(** The git commands, in order; the first that fails ends them. *)
Definition run_git (w : DeploymentWorkspace) (s : RepositorySource) (askpass : option string)
  : Async Op RuntimeError () :=
  for_each (fun '(c, phase) => run_checked c phase ;;; ok ())
    [(git_init (dw_source w), "git-init");
     (git_remote (dw_source w) (src_repository_url s), "git-remote")] ;;;
  run_checked (fetch_command w s askpass) "git-fetch" ;;;
  run_checked (git_checkout (dw_source w)) "git-checkout" ;;;
  ok ().

Definition prepare_root (w : DeploymentWorkspace) : Async Op RuntimeError () :=
  exists_ <- io (wf_try_exists (dw_root w)) ;;
  (if exists_ : bool then io (wf_remove_dir_all (dw_root w)) else ok ()) ;;;
  io (wf_create_dir_all (dw_root w)) ;;;
  restrict_workspace_permissions (dw_root w).

(** An error of the commands wins over one of the credential's cleanup. *)
Definition checkout (command_id : Uuid) (s : RepositorySource) : Async Op RuntimeError DeploymentWorkspace :=
  let w := new_workspace (path_join root (uuid_text command_id)) in
  prepare_root w ;;;
  askpass <- match src_credential s with
             | Some _ => f <- write_askpass (dw_root w) ;; ok (Some f)
             | None => ok None
             end ;;
  result <- attempt (run_git w s askpass) ;;
  cleaned <- match askpass with
             | Some f => attempt (io (wf_remove_file f))
             | None => ok (Ok ())
             end ;;
  match result, cleaned with
  | Err e, _ | Ok _, Err e => ignore (workspace_cleanup w) ;;; err e
  | Ok _, Ok _ => ok w
  end.

Definition clean_entry (now : Z) (minimum_age : Z) (cleaned : N) (entry : Result IoError WorkspaceEntry)
  : Async Op RuntimeError N :=
  entry <- lift (io_error entry) ;;
  kind <- lift (io_error (we_type entry)) ;;
  if negb kind.1 || kind.2 then ok cleaned
  else match parse_uuid (we_name entry) with
  | None => ok cleaned
  | Some _ =>
      modified <- lift (io_error (we_modified entry)) ;;
      if (Z.max 0 (now - modified) <? minimum_age)%Z then ok cleaned
      else io (wf_remove_dir_all (we_path entry)) ;;; ok (cleaned + 1)%N
  end.

Definition workspace_cleanup_stale (minimum_age : Duration) : Async Op RuntimeError N :=
  entries <~ wf_read_dir root ;;
  match entries with
  | Err e => if io_not_found e then ok 0%N else err (Filesystem (io_text e))
  | Ok entries =>
      now <~ now_utc ;;
      fold_each (clean_entry now (Z.of_N minimum_age)) 0%N entries
  end.

Definition available_disk_bytes : Async Op RuntimeError N :=
  output <- runner_run (command "df" ["-Pk"; root]) NullOutputSink ;;
  if po_success output then lift (parse_available_disk_bytes (po_stdout output))
  else err (Dependency ("workspace disk inspection exited with status " +:+ status_debug (po_code output))).

#[export] Instance GitWorkspaceManager : WorkspaceManager Op := {
  wm_checkout := checkout;
  wm_cleanup := workspace_cleanup;
  wm_cleanup_stale := workspace_cleanup_stale;
  wm_available_disk_bytes := available_disk_bytes
}.
End Git.

Example askpass_text : length (bytes_of ASKPASS_SCRIPT) = 140%nat.
Proof. vm_compute. reflexivity. Qed.
Example df_line : parse_available_disk_bytes ("Filesystem 1024-blocks Used Available Capacity Mounted on"
  +:+ newline +:+ "/dev/sda1 100 40 60 40% /" +:+ newline) = Ok 61440%N.
Proof. vm_compute. reflexivity. Qed.
