(* ===== verification/Builders.v ===== *)
(** Image builds and project inspection (runtime/src/builders,
    runtime/src/railpack, runtime/src/inspections): the choice of a builder,
    the commands it runs and the preview of a repository. *)
From S2P Require Import Prelude Text Protocol Async Ports RuntimeError Process Routing Containers Workspace.

#[local] Open Scope async_scope.

Record BuildRequest := {
  br_project_id : Uuid; br_deployment_id : Uuid; br_workspace : string; br_source : string;
  br_image : string; br_requested : DeploymentBuilder }.
Record BuildOutput := { bo_builder : DeploymentBuilder }.

Class ImageBuilder (Op : Type -> Type) : Type := ib_build : BuildRequest -> Async Op RuntimeError BuildOutput.
Class ProjectInspector (Op : Type -> Type) : Type :=
  pi_inspect : DeploymentWorkspace -> RepositorySource -> Async Op RuntimeError ProjectInspection.

(** ** Commands *)

Definition ownership_labels (project_id deployment_id : Uuid) : list string :=
  ["--label"; MANAGED_LABEL; "--label"; PROJECT_LABEL +:+ "=" +:+ uuid_text project_id;
   "--label"; DEPLOYMENT_LABEL +:+ "=" +:+ uuid_text deployment_id].
Definition buildx : list string := ["buildx"; "build"; "--load"; "--progress"; "plain"].

Definition dockerfile_build_command (source dockerfile image : string) (p d : Uuid) : CommandSpec :=
  command "docker" (buildx ++ ["--file"; dockerfile; "--tag"; image] ++ ownership_labels p d ++ [source]).
Definition info_command (source info : string) : CommandSpec :=
  command "railpack" ["info"; "--format"; "json"; "--out"; info; source].
Definition prepare_command (source plan info : string) : CommandSpec :=
  command "railpack" ["prepare"; source; "--plan-out"; plan; "--info-out"; info].
Definition railpack_build_command (source plan image frontend : string) (p d : Uuid) : CommandSpec :=
  command "docker" (buildx ++ ["--build-arg"; "BUILDKIT_SYNTAX=" +:+ frontend; "--file"; plan; "--tag"; image]
                    ++ ownership_labels p d ++ [source]).

(** ** The build *)

(** The builder that is used; [Auto] is never one, which the type says where
    the source has an [unreachable!] arm. *)
Inductive ResolvedBuilder := UseDockerfile | UseRailpack.
Definition resolve_builder (requested : DeploymentBuilder) (dockerfile_found : bool)
  : Result RuntimeError ResolvedBuilder :=
  match requested with
  | Auto => Ok (if dockerfile_found then UseDockerfile else UseRailpack)
  | Dockerfile => if dockerfile_found then Ok UseDockerfile
      else Err (InvalidCommand "Dockerfile builder requested but repository has no root Dockerfile")
  | Railpack => Ok UseRailpack
  end.
Definition builder_of (b : ResolvedBuilder) : DeploymentBuilder :=
  match b with UseDockerfile => Dockerfile | UseRailpack => Railpack end.

(** Whether files exist, and reading the file an inspection wrote. *)
Class SourceFiles (Op : Type -> Type) : Type := {
  sf_try_exists : string -> Prog Op (Result IoError bool);
  sf_len : string -> Prog Op (Result IoError N);
  sf_read : string -> Prog Op (Result IoError string)
}.

Section ImageBuildService.
Context {Op : Type -> Type} `{!ProcessRunner Op} `{!SourceFiles Op} (railpack_frontend : string).

(** The commands of a builder with their phases. *)
Definition build_steps (r : BuildRequest) (b : ResolvedBuilder) : list (CommandSpec * string) :=
  match b with
  | UseDockerfile =>
      [(dockerfile_build_command (br_source r) (path_join (br_source r) "Dockerfile") (br_image r)
          (br_project_id r) (br_deployment_id r), "docker-build")]
  | UseRailpack =>
      let plan := path_join (br_workspace r) "railpack-plan.json" in
      let info := path_join (br_workspace r) "railpack-info.json" in
      [(prepare_command (br_source r) plan info, "railpack-prepare");
       (railpack_build_command (br_source r) plan (br_image r) railpack_frontend
          (br_project_id r) (br_deployment_id r), "railpack-build")]
  end.

Definition build (r : BuildRequest) : Async Op RuntimeError BuildOutput :=
  dockerfile_found <- io (sf_try_exists (path_join (br_source r) "Dockerfile")) ;;
  builder <- lift (resolve_builder (br_requested r) dockerfile_found) ;;
  for_each (fun '(c, phase) => run_checked c phase ;;; ok ()) (build_steps r builder) ;;;
  ok {| bo_builder := builder_of builder |}.

#[export] Instance ImageBuildService : ImageBuilder Op := build.
End ImageBuildService.

(** ** Inspection *)

Definition MAX_RAILPACK_INFO_BYTES : N := 1048576.
Definition CANDIDATES : list string :=
  [".env.example"; "Cargo.toml"; "Dockerfile"; "README.md"; "bun.lock"; "bun.lockb"; "composer.json";
   "composer.lock"; "compose.yaml"; "compose.yml"; "docker-compose.yaml"; "docker-compose.yml"; "go.mod";
   "package-lock.json"; "package.json"; "pnpm-lock.yaml"; "poetry.lock"; "pyproject.toml";
   "requirements.txt"; "uv.lock"; "yarn.lock"].
Definition PACKAGE_MANAGERS : list (string * string) :=
  [("pnpm-lock.yaml", "pnpm"); ("yarn.lock", "yarn"); ("bun.lock", "bun"); ("bun.lockb", "bun");
   ("package-lock.json", "npm"); ("composer.lock", "composer"); ("uv.lock", "uv");
   ("poetry.lock", "poetry"); ("Cargo.toml", "cargo"); ("go.mod", "go")].
Definition has_manifest (manifests : list string) (name : string) : bool :=
  existsb (fun item => bool_decide (item = name)) manifests.
Definition detect_package_manager (manifests : list string) : option string :=
  snd <$> find (fun '(manifest, _) => has_manifest manifests manifest) PACKAGE_MANAGERS.

Definition inspection_of (s : RepositorySource) (manifests : list string) (railpack : Value) : ProjectInspection :=
  {| pi_repository_url := src_repository_url s;
     pi_commit_sha := src_commit_sha s;
     pi_dockerfile_found := has_manifest manifests "Dockerfile";
     pi_env_example_found := has_manifest manifests ".env.example";
     pi_compose_found := existsb (fun name => bool_decide (name ∈
       ["compose.yml"; "compose.yaml"; "docker-compose.yml"; "docker-compose.yaml"])) manifests;
     pi_manifests := manifests;
     pi_package_manager := detect_package_manager manifests;
     pi_railpack := railpack |}.

Section Inspector.
Context {Op : Type -> Type} `{!ProcessRunner Op} `{!SourceFiles Op}.
(** [serde_json::from_slice]. *)
Context (json_value : string -> Result string Value).

Definition detected_manifests (source : string) : Async Op RuntimeError (list string) :=
  fold_each (fun found candidate =>
    present <- io (sf_try_exists (path_join source candidate)) ;;
    ok (if present : bool then found ++ [candidate] else found)) [] CANDIDATES.

Definition inspect (w : DeploymentWorkspace) (s : RepositorySource) : Async Op RuntimeError ProjectInspection :=
  let info_path := path_join (dw_root w) "railpack-info.json" in
  run_checked (info_command (dw_source w) info_path) "railpack-info" ;;;
  size <- io (sf_len info_path) ;;
  if (MAX_RAILPACK_INFO_BYTES <? size)%N
  then err (Execution ("Railpack info exceeded the " +:+ pretty MAX_RAILPACK_INFO_BYTES +:+ " byte safety limit"))
  else
    content <- io (sf_read info_path) ;;
    railpack <- lift (map_err (fun e => Execution ("invalid Railpack info JSON: " +:+ e)) (json_value content)) ;;
    manifests <- detected_manifests (dw_source w) ;;
    ok (inspection_of s manifests railpack).

#[export] Instance RailpackProjectInspector : ProjectInspector Op := inspect.
End Inspector.
