(* ===== verification/Health.v ===== *)
(** Readiness of a container (runtime/src/health). *)
From S2P Require Import Prelude Text Protocol Async Ports ApiClient RuntimeError Process Containers.

#[local] Open Scope async_scope.

Class HealthChecker (Op : Type -> Type) : Type := wait_until_ready : string -> Async Op RuntimeError ().

(** [tokio::time::sleep] and the deadline of a phase ([tokio::time::timeout]). *)
Class Clock (Op : Type -> Type) : Type := {
  sleep : Duration -> Prog Op ();
  deadline_elapsed : string -> Duration -> Prog Op bool
}.

Definition health_format : string :=
  "{{if .State.Health}}{{.State.Health.Status}}{{else if .State.Running}}running{{else}}stopped{{end}}".
Definition inspect_health (container : string) : CommandSpec :=
  command "docker" ["inspect"; "--format"; health_format; container].

Section Docker.
Context {Op : Type -> Type} `{!ProcessRunner Op} `{!Clock Op} (health_attempts : nat) (interval : Duration).

(** The attempts that are left of [1..=attempts]; the last one does not
    wait. *)
Fixpoint health_loop (container : string) (left_attempts : nat) : Async Op RuntimeError () :=
  match left_attempts with
  | O => err (Health ("container " +:+ container +:+ " did not become healthy"))
  | S later =>
      output <- runner_run (inspect_health container) NullOutputSink ;;
      let status := trim (po_stdout output) in
      if po_success output && bool_decide (status ∈ ["healthy"; "running"]) then ok ()
      else if bool_decide (status = "unhealthy") || bool_decide (later = O)
      then err (Health ("container " +:+ container +:+ " failed its basic health check with status "
                        +:+ str_debug status))
      else _ <~ sleep interval ;; health_loop container later
  end.

#[export] Instance DockerHealthChecker : HealthChecker Op := fun container => health_loop container health_attempts.
End Docker.
