(* ===== verification/Executor.v ===== *)
(** The Docker executor (runtime/src/executor/docker.rs): validation of a
    deployment, its pipeline from checkout to cutover with cancellation and
    cleanup, the lifecycle commands, reconciliation, recovery and preflight. *)
From S2P Require Import Prelude Text Protocol Async Ports ApiClient RuntimeError Limits Process Routing Containers Workspace Builders Health.

#[local] Open Scope async_scope.

(** ** Validation *)

(** What the URL parser gives of an accepted URL; [None] for an absent part. *)
Record ParsedUrl := {
  url_scheme : string;
  url_host : option string;
  url_username : string;
  url_password : option string;
  url_query : option string;
  url_fragment : option string;
  url_path_segments : option (list string)
}.

Definition valid_label (label : string) : bool :=
  negb (is_empty label) && Nat.leb (String.length label) 63
  && negb (starts_with label "-") && negb (ends_with label "-")
  && forallb (fun b => is_ascii_lowercase b || is_ascii_digit b || bool_decide (b = "-"%char)) (bytes_of label).
Definition valid_domain (domain : string) : bool :=
  (ends_with domain ".run.sakala.localhost" || ends_with domain ".run.staging.sakala.dev"
   || ends_with domain ".run.sakala.dev")
  && Nat.leb (String.length domain) 253
  && forallb valid_label (str_split domain "."%char).

Definition env_key_byte (b : ascii) : bool :=
  bool_decide (b = "_"%char) || is_ascii_uppercase b || is_ascii_digit b.
Definition valid_env_key (key : string) : bool :=
  match bytes_of key with
  | b :: rest => (bool_decide (b = "_"%char) || is_ascii_uppercase b) && forallb env_key_byte rest
  | [] => false
  end.
Definition env_value_safe (value : string) : bool :=
  forallb (fun b => negb (bool_decide (b = LF) || bool_decide (b = CR) || bool_decide (b = "000"%char)))
          (bytes_of value).

Section Validation.
Context (url_parse : string -> Result string ParsedUrl).

Definition validate_repository_source (repository_url commit_sha : string) : Result RuntimeError () :=
  repository ← map_err (fun e => InvalidCommand ("invalid repository URL: " +:+ e)) (url_parse repository_url);
  if negb (bool_decide (url_scheme repository = "https"))
     || negb (bool_decide (url_host repository = Some "github.com"))
     || negb (is_empty (url_username repository))
     || bool_decide (is_Some (url_password repository))
     || bool_decide (is_Some (url_query repository))
     || bool_decide (is_Some (url_fragment repository))
  then Err (InvalidCommand "repository URL must be a credential-free https://github.com URL")
  else if negb (Nat.eqb (length (List.filter (fun s => negb (is_empty s))
                           (default [] (url_path_segments repository)))) 2)
  then Err (InvalidCommand "MVP repository URL must identify one GitHub owner and repository")
  else if negb (Nat.eqb (String.length commit_sha) 40) || negb (forallb is_ascii_hexdigit (bytes_of commit_sha))
  then Err (InvalidCommand "commit_sha must be a complete 40-character Git SHA")
  else Ok ().

Fixpoint validate_environment (entries : list (string * string)) : Result RuntimeError () :=
  match entries with
  | [] => Ok ()
  | (key, value) :: rest =>
      if negb (valid_env_key key) || negb (env_value_safe value)
      then Err (InvalidCommand ("environment entry " +:+ str_debug key +:+ " is not safe for a Docker env file"))
      else validate_environment rest
  end.

Definition validate_payload (payload : DeployProjectPayload) : Result RuntimeError () :=
  _ ← validate_repository_source (dp_repository_url payload) (dp_commit_sha payload);
  if (dp_container_port payload =? 0)%N
  then Err (InvalidCommand "container_port must be greater than zero")
  else if negb (valid_domain (dp_domain payload))
  then Err (InvalidCommand "domain must be a valid *.run.sakala.localhost, *.run.staging.sakala.dev, or *.run.sakala.dev hostname")
  else
    _ ← validate_environment (dp_environment payload);
    match btree_get (dp_environment payload) "PORT" with
    | Some port =>
        if bool_decide (parse_uint u16_max port = Some (dp_container_port payload)) then Ok ()
        else Err (InvalidCommand ("environment PORT=" +:+ port +:+ " must match container_port "
                    +:+ pretty (dp_container_port payload)))
    | None => Ok ()
    end.

Definition repository_source (url commit_sha : string) (c : option RepositoryCredential)
  : Result RuntimeError RepositorySource :=
  _ ← validate_repository_source url commit_sha;
  Ok {| src_repository_url := url; src_commit_sha := commit_sha; src_credential := c |}.
Definition inspection_source (p : InspectProjectPayload) := repository_source (ip_repository_url p) (ip_commit_sha p).
Definition deployment_source (p : DeployProjectPayload) := repository_source (dp_repository_url p) (dp_commit_sha p).
End Validation.

(** ** Shared cells of a deployment

    [route_activated] is the atomic flag the deployment sets at cutover.  The
    build permit and the admission lock are guards: the code that holds one
    releases it where it ends, and a future that is dropped releases what it
    holds ([drop_phase] for the future of a phase whose deadline passed,
    [drop_deployment] for the suspended deployment). *)
Class DeploymentGuards (Op : Type -> Type) : Type := {
  route_flag_new : Prog Op ();
  route_flag_load : Prog Op bool;
  route_flag_store : Prog Op ();
  acquire_build_permit : Prog Op bool;  (** [false]: the semaphore is closed *)
  release_build_permit : Prog Op ();
  available_build_permits : Prog Op N;
  lock_admission : Prog Op ();
  unlock_admission : Prog Op ();
  drop_phase : Prog Op ();
  drop_deployment : Prog Op ()
}.

Class TelemetryCollector (Op : Type -> Type) : Type := telemetry_snapshot : Prog Op NodeTelemetry.

(** What an [info] line of the pipeline reports. *)
Section Reports.
Context {Op : Type -> Type} `{!RuntimeReporter Op} `{!Ambient Op}.

Definition emit_event (event_type message : string) (metadata : Value) : Async Op RuntimeError () :=
  now <~ now_utc ;;
  with_error from_execution_error
    (report_event {| ev_type := event_type; ev_level := Info; ev_message := message; ev_metadata := metadata;
                     ev_occurred_at := now |}).
Definition system_log (message : string) : Prog Op () :=
  now <~ now_utc ;;
  _ <~ report_log {| log_stream := System; log_message := message; log_recorded_at := now |} ;; Ret ().
(** An outcome that is only worth a warning. *)
Definition warn_on_error {A} (what : string) (m : Async Op RuntimeError A) : Prog Op (option RuntimeError) :=
  outcome <~ m ;;
  match outcome with
  | Ok _ => Ret None
  | Err e => _ <~ system_log (what +:+ ": " +:+ runtime_error_text e) ;; Ret (Some e)
  end.
End Reports.

Record ExecutorConfig := {
  ec_timeout_safety : TimeoutSafetyConfig;
  ec_max_concurrent_builds : N;
  ec_workspace_gc_max_age : Duration;
  ec_image_gc_max_age : Duration;
  ec_min_workspace_free_bytes : N;
  ec_workspace_root : string;
  ec_runtime_network : string;
  ec_caddy_sites_dir : string;
  ec_caddy_container : string
}.

(** What one deployment is about. *)
Record Deployment := {
  de_command_id : Uuid; de_project_id : Uuid; de_deployment_id : Uuid;
  de_payload : DeployProjectPayload; de_workspace : DeploymentWorkspace;
  de_resources : AppliedRuntimeResources; de_timeouts : AppliedRuntimeTimeouts
}.
Definition de_image (d : Deployment) : string :=
  image_name (de_project_id d) (de_deployment_id d) (dp_commit_sha (de_payload d)).
Definition de_container (d : Deployment) : string := container_name (de_project_id d) (de_deployment_id d).
Definition run_request (d : Deployment) : RunContainerRequest :=
  {| rc_command_id := de_command_id d; rc_project_id := de_project_id d; rc_deployment_id := de_deployment_id d;
     rc_name := de_container d; rc_image := de_image d; rc_workspace := dw_root (de_workspace d);
     rc_environment := dp_environment (de_payload d); rc_resources := de_resources d;
     rc_domain := dp_domain (de_payload d); rc_port := dp_container_port (de_payload d);
     rc_log_bounds := dp_log_bounds (de_payload d) |}.
Definition build_request (d : Deployment) : BuildRequest :=
  {| br_project_id := de_project_id d; br_deployment_id := de_deployment_id d;
     br_workspace := dw_root (de_workspace d); br_source := dw_source (de_workspace d);
     br_image := de_image d; br_requested := dp_builder (de_payload d) |}.
Definition deployment_route (d : Deployment) : RouteSpec :=
  {| rs_project_id := de_project_id d; rs_deployment_id := de_deployment_id d;
     rs_domain := dp_domain (de_payload d); rs_upstream := de_container d;
     rs_port := dp_container_port (de_payload d) |}.
Definition committed_result (d : Deployment) : Value :=
  Object [("requested_resources", resource_limits_value (dp_resources (de_payload d)));
          ("applied_resources", applied_resources_value (de_resources d))].

(** Routes that a running workload owns. *)
Definition workload_up (w : RuntimeWorkload) : bool := status_is (wl_status w) "up".
Definition routable_routes (report : RuntimeReconciliationReport) : list RouteIdentity :=
  List.map (fun w => {| ri_project_id := wl_project_id w; ri_deployment_id := Some (wl_deployment_id w) |})
    (List.filter workload_up (workloads report)).

(** ** Deployment *)
Section Deploy.
Context {Op : Type -> Type} `{!WorkspaceManager Op} `{!ProjectInspector Op} `{!ImageBuilder Op}
  `{!ContainerEngine Op} `{!HealthChecker Op} `{!RouteManager Op} `{!RuntimeReporter Op} `{!Ambient Op}
  `{!Clock Op} `{!DeploymentGuards Op} `{!Awaits Op}.
Context (url_parse : string -> Result string ParsedUrl) (cfg : ExecutorConfig).

(** [tokio::time::timeout]: a future whose deadline passed is dropped. *)
Definition timed {A} (operation : string) (d : Duration) (p : Async Op RuntimeError A) : Async Op RuntimeError A :=
  raced <~ race_at (deadline_elapsed operation d) p ;;
  match raced with
  | inl result => Ret result
  | inr _ => _ <~ drop_phase ;; err (Timeout operation (as_secs d))
  end.

(** Code that holds a guard: released where the code ends. *)
Definition holding {A} (release : Prog Op ()) (p : Async Op RuntimeError A) : Async Op RuntimeError A :=
  result <~ p ;; _ <~ release ;; Ret result.

Definition build_phase (d : Deployment) : Async Op RuntimeError BuildOutput :=
  acquired <~ acquire_build_permit ;;
  if negb (acquired : bool) then err (Execution "build concurrency scheduler is unavailable")
  else
    holding release_build_permit
      (emit_event "deployment.build.started" "Preparing application image."
         (Object [("requested_builder", Str (serde_name (dp_builder (de_payload d))))]) ;;;
       timed "deployment-build" (at_build (de_timeouts d)) (ib_build (build_request d))).

Definition start_phase (d : Deployment) : Async Op RuntimeError () :=
  emit_event "deployment.container.started" "Starting candidate application container."
    (Object [("container", Str (de_container d)); ("image", Str (de_image d))]) ;;;
  timed "deployment-start" (at_start (de_timeouts d))
    (_ <~ lock_admission ;;
     holding unlock_admission
       (ce_ensure_capacity (de_project_id d) ;;; ce_start (run_request d)) ;;;
     wait_until_ready (de_container d)).

(** Up to the cutover; what follows it cannot undo it any more. *)
Definition candidate_phase (d : Deployment) : Async Op RuntimeError BuildOutput :=
  output <- build_phase d ;;
  start_phase d ;;;
  activate (deployment_route d) ;;;
  ok output.

Definition commit_phase (d : Deployment) (output : BuildOutput) : Async Op RuntimeError () :=
  _ <~ route_flag_store ;;
  _ <~ mark_deployment_committed (with_result (committed_result d)) ;;
  _ <~ warn_on_error ("startup log collection warning for " +:+ de_container d)
         (ce_report_startup_logs (de_container d)) ;;
  finalization_error <~ warn_on_error
    ("previous container cleanup warning for project " +:+ uuid_text (de_project_id d))
    (ce_cleanup_previous (de_project_id d) (de_container d)) ;;
  (* a ready event that cannot be reported is only traced *)
  _ <~ emit_event "deployment.runtime.ready" "Application container and route are ready."
         (Object [("builder", Str (serde_name (bo_builder output))); ("container", Str (de_container d));
                  ("domain", Str (dp_domain (de_payload d))); ("image", Str (de_image d));
                  ("resources", applied_resources_value (de_resources d))]) ;;
  _ <~ ce_start_log_follower (de_container d) (Some (de_command_id d)) (dp_log_bounds (de_payload d)) ;;
  match finalization_error with
  | Some e => err e
  | None => ok ()
  end.

Definition deploy_inner (d : Deployment) : Async Op RuntimeError () :=
  output <- candidate_phase d ;; commit_phase d output.

Definition ensure_workspace_capacity : Async Op RuntimeError () :=
  available <- wm_available_disk_bytes ;;
  if (available <? ec_min_workspace_free_bytes cfg)%N
  then err (DiskPressure ("workspace has " +:+ pretty available +:+ " free bytes; node requires at least "
              +:+ pretty (ec_min_workspace_free_bytes cfg) +:+ " bytes before a deployment build"))
  else ok ().

(** What precedes the workspace: validation, resolution, admission. *)
Definition prepare_deployment (q : DeployProjectRequest) : Async Op RuntimeError Deployment :=
  let payload := dq_payload q in
  lift (validate_payload url_parse payload) ;;;
  timeouts <- lift (resolve_timeouts (ec_timeout_safety cfg) (dp_timeouts payload)) ;;
  resources <- lift (ce_resolve_resources (dp_resources payload)) ;;
  source <- lift (deployment_source url_parse payload (dq_credential q)) ;;
  ensure_workspace_capacity ;;;
  ce_ensure_capacity (dq_project_id q) ;;;
  emit_event "deployment.resources.resolved" "Runtime resource request passed node safety checks."
    (Object [("requested", resource_limits_value (dp_resources payload));
             ("applied", applied_resources_value resources)]) ;;;
  emit_event "deployment.timeouts.resolved" "Runtime timeout request passed node safety checks."
    (Object [("build_timeout_seconds", num (as_secs (at_build timeouts)));
             ("start_timeout_seconds", num (as_secs (at_start timeouts)))]) ;;;
  emit_event "deployment.checkout.started" "Cloning repository at the requested commit."
    (Object [("commit_sha", Str (dp_commit_sha payload))]) ;;;
  workspace <- wm_checkout (dq_command_id q) source ;;
  ok {| de_command_id := dq_command_id q; de_project_id := dq_project_id q;
        de_deployment_id := dq_deployment_id q; de_payload := payload; de_workspace := workspace;
        de_resources := resources; de_timeouts := timeouts |}.

(** The pipeline raced against the token: a token that is cancelled after the
    cutover lets it finish. *)
Definition settle (raced : Result RuntimeError () + Async Op RuntimeError ()) : Async Op RuntimeError () :=
  match raced with
  | inl result => Ret result
  | inr rest =>
      activated <~ route_flag_load ;;
      if activated : bool then rest else err CancelledError
  end.
Definition clean_candidate (d : Deployment) (result : Result RuntimeError ()) : Prog Op () :=
  match result with
  | Ok _ => Ret ()
  | Err _ =>
      activated <~ route_flag_load ;;
      if activated : bool then Ret ()
      else _ <~ warn_on_error ("candidate cleanup warning for " +:+ de_container d)
                  (ce_cleanup_candidate (de_container d) (de_image d)) ;; Ret ()
  end.
(** The suspended future lives to the end of the function, behind the
    cleanups. *)
Definition execute_deployment (d : Deployment) : Async Op RuntimeError () :=
  _ <~ route_flag_new ;;
  raced <~ race_at is_cancelled (deploy_inner d) ;;
  result <~ settle raced ;;
  _ <~ clean_candidate d result ;;
  _ <~ warn_on_error ("workspace cleanup warning for " +:+ dw_root (de_workspace d))
         (wm_cleanup (de_workspace d)) ;;
  _ <~ match raced with inl _ => Ret () | inr _ => drop_deployment end ;;
  Ret result.

Definition run_deployment (q : DeployProjectRequest) : Async Op RuntimeError CommandOutput :=
  d <- prepare_deployment q ;;
  execute_deployment d ;;;
  ok (with_result (deploy_result_value
        {| dr_requested_resources := dp_resources (de_payload d); dr_applied_resources := de_resources d;
           dr_finalization_deferred := false; dr_finalization_deferred_reason := None |})).

(** The inspection raced against the token by a [select!] without bias: an
    inspection that is ready may still lose. *)
Definition run_inspection (q : InspectProjectRequest) : Async Op RuntimeError CommandOutput :=
  source <- lift (inspection_source url_parse (iq_payload q) (iq_credential q)) ;;
  emit_event "project.inspection.started" "Checking out repository for project preview."
    (Object [("commit_sha", Str (src_commit_sha source))]) ;;;
  workspace <- wm_checkout (iq_command_id q) source ;;
  raced <~ race_at is_cancelled (pi_inspect workspace (without_credential source)) ;;
  result <~ match raced with
            | inl result => lost <~ is_cancelled ;; Ret (if lost : bool then Err CancelledError else result)
            | inr _ => err CancelledError
            end ;;
  cleaned <~ wm_cleanup workspace ;;
  inspection <- lift result ;;
  lift cleaned ;;;
  emit_event "project.inspection.completed" "Project stack preview is ready."
    (Object [("dockerfile_found", Bool (pi_dockerfile_found inspection));
             ("package_manager", opt_value Str (pi_package_manager inspection))]) ;;;
  ok (with_result (project_inspection_value inspection)).
End Deploy.

(** ** Lifecycle of deployed workloads *)
Section Lifecycle.
Context {Op : Type -> Type} `{!WorkspaceManager Op} `{!ContainerEngine Op} `{!HealthChecker Op}
  `{!RouteManager Op} `{!RuntimeReporter Op} `{!Ambient Op} `{!DeploymentGuards Op}.
Context (cfg : ExecutorConfig).

Definition find_workload (q : WorkloadLifecycleRequest) : Async Op RuntimeError ManagedWorkload :=
  found <- ce_workload (lq_project_id q) (lq_deployment_id q) ;;
  lift (ok_or found WorkloadNotFound).
Definition workload_identity (w : ManagedWorkload) : Value :=
  Object [("project_id", Str (uuid_text (mw_project_id w)));
          ("deployment_id", Str (uuid_text (mw_deployment_id w)))].
Definition status_output (status : string) : CommandOutput := with_result (Object [("status", Str status)]).

Definition workload_route (w : ManagedWorkload) : RouteSpec :=
  {| rs_project_id := mw_project_id w; rs_deployment_id := mw_deployment_id w; rs_domain := mw_domain w;
     rs_upstream := container_name (mw_project_id w) (mw_deployment_id w); rs_port := mw_port w |}.
Definition activate_workload (w : ManagedWorkload) : Async Op RuntimeError () :=
  wait_until_ready (mw_container_id w) ;;; activate (workload_route w).

Definition run_restart (q : WorkloadLifecycleRequest) : Async Op RuntimeError CommandOutput :=
  w <- find_workload q ;;
  if negb (is_up w) then err WorkloadNotRunning
  else
    ce_restart w 10 ;;;
    activate_workload w ;;;
    emit_event "workload.restart.completed" "Workload restarted and route revalidated." (workload_identity w) ;;;
    ok (status_output "ready").

Definition run_stop (q : WorkloadLifecycleRequest) (remove : bool) : Async Op RuntimeError CommandOutput :=
  found <- ce_workload (lq_project_id q) (lq_deployment_id q) ;;
  match found with
  | None =>
      if remove then
        deactivate {| ri_project_id := lq_project_id q; ri_deployment_id := Some (lq_deployment_id q) |} ;;;
        ok (status_output "already_stopped")
      else err WorkloadNotFound
  | Some w =>
      ce_stop w 10 ;;;
      deactivate {| ri_project_id := mw_project_id w; ri_deployment_id := Some (mw_deployment_id w) |} ;;;
      (if remove then ce_remove w else ok ()) ;;;
      emit_event (if remove then "workload.stop.completed" else "workload.sleep.completed")
        (if remove then "Workload stopped and container removed; image is retained."
         else "Workload stopped for sleep; container and image are retained.") (workload_identity w) ;;;
      ok (status_output (if remove then "stopped" else "sleeping"))
  end.

Definition run_wake (q : WorkloadLifecycleRequest) : Async Op RuntimeError CommandOutput :=
  w <- find_workload q ;;
  ce_start_existing w ;;;
  activate_workload w ;;;
  emit_event "workload.wake.completed" "Sleeping workload is ready and its route is restored."
    (workload_identity w) ;;;
  ok (status_output "ready").

Definition run_health_check (q : WorkloadLifecycleRequest) : Async Op RuntimeError CommandOutput :=
  w <- find_workload q ;;
  let running := is_up w in
  readiness <- attempt (if running then wait_until_ready (mw_container_id w) else err WorkloadNotRunning) ;;
  let reason := match readiness with Ok _ => None | Err e => Some (runtime_error_text e) end in
  ok (with_result (Object [("container_id", Str (mw_container_id w)); ("running", Bool running);
                           ("ready", Bool (is_ok readiness)); ("docker_status", Str (mw_status w));
                           ("reason", opt_value Str reason)])).

Definition run_refresh_route (q : WorkloadLifecycleRequest) : Async Op RuntimeError CommandOutput :=
  w <- find_workload q ;;
  if negb (is_up w) then err WorkloadNotRunning
  else activate_workload w ;;; ok (status_output "ready").

(** ** Reconciliation, recovery, cleanup *)

Definition run_reconcile : Async Op RuntimeError RuntimeReconciliationReport :=
  report <- ce_detect_orphans ;;
  routes <- discover_stale_routes (routable_routes report) ;;
  images <- ce_detect_stale_images (ec_image_gc_max_age cfg) ;;
  cleaned <- wm_cleanup_stale (ec_workspace_gc_max_age cfg) ;;
  ok {| inspected_containers := inspected_containers report; cleaned_workspaces := cleaned;
        reclaimed_image_bytes := reclaimed_image_bytes report; workloads := workloads report;
        orphans := orphans report; stale_routes := routes; stale_images := images;
        reattached_log_followers := reattached_log_followers report;
        recovered_execution_records := recovered_execution_records report;
        compatibility_issues := compatibility_issues report |}.

Definition add_issue (report : RuntimeReconciliationReport) (w : RuntimeWorkload) (reason : string)
  : RuntimeReconciliationReport :=
  {| inspected_containers := inspected_containers report; cleaned_workspaces := cleaned_workspaces report;
     reclaimed_image_bytes := reclaimed_image_bytes report; workloads := workloads report;
     orphans := orphans report; stale_routes := stale_routes report; stale_images := stale_images report;
     reattached_log_followers := reattached_log_followers report;
     recovered_execution_records := recovered_execution_records report;
     compatibility_issues := compatibility_issues report ++
       [{| ci_container_id := wl_container_id w; ci_project_id := wl_project_id w;
           ci_deployment_id := wl_deployment_id w; ci_reason := reason |}] |}.
Definition count_recovered (report : RuntimeReconciliationReport) (followers : N) : RuntimeReconciliationReport :=
  {| inspected_containers := inspected_containers report; cleaned_workspaces := cleaned_workspaces report;
     reclaimed_image_bytes := reclaimed_image_bytes report; workloads := workloads report;
     orphans := orphans report; stale_routes := stale_routes report; stale_images := stale_images report;
     reattached_log_followers := (reattached_log_followers report + followers)%N;
     recovered_execution_records := (recovered_execution_records report + 1)%N;
     compatibility_issues := compatibility_issues report |}.

Definition recover_workload (factory : bool) (report : RuntimeReconciliationReport) (discovered : RuntimeWorkload)
  : Async Op RuntimeError RuntimeReconciliationReport :=
  found <- attempt (ce_workload (wl_project_id discovered) (wl_deployment_id discovered)) ;;
  match found with
  | Ok None => ok report
  | Err e => ok (add_issue report discovered
      ("managed workload metadata is incompatible with this Agent: " +:+ runtime_error_text e
       +:+ "; redeploy is required"))
  | Ok (Some w) =>
      match mw_command_id w with
      | None => ok (add_issue report discovered
          "managed workload predates recovery command-id labels; redeploy is required")
      | Some command_id =>
          if negb (is_up w) || negb factory then ok (count_recovered report 0)
          else
            started <~ ce_start_log_follower (mw_container_id w) (Some command_id) (mw_log_bounds w) ;;
            ok (count_recovered report (if started : bool then 1 else 0))
      end
  end.
Definition run_recover (factory : bool) : Async Op RuntimeError RuntimeReconciliationReport :=
  report <- run_reconcile ;; fold_each (recover_workload factory) report (workloads report).

Definition run_capacity : Async Op RuntimeError RuntimeCapacity :=
  capacity <- ce_capacity ;;
  available <~ available_build_permits ;;
  ok {| active_workloads := active_workloads capacity; stopped_workloads := stopped_workloads capacity;
        maximum_active_workloads := maximum_active_workloads capacity;
        active_builds := Some (ec_max_concurrent_builds cfg - available)%N;
        maximum_concurrent_builds := Some (ec_max_concurrent_builds cfg) |}.
End Lifecycle.

Section Reconcile.
Context {Op : Type -> Type} `{!WorkspaceManager Op} `{!ContainerEngine Op} `{!HealthChecker Op}
  `{!RouteManager Op} `{!RuntimeReporter Op} `{!Ambient Op}.
Context (cfg : ExecutorConfig).

Definition actual_state (found : option ManagedWorkload) : string :=
  match found with
  | None => "missing"
  | Some w => if is_up w then "running" else "stopped"
  end.
Definition desired_state_name (s : DesiredWorkloadState) : string :=
  match s with WantRunning => "running" | WantStopped => "stopped" | WantMissing => "missing" end.

Definition restart_follower (factory : bool) (w : ManagedWorkload) : Async Op RuntimeError Value :=
  if negb (is_up w) then err WorkloadNotRunning
  else match mw_command_id w with
  | None => err (InvalidCommand "managed workload predates recovery command-id labels; redeploy is required before its log follower can be restarted")
  | Some command_id =>
      if negb factory
      then err (InvalidCommand "restart_log_follower requires a connected control plane reporter")
      else
        started <~ ce_start_log_follower (mw_container_id w) (Some command_id) (mw_log_bounds w) ;;
        ok (Object [("action", Str "restart_log_follower"); ("started", Bool started);
                    ("command_id", Str (uuid_text command_id))])
  end.
Definition cleanup_failed (w : ManagedWorkload) : Async Op RuntimeError Value :=
  if negb (existsb (status_is (mw_status w)) ["created"; "exited"; "dead"])
  then err (InvalidCommand "cleanup_failed_candidate requires a Created, Exited, or Dead workload")
  else
    ce_remove w ;;;
    ok (Object [("action", Str "cleanup_failed_candidate"); ("container_id", Str (mw_container_id w))]).
Definition restore_route (w : ManagedWorkload) : Async Op RuntimeError Value :=
  if negb (is_up w) then err WorkloadNotRunning
  else activate_workload w ;;; ok (Object [("action", Str "restore_route")]).

Definition apply_action (factory : bool) (found : option ManagedWorkload) (applied : list Value)
  (a : ReconcileWorkloadAction) : Async Op RuntimeError (list Value) :=
  cancelled <~ is_cancelled ;;
  if cancelled : bool then err CancelledError
  else
    w <- lift (ok_or found WorkloadNotFound) ;;
    value <- match a with
             | RestartLogFollower => restart_follower factory w
             | CleanupFailedCandidate => cleanup_failed w
             | RestoreRoute => restore_route w
             end ;;
    ok (applied ++ [value]).

Definition run_reconcile_workload (q : ReconcileWorkloadRequest) : Async Op RuntimeError CommandOutput :=
  cancelled <~ is_cancelled ;;
  if cancelled : bool then err CancelledError
  else
    found <- ce_workload (rq_project_id q) (rq_deployment_id q) ;;
    let actual := actual_state found in
    let desired := desired_state_name (rq_desired_state q) in
    applied <- fold_each (apply_action (rq_reporter_factory q) found) [] (rq_actions q) ;;
    ok (with_result (Object [("desired_state", Str desired); ("actual_state", Str actual);
          ("in_sync", Bool (bool_decide (desired = actual)));
          ("drift_reason", if bool_decide (desired = actual) then Null else Str "workload_state_mismatch");
          ("container_id", opt_value Str (mw_container_id <$> found));
          ("actions_applied", Array applied)])).

Record CleanupTotals := { ct_workspaces : N; ct_image_bytes : N; ct_routes : N }.
Definition cleanup_target (t : CleanupTotals) (target : RuntimeCleanupTarget) : Async Op RuntimeError CleanupTotals :=
  cancelled <~ is_cancelled ;;
  if cancelled : bool then err CancelledError
  else match target with
  | StaleWorkspaces =>
      n <- wm_cleanup_stale (ec_workspace_gc_max_age cfg) ;;
      ok {| ct_workspaces := ct_workspaces t + n; ct_image_bytes := ct_image_bytes t; ct_routes := ct_routes t |}%N
  | StaleImages =>
      n <- ce_cleanup_stale_images (ec_image_gc_max_age cfg) ;;
      ok {| ct_workspaces := ct_workspaces t; ct_image_bytes := ct_image_bytes t + n; ct_routes := ct_routes t |}%N
  | StaleRoutes =>
      discovered <- ce_detect_orphans ;;
      n <- cleanup_stale_routes (routable_routes discovered) ;;
      ok {| ct_workspaces := ct_workspaces t; ct_image_bytes := ct_image_bytes t; ct_routes := ct_routes t + n |}%N
  end.
Definition run_cleanup (q : CleanupRuntimeRequest) : Async Op RuntimeError CommandOutput :=
  if negb (cq_approved q) then err (InvalidCommand "runtime cleanup requires explicit approval")
  else
    t <- fold_each cleanup_target {| ct_workspaces := 0; ct_image_bytes := 0; ct_routes := 0 |} (cq_targets q) ;;
    ok (with_result (Object [("approved", Bool true); ("cleaned_workspaces", num (ct_workspaces t));
                             ("cleaned_routes", num (ct_routes t));
                             ("reclaimed_image_bytes", num (ct_image_bytes t))])).
End Reconcile.

(** ** Preflight *)
Section Preflight.
Context {Op : Type -> Type} `{!ProcessRunner Op} `{!FileSystem Op}.
Context (cfg : ExecutorConfig).

Definition fatal_check (name : string) (ready : bool) (detail : string) : RuntimePreflightCheck :=
  {| pc_name := name; pc_fatal := true; pc_ready := ready; pc_detail := detail |}.
Definition command_check (name : string) (c : CommandSpec) : Prog Op RuntimePreflightCheck :=
  outcome <~ runner_run c NullOutputSink ;;
  Ret match outcome with
      | Ok output =>
          if po_success output then fatal_check name true (trim (po_stdout output))
          else fatal_check name false ("command exited with status " +:+ status_debug (po_code output))
      | Err e => fatal_check name false (runtime_error_text e)
      end.
Definition directory_check (name path : string) : Prog Op RuntimePreflightCheck :=
  created <~ fs_create_dir_all path ;;
  Ret match created with
      | Ok _ => fatal_check name true path
      | Err e => fatal_check name false (path +:+ ": " +:+ io_text e)
      end.

Definition preflight_commands : list (string * CommandSpec) :=
  [("git", command "git" ["--version"]);
   ("docker", command "docker" ["version"; "--format"; "{{.Server.Version}}"]);
   ("docker-buildx", command "docker" ["buildx"; "version"]);
   ("railpack", command "railpack" ["--version"]);
   ("caddy-routing", command "docker" ["inspect"; ec_caddy_container cfg]);
   ("runtime-network", command "docker" ["network"; "inspect"; ec_runtime_network cfg]);
   ("workspace-disk", command "df" ["-Pk"; ec_workspace_root cfg])].
Definition preflight_directories : list (string * string) :=
  [("workspace", ec_workspace_root cfg); ("caddy-sites", ec_caddy_sites_dir cfg)].

Fixpoint collect {A} (f : A -> Prog Op RuntimePreflightCheck) (l : list A) : Prog Op (list RuntimePreflightCheck) :=
  match l with
  | [] => Ret []
  | x :: rest => c <~ f x ;; cs <~ collect f rest ;; Ret (c :: cs)
  end.
Definition run_preflight : Async Op RuntimeError RuntimePreflightReport :=
  commands <~ collect (fun '(name, c) => command_check name c) preflight_commands ;;
  directories <~ collect (fun '(name, path) => directory_check name path) preflight_directories ;;
  ok {| checks := commands ++ directories |}.
End Preflight.

(** ** The executor as the port's interface *)
Section Assembly.
Context {Op : Type -> Type} `{!WorkspaceManager Op} `{!ProjectInspector Op} `{!ImageBuilder Op}
  `{!ContainerEngine Op} `{!HealthChecker Op} `{!RouteManager Op} `{!RuntimeReporter Op} `{!Ambient Op}
  `{!Clock Op} `{!DeploymentGuards Op} `{!Awaits Op} `{!ProcessRunner Op} `{!FileSystem Op}
  `{!TelemetryCollector Op}.
Context (url_parse : string -> Result string ParsedUrl) (cfg : ExecutorConfig).

Definition ported {A} (m : Async Op RuntimeError A) : Async Op RuntimeExecutionError A :=
  with_error to_execution_error m.

Definition docker_executor : RuntimeExecutor Op := {|
  preflight := ported (run_preflight cfg);
  reconcile := ported (run_reconcile cfg);
  recover factory := ported (run_recover cfg factory);
  health_snapshot := ported ce_health_snapshot;
  node_telemetry := t <~ telemetry_snapshot ;; ok t;
  shutdown := _ <~ ce_shutdown ;; ok ();
  capacity := ported (run_capacity cfg);
  inspect_project q := ported (run_inspection url_parse q);
  deploy_project q := ported (run_deployment url_parse cfg q);
  restart_project q := ported (run_restart q);
  stop_project q := ported (run_stop q true);
  sleep_project q := ported (run_stop q false);
  wake_project q := ported (run_wake q);
  health_check q := ported (run_health_check q);
  refresh_route q := ported (run_refresh_route q);
  reconcile_workload q := ported (run_reconcile_workload q);
  cleanup_runtime q := ported (run_cleanup cfg q)
|}.
End Assembly.
