(* ===== verification/Telemetry.v ===== *)
(** Node telemetry (runtime/src/telemetry.rs): probes of the tools, of Docker,
    Caddy, the network and the workspace, and the figures of the host. *)
From S2P Require Import Prelude Text Protocol Async Ports ApiClient RuntimeError Limits Process Routing Containers Workspace Builders Health Executor.

#[local] Open Scope async_scope.

Definition PROBE_TIMEOUT : Duration := from_secs 2.

(** What the collector asks the host besides processes and files: a fresh id
    for its probe file, the exclusive creation of a file, the environment, the
    number of processors, and the cell the tool versions are kept in. *)
Class HostProbe (Op : Type -> Type) : Type := {
  new_probe_id : Prog Op Uuid;
  create_new_file : string -> Prog Op (Result IoError ());
  env_hostname : Prog Op (option string);
  available_parallelism : Prog Op (option N);
  dependencies_get : Prog Op (option Value);
  dependencies_set : Value -> Prog Op ()
}.

(** ** Figures *)

Definition kibibytes (value : option N) : option N := value ≫= fun v => checked_mul_u64 v 1024.

(** [/proc/meminfo], line by line: the last line of a key counts. *)
Definition memory_line (seen : option N * option N) (line : string) : option N * option N :=
  match split_whitespace line with
  | [] => seen
  | key :: rest =>
      let value := kibibytes (head rest ≫= parse_uint u64_max) in
      if bool_decide (key = "MemTotal:"%string) then (value, seen.2)
      else if bool_decide (key = "MemAvailable:"%string) then (seen.1, value)
      else seen
  end.
Definition memory_of (contents : string) : option N * option N :=
  fold_left memory_line (lines contents) (None, None).

(** The fields of the second line of [df -Pk] that is not blank. *)
Definition df_fields (stdout : string) : list string :=
  default [] (split_whitespace <$> (List.filter (fun line => negb (is_empty (trim line))) (lines stdout) !! 1%nat)).
Definition df_number (fields : list string) (i : nat) : option N :=
  kibibytes (fields !! i ≫= parse_uint u64_max).
Definition du_number (stdout : string) : option N :=
  kibibytes (head (split_whitespace stdout) ≫= parse_uint u64_max).

(** ** Probes *)

Section Collector.
Context {Op : Type -> Type} `{!ProcessRunner Op} `{!FileSystem Op} `{!HostProbe Op}.
(** [f64]: its parser, its cast to [u64] and its JSON value. *)
Context {F : Type} (parse_f64 : string -> option F) (f64_as_u64 : F -> N) (f64_value : F -> Value).
Context (workspace_root runtime_network caddy_container : string).

Definition command_ready (c : CommandSpec) (expected_stdout : option string) : Prog Op bool :=
  ran <~ runner_run (with_timeout c PROBE_TIMEOUT) NullOutputSink ;;
  Ret (match ran with
       | Ok output =>
           po_success output &&
           match expected_stdout with
           | Some expected => bool_decide (trim (po_stdout output) = expected)
           | None => true
           end
       | Err _ => false
       end).

Definition probe_path (id : Uuid) : string := path_join workspace_root (".sakala-readiness-" +:+ uuid_text id).
Definition workspace_writable : Prog Op bool :=
  id <~ new_probe_id ;;
  created <~ create_new_file (probe_path id) ;;
  match created with
  | Err _ => Ret false
  | Ok _ => removed <~ fs_remove_file (probe_path id) ;; Ret (is_ok removed)
  end.

Definition docker_info : CommandSpec := command "docker" ["info"; "--format"; "{{.ServerVersion}}"].
Definition caddy_state : CommandSpec := command "docker" ["inspect"; "--format"; "{{.State.Running}}"; caddy_container].
Definition network_state : CommandSpec := command "docker" ["network"; "inspect"; runtime_network].

(** [tokio::join!]: all four run to their end, here one after the other. *)
Definition live_runtime_operational : Prog Op bool :=
  docker <~ command_ready docker_info None ;;
  caddy <~ command_ready caddy_state (Some "true"%string) ;;
  network <~ command_ready network_state None ;;
  workspace <~ workspace_writable ;;
  Ret (docker && caddy && network && workspace).

Definition command_version (p : string) (l : list string) : Prog Op (option string) :=
  ran <~ runner_run (with_timeout (command p l) PROBE_TIMEOUT) NullOutputSink ;;
  Ret (match ran with
       | Ok output =>
           if po_success output
           then let value := trim (po_stdout output) in if is_empty value then None else Some value
           else None
       | Err _ => None
       end).

Definition dependency_versions : Prog Op Value :=
  git <~ command_version "git" ["--version"] ;;
  docker <~ command_version "docker" ["version"; "--format"; "{{.Server.Version}}"] ;;
  buildx <~ command_version "docker" ["buildx"; "version"] ;;
  railpack <~ command_version "railpack" ["--version"] ;;
  Ret (Object [("git", opt_value Str git); ("docker", opt_value Str docker);
               ("buildx", opt_value Str buildx); ("railpack", opt_value Str railpack)]).

(** [OnceCell::get_or_init]. *)
Definition dependencies : Prog Op Value :=
  kept <~ dependencies_get ;;
  match kept with
  | Some v => Ret v
  | None => v <~ dependency_versions ;; _ <~ dependencies_set v ;; Ret v
  end.

Definition read_memory : Prog Op (option N * option N) :=
  contents <~ fs_read_to_string "/proc/meminfo" ;;
  Ret (memory_of (match contents with Ok c => c | Err _ => EmptyString end)).

(** The output of a probe that succeeded. *)
Definition probe_output (c : CommandSpec) : Prog Op (option string) :=
  ran <~ runner_run (with_timeout c PROBE_TIMEOUT) NullOutputSink ;;
  Ret (match ran with Ok output => if po_success output then Some (po_stdout output) else None | Err _ => None end).

Definition disk_resources : Prog Op (option N * option N * option N) :=
  df <~ probe_output (command "df" ["-Pk"; workspace_root]) ;;
  let fields := default [] (df_fields <$> df) in
  du <~ probe_output (command "du" ["-sk"; workspace_root]) ;;
  Ret (df_number fields 1, df_number fields 3, du ≫= du_number).

(** The first word of a file, as a float. *)
Definition first_float (path : string) : Prog Op (option F) :=
  contents <~ fs_read_to_string path ;;
  Ret (match contents with Ok c => head (split_whitespace c) ≫= parse_f64 | Err _ => None end).

Definition snapshot : Prog Op NodeTelemetry :=
  versions <~ dependencies ;;
  runtime_operational <~ live_runtime_operational ;;
  memory <~ read_memory ;;
  disk <~ disk_resources ;;
  hostname <~ env_hostname ;;
  uptime <~ first_float "/proc/uptime" ;;
  cpus <~ available_parallelism ;;
  load <~ first_float "/proc/loadavg" ;;
  Ret {| nt_hostname := hostname; nt_uptime_seconds := f64_as_u64 <$> uptime; nt_cpu_total := cpus;
         nt_cpu_load_1m := f64_value <$> load;
         nt_memory_total_bytes := memory.1; nt_memory_available_bytes := memory.2;
         nt_disk_total_bytes := disk.1.1; nt_disk_available_bytes := disk.1.2; nt_workspace_used_bytes := disk.2;
         nt_runtime_operational := Some runtime_operational; nt_runtime_dependencies := versions |}.

#[export] Instance NodeTelemetryCollector : TelemetryCollector Op := snapshot.
End Collector.
