(* ===== verification/ExecutorOps.v ===== *)
(** The services of the executor as one signature: every call to a service, a
    guard, the reporter or the clock is an operation, so a run of the executor
    is the sequence of its calls. *)
From S2P Require Import Prelude Text Protocol Async Ports ApiClient RuntimeError Limits Process Routing Containers Workspace Builders Health Monitor Executor RoutingFacts.

Inductive ExecOp : Type -> Type :=
(* workspaces, inspector, builder, readiness *)
| WsCheckout (id : Uuid) (s : RepositorySource) : ExecOp (Result RuntimeError DeploymentWorkspace)
| WsCleanup (w : DeploymentWorkspace) : ExecOp (Result RuntimeError ())
| WsCleanupStale (age : Duration) : ExecOp (Result RuntimeError N)
| WsAvailable : ExecOp (Result RuntimeError N)
| SourceInspect (w : DeploymentWorkspace) (s : RepositorySource) : ExecOp (Result RuntimeError ProjectInspection)
| ImageBuild (r : BuildRequest) : ExecOp (Result RuntimeError BuildOutput)
| WaitReady (container : string) : ExecOp (Result RuntimeError ())
(* containers *)
| CeEnsureCapacity (p : Uuid) : ExecOp (Result RuntimeError ())
| CeDetectOrphans : ExecOp (Result RuntimeError RuntimeReconciliationReport)
| CeCapacity : ExecOp (Result RuntimeError RuntimeCapacity)
| CeHealthSnapshot : ExecOp (Result RuntimeError (list RuntimeHealthSnapshot))
| CeWorkload (p d : Uuid) : ExecOp (Result RuntimeError (option ManagedWorkload))
| CeRestart (w : ManagedWorkload) (grace : N) : ExecOp (Result RuntimeError ())
| CeStop (w : ManagedWorkload) (grace : N) : ExecOp (Result RuntimeError ())
| CeStartExisting (w : ManagedWorkload) : ExecOp (Result RuntimeError ())
| CeRemove (w : ManagedWorkload) : ExecOp (Result RuntimeError ())
| CeStart (r : RunContainerRequest) : ExecOp (Result RuntimeError ())
| CeStartupLogs (container : string) : ExecOp (Result RuntimeError ())
| CeFollower (container : string) (id : option Uuid) (b : LogBounds) : ExecOp bool
| CeCleanupPrevious (p : Uuid) (current : string) : ExecOp (Result RuntimeError ())
| CeCleanupCandidate (container image : string) : ExecOp (Result RuntimeError ())
| CeStaleImages (age : Duration) : ExecOp (Result RuntimeError (list RuntimeStaleImage))
| CeCleanupImages (age : Duration) : ExecOp (Result RuntimeError N)
| CeShutdown : ExecOp ()
(* routes *)
| RouteDiscover (known : list RouteIdentity) : ExecOp (Result RuntimeError (list RuntimeStaleRoute))
| RouteActivate (r : RouteSpec) : ExecOp (Result RuntimeError ())
| RouteDeactivate (i : RouteIdentity) : ExecOp (Result RuntimeError bool)
| RouteCleanup (known : list RouteIdentity) : ExecOp (Result RuntimeError N)
(* reporter, clock, token *)
| ReportEvent (e : DeploymentEvent) : ExecOp (Result RuntimeExecutionError ())
| ReportLog (l : DeploymentLog) : ExecOp (Result RuntimeExecutionError ())
| ReportFlush : ExecOp (Result RuntimeExecutionError ())
| MarkCommitted (o : CommandOutput) : ExecOp ()
| AskCommitted : ExecOp bool
| AskCommittedOutput : ExecOp (option CommandOutput)
| ExecNow : ExecOp Z
| ExecCancelled : ExecOp bool
| ExecSleep (d : Duration) : ExecOp ()
| ExecDeadline (operation : string) (d : Duration) : ExecOp bool
(* guards *)
| FlagNew : ExecOp ()
| FlagLoad : ExecOp bool
| FlagStore : ExecOp ()
| AcquirePermit : ExecOp bool
| ReleasePermit : ExecOp ()
| AvailablePermits : ExecOp N
| LockAdmission : ExecOp ()
| UnlockAdmission : ExecOp ()
| DropPhase : ExecOp ()
| DropDeployment : ExecOp ()
(* the files of the route manager, where its steps matter *)
| OnFile X (o : FileOp X) : ExecOp X.
Arguments OnFile {_} _.

(** The node's resource ceilings are the engine's configuration. *)
Section Instances.
Context (safety : ResourceSafetyConfig).

#[export] Instance ExecOp_workspace : WorkspaceManager ExecOp := {
  wm_checkout id s := trigger (WsCheckout id s);
  wm_cleanup w := trigger (WsCleanup w);
  wm_cleanup_stale age := trigger (WsCleanupStale age);
  wm_available_disk_bytes := trigger WsAvailable
}.
#[export] Instance ExecOp_inspector : ProjectInspector ExecOp := fun w s => trigger (SourceInspect w s).
#[export] Instance ExecOp_builder : ImageBuilder ExecOp := fun r => trigger (ImageBuild r).
#[export] Instance ExecOp_health : HealthChecker ExecOp := fun c => trigger (WaitReady c).
#[export] Instance ExecOp_containers : ContainerEngine ExecOp := {
  ce_resolve_resources := resolve_resources safety;
  ce_ensure_capacity p := trigger (CeEnsureCapacity p);
  ce_detect_orphans := trigger CeDetectOrphans;
  ce_capacity := trigger CeCapacity;
  ce_health_snapshot := trigger CeHealthSnapshot;
  ce_workload p d := trigger (CeWorkload p d);
  ce_restart w g := trigger (CeRestart w g);
  ce_stop w g := trigger (CeStop w g);
  ce_start_existing w := trigger (CeStartExisting w);
  ce_remove w := trigger (CeRemove w);
  ce_start r := trigger (CeStart r);
  ce_report_startup_logs c := trigger (CeStartupLogs c);
  ce_start_log_follower c id b := trigger (CeFollower c id b);
  ce_cleanup_previous p c := trigger (CeCleanupPrevious p c);
  ce_cleanup_candidate c i := trigger (CeCleanupCandidate c i);
  ce_detect_stale_images age := trigger (CeStaleImages age);
  ce_cleanup_stale_images age := trigger (CeCleanupImages age);
  ce_shutdown := trigger CeShutdown
}.
End Instances.
#[export] Instance ExecOp_routes : RouteManager ExecOp := {
  discover_stale_routes known := trigger (RouteDiscover known);
  activate r := trigger (RouteActivate r);
  deactivate i := trigger (RouteDeactivate i);
  cleanup_stale_routes known := trigger (RouteCleanup known)
}.
#[export] Instance ExecOp_reporter : RuntimeReporter ExecOp := {
  report_event e := trigger (ReportEvent e);
  report_log l := trigger (ReportLog l);
  report_flush := trigger ReportFlush;
  mark_deployment_committed o := trigger (MarkCommitted o);
  deployment_committed := trigger AskCommitted;
  committed_output := trigger AskCommittedOutput
}.
#[export] Instance ExecOp_ambient : Ambient ExecOp := {
  now_utc := trigger ExecNow;
  is_cancelled := trigger ExecCancelled
}.
#[export] Instance ExecOp_clock : Clock ExecOp := {
  sleep d := trigger (ExecSleep d);
  deadline_elapsed operation d := trigger (ExecDeadline operation d)
}.
#[export] Instance ExecOp_guards : DeploymentGuards ExecOp := {
  route_flag_new := trigger FlagNew;
  route_flag_load := trigger FlagLoad;
  route_flag_store := trigger FlagStore;
  acquire_build_permit := trigger AcquirePermit;
  release_build_permit := trigger ReleasePermit;
  available_build_permits := trigger AvailablePermits;
  lock_admission := trigger LockAdmission;
  unlock_admission := trigger UnlockAdmission;
  drop_phase := trigger DropPhase;
  drop_deployment := trigger DropDeployment
}.

(** The route manager on its files, instead of as one service. *)
Definition ExecOp_fs : FileSystem ExecOp := {|
  fs_create_dir_all d := trigger (OnFile (FCreateDir d));
  fs_read p := trigger (OnFile (FRead p));
  fs_read_to_string p := trigger (OnFile (FReadString p));
  fs_write p c := trigger (OnFile (FWrite p c));
  fs_rename a b := trigger (OnFile (FRename a b));
  fs_remove_file p := trigger (OnFile (FRemove p));
  fs_read_dir d := trigger (OnFile (FReadDir d))
|}.
Definition ExecOp_caddy : CaddyReloader ExecOp := {|
  validate_and_reload := trigger (OnFile CaddyReload);
  reload_after_rollback := trigger (OnFile CaddyReloadAgain)
|}.
Definition caddy_file_routes (parse_uuid : string -> option Uuid) (sites_dir : string) : RouteManager ExecOp :=
  @CaddyFileRouteManager ExecOp ExecOp_fs ExecOp_caddy parse_uuid sites_dir.

(** Cells, the clock, the follower registry and drops are synchronous; every
    other call is awaited. *)
#[export] Instance ExecOp_awaits : Awaits ExecOp := fun X o =>
  match o with
  | MarkCommitted _ | AskCommitted | AskCommittedOutput | ExecNow | ExecCancelled | ExecDeadline _ _
  | FlagNew | FlagLoad | FlagStore | ReleasePermit | AvailablePermits | UnlockAdmission
  | DropPhase | DropDeployment | CeFollower _ _ _ => false
  | _ => true
  end.

(** Answers of a host on which everything works. *)
Definition fine_answer {X} (o : ExecOp X) : X :=
  match o in ExecOp T return T with
  | WsCheckout id _ => Ok (new_workspace ("/builds/" +:+ uuid_text id))
  | WsCleanup _ => Ok ()
  | WsCleanupStale _ => Ok 0%N
  | WsAvailable => Ok u64_max
  | SourceInspect _ s => Ok (inspection_of s [] Null)
  | ImageBuild _ => Ok {| bo_builder := Railpack |}
  | WaitReady _ => Ok ()
  | CeEnsureCapacity _ => Ok ()
  | CeDetectOrphans => Ok default_report
  | CeCapacity => Ok default_capacity
  | CeHealthSnapshot => Ok []
  | CeWorkload _ _ => Ok None
  | CeRestart _ _ | CeStop _ _ => Ok ()
  | CeStartExisting _ | CeRemove _ => Ok ()
  | CeStart _ => Ok ()
  | CeStartupLogs _ => Ok ()
  | CeFollower _ _ _ => true
  | CeCleanupPrevious _ _ | CeCleanupCandidate _ _ => Ok ()
  | CeStaleImages _ => Ok []
  | CeCleanupImages _ => Ok 0%N
  | CeShutdown => ()
  | RouteDiscover _ => Ok []
  | RouteActivate _ => Ok ()
  | RouteDeactivate _ => Ok true
  | RouteCleanup _ => Ok 0%N
  | ReportEvent _ | ReportLog _ => Ok ()
  | ReportFlush => Ok ()
  | MarkCommitted _ => ()
  | AskCommitted => false
  | AskCommittedOutput => None
  | ExecNow => 0%Z
  | ExecCancelled => false
  | ExecSleep _ => ()
  | ExecDeadline _ _ => false
  | FlagNew => ()
  | FlagLoad => false
  | FlagStore => ()
  | AcquirePermit => true
  | ReleasePermit => ()
  | AvailablePermits => 1%N
  | LockAdmission | UnlockAdmission => ()
  | DropPhase | DropDeployment => ()
  | OnFile o => empty_disk (Ok ()) [] _ o
  end.
Definition fine_host : Env ExecOp := fun _ X o => fine_answer o.
