(* ===== verification/ExecutorFacts.v ===== *)
(** A deployment as a transaction: in every run, under failures, deadlines and
    cancellation between any two calls of its services, either the route is cut
    over and stays, or the removal of the candidate is run. *)
From S2P Require Import Prelude Text Protocol Async Ports ApiClient RuntimeError Limits Process Routing Containers Workspace Builders Health Monitor Executor RoutingFacts ExecutorOps.

#[local] Open Scope async_scope.

(** ** The monitor of a deployment *)

Inductive Stage := Fresh | Built | Started | Ready | Routed | Committed.
#[global] Instance Stage_eq_dec : EqDecision Stage. Proof. solve_decision. Defined.
(** The admission lock, and whether capacity was found free under it. *)
Inductive Lock := Unlocked | Locked | Cleared.
#[global] Instance Lock_eq_dec : EqDecision Lock. Proof. solve_decision. Defined.

(** [candidate_removal] and [workspace_removal]: whether the removal was called,
    whatever it answered. *)
Record Progress := MkProgress {
  stage : Stage; permit : bool; lock : Lock; flag : bool;
  candidate_removal : bool; workspace_removal : bool }.

Definition before_cutover (s : Progress) : Prop := stage s <> Routed /\ stage s <> Committed.

Section Monitor.
Context (d : Deployment).

(** Each call of the pipeline, with the arguments of this deployment and only
    in its place; removals at most once; the candidate only before the
    cutover, the previous containers only after it. *)
Definition deployment_allows (s : Progress) X (o : ExecOp X) : Prop :=
  match o with
  | AcquirePermit => stage s = Fresh /\ permit s = false
  | ReleasePermit => permit s = true
  | ImageBuild r => r = build_request d /\ stage s = Fresh /\ permit s = true
  | LockAdmission => lock s = Unlocked /\ stage s = Built /\ permit s = false
  | UnlockAdmission => lock s <> Unlocked
  | CeEnsureCapacity p => p = de_project_id d /\ lock s = Locked
  | CeStart r => r = run_request d /\ stage s = Built /\ lock s = Cleared
  | WaitReady c => c = de_container d /\ stage s = Started /\ lock s = Unlocked
  | RouteActivate r => r = deployment_route d /\ stage s = Ready
  | FlagNew => stage s = Fresh
  | FlagStore => stage s = Routed
  | MarkCommitted o => o = with_result (committed_result d) /\ stage s = Routed /\ flag s = true
  | CeStartupLogs c => c = de_container d /\ stage s = Committed
  | CeCleanupPrevious p c => p = de_project_id d /\ c = de_container d /\ stage s = Committed
  | CeFollower c _ _ => c = de_container d /\ stage s = Committed
  | CeCleanupCandidate c i =>
      c = de_container d /\ i = de_image d /\ before_cutover s /\ candidate_removal s = false
  | WsCleanup w => w = de_workspace d /\ workspace_removal s = false
  | FlagLoad | DropPhase => True
  | DropDeployment => workspace_removal s = true
  | ReportEvent _ | ReportLog _ | ExecNow | ExecCancelled | ExecDeadline _ _ => True
  | _ => False
  end.

(** The flag holds what was stored in it. *)
Definition deployment_plausible (s : Progress) X (o : ExecOp X) (x : X) : Prop :=
  match o in ExecOp T return T -> Prop with
  | FlagLoad => fun b => b = flag s
  | _ => fun _ => True
  end x.

Definition at_stage (s : Progress) (t : Stage) : Progress :=
  MkProgress t (permit s) (lock s) (flag s) (candidate_removal s) (workspace_removal s).
Definition with_lock (s : Progress) (l : Lock) : Progress :=
  MkProgress (stage s) (permit s) l (flag s) (candidate_removal s) (workspace_removal s).
Definition with_permit (s : Progress) (b : bool) : Progress :=
  MkProgress (stage s) b (lock s) (flag s) (candidate_removal s) (workspace_removal s).

(** An outcome moves the deployment on when it is a success; a removal counts
    as attempted whatever it gave. *)
Definition deployment_next (s : Progress) X (o : ExecOp X) (x : X) : Progress :=
  match o in ExecOp T return T -> Progress with
  | AcquirePermit => fun b => with_permit s b
  | ReleasePermit => fun _ => with_permit s false
  | ImageBuild _ => fun r => if is_ok r then at_stage s Built else s
  | LockAdmission => fun _ => with_lock s Locked
  | UnlockAdmission => fun _ => with_lock s Unlocked
  | CeEnsureCapacity _ => fun r => if is_ok r then with_lock s Cleared else s
  | CeStart _ => fun r => if is_ok r then at_stage s Started else s
  | WaitReady _ => fun r => if is_ok r then at_stage s Ready else s
  | RouteActivate _ => fun r => if is_ok r then at_stage s Routed else s
  | FlagNew => fun _ => MkProgress (stage s) (permit s) (lock s) false (candidate_removal s) (workspace_removal s)
  | FlagStore => fun _ => MkProgress (stage s) (permit s) (lock s) true (candidate_removal s) (workspace_removal s)
  | MarkCommitted _ => fun _ => at_stage s Committed
  | CeCleanupCandidate _ _ => fun _ => MkProgress (stage s) (permit s) (lock s) (flag s) true (workspace_removal s)
  | WsCleanup _ => fun _ => MkProgress (stage s) (permit s) (lock s) (flag s) (candidate_removal s) true
  | DropPhase => fun _ => with_lock s Unlocked
  | DropDeployment => fun _ => with_lock (with_permit s false) Unlocked
  | _ => fun _ => s
  end x.

Definition deployment_monitor : Monitor ExecOp Progress :=
  {| allowed := deployment_allows; plausible := deployment_plausible; after_call := deployment_next |}.
End Monitor.

Definition started_progress (f : bool) : Progress := MkProgress Fresh false Unlocked f false false.

Section Pipeline.
Context (safety : ResourceSafetyConfig) (d : Deployment).
#[local] Instance engine : ContainerEngine ExecOp := ExecOp_containers safety.
Abbreviation m := (deployment_monitor d).

Definition uncommitted (s : Progress) : Prop :=
  before_cutover s /\ flag s = false /\ candidate_removal s = false /\ workspace_removal s = false.
Definition unguarded (s : Progress) : Prop := permit s = false /\ lock s = Unlocked.
Definition cut_over (s : Progress) : Prop := s = MkProgress Committed false Unlocked true false false.

Lemma wp_emit event_type message metadata (R : Result RuntimeError () -> Progress -> Prop) (C : Progress -> Prop) s :
  C s -> (forall r, R r s) -> wp m (emit_event event_type message metadata) R C s.
Proof. intros HC HR. cbn. by split_and!. Qed.

Lemma wp_warn {A} what (p : Async ExecOp RuntimeError A) (R : option RuntimeError -> Progress -> Prop) (C : Progress -> Prop) s :
  wp m p (fun r s => match r with Ok _ => R None s | Err e => C s /\ R (Some e) s end) C s ->
  wp m (warn_on_error what p) R C s.
Proof.
  intros H. unfold warn_on_error. apply wp_bind. eapply wp_mono; [|done|exact H].
  intros [a|e] s'; [done|]. intros [HC HR]. cbn. by split_and!.
Qed.

Lemma wp_timed {A} operation limit (p : Async ExecOp RuntimeError A)
  (R : Result RuntimeError A -> Progress -> Prop) (C Cp : Progress -> Prop) s :
  wp m p R Cp s ->
  (forall s, Cp s -> C s /\ R (Err (Timeout operation (as_secs limit))) (with_lock s Unlocked)) ->
  wp m (timed operation limit p) R C s.
Proof.
  intros Hp HC. unfold timed. apply wp_bind. eapply wp_race_at with (Rp := R) (Cp := Cp).
  - intros R' C' s' _ HR'. cbn. by split_and!.
  - exact Hp.
  - by intros a s' HR.
  - intros rest s' Hcut _. cbn. split_and!; [done..|]. intros _ _. by apply HC.
  - intros s' Hs. by apply HC.
Qed.

Lemma wp_holding {A} release (p : Async ExecOp RuntimeError A) (R : Result RuntimeError A -> Progress -> Prop) C s :
  wp m p (fun r s => wp m release (fun _ s => R r s) C s) C s -> wp m (holding release p) R C s.
Proof. intros H. apply wp_bind. eapply wp_mono; [|done|exact H]. intros r s' Hr. by apply wp_bind. Qed.

Ltac state := cbn [allowed plausible after_call deployment_monitor deployment_allows deployment_plausible
  deployment_next at_stage with_lock with_permit is_ok stage permit lock flag candidate_removal workspace_removal
  started_progress] in *.
Ltac easy_state :=
  cbn [wp err ok lift]; unfold uncommitted, before_cutover, unguarded, cut_over in *; state; intuition congruence.
(** One call: permitted, cut or not, and its answer. *)
Ltac op x := apply wp_trigger; state; [try easy_state | try (intros [=]; easy_state) | intros x ?; state].

Ltac step := apply wp_trigger; state; [try easy_state | try (intros [=]; easy_state) | intros ? ?; state].

Lemma build_phase_wp :
  wp m (build_phase d)
    (fun r s => match r with Ok _ => s = MkProgress Built false Unlocked false false false
                           | Err _ => uncommitted s /\ unguarded s end) uncommitted (started_progress false).
Proof.
  unfold build_phase. apply wp_bind. op acquired. destruct acquired; cbn [negb]; [|easy_state].
  apply wp_holding, wp_and_then, wp_emit; [easy_state|]. intros [[]|e]; [|step; easy_state].
  apply wp_timed with (Cp := fun s => uncommitted s /\ permit s = true /\ lock s = Unlocked).
  - op r. destruct r; step; easy_state.
  - intros s Hs. split; [easy_state|]. step; easy_state.
Qed.

Lemma start_phase_wp :
  wp m (start_phase d)
    (fun r s => match r with Ok _ => s = MkProgress Ready false Unlocked false false false
                           | Err _ => uncommitted s /\ unguarded s end) uncommitted
    (MkProgress Built false Unlocked false false false).
Proof.
  unfold start_phase. apply wp_and_then, wp_emit; [easy_state|]. intros [[]|e]; [|easy_state].
  apply wp_timed with (Cp := fun s => uncommitted s /\ permit s = false); [|intros s Hs; easy_state].
  apply wp_bind. step. apply wp_and_then, wp_holding, wp_and_then. op admitted.
  destruct admitted; [|step; easy_state].
  op ran. destruct ran; step; [|easy_state]. op ready. destruct ready; easy_state.
Qed.

Lemma candidate_phase_wp :
  wp m (candidate_phase d)
    (fun r s => match r with Ok _ => s = MkProgress Routed false Unlocked false false false
                           | Err _ => uncommitted s /\ unguarded s end) uncommitted (started_progress false).
Proof.
  unfold candidate_phase. apply wp_and_then. eapply wp_mono; [|done|exact build_phase_wp].
  intros [output|e] s; [|done]. intros ->. apply wp_and_then. eapply wp_mono; [|done|exact start_phase_wp].
  intros [[]|e] s; [|done]. intros ->. apply wp_and_then. op routed. destruct routed; easy_state.
Qed.

Lemma commit_phase_wp output :
  wp m (commit_phase d output) (fun _ s => cut_over s) cut_over (MkProgress Routed false Unlocked false false false).
Proof.
  unfold commit_phase. apply wp_bind. step. apply wp_bind. step. apply wp_bind, wp_warn. op started.
  assert (Hrest : forall started : option RuntimeError,
    wp m (finalization_error <~ warn_on_error
            ("previous container cleanup warning for project " +:+ uuid_text (de_project_id d))
            (ce_cleanup_previous (de_project_id d) (de_container d)) ;;
          _ <~ emit_event "deployment.runtime.ready" "Application container and route are ready."
                 (Object [("builder", Str (serde_name (bo_builder output))); ("container", Str (de_container d));
                          ("domain", Str (dp_domain (de_payload d))); ("image", Str (de_image d));
                          ("resources", applied_resources_value (de_resources d))]) ;;
          _ <~ ce_start_log_follower (de_container d) (Some (de_command_id d)) (dp_log_bounds (de_payload d)) ;;
          match finalization_error with Some e => err e | None => ok () end)
      (fun _ s => cut_over s) cut_over (MkProgress Committed false Unlocked true false false)).
  { intros _. apply wp_bind, wp_warn. op cleaned. destruct cleaned as [[]|e]; [|split; [easy_state|]];
      apply wp_bind, wp_emit; try easy_state; intros ready; apply wp_bind; op follower; easy_state. }
  destruct started as [[]|e]; [|split; [easy_state|]]; apply (Hrest None).
Qed.

(** At a result and at a cut: cut over, or nothing done that is not undone by
    removing the candidate. *)
Definition settled (r : Result RuntimeError ()) (s : Progress) : Prop :=
  cut_over s \/ (uncommitted s /\ unguarded s /\ is_err r = true).
Definition suspended (s : Progress) : Prop := cut_over s \/ uncommitted s.

Lemma deploy_inner_wp : wp m (deploy_inner d) settled suspended (started_progress false).
Proof.
  unfold deploy_inner. apply wp_and_then.
  eapply wp_mono; [| |exact candidate_phase_wp]; [|intros s Hs; by right].
  intros [output|e] s; [|intros [H1 H2]; right; by split_and!]. intros ->.
  eapply wp_mono; [| |exact (commit_phase_wp output)]; intros; by left.
Qed.

Definition final_progress (r : Result RuntimeError ()) (s : Progress) : Prop :=
  workspace_removal s = true /\ permit s = false /\ lock s = Unlocked /\
  ((stage s = Committed /\ candidate_removal s = false) \/
   (before_cutover s /\ candidate_removal s = true /\ is_err r = true)).

Lemma clean_candidate_wp r s :
  settled r s \/ (uncommitted s /\ r = Err CancelledError) ->
  wp m (clean_candidate d r)
    (fun _ s' => (s' = s /\ cut_over s) \/
       (before_cutover s' /\ candidate_removal s' = true /\ workspace_removal s' = false /\ is_err r = true
        /\ permit s' = permit s /\ lock s' = lock s)) (fun _ => True) s.
Proof.
  intros Hs. destruct r as [[]|e].
  - destruct Hs as [[H|(_ & _ & H)]|[_ H]]; [|done..]. cbn. by left.
  - unfold clean_candidate. apply wp_bind. step. subst.
    assert (Hf : (flag s = true /\ cut_over s) \/ (flag s = false /\ uncommitted s))
      by (destruct Hs as [[H|[H _]]|[H _]]; [left; by rewrite H|right; easy_state|right; easy_state]).
    destruct Hf as [[-> H]|[-> H]]; [by left|].
    apply wp_bind, wp_warn. op swept. destruct swept; easy_state.
Qed.

Lemma finish_wp (raced : Result RuntimeError () + Async ExecOp RuntimeError ()) r s :
  settled r s \/ (uncommitted s /\ r = Err CancelledError /\ exists rest, raced = inr rest) ->
  wp m (_ <~ clean_candidate d r ;;
        _ <~ warn_on_error ("workspace cleanup warning for " +:+ dw_root (de_workspace d))
               (wm_cleanup (de_workspace d)) ;;
        _ <~ match raced with inl _ => Ret () | inr _ => drop_deployment end ;;
        Ret r) final_progress (fun _ => True) s.
Proof.
  intros Hs. apply wp_bind. eapply wp_mono; [|done|apply clean_candidate_wp; naive_solver].
  intros [] s' Hs'.
  assert (workspace_removal s' = false) by (destruct Hs' as [[-> Hc]|Hs']; [by rewrite Hc|easy_state]).
  apply wp_bind, wp_warn. op swept.
  assert (Hend : wp m (_ <~ match raced with inl _ => Ret () | inr _ => drop_deployment end ;; Ret r)
    final_progress (fun _ => True)
    (MkProgress (stage s') (permit s') (lock s') (flag s') (candidate_removal s') true)).
  { apply wp_bind. destruct raced as [r'|rest].
    - destruct Hs as [Hs|(_ & _ & ? & ?)]; [|done]. unfold final_progress. cbn [wp].
      destruct Hs' as [[-> Hc]|Hs']; [rewrite Hc; easy_state|].
      destruct Hs as [->|Hs]; easy_state.
    - step. unfold final_progress. cbn [wp].
      destruct Hs' as [[-> Hc]|Hs']; [rewrite Hc; easy_state|easy_state]. }
  destruct swept; [|split; [done|]]; apply Hend.
Qed.

Lemma execute_deployment_wp f :
  wp m (execute_deployment d) final_progress (fun _ => True) (started_progress f).
Proof.
  unfold execute_deployment. apply wp_bind. step. apply wp_bind.
  eapply wp_race_at with (Rp := settled) (Cp := suspended); [|exact deploy_inner_wp| | |done].
  { intros R' C' s' _ HR'. cbn. by split_and!. }
  - intros r s Hr. apply wp_bind. cbn [settle wp]. apply (finish_wp (inl r)). by left.
  - intros rest s Hs Hrest. apply wp_bind. unfold settle. apply wp_bind. step. subst.
    destruct (flag s) eqn:Hf.
    + eapply wp_mono; [|done|exact Hrest]. intros r s' Hr. apply (finish_wp (inr rest)). by left.
    + cbn [wp err]. apply (finish_wp (inr rest)). right.
      destruct Hs as [Hs|Hs]; [by rewrite Hs in Hf|]. eauto.
Qed.
End Pipeline.

(** C1. A deployment is a transaction.  In every run of a deployment whose
    workspace is checked out (whatever its services answer, whichever deadline
    passes and wherever the token is cancelled between two calls of its
    services) in which reading the cutover flag answers what was stored in it
    last, calls happen only in the order of the pipeline and with this
    deployment's arguments: the build under a build permit, the start under the
    admission lock after capacity was found free under it, the route only after
    readiness, the commitment directly behind the cutover, the removal of
    previous containers only after it.  At the end no guard is held, the removal
    of the workspace was called once, whatever it answered, and either the
    deployment is committed and no removal of its candidate was called, or the
    result is an error, no activation of the route succeeded and the removal of
    the candidate was called once, whatever it answered.  Cuts inside a service
    call are C2, C5 and, for the activation of the route, C39. *)
Theorem deployment_transaction safety d f tr r :
  runs (execute_deployment (ContainerEngine0 := ExecOp_containers safety) d) tr r ->
  assumed (deployment_monitor d) (started_progress f) tr ->
  obeys (deployment_monitor d) (started_progress f) tr /\
  final_progress r (final (deployment_monitor d) (started_progress f) tr).
Proof. intros Hr Ha. eapply wp_sound; [apply execute_deployment_wp|exact Hr|exact Ha]. Qed.

(** ** Witnesses *)

Definition sample_payload : DeployProjectPayload :=
  {| dp_repository_url := "https://github.com/gmedia/example-app.git";
     dp_commit_sha := "0123456789abcdef0123456789abcdef01234567"; dp_repository_access := Public;
     dp_domain := "portfolio.run.staging.sakala.dev"; dp_container_port := 3000; dp_builder := Auto;
     dp_environment := [("APP_ENV", "production"); ("PORT", "3000")]; dp_resources := default_resource_limits;
     dp_timeouts := default_timeout_limits; dp_log_bounds := default_log_bounds |}.
Definition sample_deployment : Deployment :=
  {| de_command_id := project_a; de_project_id := project_a; de_deployment_id := deployment_a;
     de_payload := sample_payload; de_workspace := new_workspace "/builds/c1";
     de_resources := {| memory_mb := 512; cpu_millis := 500; pids_limit := 256 |};
     de_timeouts := {| at_build := from_secs 900; at_start := from_secs 120 |} |}.

(** The token is cancelled once a call of a kind was answered. *)
Definition cancelled_after (kind : Call ExecOp -> bool) : Env ExecOp := fun past X o =>
  match o in ExecOp T return T with
  | ExecCancelled => existsb kind past
  | o => fine_answer o
  end.
Definition is_start_call (c : Call ExecOp) : bool :=
  match call_op c with CeStart _ => true | _ => false end.
Definition cancelled_run :=
  run_with (cancelled_after is_start_call)
    (execute_deployment (ContainerEngine0 := ExecOp_containers default_resource_safety) sample_deployment).

Lemma deployment_transaction_witness :
  cancelled_run.2 = Err CancelledError /\
  final_progress cancelled_run.2 (final (deployment_monitor sample_deployment) (started_progress false) cancelled_run.1).
Proof.
  split; [vm_compute; reflexivity|].
  apply (deployment_transaction default_resource_safety sample_deployment false cancelled_run.1 cancelled_run.2).
  - exact (runs_run_from _ _ _).
  - vm_compute. repeat split.
Defined.

(** ** A cutover that is cut *)

Definition previous_route : RouteSpec :=
  {| rs_project_id := project_a; rs_deployment_id := deployment_b; rs_domain := "portfolio.run.staging.sakala.dev";
     rs_upstream := container_name project_a deployment_b; rs_port := 3000 |}.
Definition previous_files : Files := {[ route_path "/sites" project_a := route_content previous_route ]}.

(** The file calls of a run, and a removal of the candidate. *)
Definition file_call (c : Call ExecOp) : option (Call FileOp) :=
  match call_op c in ExecOp T return T -> option (Call FileOp) with
  | OnFile o => fun x => Some (MkCall o x)
  | _ => fun _ => None
  end (call_answer c).
Definition is_rename (c : Call ExecOp) : bool :=
  match call_op c with OnFile o => match o with FRename _ _ => true | _ => false end | _ => false end.
Definition removes_candidate (c : Call ExecOp) : bool :=
  match call_op c with CeCleanupCandidate _ _ => true | _ => false end.

Definition previous_disk : Env FileOp := fun past X o =>
  match o in FileOp T return T with
  | FRead _ => Ok (route_content previous_route)
  | o => empty_disk (Ok tt) past _ o
  end.

(** The token is cancelled while Caddy validates the new route. *)
Definition cut_cutover_env : Env ExecOp := fun past X o =>
  match o in ExecOp T return T with
  | OnFile o => previous_disk [] _ o
  | o => cancelled_after is_rename past _ o
  end.
Definition cut_cutover_run :=
  run_with cut_cutover_env
    (execute_deployment (ContainerEngine0 := ExecOp_containers default_resource_safety)
       (RouteManager0 := caddy_file_routes (fun _ => None) "/sites") sample_deployment).

(** C39. A cancellation while the route is being activated leaves the new route
    file behind.  The run is cancelled between the rename of the route file and
    Caddy's answer: the result is the cancellation and the candidate is removed,
    but nothing restores the route file, so the previous deployment's route is
    replaced by one to the removed candidate. *)
Theorem cancelled_cutover_leaves_route :
  cut_cutover_run.2 = Err CancelledError /\
  existsb removes_candidate cut_cutover_run.1 = true /\
  exists f', replay previous_files (omap file_call cut_cutover_run.1) f' /\
    f' !! route_path "/sites" project_a = Some (route_content (deployment_route sample_deployment)).
Proof.
  split_and!; [vm_compute; reflexivity|vm_compute; reflexivity|].
  set (path := route_path "/sites" project_a). set (temporary := temporary_path "/sites" project_a).
  set (content := route_content (deployment_route sample_deployment)).
  exists (<[path := content]> (delete temporary (<[temporary := content]> previous_files))).
  split; [|apply lookup_insert_eq].
  assert (omap file_call cut_cutover_run.1 =
    [MkCall (FCreateDir "/sites") (Ok ()); MkCall (FRead path) (Ok (route_content previous_route));
     MkCall (FWrite temporary content) (Ok ()); MkCall (FRename temporary path) (Ok ())]) as ->
    by (vm_compute; reflexivity).
  cbn [replay call_op call_answer file_step].
  exists previous_files. split; [done|]. exists previous_files. split; [split; [done|apply lookup_insert_eq]|].
  eexists. split; [reflexivity|]. eexists. split; [|reflexivity].
  exists content. split; [apply lookup_insert_eq|done].
Qed.
