(* ===== verification/PayloadFacts.v ===== *)
(** Accepted deployments: what validation guarantees of the files that are
    written from a payload, and what a deployment has passed before it changes
    the host. *)
From S2P Require Import Prelude Text Protocol Async Ports ApiClient RuntimeError Limits Process Routing Containers Workspace Builders Health Monitor Executor RoutingFacts ExecutorOps ExecutorFacts.

#[local] Open Scope async_scope.

(** ** Validation *)

(** Bytes a line of the env file or the route file may hold. *)
Definition line_byte (c : ascii) : bool := negb (bool_decide (c = LF) || bool_decide (c = CR)).
Definition one_line (s : string) : Prop := Forall (fun c => c <> LF /\ c <> CR) (bytes_of s).

Lemma one_line_app a b : one_line a -> one_line b -> one_line (a +:+ b).
Proof. unfold one_line. rewrite bytes_of_app. by apply Forall_app_2. Qed.
Lemma one_line_class (f : ascii -> bool) s :
  forallb (fun b => forallb (fun c => negb (f c) || line_byte c) [b]) [LF; CR] = true ->
  Forall (fun c => f c = true) (bytes_of s) -> one_line s.
Proof.
  intros Hf Hs. eapply Forall_impl; [exact Hs|]. intros c Hc. cbn in Hf.
  rewrite !andb_true_r in Hf. apply andb_true_iff in Hf as [H1 H2].
  split; intros ->; rewrite Hc in *; done.
Qed.
Lemma one_line_literal s : forallb line_byte (bytes_of s) = true -> one_line s.
Proof.
  intros H. apply Forall_forall. intros c Hc. rewrite forallb_forall in H.
  specialize (H c (proj1 (list_elem_of_In _ _) Hc)). unfold line_byte in H.
  rewrite negb_true_iff, orb_false_iff, !bool_decide_eq_false in H. done.
Qed.
Lemma one_line_pretty (n : N) : one_line (pretty n).
Proof. eapply one_line_class; [|apply digit_bytes_pretty]. done. Qed.
Lemma one_line_uuid u : uuid_wf u -> one_line (uuid_text u).
Proof.
  intros [_ H]. apply (one_line_class uuid_char); [done|]. apply Forall_forall. intros c Hc.
  rewrite forallb_forall in H. by apply H, list_elem_of_In.
Qed.
Lemma one_line_take n s : one_line s -> one_line (str_take n s).
Proof. unfold one_line, str_take. rewrite bytes_of_string_of. apply Forall_take. Qed.
Lemma one_line_env_value v : env_value_safe v = true -> one_line v.
Proof.
  intros H. apply Forall_forall. intros c Hc. unfold env_value_safe in H. rewrite forallb_forall in H.
  specialize (H c (proj1 (list_elem_of_In _ _) Hc)).
  rewrite negb_true_iff, !orb_false_iff, !bool_decide_eq_false in H. tauto.
Qed.

(** [str::split_once('=')], the way a line of an env file is read. *)
Definition env_entry (line : string) : option (string * string) :=
  let l := bytes_of line in
  i ← position (fun c => bool_decide (c = "="%char)) l;
  Some (string_of (take i l), string_of (drop (S i) l)).
Definition env_file_text (environment : list (string * string)) : string :=
  foldr (fun kv text => env_line kv +:+ text) EmptyString environment.

Definition env_ok (kv : string * string) : Prop := valid_env_key kv.1 = true /\ env_value_safe kv.2 = true.

Lemma env_key_bytes k : valid_env_key k = true -> Forall (fun c => env_key_byte c = true) (bytes_of k).
Proof.
  unfold valid_env_key. destruct (bytes_of k) as [|b rest]; [done|]. intros [Hb Hr]%andb_true_iff.
  constructor; [unfold env_key_byte; by rewrite Hb|]. apply Forall_forall. intros c Hc.
  rewrite forallb_forall in Hr. by apply Hr, list_elem_of_In.
Qed.

Lemma position_app {A} (f : A -> bool) a x b :
  Forall (fun c => f c = false) a -> f x = true -> position f (a ++ x :: b) = Some (length a).
Proof. induction 1 as [|c a Hc Ha IH]; cbn; intros Hx; [by rewrite Hx|]. by rewrite Hc, IH. Qed.

Lemma env_entry_line kv : env_ok kv -> env_entry (kv.1 +:+ "=" +:+ kv.2) = Some kv.
Proof.
  destruct kv as [k v]. cbn. intros [Hk _]. unfold env_entry. rewrite !bytes_of_app. cbn [bytes_of app].
  rewrite position_app; [cbn|eapply Forall_impl; [exact (env_key_bytes k Hk)|]|by apply bool_decide_true].
  - rewrite take_app_length. cbn [drop].
    replace (S (length (bytes_of k))) with (length (bytes_of k) + 1)%nat by lia.
    rewrite drop_app_add. change (drop 1 (_ :: bytes_of v)) with (bytes_of v).
    by rewrite !string_of_bytes_of.
  - intros c Hc. apply bool_decide_false. by intros ->.
Qed.

Lemma env_file_lines environment :
  Forall env_ok environment ->
  lines (env_file_text environment) = List.map (fun kv => kv.1 +:+ "=" +:+ kv.2) environment.
Proof.
  intros H.
  assert (env_file_text environment =
    string_of (List.concat (List.map (fun l => l ++ [LF])%list
      (List.map (fun kv => bytes_of (kv.1 +:+ "=" +:+ kv.2)) environment)))) as ->.
  { clear H. induction environment as [|kv rest IH]; [done|]. cbn [env_file_text foldr List.map List.concat].
    fold (env_file_text rest). rewrite IH. unfold env_line.
    rewrite <- (string_of_bytes_of (_ +:+ string_of _)). f_equal.
    rewrite !bytes_of_app, !bytes_of_string_of. unfold newline. rewrite bytes_of_string_of.
    by rewrite <- !app_assoc. }
  rewrite lines_written.
  - rewrite List.map_map. apply map_ext. intros kv. apply string_of_bytes_of.
  - apply Forall_map. eapply Forall_impl; [exact H|]. intros kv [Hk Hv].
    apply one_line_app; [|apply one_line_app; [by apply one_line_literal|by apply one_line_env_value]].
    eapply one_line_class; [|by apply env_key_bytes]. done.
Qed.

Lemma env_file_round_trip environment :
  Forall env_ok environment -> omap env_entry (lines (env_file_text environment)) = environment.
Proof.
  intros H. rewrite env_file_lines by done. induction H as [|kv rest Hkv Hrest IH]; [done|].
  cbn [List.map omap list_omap]. rewrite env_entry_line by done. by rewrite IH.
Qed.

Lemma validate_environment_Ok e : validate_environment e = Ok () -> Forall env_ok e.
Proof.
  induction e as [|[k v] e IH]; cbn; [constructor|]. destruct (valid_env_key k) eqn:Hk; cbn; [|done].
  destruct (env_value_safe v) eqn:Hv; cbn; [|done]. intros H. constructor; [done|auto].
Qed.

Lemma btree_or_insert_ok m k v : Forall env_ok m -> env_ok (k, v) -> Forall env_ok (btree_or_insert m k v).
Proof.
  intros Hm Hkv. induction Hm as [|[k' v'] m H Hm IH]; cbn; [by apply Forall_singleton|].
  repeat case_match; auto.
Qed.

Lemma btree_get_or_insert m k v :
  btree_get (btree_or_insert m k v) k = Some v \/ btree_get (btree_or_insert m k v) k = btree_get m k /\ btree_get m k <> None.
Proof.
  induction m as [|[k' v'] m IH]; cbn; [left; by rewrite bool_decide_true|].
  destruct (bool_decide (k = k')) eqn:E; cbn; rewrite ?E; [by right|].
  destruct (bytes_ltb _ _); cbn; rewrite ?E; [left; by rewrite bool_decide_true|done].
Qed.

Lemma validate_payload_Ok parse p :
  validate_payload parse p = Ok () ->
  validate_repository_source parse (dp_repository_url p) (dp_commit_sha p) = Ok () /\
  (0 < dp_container_port p)%N /\ valid_domain (dp_domain p) = true /\ Forall env_ok (dp_environment p) /\
  forall port, btree_get (dp_environment p) "PORT" = Some port -> parse_uint u16_max port = Some (dp_container_port p).
Proof.
  unfold validate_payload. destruct (validate_repository_source _ _ _) as [[]|]; cbn; [|done].
  destruct (dp_container_port p =? 0)%N eqn:Hp; [done|]. apply N.eqb_neq in Hp.
  destruct (valid_domain _); cbn; [|done].
  destruct (validate_environment _) as [[]|] eqn:He; cbn; [|done]. intros H.
  split_and!; [done|lia|done|by apply validate_environment_Ok|].
  intros port Hport. rewrite Hport in H. by case_bool_decide.
Qed.

Lemma bytes_of_inj a b : bytes_of a = bytes_of b -> a = b.
Proof. intros H. by rewrite <- (string_of_bytes_of a), H, string_of_bytes_of. Qed.
Lemma strip_suffix_app s p : strip_suffix (s +:+ p) p = Some s.
Proof.
  unfold strip_suffix, ends_with. rewrite bytes_of_app, rev_app_distr, bytes_prefix_app.
  rewrite <- !length_bytes_of, bytes_of_app, length_app.
  replace (length (bytes_of s) + length (bytes_of p) - length (bytes_of p))%nat with (length (bytes_of s)) by lia.
  rewrite take_app_length. by rewrite string_of_bytes_of.
Qed.

Lemma split_bytes_class (P : ascii -> Prop) sep l :
  Forall (Forall P) (split_bytes sep l) -> Forall (fun c => P c \/ c = sep) l.
Proof.
  induction l as [|c l IH]; cbn; [constructor|]. case_bool_decide as Hc.
  - intros [_ H]%Forall_cons. constructor; [by right|auto].
  - destruct (split_bytes sep l) as [|piece pieces]; intros [H1 H2]%Forall_cons.
    + constructor; [left; by inversion H1|]. apply IH. constructor.
    + apply Forall_cons in H1 as [Hc1 H1]. constructor; [by left|]. apply IH. by constructor.
Qed.

(** The bytes of an accepted domain. *)
Definition domain_byte (c : ascii) : bool :=
  is_ascii_lowercase c || is_ascii_digit c || bool_decide (c = "-"%char) || bool_decide (c = "."%char).
Lemma valid_domain_bytes s : valid_domain s = true -> forallb domain_byte (bytes_of s) = true.
Proof.
  intros [_ H]%andb_true_iff. apply forallb_forall. intros c Hc.
  assert (Hs : Forall (fun c => is_ascii_lowercase c || is_ascii_digit c || bool_decide (c = "-"%char) = true \/ c = "."%char)
    (bytes_of s)).
  { apply (split_bytes_class (fun c => is_ascii_lowercase c || is_ascii_digit c || bool_decide (c = "-"%char) = true)).
    unfold str_split in H. apply Forall_forall. intros piece Hp. rewrite forallb_forall in H.
    assert (valid_label (string_of piece) = true) as Hl
      by (apply H, in_map, list_elem_of_In, Hp).
    unfold valid_label in Hl. rewrite bytes_of_string_of, !andb_true_iff, forallb_forall in Hl.
    apply Forall_forall. intros b Hb. by apply Hl, list_elem_of_In. }
  rewrite Forall_forall in Hs. unfold domain_byte. destruct (Hs c (proj2 (list_elem_of_In _ _) Hc)) as [->| ->]; [done|].
  by rewrite (bool_decide_true ("."%char = "."%char)), orb_true_r.
Qed.
Lemma one_line_domain s : valid_domain s = true -> one_line s.
Proof.
  intros H%valid_domain_bytes. apply (one_line_class domain_byte); [done|]. apply Forall_forall.
  intros c Hc. rewrite forallb_forall in H. by apply H, list_elem_of_In.
Qed.

(** C33. The environment of an accepted deployment survives the env file: read
    line by line and split at the first [=], the file gives exactly the
    effective environment, in which [PORT] is the port the route points to. *)
Theorem accepted_environment_round_trips parse p :
  validate_payload parse p = Ok () -> (dp_container_port p <= u16_max)%N ->
  let environment := effective_environment (dp_environment p) (dp_container_port p) in
  omap env_entry (lines (env_file_text environment)) = environment /\
  (port ← btree_get environment "PORT"; parse_uint u16_max port) = Some (dp_container_port p).
Proof.
  intros (_ & _ & _ & He & Hport)%validate_payload_Ok Hmax environment. split.
  - apply env_file_round_trip, btree_or_insert_ok; [done|]. split; [done|]. cbn.
    apply forallb_forall. intros c Hc. pose proof (digit_bytes_pretty (dp_container_port p)) as Hd.
    rewrite Forall_forall in Hd. specialize (Hd c (proj2 (list_elem_of_In _ _) Hc)).
    rewrite !bool_decide_false; [done|..]; by intros ->.
  - unfold environment, effective_environment.
    destruct (btree_get_or_insert (dp_environment p) "PORT" (pretty (dp_container_port p))) as [->|[-> Hsome]]; cbn.
    + by apply parse_uint_pretty.
    + destruct (btree_get _ "PORT") as [port|]; [cbn; auto|done].
Qed.

(** The route file of an accepted deployment is one site: read back line
    by line it is the ownership header, the domain on port 80, one proxy
    directive to the deployment's container and the closing brace; the domain
    holds only lowercase letters, digits, dots and dashes, and the header names
    the deployment that recovery reads back. *)
Theorem accepted_route_is_one_site url_parse parse_uuid d :
  validate_payload url_parse (de_payload d) = Ok () ->
  uuid_wf (de_project_id d) -> uuid_wf (de_deployment_id d) ->
  parse_uuid (uuid_text (de_deployment_id d)) = Some (de_deployment_id d) ->
  lines (route_content (deployment_route d)) =
    [MANAGED_ROUTE_PREFIX +:+ uuid_text (de_project_id d) +:+ " deployment " +:+ uuid_text (de_deployment_id d) +:+ ".";
     dp_domain (de_payload d) +:+ ":80 {";
     tab +:+ "reverse_proxy " +:+ de_container d +:+ ":" +:+ pretty (dp_container_port (de_payload d));
     "}"] /\
  forallb domain_byte (bytes_of (dp_domain (de_payload d))) = true /\
  route_deployment parse_uuid (de_project_id d) (route_content (deployment_route d)) = Some (de_deployment_id d).
Proof.
  intros (_ & _ & Hdom & _)%validate_payload_Ok Hp Hd Hparse.
  set (l1 := MANAGED_ROUTE_PREFIX +:+ uuid_text (de_project_id d) +:+ " deployment " +:+ uuid_text (de_deployment_id d) +:+ ".").
  set (l3 := tab +:+ "reverse_proxy " +:+ de_container d +:+ ":" +:+ pretty (dp_container_port (de_payload d))).
  assert (Hlines : lines (route_content (deployment_route d)) = [l1; dp_domain (de_payload d) +:+ ":80 {"; l3; "}"]).
  { assert (route_content (deployment_route d) =
      string_of (List.concat (List.map (fun l => l ++ [LF])%list
        (List.map bytes_of [l1; dp_domain (de_payload d) +:+ ":80 {"; l3; "}"])))) as ->.
    { rewrite <- (string_of_bytes_of (route_content _)). f_equal. unfold route_content, l1, l3. cbn [List.map List.concat].
      rewrite !bytes_of_app. unfold newline. rewrite bytes_of_string_of. cbn [deployment_route rs_project_id
        rs_deployment_id rs_domain rs_upstream rs_port]. by rewrite <- !app_assoc. }
    rewrite lines_written; [rewrite List.map_map; cbn; by rewrite !string_of_bytes_of|].
    apply Forall_map.
    change (Forall one_line [l1; dp_domain (de_payload d) +:+ ":80 {"; l3; "}"]).
    rewrite !Forall_cons. split_and!; [| | | |constructor].
    - repeat apply one_line_app; try (by apply one_line_uuid); by apply one_line_literal.
    - apply one_line_app; [by apply one_line_domain|by apply one_line_literal].
    - unfold l3, de_container, container_name. repeat apply one_line_app; try (by apply one_line_literal).
      + by apply one_line_take, one_line_uuid.
      + by apply one_line_uuid.
      + apply one_line_pretty.
    - by apply one_line_literal. }
  split_and!; [done|by apply valid_domain_bytes|].
  unfold route_deployment. rewrite Hlines. cbn [head].
  assert (strip_prefix l1 (current_prefix (de_project_id d)) = Some (uuid_text (de_deployment_id d) +:+ ".")) as E.
  { rewrite <- (strip_prefix_app (current_prefix (de_project_id d))). f_equal. apply bytes_of_inj.
    unfold l1, current_prefix. rewrite !bytes_of_app. by rewrite <- !app_assoc. }
  cbn. rewrite E. cbn. by rewrite strip_suffix_app.
Qed.

(** ** Admission *)

(** Calls that read the host or report. *)
Definition reads_only (c : Call ExecOp) : Prop :=
  match call_op c with
  | WsAvailable | CeEnsureCapacity _ | ReportEvent _ | ExecNow => True
  | _ => False
  end.

Lemma emit_event_runs ty message metadata tr r :
  runs (emit_event (Op := ExecOp) ty message metadata) tr r -> Forall reads_only tr.
Proof.
  intros (now & t1 & -> & x & t2 & -> & -> & _). by repeat constructor.
Qed.

(** What the admission of a deployment has checked when its trace is [t]. *)
Definition admitted (url_parse : string -> Result string ParsedUrl) (safety : ResourceSafetyConfig)
    (cfg : ExecutorConfig) (q : DeployProjectRequest) (t : list (Call ExecOp)) : Prop :=
  validate_payload url_parse (dq_payload q) = Ok () /\
  (exists limits, resolve_resources safety (dp_resources (dq_payload q)) = Ok limits) /\
  (exists deadlines, resolve_timeouts (ec_timeout_safety cfg) (dp_timeouts (dq_payload q)) = Ok deadlines) /\
  (exists free, In (MkCall WsAvailable (Ok free)) t /\ (ec_min_workspace_free_bytes cfg <= free)%N) /\
  In (MkCall (CeEnsureCapacity (dq_project_id q)) (Ok ())) t.

Definition checkout_of (q : DeployProjectRequest) : RepositorySource :=
  {| src_repository_url := dp_repository_url (dq_payload q); src_commit_sha := dp_commit_sha (dq_payload q);
     src_credential := dq_credential q |}.

(** A failing step or a step that only reads, at the head of a sequence. *)
Lemma and_then_reads {A B} (p : Async ExecOp RuntimeError A) (f : A -> Async ExecOp RuntimeError B) tr r :
  (forall t x, runs p t x -> Forall reads_only t) ->
  runs (and_then p f) tr r ->
  (Forall reads_only tr /\ is_err r = true) \/
  exists t1 t2 a, tr = t1 ++ t2 /\ runs p t1 (Ok a) /\ Forall reads_only t1 /\ runs (f a) t2 r.
Proof.
  intros Hp [(e & H & ->)|(t1 & t2 & a & -> & H & Hf)]%runs_and_then; [left; eauto|right].
  exists t1, t2, a. eauto.
Qed.
Lemma lift_reads {A} (x : Result RuntimeError A) t y : runs (lift x : Async ExecOp _ _) t y -> Forall reads_only t.
Proof. by intros [-> _]. Qed.
Lemma workspace_capacity_runs cfg t r :
  runs (ensure_workspace_capacity (Op := ExecOp) cfg) t r ->
  Forall reads_only t /\ (r = Ok () -> exists free, t = [MkCall WsAvailable (Ok free)] /\
                                        (ec_min_workspace_free_bytes cfg <= free)%N).
Proof.
  intros (x & t' & -> & H). destruct x as [free|e]; cbn in H.
  - destruct (free <? _)%N eqn:E; destruct H as [-> ->]; (split; [by repeat constructor|]); [done|].
    intros _. exists free. apply N.ltb_ge in E. done.
  - destruct H as [-> ->]. split; [by repeat constructor|done].
Qed.

Lemma prepare_deployment_runs url_parse safety cfg q tr r :
  runs (prepare_deployment (ContainerEngine0 := ExecOp_containers safety) url_parse cfg q) tr r ->
  (Forall reads_only tr /\ is_err r = true) \/
  exists t1 x, tr = t1 ++ [MkCall (WsCheckout (dq_command_id q) (checkout_of q)) x] /\
    Forall reads_only t1 /\ admitted url_parse safety cfg q t1.
Proof.
  unfold prepare_deployment.
  intros [?|(? & t & [] & -> & [-> Hv] & _ & H)]%and_then_reads; [by left| |apply lift_reads].
  apply and_then_reads in H as [?|(? & t' & deadlines & -> & [-> Hd] & _ & H)]; [by left| |apply lift_reads].
  apply and_then_reads in H as [?|(? & t'' & limits & -> & [-> Hl] & _ & H)]; [by left| |apply lift_reads].
  apply and_then_reads in H as [?|(? & u & source & -> & [-> Hs] & _ & H)]; [by left| |apply lift_reads].
  assert (source = checkout_of q) as ->.
  { unfold deployment_source, repository_source in Hs. by destruct (validate_repository_source _ _ _) as [[]|]; inversion Hs. }
  cbn [app].
  apply and_then_reads in H as [?|(u1 & u2 & [] & -> & Hfree & R1 & H)]; [by left| |].
  2: { by intros t0 x0 [H0 _]%workspace_capacity_runs. }
  apply workspace_capacity_runs in Hfree as [_ Hfree]. destruct (Hfree eq_refl) as (free & -> & Hmin).
  apply and_then_reads in H as [[R ?]|(v1 & v2 & [] & -> & Hcap & R2 & H)].
  { left. split; [by apply Forall_app_2|done]. }
  2: { intros t0 x0 (y & t1 & -> & -> & ->). by repeat constructor. }
  destruct Hcap as (y & t1 & -> & -> & <-).
  do 3 (apply and_then_reads in H as [[R ?]|(? & ? & [] & -> & _ & ? & H)];
    [left; split; [by repeat apply Forall_app_2|done]| |apply emit_event_runs]).
  right. apply runs_and_then in H as [(e & (z & z2 & -> & -> & _) & _)|(w1 & w2 & w & -> & (z & z2 & -> & -> & _) & -> & _)];
    eexists _, z; rewrite !app_assoc, ?app_nil_r; (split; [reflexivity|]); (split; [by repeat apply Forall_app_2|]);
    (split_and!; [done|by exists limits|by exists deadlines|exists free; split; [|done]|]);
    rewrite !in_app_iff; cbn; tauto.
Qed.

(** C14. Admission precedes every change of the host.  A run of a deployment
    either only reads and reports and ends in an error, or its first other call
    is the checkout of the requested commit, made when the payload was valid,
    its resources and deadlines were within the node's ceilings, the workspace
    had the required free space and the node had room for the container. *)
Theorem admission_precedes_changes url_parse safety cfg q tr r :
  runs (run_deployment (ContainerEngine0 := ExecOp_containers safety) url_parse cfg q) tr r ->
  (Forall reads_only tr /\ is_err r = true) \/
  exists t1 x t2,
    tr = t1 ++ MkCall (WsCheckout (dq_command_id q) (checkout_of q)) x :: t2 /\
    Forall reads_only t1 /\ admitted url_parse safety cfg q t1.
Proof.
  unfold run_deployment. intros [(e & H & ->)|(u1 & u2 & d & -> & H & _)]%runs_and_then.
  - apply prepare_deployment_runs in H as [H|(t1 & x & -> & Hr & Ha)]; [by left|right].
    by exists t1, x, [].
  - apply prepare_deployment_runs in H as [[_ H]|(t1 & x & -> & Hr & Ha)]; [done|right].
    exists t1, x, u2. split; [by rewrite <- app_assoc|done].
Qed.

(** ** Witnesses *)

(** A parser that knows one URL. *)
Definition sample_url : ParsedUrl :=
  {| url_scheme := "https"; url_host := Some "github.com"; url_username := EmptyString; url_password := None;
     url_query := None; url_fragment := None; url_path_segments := Some ["gmedia"; "example-app.git"] |}.
Definition sample_url_parse (s : string) : Result string ParsedUrl :=
  if bool_decide (s = "https://github.com/gmedia/example-app.git") then Ok sample_url else Err "relative URL without a base".
Definition sample_uuid_parse (s : string) : option Uuid :=
  if Nat.eqb (String.length s) 36 then Some (MkUuid s) else None.

Lemma accepted_environment_witness :
  omap env_entry (lines (env_file_text [("APP_ENV", "production"); ("PORT", "3000")]))
    = [("APP_ENV", "production"); ("PORT", "3000")].
Proof.
  apply (accepted_environment_round_trips sample_url_parse sample_payload); vm_compute; [reflexivity|discriminate].
Defined.

Lemma accepted_route_witness :
  route_deployment sample_uuid_parse project_a (route_content (deployment_route sample_deployment)) = Some deployment_a.
Proof.
  apply (accepted_route_is_one_site sample_url_parse sample_uuid_parse sample_deployment); vm_compute;
    [reflexivity|split; reflexivity|split; reflexivity|reflexivity].
Defined.

Definition sample_executor : ExecutorConfig :=
  {| ec_timeout_safety := default_timeout_safety; ec_max_concurrent_builds := 1;
     ec_workspace_gc_max_age := from_secs 86400; ec_image_gc_max_age := from_secs 86400;
     ec_min_workspace_free_bytes := 1073741824; ec_workspace_root := "/builds"; ec_runtime_network := "sakala";
     ec_caddy_sites_dir := "/sites"; ec_caddy_container := "caddy" |}.
Definition sample_request (p : DeployProjectPayload) : DeployProjectRequest :=
  {| dq_command_id := project_a; dq_project_id := project_a; dq_deployment_id := deployment_a;
     dq_payload := p; dq_credential := None |}.
Definition admitted_run :=
  run_with fine_host (run_deployment (ContainerEngine0 := ExecOp_containers default_resource_safety)
    sample_url_parse sample_executor (sample_request sample_payload)).

Lemma admission_witness :
  (Forall reads_only admitted_run.1 /\ is_err admitted_run.2 = true) \/
  exists t1 x t2, admitted_run.1 = t1 ++ MkCall (WsCheckout project_a (checkout_of (sample_request sample_payload))) x :: t2 /\
    Forall reads_only t1 /\ admitted sample_url_parse default_resource_safety sample_executor (sample_request sample_payload) t1.
Proof.
  apply (admission_precedes_changes sample_url_parse default_resource_safety sample_executor
    (sample_request sample_payload) admitted_run.1 admitted_run.2).
  exact (runs_run_from _ _ _).
Defined.
