(* ===== verification/LifecycleFacts.v ===== *)
(** Commands on deployed workloads: what each may do to the container and the
    route it found, in which order, and what its success means. *)
From S2P Require Import Prelude Text Protocol Async Ports ApiClient RuntimeError Limits Process Routing Containers Workspace Builders Health Monitor Executor RoutingFacts ExecutorOps.

#[local] Open Scope async_scope.

Inductive WorkloadCommand :=
| Restart (q : WorkloadLifecycleRequest)
| Stop (q : WorkloadLifecycleRequest)
| Sleep (q : WorkloadLifecycleRequest)
| Wake (q : WorkloadLifecycleRequest)
| Probe (q : WorkloadLifecycleRequest)
| Refresh (q : WorkloadLifecycleRequest)
| Reconcile (q : ReconcileWorkloadRequest).

Definition workload_of (c : WorkloadCommand) : Uuid * Uuid :=
  match c with
  | Restart q | Stop q | Sleep q | Wake q | Probe q | Refresh q => (lq_project_id q, lq_deployment_id q)
  | Reconcile q => (rq_project_id q, rq_deployment_id q)
  end.

Record Seen := MkSeen {
  asked : bool; found : option ManagedWorkload; stopped : bool; unrouted : bool; removed : bool;
  ready : bool; routed : bool }.
Definition nothing_seen : Seen := MkSeen false None false false false false false.

Definition failed_candidate (w : ManagedWorkload) : bool :=
  existsb (status_is (mw_status w)) ["created"; "exited"; "dead"].

Section Monitor.
Context (c : WorkloadCommand).

Definition found_is (s : Seen) (w : ManagedWorkload) : Prop := asked s = true /\ found s = Some w.

(** Only the workload that was asked for is touched: restarted when it runs,
    stopped by stop and sleep, started by wake, removed by stop once its route
    is gone or by reconciliation when it never ran or ended.  A route is
    activated only for a workload that was found ready since, and deactivated
    only with its deployment named, by stop and sleep. *)
Definition workload_allows (s : Seen) X (o : ExecOp X) : Prop :=
  match o with
  | CeWorkload p d => (p, d) = workload_of c /\ asked s = false
  | CeRestart w _ => found_is s w /\ is_up w = true /\ exists q, c = Restart q
  | CeStop w _ => found_is s w /\ exists q, c = Stop q \/ c = Sleep q
  | CeStartExisting w => found_is s w /\ exists q, c = Wake q
  | CeRemove w => found_is s w /\
      ((exists q, c = Stop q) /\ unrouted s = true \/ (exists q, c = Reconcile q) /\ failed_candidate w = true)
  | WaitReady container => exists w, found_is s w /\ container = mw_container_id w
  | RouteActivate r => exists w, found_is s w /\ r = workload_route w /\ ready s = true
  | RouteDeactivate i => asked s = true /\
      match found s with
      | None => (exists q, c = Stop q) /\ i = {| ri_project_id := (workload_of c).1; ri_deployment_id := Some (workload_of c).2 |}
      | Some w => stopped s = true /\ i = {| ri_project_id := mw_project_id w; ri_deployment_id := Some (mw_deployment_id w) |}
      end
  | CeFollower container id b => exists w, found_is s w /\ is_up w = true /\ container = mw_container_id w /\
      id = mw_command_id w /\ is_Some id /\ b = mw_log_bounds w /\ exists q, c = Reconcile q
  | ReportEvent _ | ExecNow | ExecCancelled => True
  | _ => False
  end.

Definition workload_next (s : Seen) X (o : ExecOp X) (x : X) : Seen :=
  match o in ExecOp T return T -> Seen with
  | CeWorkload _ _ => fun r => match r with
      | Ok w => MkSeen true w (stopped s) (unrouted s) (removed s) (ready s) (routed s)
      | Err _ => s end
  | CeRestart _ _ | CeStartExisting _ => fun _ =>
      MkSeen (asked s) (found s) false (unrouted s) (removed s) false (routed s)
  | CeStop _ _ => fun r =>
      MkSeen (asked s) (found s) (is_ok r) (unrouted s) (removed s) false (routed s)
  | WaitReady _ => fun r => MkSeen (asked s) (found s) (stopped s) (unrouted s) (removed s) (is_ok r) (routed s)
  | RouteActivate _ => fun r => MkSeen (asked s) (found s) (stopped s) (unrouted s) (removed s) false (is_ok r)
  | RouteDeactivate _ => fun r => MkSeen (asked s) (found s) (stopped s) (is_ok r) (removed s) (ready s) (routed s)
  | CeRemove _ => fun r => MkSeen (asked s) (found s) (stopped s) (unrouted s) (is_ok r) (ready s) (routed s)
  | _ => fun _ => s
  end x.

Definition workload_monitor : Monitor ExecOp Seen :=
  {| allowed := workload_allows; plausible := fun _ _ _ _ => True; after_call := workload_next |}.

(** What a success says. *)
Definition success_means (s : Seen) : Prop :=
  match c with
  | Restart _ | Wake _ | Refresh _ => is_Some (found s) /\ routed s = true
  | Stop _ => unrouted s = true /\ (found s = None \/ (stopped s = true /\ removed s = true))
  | Sleep _ => is_Some (found s) /\ stopped s = true /\ unrouted s = true
  | Probe _ => is_Some (found s)
  | Reconcile _ => asked s = true
  end.
End Monitor.

Section Commands.
Context (safety : ResourceSafetyConfig).
#[local] Instance engine : ContainerEngine ExecOp := ExecOp_containers safety.

Definition run_command (c : WorkloadCommand) : Async ExecOp RuntimeError CommandOutput :=
  match c with
  | Restart q => run_restart q
  | Stop q => run_stop q true
  | Sleep q => run_stop q false
  | Wake q => run_wake q
  | Probe q => run_health_check q
  | Refresh q => run_refresh_route q
  | Reconcile q => run_reconcile_workload q
  end.

Abbreviation anywhere := (fun _ : Seen => True).
Definition ended (c : WorkloadCommand) (r : Result RuntimeError CommandOutput) (s : Seen) : Prop :=
  is_ok r = true -> success_means c s.

Ltac state := cbn [allowed plausible after_call workload_monitor workload_allows workload_next is_ok workload_of found_is
  asked found stopped unrouted removed ready routed fst snd nothing_seen] in *.
Ltac step x := apply wp_trigger; state; [| done | intros x _; state].
Ltac permitted := unfold found_is; state; split_and?; eauto 10.
Ltac finished_run := cbn [wp err ok lift]; unfold ended, success_means; state; naive_solver.

Lemma wp_event c event_type message metadata (R : Result RuntimeError () -> Seen -> Prop) s :
  (forall r, R r s) -> wp (workload_monitor c) (emit_event event_type message metadata) R anywhere s.
Proof. intros HR. cbn. by split_and!. Qed.

(** The lookup, and a workload that has to be there. *)
Lemma wp_lookup c p d (R : Result RuntimeError (option ManagedWorkload) -> Seen -> Prop) :
  workload_of c = (p, d) ->
  (forall w, R (Ok w) (MkSeen true w false false false false false)) -> (forall e, R (Err e) nothing_seen) ->
  wp (workload_monitor c) (ce_workload p d) R anywhere nothing_seen.
Proof. intros Hc Hw He. step r; [by rewrite Hc|]. destruct r; auto. Qed.
Lemma wp_find c q (R : Result RuntimeError ManagedWorkload -> Seen -> Prop) :
  workload_of c = (lq_project_id q, lq_deployment_id q) ->
  (forall w, R (Ok w) (MkSeen true (Some w) false false false false false)) -> (forall e s, R (Err e) s) ->
  wp (workload_monitor c) (find_workload q) R anywhere nothing_seen.
Proof.
  intros Hc Hw He. apply wp_and_then, wp_lookup; [done| |auto]. intros [w|]; cbn; auto.
Qed.
Lemma wp_activate c w (R : Result RuntimeError () -> Seen -> Prop) s :
  found_is s w ->
  (forall s', asked s' = asked s -> found s' = found s -> routed s' = true -> R (Ok ()) s') ->
  (forall e s', R (Err e) s') ->
  wp (workload_monitor c) (activate_workload w) R anywhere s.
Proof.
  intros Hs Hok He. apply wp_and_then. step r; [by exists w|]. destruct r as [[]|e]; [|apply He].
  step r; [by exists w|]. destruct r as [[]|e]; [by apply Hok|apply He].
Qed.

Lemma ended_err c e s : ended c (Err e) s.
Proof. done. Qed.
Hint Resolve ended_err : core.

Lemma restart_wp q : wp (workload_monitor (Restart q)) (run_restart q) (ended (Restart q)) anywhere nothing_seen.
Proof.
  apply wp_and_then, wp_find; [done| |done]. intros w. destruct (is_up w) eqn:Hup; cbn [negb]; [|finished_run].
  apply wp_and_then. step r; [permitted|]. destruct r as [[]|e]; [|finished_run].
  apply wp_and_then, wp_activate; [done| |done]. intros s _ Hf Hr.
  apply wp_and_then, wp_event. intros [[]|e]; finished_run.
Qed.

Lemma stop_wp q : wp (workload_monitor (Stop q)) (run_stop q true) (ended (Stop q)) anywhere nothing_seen.
Proof.
  apply wp_and_then, wp_lookup; [done| |done]. intros [w|].
  - apply wp_and_then. step r; [permitted|]. destruct r as [[]|e]; [|finished_run].
    apply wp_and_then. step r; [done|]. destruct r as [b|e]; [|finished_run].
    apply wp_and_then. step r; [permitted|]. destruct r as [[]|e]; [|finished_run].
    apply wp_and_then, wp_event. intros [[]|e]; finished_run.
  - apply wp_and_then. step r; [permitted|]. destruct r; finished_run.
Qed.

Lemma sleep_wp q : wp (workload_monitor (Sleep q)) (run_stop q false) (ended (Sleep q)) anywhere nothing_seen.
Proof.
  apply wp_and_then, wp_lookup; [done| |done]. intros [w|]; [|finished_run].
  apply wp_and_then. step r; [permitted|]. destruct r as [[]|e]; [|finished_run].
  apply wp_and_then. step r; [done|]. destruct r as [b|e]; [|finished_run].
  apply wp_and_then, wp_and_then, wp_event. intros [[]|e]; finished_run.
Qed.

Lemma wake_wp q : wp (workload_monitor (Wake q)) (run_wake q) (ended (Wake q)) anywhere nothing_seen.
Proof.
  apply wp_and_then, wp_find; [done| |done]. intros w.
  apply wp_and_then. step r; [permitted|]. destruct r as [[]|e]; [|finished_run].
  apply wp_and_then, wp_activate; [done| |done]. intros s _ Hf Hr.
  apply wp_and_then, wp_event. intros [[]|e]; finished_run.
Qed.

Lemma probe_wp q : wp (workload_monitor (Probe q)) (run_health_check q) (ended (Probe q)) anywhere nothing_seen.
Proof.
  apply wp_and_then, wp_find; [done| |done]. intros w. apply wp_and_then, wp_bind.
  destruct (is_up w); [step r; [by exists w|]|]; finished_run.
Qed.

Lemma refresh_wp q : wp (workload_monitor (Refresh q)) (run_refresh_route q) (ended (Refresh q)) anywhere nothing_seen.
Proof.
  apply wp_and_then, wp_find; [done| |done]. intros w. destruct (is_up w) eqn:Hup; cbn [negb]; [|finished_run].
  apply wp_and_then, wp_activate; [done| |done]. intros s _ Hf Hr. finished_run.
Qed.

(** Reconciliation: between two actions the workload is the one that was found. *)
Definition reconciling (w : option ManagedWorkload) (s : Seen) : Prop := asked s = true /\ found s = w.
Lemma action_wp q factory w applied a s :
  reconciling w s ->
  wp (workload_monitor (Reconcile q)) (apply_action factory w applied a)
    (fun r s' => match r with Ok _ => reconciling w s' | Err _ => True end) anywhere s.
Proof.
  intros [Ha Hf]. apply wp_bind. step b; [done|]. destruct b; [done|].
  apply wp_and_then. cbn [lift wp]. destruct w as [w|]; [|done]. cbn [ok_or].
  apply wp_and_then. destruct a; cbn [wp].
  - unfold restart_follower. destruct (is_up w) eqn:Hup; cbn [negb]; [|done].
    destruct (mw_command_id w) as [id|] eqn:Hid; [|done]. destruct factory; cbn [negb]; [|done].
    apply wp_bind. step b; [|done]. exists w. split_and!; try done; eauto.
  - unfold cleanup_failed. destruct (existsb _ _) eqn:Hc; cbn [negb]; [|done].
    apply wp_and_then. step r; [|by destruct r as [[]|]]. split; [done|]. right. eauto.
  - unfold restore_route. destruct (is_up w) eqn:Hup; cbn [negb]; [|done].
    apply wp_and_then, wp_activate; [done| |done]. intros s' Hs1 Hs2 _. split; congruence.
Qed.
Lemma reconcile_wp q :
  wp (workload_monitor (Reconcile q)) (run_reconcile_workload q) (ended (Reconcile q)) anywhere nothing_seen.
Proof.
  apply wp_bind. step b; [done|]. destruct b; [done|].
  apply wp_and_then, wp_lookup; [done| |done]. intros w.
  apply wp_and_then. eapply wp_fold_each with (I := fun _ => reconciling w); [| |done].
  - intros b x s Hs. eapply wp_mono; [|done|by apply action_wp]. by intros [?|?] s'.
  - intros applied s [Hs _]. finished_run.
Qed.
End Commands.

Lemma run_command_guarded safety c tr r :
  runs (run_command safety c) tr r ->
  obeys (workload_monitor c) nothing_seen tr /\
  (is_ok r = true -> success_means c (final (workload_monitor c) nothing_seen tr)).
Proof.
  intros Hr. change (obeys (workload_monitor c) nothing_seen tr /\
    ended c r (final (workload_monitor c) nothing_seen tr)).
  eapply wp_sound with (C := fun _ => True); [|exact Hr|].
  - destruct c; [apply restart_wp|apply stop_wp|apply sleep_wp|apply wake_wp|apply probe_wp|apply refresh_wp
                |apply reconcile_wp].
  - clear Hr. generalize nothing_seen. induction tr as [|call tr IH]; intros s; cbn; auto.
Qed.

(** C20. Commands on a workload do only what they are for.  In every run of
    restart, stop, sleep, wake, health check, route refresh and reconciliation
    the agent looks its workload up once and touches no other: a container is
    restarted only while it runs, removed only by stop after its route is gone
    or by reconciliation when it was created and never ran or has ended; a route
    is activated only for a workload found ready since its last start, and
    deactivated only under its own deployment's name.  A success means what the
    command says: the route is active after restart, wake and refresh; stopped
    and unrouted after sleep; after stop also removed, or missing before. *)
Theorem workload_commands_guarded safety c tr r :
  runs (run_command safety c) tr r ->
  obeys (workload_monitor c) nothing_seen tr /\
  (is_ok r = true -> success_means c (final (workload_monitor c) nothing_seen tr)).
Proof. apply run_command_guarded. Qed.

(** ** Witness *)

Definition sample_workload : ManagedWorkload :=
  {| mw_container_id := "c0ffee"; mw_status := "Up 2 hours"; mw_project_id := project_a; mw_deployment_id := deployment_a;
     mw_domain := "app.run.sakala.dev"; mw_port := 3000; mw_command_id := Some project_a;
     mw_log_bounds := default_log_bounds |}.
Definition running_host : Env ExecOp := fun past X o =>
  match o in ExecOp T return T with
  | CeWorkload _ _ => Ok (Some sample_workload)
  | o => fine_host past _ o
  end.
Definition sample_lifecycle : WorkloadLifecycleRequest :=
  {| lq_command_id := project_a; lq_project_id := project_a; lq_deployment_id := deployment_a |}.
Definition stop_run := run_with running_host (run_command default_resource_safety (Stop sample_lifecycle)).

Lemma workload_commands_witness :
  is_ok stop_run.2 = true /\
  success_means (Stop sample_lifecycle) (final (workload_monitor (Stop sample_lifecycle)) nothing_seen stop_run.1).
Proof.
  split; [vm_compute; reflexivity|].
  apply (workload_commands_guarded default_resource_safety (Stop sample_lifecycle) stop_run.1 stop_run.2
    (runs_run_from _ _ _)).
  vm_compute. reflexivity.
Defined.
