(* ===== verification/HostOps.v ===== *)
(** The host under the runtime's services as one signature: processes, files,
    follower tasks, the clock, and beside them the reporter and the guards the
    executor is given. *)
From S2P Require Import Prelude Text Protocol Async Ports ApiClient RuntimeError Process Routing Containers Workspace Builders Health Executor Telemetry RoutingFacts.

Inductive HostOp : Type -> Type :=
| RunProcess (c : CommandSpec) (sink : OutputSink) : HostOp (Result RuntimeError ProcessOutput)
| HostFile X (o : FileOp X) : HostOp X
(* files of a workspace *)
| WfTryExists (p : string) : HostOp (Result IoError bool)
| WfCreateDirAll (p : string) : HostOp (Result IoError ())
| WfRemoveDirAll (p : string) : HostOp (Result IoError ())
| WfSetMode (p : string) (mode : N) : HostOp (Result IoError ())
| WfWrite (p c : string) : HostOp (Result IoError ())
| WfRemoveFile (p : string) : HostOp (Result IoError ())
| WfReadDir (p : string) : HostOp (Result IoError (list (Result IoError WorkspaceEntry)))
(* files of a repository, the env file *)
| SfTryExists (p : string) : HostOp (Result IoError bool)
| SfLen (p : string) : HostOp (Result IoError N)
| SfRead (p : string) : HostOp (Result IoError string)
| EnvCreate (p : string) : HostOp (Result IoError ())
| EnvWrite (p c : string) : HostOp (Result IoError ())
| EnvFlush (p : string) : HostOp (Result IoError ())
(* follower tasks, clock, token *)
| WithFollowers A (f : Followers -> A * Followers) : HostOp A
| SpawnFollower (c : CommandSpec) (sink : OutputSink) (id : option Uuid) (b : LogBounds) : HostOp ()
| AbortFollowers : HostOp ()
| HostNow : HostOp Z
| HostCancelled : HostOp bool
| HostSleep (d : Duration) : HostOp ()
| HostDeadline (operation : string) (d : Duration) : HostOp bool
(* telemetry *)
| NewProbeId : HostOp Uuid
| ProbeCreate (p : string) : HostOp (Result IoError ())
| EnvHostname : HostOp (option string)
| AvailableParallelism : HostOp (option N)
| DependenciesGet : HostOp (option Value)
| DependenciesSet (v : Value) : HostOp ()
(* reporter *)
| HostEvent (e : DeploymentEvent) : HostOp (Result RuntimeExecutionError ())
| HostLog (l : DeploymentLog) : HostOp (Result RuntimeExecutionError ())
| HostFlush : HostOp (Result RuntimeExecutionError ())
| HostMarkCommitted (o : CommandOutput) : HostOp ()
| HostCommitted : HostOp bool
| HostCommittedOutput : HostOp (option CommandOutput)
(* guards *)
| HostFlagNew : HostOp ()
| HostFlagLoad : HostOp bool
| HostFlagStore : HostOp ()
| HostAcquirePermit : HostOp bool
| HostReleasePermit : HostOp ()
| HostAvailablePermits : HostOp N
| HostLockAdmission : HostOp ()
| HostUnlockAdmission : HostOp ()
| HostDropPhase : HostOp ()
| HostDropDeployment : HostOp ().
Arguments HostFile {_} _.
Arguments WithFollowers {_} _.

#[export] Instance HostOp_runner : ProcessRunner HostOp := fun c sink => trigger (RunProcess c sink).
#[export] Instance HostOp_fs : FileSystem HostOp := {
  fs_create_dir_all d := trigger (HostFile (FCreateDir d));
  fs_read p := trigger (HostFile (FRead p));
  fs_read_to_string p := trigger (HostFile (FReadString p));
  fs_write p c := trigger (HostFile (FWrite p c));
  fs_rename a b := trigger (HostFile (FRename a b));
  fs_remove_file p := trigger (HostFile (FRemove p));
  fs_read_dir d := trigger (HostFile (FReadDir d))
}.
#[export] Instance HostOp_workspace_files : WorkspaceFiles HostOp := {
  wf_try_exists p := trigger (WfTryExists p);
  wf_create_dir_all p := trigger (WfCreateDirAll p);
  wf_remove_dir_all p := trigger (WfRemoveDirAll p);
  wf_set_mode p mode := trigger (WfSetMode p mode);
  wf_write p c := trigger (WfWrite p c);
  wf_remove_file p := trigger (WfRemoveFile p);
  wf_read_dir p := trigger (WfReadDir p)
}.
#[export] Instance HostOp_source_files : SourceFiles HostOp := {
  sf_try_exists p := trigger (SfTryExists p);
  sf_len p := trigger (SfLen p);
  sf_read p := trigger (SfRead p)
}.
#[export] Instance HostOp_env_file : EnvFile HostOp := {
  env_create_new p := trigger (EnvCreate p);
  env_write_all p c := trigger (EnvWrite p c);
  env_flush p := trigger (EnvFlush p)
}.
#[export] Instance HostOp_followers : FollowerTasks HostOp := {
  with_followers A f := trigger (WithFollowers f);
  spawn_follower c sink id b := trigger (SpawnFollower c sink id b);
  abort_followers := trigger AbortFollowers
}.
#[export] Instance HostOp_ambient : Ambient HostOp := {
  now_utc := trigger HostNow;
  is_cancelled := trigger HostCancelled
}.
#[export] Instance HostOp_clock : Clock HostOp := {
  sleep d := trigger (HostSleep d);
  deadline_elapsed operation d := trigger (HostDeadline operation d)
}.
#[export] Instance HostOp_probe : HostProbe HostOp := {
  new_probe_id := trigger NewProbeId;
  create_new_file p := trigger (ProbeCreate p);
  env_hostname := trigger EnvHostname;
  available_parallelism := trigger AvailableParallelism;
  dependencies_get := trigger DependenciesGet;
  dependencies_set v := trigger (DependenciesSet v)
}.

#[export] Instance HostOp_reporter : RuntimeReporter HostOp := {
  report_event e := trigger (HostEvent e);
  report_log l := trigger (HostLog l);
  report_flush := trigger HostFlush;
  mark_deployment_committed o := trigger (HostMarkCommitted o);
  deployment_committed := trigger HostCommitted;
  committed_output := trigger HostCommittedOutput
}.
#[export] Instance HostOp_guards : DeploymentGuards HostOp := {
  route_flag_new := trigger HostFlagNew;
  route_flag_load := trigger HostFlagLoad;
  route_flag_store := trigger HostFlagStore;
  acquire_build_permit := trigger HostAcquirePermit;
  release_build_permit := trigger HostReleasePermit;
  available_build_permits := trigger HostAvailablePermits;
  lock_admission := trigger HostLockAdmission;
  unlock_admission := trigger HostUnlockAdmission;
  drop_phase := trigger HostDropPhase;
  drop_deployment := trigger HostDropDeployment
}.

(** Cells, clocks, the follower registry, drops and the environment are
    synchronous; every other call is awaited. *)
Definition HostOp_awaits : Awaits HostOp := fun X o =>
  match o with
  | WithFollowers _ | SpawnFollower _ _ _ _ | HostNow | HostCancelled | HostDeadline _ _
  | NewProbeId | EnvHostname | AvailableParallelism | DependenciesGet | DependenciesSet _
  | HostMarkCommitted _ | HostCommitted | HostCommittedOutput
  | HostFlagNew | HostFlagLoad | HostFlagStore | HostReleasePermit | HostAvailablePermits
  | HostUnlockAdmission | HostDropPhase | HostDropDeployment => false
  | _ => true
  end.

(** Answers of a host on which every process prints a given text and every file
    operation succeeds. *)
Definition printing_host (stdout : CommandSpec -> string) : Env HostOp := fun past X o =>
  match o in HostOp T return T with
  | RunProcess c _ => Ok {| po_success := true; po_code := Some 0%Z; po_stdout := stdout c; po_stderr := EmptyString |}
  | HostFile o => empty_disk (Ok ()) [] _ o
  | WfTryExists _ => Ok false
  | WfCreateDirAll _ | WfRemoveDirAll _ => Ok ()
  | WfSetMode _ _ | WfWrite _ _ => Ok ()
  | WfRemoveFile _ => Ok ()
  | WfReadDir _ => Ok []
  | SfTryExists _ => Ok false
  | SfLen _ => Ok 0%N
  | SfRead _ => Ok "{}"
  | EnvCreate _ | EnvFlush _ => Ok ()
  | EnvWrite _ _ => Ok ()
  | WithFollowers f => (f ∅).1
  | SpawnFollower _ _ _ _ => ()
  | AbortFollowers => ()
  | HostNow => 0%Z
  | HostCancelled => false
  | HostSleep _ => ()
  | HostDeadline _ _ => false
  | NewProbeId => MkUuid "4f1f21ef-730d-42d5-a46d-d965353cb993"
  | ProbeCreate _ => Ok ()
  | EnvHostname => Some "node-1"%string
  | AvailableParallelism => Some 4%N
  | DependenciesGet => None
  | DependenciesSet _ => ()
  | HostEvent _ | HostLog _ => Ok ()
  | HostFlush => Ok ()
  | HostMarkCommitted _ => ()
  | HostCommitted => false
  | HostCommittedOutput => None
  | HostFlagNew | HostFlagStore => ()
  | HostFlagLoad => false
  | HostAcquirePermit => true
  | HostReleasePermit => ()
  | HostAvailablePermits => 1%N
  | HostLockAdmission | HostUnlockAdmission => ()
  | HostDropPhase | HostDropDeployment => ()
  end.

(** ** Commands and files of a run *)

(** A process that ran, with its success. *)
Definition process_of (c : Call HostOp) : option (CommandSpec * bool) :=
  match call_op c in HostOp T return T -> option (CommandSpec * bool) with
  | RunProcess spec _ => fun r => Some (spec, match r with Ok o => po_success o | Err _ => false end)
  | _ => fun _ => None
  end (call_answer c).
Definition processes (tr : list (Call HostOp)) : list (CommandSpec * bool) := omap process_of tr.
Definition file_of (c : Call HostOp) : option (Call FileOp) :=
  match call_op c in HostOp T return T -> option (Call FileOp) with
  | HostFile o => fun x => Some (MkCall o x)
  | _ => fun _ => None
  end (call_answer c).
Definition files (tr : list (Call HostOp)) : list (Call FileOp) := omap file_of tr.

Lemma processes_app t1 t2 : processes (t1 ++ t2) = processes t1 ++ processes t2.
Proof. apply omap_app. Qed.
Lemma files_app t1 t2 : files (t1 ++ t2) = files t1 ++ files t2.
Proof. apply omap_app. Qed.

Definition no_process X (o : HostOp X) : Prop := match o with RunProcess _ _ => False | _ => True end.
Definition no_file X (o : HostOp X) : Prop := match o with HostFile _ => False | _ => True end.
Lemma no_processes tr : Forall (fun c => no_process _ (call_op c)) tr -> processes tr = [].
Proof. induction 1 as [|[X o x] tr Ho _ IH]; [done|]. by destruct o. Qed.
Lemma no_files tr : Forall (fun c => no_file _ (call_op c)) tr -> files tr = [].
Proof. induction 1 as [|[X o x] tr Ho _ IH]; [done|]. by destruct o. Qed.
Lemma processes_ran c sink o tr :
  po_success o = true -> processes (MkCall (RunProcess c sink) (Ok o) :: tr) = (c, true) :: processes tr.
Proof. intros Ho. unfold processes. cbn. by rewrite Ho. Qed.
