(* ===== verification/Node.v ===== *)
(** The assembled node: the Docker executor over the services that really serve
    it (executor/docker.rs [new], [with_runner], [with_services]), all of them
    over one host; and what each service call of the executor is on that
    host. *)
From S2P Require Import Prelude Text Protocol Async Interp Ports ApiClient RuntimeError Limits Config Process Routing Containers Workspace Builders Health Monitor Executor Telemetry RoutingFacts ExecutorOps HostOps.

#[local] Open Scope async_scope.

(** What the third-party parsers of the node answer. *)
Record Parsers := {
  pa_uuid : string -> option Uuid;
  pa_rfc3339 : string -> Result string Z;
  pa_f64_scaled : string -> N -> option N;
  pa_json : string -> Result string Value;
  pa_url : string -> Result string ParsedUrl;
  pa_f64 : string -> option Value;
  pa_f64_as_u64 : Value -> N
}.

Section Node.
Context (parsers : Parsers) (config : DockerRuntimeConfig).

Definition executor_config : ExecutorConfig := {|
  ec_timeout_safety := dc_timeout_safety config;
  ec_max_concurrent_builds := dc_max_concurrent_builds config;
  ec_workspace_gc_max_age := dc_workspace_gc_max_age config;
  ec_image_gc_max_age := dc_image_gc_max_age config;
  ec_min_workspace_free_bytes := dc_min_workspace_free_bytes config;
  ec_workspace_root := dc_workspace_root config;
  ec_runtime_network := dc_runtime_network config;
  ec_caddy_sites_dir := dc_caddy_sites_dir config;
  ec_caddy_container := dc_caddy_container config
|}.

(** ** The services, each over the host *)

Definition node_reloader : CaddyReloader HostOp := DockerExecCaddyReloader (dc_caddy_container config).
Definition node_workspace : WorkspaceManager HostOp := GitWorkspaceManager (pa_uuid parsers) (dc_workspace_root config).
Definition node_inspector : ProjectInspector HostOp := RailpackProjectInspector (pa_json parsers).
Definition node_builder : ImageBuilder HostOp := ImageBuildService (dc_railpack_frontend config).
Definition node_containers : ContainerEngine HostOp :=
  DockerContainerEngine (pa_uuid parsers) (pa_rfc3339 parsers) (pa_f64_scaled parsers) (dc_runtime_network config)
    (dc_resource_safety config) (dc_max_active_containers config) (dc_agent_id config).
Definition node_health : HealthChecker HostOp :=
  DockerHealthChecker (N.to_nat (dc_health_attempts config)) (dc_health_interval config).
Definition node_routes : RouteManager HostOp :=
  @CaddyFileRouteManager HostOp HostOp_fs node_reloader (pa_uuid parsers) (dc_caddy_sites_dir config).
Definition node_telemetry_collector : TelemetryCollector HostOp :=
  NodeTelemetryCollector (pa_f64 parsers) (pa_f64_as_u64 parsers) (fun v => v) (dc_workspace_root config)
    (dc_runtime_network config) (dc_caddy_container config).

(** [with_runner], the runner being the host's. *)
Definition with_runner : RuntimeExecutor HostOp :=
  @docker_executor HostOp node_workspace node_inspector node_builder node_containers node_health node_routes
    HostOp_reporter HostOp_ambient HostOp_clock HostOp_guards HostOp_awaits HostOp_runner HostOp_fs
    node_telemetry_collector (pa_url parsers) executor_config.

(** The runtime the application builds for its driver. *)
Definition node_runtime (driver : RuntimeDriver) : RuntimeExecutor HostOp :=
  match driver with
  | Noop => NoopRuntimeExecutor
  | Config.Docker => with_runner
  end.

(** ** The executor's calls, on the host *)

(** The files of the route manager and its two calls to Caddy. *)
Definition file_call : Handler FileOp HostOp := fun X o =>
  match o in FileOp T return Prog HostOp T with
  | FCreateDir d => fs_create_dir_all d
  | FRead p => fs_read p
  | FReadString p => fs_read_to_string p
  | FWrite p c => fs_write p c
  | FRename a b => fs_rename a b
  | FRemove p => fs_remove_file p
  | FReadDir d => fs_read_dir d
  | CaddyReload => exec_validate_and_reload (dc_caddy_container config)
  | CaddyReloadAgain => exec_reload_after_rollback (dc_caddy_container config)
  end.

Definition service_call : Handler ExecOp HostOp := fun X o =>
  match o in ExecOp T return Prog HostOp T with
  | WsCheckout id s => @wm_checkout _ node_workspace id s
  | WsCleanup w => @wm_cleanup _ node_workspace w
  | WsCleanupStale age => @wm_cleanup_stale _ node_workspace age
  | WsAvailable => @wm_available_disk_bytes _ node_workspace
  | SourceInspect w s => node_inspector w s
  | ImageBuild r => node_builder r
  | WaitReady container => node_health container
  | CeEnsureCapacity p => @ce_ensure_capacity _ node_containers p
  | CeDetectOrphans => @ce_detect_orphans _ node_containers
  | CeCapacity => @ce_capacity _ node_containers
  | CeHealthSnapshot => @ce_health_snapshot _ node_containers
  | CeWorkload p d => @ce_workload _ node_containers p d
  | CeRestart w grace => @ce_restart _ node_containers w grace
  | CeStop w grace => @ce_stop _ node_containers w grace
  | CeStartExisting w => @ce_start_existing _ node_containers w
  | CeRemove w => @ce_remove _ node_containers w
  | CeStart r => @ce_start _ node_containers r
  | CeStartupLogs container => @ce_report_startup_logs _ node_containers container
  | CeFollower container id b => @ce_start_log_follower _ node_containers container id b
  | CeCleanupPrevious p current => @ce_cleanup_previous _ node_containers p current
  | CeCleanupCandidate container image => @ce_cleanup_candidate _ node_containers container image
  | CeStaleImages age => @ce_detect_stale_images _ node_containers age
  | CeCleanupImages age => @ce_cleanup_stale_images _ node_containers age
  | CeShutdown => @ce_shutdown _ node_containers
  | RouteDiscover known => @discover_stale_routes _ node_routes known
  | RouteActivate r => @activate _ node_routes r
  | RouteDeactivate i => @deactivate _ node_routes i
  | RouteCleanup known => @cleanup_stale_routes _ node_routes known
  | ReportEvent e => report_event e
  | ReportLog l => report_log l
  | ReportFlush => report_flush
  | MarkCommitted out => mark_deployment_committed out
  | AskCommitted => deployment_committed
  | AskCommittedOutput => committed_output
  | ExecNow => now_utc
  | ExecCancelled => is_cancelled
  | ExecSleep d => sleep d
  | ExecDeadline operation d => deadline_elapsed operation d
  | FlagNew => route_flag_new
  | FlagLoad => route_flag_load
  | FlagStore => route_flag_store
  | AcquirePermit => acquire_build_permit
  | ReleasePermit => release_build_permit
  | AvailablePermits => available_build_permits
  | LockAdmission => lock_admission
  | UnlockAdmission => unlock_admission
  | DropPhase => drop_phase
  | DropDeployment => drop_deployment
  | OnFile o => file_call _ o
  end.
End Node.
