(* ===== verification/TelemetryFacts.v ===== *)
(** Theorems about node telemetry: what the collector may do to the host, what
    its verdict on the runtime means, and the figures it reads. *)
From S2P Require Import Prelude Text Protocol Async Ports ApiClient RuntimeError Limits Process Routing Containers Workspace Builders Health Executor Telemetry RoutingFacts Monitor HostOps.

#[local] Open Scope async_scope.

(** ** The collector's calls *)

(** What happened so far with the versions: the answer of the cell, what each
    tool answered, in the order they were asked, and what was stored. *)
Record Versions := MkVersions {
  asked : option (option Value); told : list (option string); stored : option Value }.
(** And the rest: the probe file whose removal was not run yet, and what each
    readiness probe found. *)
Record Probing := MkProbing {
  versions : Versions;
  probe_file : option string;
  docker_up : bool; caddy_up : bool; network_up : bool; workspace_up : bool }.
Definition probing_started : Probing := MkProbing (MkVersions None [] None) None false false false false.
Definition with_versions (s : Probing) (v : Versions) : Probing :=
  MkProbing v (probe_file s) (docker_up s) (caddy_up s) (network_up s) (workspace_up s).

Section Snapshot.
Context {F : Type} (parse_f64 : string -> option F) (f64_as_u64 : F -> N) (f64_value : F -> Value).
Context (root network caddy : string).

Definition version_commands : list CommandSpec :=
  [command "git" ["--version"]; command "docker" ["version"; "--format"; "{{.Server.Version}}"];
   command "docker" ["buildx"; "version"]; command "railpack" ["--version"]].
Definition figure_commands : list CommandSpec :=
  [command "df" ["-Pk"; root]; command "du" ["-sk"; root]].
Definition readiness_commands : list CommandSpec :=
  [command "docker" ["info"; "--format"; "{{.ServerVersion}}"];
   command "docker" ["inspect"; "--format"; "{{.State.Running}}"; caddy];
   command "docker" ["network"; "inspect"; network]].
Definition bounded (l : list CommandSpec) : list CommandSpec :=
  List.map (fun c => with_timeout c (from_secs 2)) l.

(** The version a tool told, if it told one, and the report of all four. *)
Definition version_told (r : Result RuntimeError ProcessOutput) : option string :=
  match r with
  | Ok output => if po_success output && negb (is_empty (trim (po_stdout output)))
                 then Some (trim (po_stdout output)) else None
  | Err _ => None
  end.
Definition report_of (told : list (option string)) : Value :=
  Object (zip ["git"; "docker"; "buildx"; "railpack"] (List.map (opt_value Str) told)).

(** Only queries, each under two seconds of timeout and without a reporter; the
    versions only when the cell is empty, one tool after the other, and what
    they told is then stored, once; of the disk, three files to read and one
    fresh file to create, which alone may be removed. *)
Definition telemetry_allows (s : Probing) X (o : HostOp X) : Prop :=
  match o with
  | RunProcess c sink => sink = NullOutputSink /\
      (c ∈ bounded (readiness_commands ++ figure_commands) \/
       bounded version_commands !! length (told (versions s)) = Some c /\ asked (versions s) = Some None)
  | HostFile (FReadString p) => p ∈ ["/proc/meminfo"%string; "/proc/uptime"%string; "/proc/loadavg"%string]
  | HostFile (FRemove p) => probe_file s = Some p
  | ProbeCreate p => probe_file s = None /\ exists id, p = path_join root (".sakala-readiness-" +:+ uuid_text id)
  | DependenciesGet => asked (versions s) = None
  | DependenciesSet v => asked (versions s) = Some None /\ length (told (versions s)) = 4%nat /\
      stored (versions s) = None /\ v = report_of (told (versions s))
  | NewProbeId | EnvHostname | AvailableParallelism => True
  | _ => False
  end.
Definition answered_true (r : Result RuntimeError ProcessOutput) (f : string -> bool) : bool :=
  match r with Ok output => po_success output && f (po_stdout output) | Err _ => false end.
Definition asks_version (c : CommandSpec) : bool :=
  bool_decide ((program c, args c) ∈ List.map (fun v => (program v, args v)) version_commands).
Definition after_query (s : Probing) (c : CommandSpec) (r : Result RuntimeError ProcessOutput) : Probing :=
  match args c with
  | "info" :: _ => MkProbing (versions s) (probe_file s) (answered_true r (fun _ => true)) (caddy_up s) (network_up s) (workspace_up s)
  | "inspect" :: _ => MkProbing (versions s) (probe_file s) (docker_up s)
      (answered_true r (fun out => bool_decide (trim out = "true"%string))) (network_up s) (workspace_up s)
  | "network" :: _ => MkProbing (versions s) (probe_file s) (docker_up s) (caddy_up s) (answered_true r (fun _ => true)) (workspace_up s)
  | _ => if asks_version c
         then with_versions s (MkVersions (asked (versions s)) (told (versions s) ++ [version_told r]) (stored (versions s)))
         else s
  end.
Definition telemetry_next (s : Probing) X (o : HostOp X) (x : X) : Probing :=
  match o in HostOp T return T -> Probing with
  | RunProcess c _ => after_query s c
  | ProbeCreate p => fun r =>
      if is_ok r then MkProbing (versions s) (Some p) (docker_up s) (caddy_up s) (network_up s) false
      else MkProbing (versions s) None (docker_up s) (caddy_up s) (network_up s) false
  | HostFile o => fun x =>
      match o in FileOp T return T -> Probing with
      | FRemove _ => fun r => MkProbing (versions s) None (docker_up s) (caddy_up s) (network_up s) (is_ok r)
      | _ => fun _ => s
      end x
  | DependenciesGet => fun kept => with_versions s (MkVersions (Some kept) (told (versions s)) (stored (versions s)))
  | DependenciesSet v => fun _ => with_versions s (MkVersions (asked (versions s)) (told (versions s)) (Some v))
  | _ => fun _ => s
  end x.
Definition telemetry_monitor : Monitor HostOp Probing :=
  {| allowed := telemetry_allows; plausible := fun _ _ _ _ => True; after_call := telemetry_next |}.

Definition everything_up (s : Probing) : bool := docker_up s && caddy_up s && network_up s && workspace_up s.

#[local] Instance every_call_awaited : Awaits HostOp := fun _ _ => true.
Abbreviation anywhere := (fun _ : Probing => True).
Abbreviation m := telemetry_monitor.
Ltac state := cbn [allowed plausible after_call telemetry_monitor telemetry_allows telemetry_next is_ok
  versions asked told stored with_versions probe_file docker_up caddy_up network_up workspace_up args with_timeout command add_args command_new app] in *.
Ltac step x := apply wp_trigger; state; [| done | intros x _; state].

(** A command with a probe's timeout, whatever it answers. *)
Lemma wp_query c (R : Result RuntimeError ProcessOutput -> Probing -> Prop) s :
  telemetry_allows s _ (RunProcess (with_timeout c PROBE_TIMEOUT) NullOutputSink) ->
  (forall r, R r (after_query s (with_timeout c PROBE_TIMEOUT) r)) ->
  wp m (runner_run (Op := HostOp) (with_timeout c PROBE_TIMEOUT) NullOutputSink) R anywhere s.
Proof. intros Hc HR. apply wp_trigger; [exact Hc|done|]. intros x _. apply HR. Qed.

Lemma after_other s c r : c ∈ figure_commands -> after_query s (with_timeout c PROBE_TIMEOUT) r = s.
Proof.
  unfold figure_commands. intros H.
  repeat (apply elem_of_cons in H as [->|H]; [done|]). by apply elem_of_nil in H.
Qed.

(** Asking a tool for its version. *)
Lemma version_wp p l (R : option string -> Probing -> Prop) s :
  version_commands !! length (told (versions s)) = Some (command p l) -> asked (versions s) = Some None ->
  (forall r, R (version_told r)
     (with_versions s (MkVersions (Some None) (told (versions s) ++ [version_told r]) (stored (versions s))))) ->
  wp m (command_version (Op := HostOp) p l) R anywhere s.
Proof.
  intros Hn Ha HR. unfold command_version.
  assert (Hb : bounded version_commands !! length (told (versions s)) = Some (with_timeout (command p l) PROBE_TIMEOUT))
    by (unfold bounded; by rewrite list_lookup_fmap, Hn).
  apply wp_bind, wp_query; [split; [done|by right]|]. intros r.
  assert (after_query s (with_timeout (command p l) PROBE_TIMEOUT) r =
    with_versions s (MkVersions (Some None) (told (versions s) ++ [version_told r]) (stored (versions s)))) as ->.
  { revert Hn Ha. clear. unfold version_commands, after_query.
    destruct (length (told (versions s))) as [|[|[|[|k]]]]; cbn [lookup list_lookup]; intros Hn Ha; [..|done];
      injection Hn as <- <-; by rewrite <- Ha. }
  cbn [wp]. specialize (HR r). unfold version_told in HR at 1. destruct r as [output|e]; [|exact HR].
  destruct (po_success output); cbn [andb] in HR; [|exact HR]. by destruct (is_empty (trim (po_stdout output))).
Qed.

(** The versions of a snapshot: the cell's, with no tool asked, or those the
    tools told, stored in the empty cell. *)
Definition versions_settled (v : Value) (vs : Versions) : Prop :=
  match asked vs with
  | Some (Some kept) => v = kept /\ told vs = [] /\ stored vs = None
  | Some None => length (told vs) = 4%nat /\ v = report_of (told vs) /\ stored vs = Some v
  | None => False
  end.

Lemma dependencies_wp s R :
  versions s = MkVersions None [] None ->
  (forall v vs, versions_settled v vs -> R v (with_versions s vs)) ->
  wp m (dependencies (Op := HostOp)) R anywhere s.
Proof.
  intros Hs HR. unfold dependencies. apply wp_bind. step kept; [by rewrite Hs|]. rewrite Hs. state.
  destruct kept as [v|]; [by apply HR|]. unfold dependency_versions. apply wp_bind.
  do 4 (apply wp_bind; apply version_wp; [reflexivity|reflexivity|intros ?; state; cbn [app]]).
  cbn [wp]. apply wp_bind. step u; [done|]. cbn [wp]. by apply HR.
Qed.

Lemma command_ready_wp c expected (R : bool -> Probing -> Prop) s :
  telemetry_allows s _ (RunProcess (with_timeout c PROBE_TIMEOUT) NullOutputSink) ->
  (forall r, R (answered_true r (fun out => match expected with Some e => bool_decide (trim out = e) | None => true end))
               (after_query s (with_timeout c PROBE_TIMEOUT) r)) ->
  wp m (command_ready (Op := HostOp) c expected) R anywhere s.
Proof.
  intros Hc HR. apply wp_bind, wp_query; [exact Hc|].
  intros [output|e]; [apply (HR (Ok output))|apply (HR (Err e))].
Qed.

Lemma workspace_writable_wp (R : bool -> Probing -> Prop) s :
  probe_file s = None ->
  (forall b, R b (MkProbing (versions s) None (docker_up s) (caddy_up s) (network_up s) b)) ->
  wp m (workspace_writable (Op := HostOp) root) R anywhere s.
Proof.
  intros Hf HR. unfold workspace_writable. apply wp_bind. step probe; [done|].
  apply wp_bind. step created; [split; [done|by exists probe]|].
  destruct created as [[]|e]; state; [|apply HR].
  apply wp_bind. step removed; [done|]. apply HR.
Qed.

Lemma operational_wp s (R : bool -> Probing -> Prop) :
  probe_file s = None ->
  (forall s', versions s' = versions s -> probe_file s' = None -> R (everything_up s') s') ->
  wp m (live_runtime_operational (Op := HostOp) root network caddy) R anywhere s.
Proof.
  intros Hf HR. unfold live_runtime_operational.
  apply wp_bind, command_ready_wp; [split; [done|left; cbn; set_solver]|intros docker]. cbn [after_query args with_timeout docker_info command add_args command_new app].
  apply wp_bind, command_ready_wp; [split; [done|left; cbn; set_solver]|intros caddied]. cbn [after_query args with_timeout caddy_state command add_args command_new app].
  apply wp_bind, command_ready_wp; [split; [done|left; cbn; set_solver]|intros networked]. cbn [after_query args with_timeout network_state command add_args command_new app].
  apply wp_bind, workspace_writable_wp; [done|]. intros b. cbn [wp]. state.
  apply (HR (MkProbing _ _ _ _ _ _)); done.
Qed.

Lemma file_wp (p : string) (R : Result IoError string -> Probing -> Prop) s :
  p ∈ ["/proc/meminfo"%string; "/proc/uptime"%string; "/proc/loadavg"%string] -> (forall r, R r s) ->
  wp m (fs_read_to_string (Op := HostOp) p) R anywhere s.
Proof. intros Hp HR. step r; [done|]. apply HR. Qed.

Lemma figures_wp c (R : option string -> Probing -> Prop) s :
  c ∈ figure_commands -> (forall o, R o s) -> wp m (probe_output (Op := HostOp) c) R anywhere s.
Proof.
  intros Hc HR. unfold probe_output. apply wp_bind, wp_query.
  - split; [done|left]. cbn in *. set_solver.
  - intros r. cbn [wp]. rewrite after_other by set_solver. apply HR.
Qed.

(** At the end of a snapshot the removal of the probe file was run, the verdict
    is that of the four probes, and the versions are settled. *)
Definition telemetry_outcome (t : NodeTelemetry) (s : Probing) : Prop :=
  probe_file s = None /\ nt_runtime_operational t = Some (everything_up s) /\
  versions_settled (nt_runtime_dependencies t) (versions s).

Lemma snapshot_wp :
  wp m (snapshot (Op := HostOp) parse_f64 f64_as_u64 f64_value root network caddy)
    telemetry_outcome anywhere probing_started.
Proof.
  unfold snapshot. apply wp_bind, dependencies_wp; [done|]. intros v vs Hvs. state.
  apply wp_bind, operational_wp; [done|]. intros s Hversions Hfile. state.
  unfold read_memory, disk_resources, first_float.
  apply wp_bind, wp_bind, file_wp; [set_solver|]. intros memory. cbn [wp].
  apply wp_bind, wp_bind, figures_wp; [set_solver|]. intros df. cbn [wp].
  apply wp_bind, figures_wp; [set_solver|]. intros du. cbn [wp].
  apply wp_bind. step hostname; [done|].
  apply wp_bind, wp_bind, file_wp; [set_solver|]. intros uptime. cbn [wp].
  apply wp_bind. step cpus; [done|].
  apply wp_bind, wp_bind, file_wp; [set_solver|]. intros load. cbn [wp].
  split_and!; [done|done|]. cbn [nt_runtime_dependencies]. by rewrite Hversions.
Qed.
End Snapshot.


(** ** Reading the memory figures *)

(** An entry of [/proc/meminfo] as the kernel prints it: a key, blanks, a
    number, its unit. *)
Record MemoryEntry := { me_key : string; me_pad : nat; me_kilobytes : N }.
Definition entry_bytes (e : MemoryEntry) : bytes :=
  bytes_of (me_key e) ++ repeat SPACE (S (me_pad e)) ++ bytes_of (pretty (me_kilobytes e)) ++ [SPACE; "k"; "B"]%char.
Definition meminfo_text (entries : list MemoryEntry) : string :=
  string_of (List.concat (List.map (fun e => entry_bytes e ++ [LF]) entries)).
Definition latest (key : string) (entries : list MemoryEntry) : option N :=
  last (filter (fun e => me_key e = key) entries) ≫= fun e => checked_mul_u64 (me_kilobytes e) 1024.

Lemma word_bytes_one_line l : forallb word_byte l = true -> Forall (fun c => c <> LF /\ c <> CR) l.
Proof.
  intros Hl. apply List.Forall_forall. intros c Hc. rewrite forallb_forall in Hl. specialize (Hl c Hc).
  split; intros ->; discriminate Hl.
Qed.

Lemma word_bytes_ascii l : forallb word_byte l = true -> forallb (fun c => (byte c <? 128)%N) l = true.
Proof.
  intros Hl. apply forallb_forall. intros c Hc. rewrite forallb_forall in Hl.
  by apply Hl, andb_true_iff in Hc as [Hc _].
Qed.

Lemma entry_words e :
  ascii_word (bytes_of (me_key e)) ->
  split_whitespace (string_of (entry_bytes e)) = [me_key e; pretty (me_kilobytes e); "kB"%string].
Proof.
  intros Hk. pose proof (pretty_word (me_kilobytes e)) as Hp. unfold entry_bytes.
  rewrite split_whitespace_cons, string_of_bytes_of; [|done|].
  - change [SPACE; "k"%char; "B"%char] with (repeat SPACE 1 ++ bytes_of "kB").
    rewrite (split_whitespace_cons _ 0), string_of_bytes_of by done. do 2 f_equal.
  - rewrite forallb_app. by rewrite (word_bytes_ascii _ (proj2 Hp)).
Qed.

Lemma entry_one_line e :
  ascii_word (bytes_of (me_key e)) -> Forall (fun c => c <> LF /\ c <> CR) (entry_bytes e).
Proof.
  intros [_ Hk%word_bytes_one_line]. destruct (pretty_word (me_kilobytes e)) as [_ Hp%word_bytes_one_line].
  unfold entry_bytes. rewrite !Forall_app. split_and!; [done| |done|by repeat constructor].
  apply List.Forall_forall. intros c ->%repeat_spec. done.
Qed.

Lemma fold_entries entries seen :
  Forall (fun e => ascii_word (bytes_of (me_key e)) /\ (me_kilobytes e <= u64_max)%N) entries ->
  fold_left memory_line (List.map (fun e => string_of (entry_bytes e)) entries) seen =
    (match last (filter (fun e => me_key e = "MemTotal:"%string) entries) with
     | Some e => checked_mul_u64 (me_kilobytes e) 1024 | None => seen.1 end,
     match last (filter (fun e => me_key e = "MemAvailable:"%string) entries) with
     | Some e => checked_mul_u64 (me_kilobytes e) 1024 | None => seen.2 end).
Proof.
  intros Hall. induction entries as [|e entries IH] using rev_ind; [by destruct seen|].
  apply Forall_app in Hall as [Hall He]. apply Forall_singleton in He as [Hk Hv].
  rewrite List.map_app, fold_left_app, IH by done. cbn [List.map fold_left].
  unfold memory_line. rewrite entry_words by done. cbn [head]. unfold kibibytes.
  cbn [mbind option_bind]. rewrite parse_uint_pretty by done. cbn [fst snd].
  rewrite !filter_app, !filter_cons, !filter_nil.
  repeat case_bool_decide; repeat case_decide; try congruence; rewrite ?app_nil_r, ?last_snoc; done.
Qed.

(** The memory figures are read as the kernel writes them.  Whatever
    entries the kernel lists, in any order and padding, the node's total and
    available memory are the kilobytes of the last entry of their name times
    1024; they are unknown, never wrong, when there is no such entry or the
    product does not fit 64 bits. *)
Theorem memory_figures_round_trip entries :
  Forall (fun e => ascii_word (bytes_of (me_key e)) /\ (me_kilobytes e <= u64_max)%N) entries ->
  memory_of (meminfo_text entries) = (latest "MemTotal:" entries, latest "MemAvailable:" entries) /\
  forall e n, latest (me_key e) [e] = Some n -> (n = me_kilobytes e * 1024 /\ n <= u64_max)%N.
Proof.
  intros Hall. split.
  - unfold memory_of, meminfo_text.
    replace (List.map (fun e => entry_bytes e ++ [LF]) entries)
      with (List.map (fun l => l ++ [LF]) (List.map entry_bytes entries)) by apply List.map_map.
    rewrite lines_written.
    + rewrite List.map_map, fold_entries by done. unfold latest. cbn [fst snd].
      f_equal; by destruct (last _).
    + apply List.Forall_forall. intros l (e & <- & He)%in_map_iff. rewrite Forall_forall in Hall.
      apply entry_one_line. by apply Hall, list_elem_of_In.
  - intros e n. unfold latest. rewrite filter_cons_True, filter_nil by done. cbn [last mbind option_bind].
    intros [-> Hn]%checked_mul_u64_Some. done.
Qed.

(** ** Witnesses *)

Definition full_float (s : string) : option N := parse_uint u64_max s.
Definition working_node (c : CommandSpec) : string :=
  match args c with "inspect" :: _ => "true" | _ => "1.2.3" end.
Definition snapshot_run :=
  run_with (printing_host working_node)
    (snapshot (Op := HostOp) full_float (fun f => f) num "/builds" "sakala" "caddy").

Definition sample_memory : list MemoryEntry :=
  [{| me_key := "MemTotal:"; me_pad := 6; me_kilobytes := 16303428 |};
   {| me_key := "MemFree:"; me_pad := 7; me_kilobytes := 812345 |};
   {| me_key := "MemAvailable:"; me_pad := 2; me_kilobytes := 9000000 |}].
Lemma memory_figures_witness :
  memory_of (meminfo_text sample_memory) = (Some 16694710272, Some 9216000000)%N.
Proof.
  rewrite (proj1 (memory_figures_round_trip sample_memory
    ltac:(unfold sample_memory; repeat constructor; try done; vm_compute; discriminate))).
  vm_compute. reflexivity.
Defined.
