(* ===== verification/ContainersFacts.v ===== *)
(** Theorems about managed containers: how one is started and what its start
    leaves behind, and which containers a finished deployment removes. *)
From S2P Require Import Prelude Text Protocol Async Ports ApiClient RuntimeError Limits Process Routing Containers Workspace Builders Health RoutingFacts Monitor HostOps.

#[local] Open Scope async_scope.

(** ** Starting a container *)

Lemma runs_io {A} (o : HostOp (Result IoError A)) tr r :
  runs (io (trigger o)) tr r <-> exists x, tr = [MkCall o x] /\ r = io_error x.
Proof.
  split.
  - intros (x & t & -> & -> & ->). by exists x.
  - intros (x & -> & ->). by exists x, [].
Qed.

Definition starts_process (c : Call HostOp) : bool :=
  match call_op c with RunProcess _ _ => true | _ => false end.
Definition no_process (tr : list (Call HostOp)) : Prop := Forall (fun c => starts_process c = false) tr.

(** *** The command line

    A command line of [docker run]: options with their values, then the image. *)
Definition option_pairs (options : list (string * string)) : list string :=
  flat_map (fun o : string * string => [o.1; o.2]) options.
Definition docker_run_line (options : list (string * string)) (image : string) : list string :=
  ["run"; "--detach"] ++ option_pairs options ++ [image].
Definition values_of (flag : string) (options : list (string * string)) : list string :=
  List.map snd (List.filter (fun o : string * string => String.eqb o.1 flag) options).

(** What a container is started with: a name, a network, a restart policy, the
    limits and the environment of the request once each, no capability, no new
    privileges, and nothing but these options and labels. *)
Definition start_options : list string :=
  ["--name"; "--network"; "--restart"; "--security-opt"; "--cap-drop"; "--memory"; "--memory-swap"; "--cpus";
   "--pids-limit"; "--label"; "--env-file"].
Record hardened (network : string) (r : RunContainerRequest) (env_file : option string)
    (options : list (string * string)) : Prop := {
  hardened_known : Forall (fun o => o.1 ∈ start_options) options;
  hardened_name : values_of "--name" options = [rc_name r];
  hardened_network : values_of "--network" options = [network];
  hardened_restart : values_of "--restart" options = ["unless-stopped"];
  hardened_privileges : values_of "--security-opt" options = ["no-new-privileges:true"];
  hardened_capabilities : values_of "--cap-drop" options = ["ALL"];
  hardened_memory : values_of "--memory" options = [pretty (memory_mb (rc_resources r)) +:+ "m"];
  hardened_swap : values_of "--memory-swap" options = [pretty (memory_mb (rc_resources r)) +:+ "m"];
  hardened_cpus : exists value, values_of "--cpus" options = [value] /\
    parse_cpus value = Some (cpu_millis (rc_resources r));
  hardened_pids : values_of "--pids-limit" options = [pretty (pids_limit (rc_resources r))];
  hardened_environment : values_of "--env-file" options = option_list env_file }.

Definition optional_label (key : string) (bound : option N) : list (string * string) :=
  List.map (fun n => ("--label", key +:+ "=" +:+ pretty n)) (option_list bound).
Definition start_labels (agent_id : string) (r : RunContainerRequest) : list (string * string) :=
  [("--label", MANAGED_LABEL); ("--label", PROJECT_LABEL +:+ "=" +:+ uuid_text (rc_project_id r));
   ("--label", DEPLOYMENT_LABEL +:+ "=" +:+ uuid_text (rc_deployment_id r));
   ("--label", DOMAIN_LABEL +:+ "=" +:+ rc_domain r); ("--label", PORT_LABEL +:+ "=" +:+ pretty (rc_port r));
   ("--label", COMMAND_ID_LABEL +:+ "=" +:+ uuid_text (rc_command_id r)); ("--label", WORKLOAD_KIND_LABEL);
   ("--label", AGENT_ID_LABEL +:+ "=" +:+ agent_id)]
  ++ optional_label LOG_MAX_LINE_LABEL (max_line_length (rc_log_bounds r))
  ++ optional_label LOG_MAX_BATCH_LABEL (max_batch_lines (rc_log_bounds r))
  ++ optional_label LOG_MAX_TOTAL_LABEL (max_total_bytes (rc_log_bounds r)).
Definition start_limits (network : string) (r : RunContainerRequest) : list (string * string) :=
  let a := rc_resources r in
  [("--name", rc_name r); ("--network", network); ("--restart", "unless-stopped");
   ("--security-opt", "no-new-privileges:true"); ("--cap-drop", "ALL");
   ("--memory", pretty (memory_mb a) +:+ "m"); ("--memory-swap", pretty (memory_mb a) +:+ "m");
   ("--cpus", docker_cpu_value (cpu_millis a)); ("--pids-limit", pretty (pids_limit a))].
Definition start_line_options (network agent_id : string) (r : RunContainerRequest) (env_file : option string)
  : list (string * string) :=
  start_limits network r ++ start_labels agent_id r ++ List.map (pair "--env-file") (option_list env_file).

Lemma run_arguments_line network agent_id r env_file :
  run_arguments network agent_id r env_file = docker_run_line (start_line_options network agent_id r env_file) (rc_image r).
Proof.
  unfold run_arguments, docker_run_line, start_line_options, start_labels, optional_label.
  by destruct (max_line_length _), (max_batch_lines _), (max_total_bytes _), env_file.
Qed.
Lemma start_line_hardened network agent_id r env_file :
  hardened network r env_file (start_line_options network agent_id r env_file).
Proof.
  unfold start_line_options, start_labels, optional_label, values_of.
  destruct (max_line_length _), (max_batch_lines _), (max_total_bytes _), env_file;
    (split; [|first [reflexivity|exists (docker_cpu_value (cpu_millis (rc_resources r)));
                        split; [reflexivity|apply docker_cpu_value_exact]]..]).
  all: repeat constructor; apply (bool_decide_unpack _); by vm_compute.
Qed.

(** *** The environment *)

(** The calls that write the env file when all of them succeed. *)
Definition env_calls (path : string) (environment : list (string * string)) : list (Call HostOp) :=
  MkCall (EnvCreate path) (Ok ()) ::
  List.map (fun kv : string * string => MkCall (EnvWrite path (kv.1 +:+ "=" +:+ kv.2 +:+ newline)) (Ok ())) environment
  ++ [MkCall (EnvFlush path) (Ok ())].

(** The variables of the request, and the port if they do not set one. *)
Definition with_port (r : RunContainerRequest) (variables : list (string * string)) : Prop :=
  "PORT" ∈ List.map fst variables /\
  exists before behind, rc_environment r = before ++ behind /\
    (variables = before ++ behind \/ variables = before ++ ("PORT", pretty (rc_port r)) :: behind).
Lemma effective_environment_has_port r :
  with_port r (effective_environment (rc_environment r) (rc_port r)).
Proof.
  unfold with_port, effective_environment. generalize (rc_environment r) (pretty (rc_port r)). intros m v.
  induction m as [|[k' v'] m IH]; cbn [btree_or_insert].
  - split; [by left|]. exists [], []. split; [done|by right].
  - case_bool_decide as Hk; [subst; split; [by left|]; exists [], (("PORT", v') :: m); split; [done|by left]|].
    destruct (bytes_ltb _ _).
    + split; [by left|]. exists [], ((k', v') :: m). split; [done|by right].
    + destruct IH as [Hin (before & behind & -> & H)]. split; [by right|].
      exists ((k', v') :: before), behind. split; [done|]. destruct H as [H|H]; rewrite H; [by left|by right].
Qed.

Lemma write_lines_runs path environment tr r :
  runs (for_each (fun kv => io (env_write_all (Op := HostOp) path (env_line kv))) environment) tr r ->
  no_process tr /\
  (r = Ok () -> tr = List.map (fun kv => MkCall (EnvWrite path (env_line kv)) (Ok ())) environment).
Proof.
  revert tr. induction environment as [|kv rest IH]; intros tr.
  - intros [-> ->]. by split; [constructor|].
  - intros [(e & (x & -> & _)%runs_io & ->)|(t1 & t2 & [] & -> & (x & -> & Hx)%runs_io & H)]%runs_and_then.
    + split; [by repeat constructor|done].
    + apply IH in H as [Hn Hw]. split; [by constructor|]. intros Hr. rewrite (Hw Hr).
      destruct x as [[]|]; [done|done].
Qed.

Lemma write_env_file_runs workspace environment tr r :
  environment <> [] ->
  runs (write_env_file (Op := HostOp) workspace environment) tr r ->
  let path := path_join workspace "runtime.env" in
  no_process tr /\ (is_err r = true \/ (r = Ok (Some path) /\ tr = env_calls path environment)).
Proof.
  destruct environment as [|kv rest]; [done|]. intros _.
  intros [(e & (x & -> & _)%runs_io & ->)|(t1 & t2 & [] & -> & (x & -> & Hx)%runs_io & H)]%runs_and_then path.
  { split; [by repeat constructor|by left]. }
  apply runs_and_then in H as [(e & H & ->)|(u1 & u2 & [] & -> & H & Hflush)].
  { apply write_lines_runs in H as [Hn _]. split; [by constructor|by left]. }
  apply write_lines_runs in H as [Hn Hw]. rewrite (Hw eq_refl) in *.
  apply runs_and_then in Hflush as [(e & (y & -> & _)%runs_io & ->)|(v1 & v2 & [] & -> & (y & -> & Hy)%runs_io & [-> ->])].
  - split; [|by left]. constructor; [done|]. apply Forall_app_2; [done|by repeat constructor].
  - split; [constructor; [done|]; apply Forall_app_2; [done|by repeat constructor]|right].
    destruct x as [[]|]; [|done]. destruct y as [[]|]; [|done]. done.
Qed.

Lemma btree_or_insert_not_empty m k v : btree_or_insert m k v <> [].
Proof. destruct m as [|[k' v'] m]; cbn; [done|]. by repeat case_match. Qed.


(** ** Removing the previous containers *)

(** Which containers were listed, inspected (identity, running, name), stopped,
    removed and recognised as the current one. *)
Record Sweep := MkSweep {
  listed : list string; inspected : option (string * bool * string);
  stopped_id : option string; removed_ids : list string; current_ids : list string }.
Definition sweep_started : Sweep := MkSweep [] None None [] [].

Definition list_arguments (project_id : Uuid) : list string :=
  ["ps"; "--all"; "--quiet"; "--filter"; "label=" +:+ PROJECT_LABEL +:+ "=" +:+ uuid_text project_id] ++ managed_filter.
Definition inspect_format : string := tabbed ["{{.State.Running}}"; "{{.Name}}"].
Definition inspection_fields (stdout : string) : bool * string :=
  let fs := fields_of (trim stdout) in
  (bool_decide (fs !! 0%nat = Some "true"), trim_start_slashes (field fs 1)).

Section Sweep.
Context (project_id : Uuid) (current : string).

(** Only a container that was inspected and is not the current one is stopped,
    if it runs, or removed, behind its stop if it ran. *)
Definition sweep_allows (s : Sweep) X (o : HostOp X) : Prop :=
  match o with
  | RunProcess c _ =>
      c = command "docker" (list_arguments project_id) \/
      (exists id, id ∈ listed s /\ c = command "docker" ["inspect"; "--format"; inspect_format; id]) \/
      (exists id name, inspected s = Some (id, true, name) /\ name <> current /\
         c = command "docker" ["stop"; "--time"; "10"; id]) \/
      (exists id running name, inspected s = Some (id, running, name) /\ name <> current /\
         (running = true -> stopped_id s = Some id) /\ c = command "docker" ["rm"; id])
  | _ => False
  end.
Definition sweep_next (s : Sweep) X (o : HostOp X) (x : X) : Sweep :=
  match o in HostOp T return T -> Sweep with
  | RunProcess c _ => fun r =>
      match r with
      | Ok output =>
          if negb (po_success output) then s
          else match args c with
          | "ps" :: _ => MkSweep (output_lines (po_stdout output)) None None [] []
          | ["inspect"; _; _; id] =>
              let (running, name) := inspection_fields (po_stdout output) in
              MkSweep (listed s) (Some (id, running, name)) None (removed_ids s)
                (if bool_decide (name = current) then id :: current_ids s else current_ids s)
          | ["stop"; _; _; id] => MkSweep (listed s) (inspected s) (Some id) (removed_ids s) (current_ids s)
          | ["rm"; id] => MkSweep (listed s) (inspected s) (stopped_id s) (id :: removed_ids s) (current_ids s)
          | _ => s
          end
      | Err _ => s
      end
  | _ => fun _ => s
  end x.
Definition sweep_monitor : Monitor HostOp Sweep :=
  {| allowed := sweep_allows; plausible := fun _ _ _ _ => True; after_call := sweep_next |}.

(** Every container of [ids] is the current one or removed. *)
Definition swept (s : Sweep) (ids : list string) : Prop :=
  forall id, id ∈ ids -> id ∈ current_ids s \/ id ∈ removed_ids s.
Definition grows (s s' : Sweep) : Prop :=
  listed s' = listed s /\ current_ids s ⊆ current_ids s' /\ removed_ids s ⊆ removed_ids s'.

#[local] Instance every_call_awaited : Awaits HostOp := fun _ _ => true.
Abbreviation anywhere := (fun _ : Sweep => True).

Lemma cleanup_container_wp id s :
  id ∈ listed s ->
  wp sweep_monitor (cleanup_container (Op := HostOp) current id)
    (fun r s' => match r with Ok _ => grows s s' /\ (id ∈ current_ids s' \/ id ∈ removed_ids s') | Err _ => True end)
    anywhere s.
Proof.
  intros Hid. apply wp_and_then, wp_and_then, wp_trigger; [right; left; by exists id|done|].
  intros [output|e] _; [|done]. cbn [after_call sweep_monitor sweep_next].
  destruct (po_success output) eqn:Hs; [|done]. cbn [negb args command add_args command_new app ok wp].
  unfold inspection_fields.
  set (running := bool_decide (fields_of (trim (po_stdout output)) !! 0%nat = Some "true")).
  set (name := trim_start_slashes (field (fields_of (trim (po_stdout output))) 1)).
  clearbody running name. destruct (decide (name = current)) as [Hc|Hc];
    [rewrite !(bool_decide_true _ Hc)|rewrite !(bool_decide_false _ Hc)].
  - cbn. unfold grows. cbn. set_solver.
  - apply wp_and_then. destruct running.
    + apply wp_and_then, wp_and_then, wp_trigger; [right; right; left; by exists id, name|done|].
      intros [stopped|e] _; [|done]. cbn [after_call sweep_monitor sweep_next].
      destruct (po_success stopped) eqn:Hst; [|done]. cbn [negb args command add_args command_new app ok wp].
      apply wp_and_then, wp_and_then, wp_trigger; [right; right; right; by exists id, true, name|done|].
      intros [removed|e] _; [|done]. cbn [after_call sweep_monitor sweep_next].
      destruct (po_success removed) eqn:Hrm; [|done]. cbn. unfold grows. cbn. set_solver.
    + cbn [wp ok]. apply wp_and_then, wp_and_then, wp_trigger; [right; right; right; by exists id, false, name|done|].
      intros [removed|e] _; [|done]. cbn [after_call sweep_monitor sweep_next].
      destruct (po_success removed) eqn:Hrm; [|done]. cbn. unfold grows. cbn. set_solver.
Qed.

Lemma cleanup_containers_wp ids s :
  (forall id, id ∈ ids -> id ∈ listed s) ->
  wp sweep_monitor (for_each (cleanup_container (Op := HostOp) current) ids)
    (fun r s' => match r with Ok _ => grows s s' /\ swept s' ids | Err _ => True end) anywhere s.
Proof.
  revert s. induction ids as [|id ids IH]; intros s Hl.
  - cbn. split; [done|]. by intros id' H%elem_of_nil.
  - apply wp_and_then. eapply wp_mono; [|done|apply cleanup_container_wp, Hl, list_elem_of_here].
    intros [[]|e] s1; [|done]. intros [(Hl1 & Hc1 & Hr1) Hid].
    eapply wp_mono; [|done|apply IH; rewrite Hl1; intros id' Hid'; by apply Hl, list_elem_of_further].
    intros [[]|e] s2; [|done]. intros [(Hl2 & Hc2 & Hr2) Hs]. split; [unfold grows; split_and!; [congruence|set_solver..]|].
    intros id' [->|Hid']%elem_of_cons; [set_solver|by apply Hs].
Qed.

Definition swept_when_ok (r : Result RuntimeError ()) (s : Sweep) : Prop := is_ok r = true -> swept s (listed s).

Lemma cleanup_previous_wp :
  wp sweep_monitor (docker_cleanup_previous (Op := HostOp) project_id current) swept_when_ok anywhere sweep_started.
Proof.
  apply wp_and_then, wp_and_then, wp_trigger; [by left|done|].
  intros [output|e] _; [|done]. cbn [after_call sweep_monitor sweep_next].
  destruct (po_success output) eqn:Hs; [|done]. cbn [negb args command add_args command_new app ok wp].
  eapply wp_mono; [|done|apply cleanup_containers_wp; done].
  intros [[]|e] s; [|done]. intros [(Hl & _ & _) Hsw] _. rewrite Hl. exact Hsw.
Qed.
End Sweep.

(** C22. A finished deployment removes the previous containers of its project and
    never its own.  In every run of the cleanup, whatever fails, a container is
    stopped or removed only after it was listed for the project and inspected,
    only when its inspected name is not the current container's, and a running
    one is removed only behind its stop; when the cleanup succeeds every listed
    container is the current one or removed. *)
Theorem cleanup_spares_current project_id current tr r :
  runs (docker_cleanup_previous (Op := HostOp) project_id current) tr r ->
  obeys (sweep_monitor project_id current) sweep_started tr /\
  (is_ok r = true -> swept (final (sweep_monitor project_id current) sweep_started tr)
                       (listed (final (sweep_monitor project_id current) sweep_started tr))).
Proof.
  intros Hr. change (obeys (sweep_monitor project_id current) sweep_started tr /\
    swept_when_ok r (final (sweep_monitor project_id current) sweep_started tr)).
  eapply wp_sound with (C := fun _ => True); [apply cleanup_previous_wp|exact Hr|].
  clear Hr. generalize sweep_started. induction tr as [|c tr IH]; intros s; cbn; auto.
Qed.

(** ** Witnesses *)

Definition sample_start : RunContainerRequest :=
  {| rc_command_id := project_a; rc_project_id := project_a; rc_deployment_id := deployment_a;
     rc_name := container_name project_a deployment_a; rc_image := "sakala/app"; rc_workspace := "/builds/c1";
     rc_environment := [("APP_ENV", "production")];
     rc_resources := {| memory_mb := 512; cpu_millis := 500; pids_limit := 256 |};
     rc_domain := "app.run.sakala.dev"; rc_port := 3000; rc_log_bounds := default_log_bounds |}.
Definition silent_host : Env HostOp := printing_host (fun _ => EmptyString).
Definition start_run := run_with silent_host (docker_start "sakala" "node-1" sample_start).


(** Two containers of a project: the current one and a previous one that runs. *)
Definition two_containers : Env HostOp := printing_host (fun c =>
  match args c with
  | "ps" :: _ => "aaa" +:+ newline +:+ "bbb" +:+ newline
  | ["inspect"; _; _; "aaa"] => "true" +:+ tab +:+ "/current" +:+ newline
  | ["inspect"; _; _; _] => "true" +:+ tab +:+ "/previous" +:+ newline
  | _ => EmptyString
  end).
Definition sweep_run := run_with two_containers (docker_cleanup_previous project_a "current").

Lemma cleanup_spares_current_witness :
  is_ok sweep_run.2 = true /\
  swept (final (sweep_monitor project_a "current") sweep_started sweep_run.1) ["aaa"; "bbb"] /\
  removed_ids (final (sweep_monitor project_a "current") sweep_started sweep_run.1) = ["bbb"].
Proof.
  split; [vm_compute; reflexivity|]. split; [|vm_compute; reflexivity].
  apply (cleanup_spares_current project_a "current" sweep_run.1 sweep_run.2 (runs_run_from _ _ _)).
  vm_compute. reflexivity.
Defined.
