(* ===== verification/WorkspaceFacts.v ===== *)
(** Theorems about workspaces: where a repository credential goes during a
    checkout, what a checkout leaves behind, which directories the removal of
    stale workspaces may delete. *)
From S2P Require Import Prelude Text Protocol Async Ports ApiClient RuntimeError Process Routing Containers Workspace Builders Health RoutingFacts Monitor HostOps.

#[local] Open Scope async_scope.

(** ** Checkout *)

Definition askpass_of (w : DeploymentWorkspace) (s : RepositorySource) : option string :=
  match src_credential s with Some _ => Some (askpass_path (dw_root w)) | None => None end.
Definition git_commands (w : DeploymentWorkspace) (s : RepositorySource) : list CommandSpec :=
  [git_init (dw_source w); git_remote (dw_source w) (src_repository_url s);
   fetch_command w s (askpass_of w s); git_checkout (dw_source w)].

(** The command lines, in their order: the third is the fetch. *)
Definition git_lines (source url sha : string) : list (list string) :=
  [["init"; "--initial-branch=sakala"; source];
   ["-C"; source; "remote"; "add"; "origin"; url];
   ["-C"; source; "fetch"; "--depth=1"; "origin"; sha];
   ["-C"; source; "checkout"; "--detach"; "FETCH_HEAD"]].
Definition fetch_position : nat := 2.

(** What anyone on the host may see of a command. *)
Definition public_part (c : CommandSpec) : CommandSpec :=
  {| program := program c; args := args c; current_dir := current_dir c; environment := environment c;
     secret_environment := []; spec_timeout := spec_timeout c; timeout_disabled := timeout_disabled c;
     has_cancellation := has_cancellation c |}.
Definition with_token (s : RepositorySource) (token : SecretString) : RepositorySource :=
  {| src_repository_url := src_repository_url s; src_commit_sha := src_commit_sha s;
     src_credential := match src_credential s with
                       | Some c => Some {| rc_username := rc_username c; rc_token := token |}
                       | None => None end |}.

Record Checkout := MkCheckout {
  restricted : bool; askpass_written : bool; askpass_gone : bool;
  attempted : bool; completed : nat; wipe_run : bool }.
Definition checkout_started : Checkout := MkCheckout false false false false 0 false.

Section Monitor.
Context (w : DeploymentWorkspace) (s : RepositorySource).

(** Files are written only into the restricted root, and only the constant
    script; the git commands run one behind the other, each after the success
    of the one before, with the script in place when there is a credential. *)
Definition checkout_allows (st : Checkout) X (o : HostOp X) : Prop :=
  match o with
  | RunProcess c _ =>
      git_commands w s !! completed st = Some c /\ restricted st = true /\
      (is_Some (src_credential s) -> askpass_written st = true) /\ askpass_gone st = false /\ wipe_run st = false
  | WfTryExists p | WfCreateDirAll p => p = dw_root w
  | WfRemoveDirAll p => p = dw_root w
  | WfSetMode p mode => (p = dw_root w \/ p = askpass_path (dw_root w)) /\ mode = OWNER_ONLY
  | WfWrite p content =>
      p = askpass_path (dw_root w) /\ content = ASKPASS_SCRIPT /\ is_Some (src_credential s) /\ restricted st = true
  | WfRemoveFile p => p = askpass_path (dw_root w) /\ is_Some (src_credential s)
  | _ => False
  end.
Definition checkout_next (st : Checkout) X (o : HostOp X) (x : X) : Checkout :=
  match o in HostOp T return T -> Checkout with
  | RunProcess _ _ => fun r =>
      let success := match r with Ok output => po_success output | Err _ => false end in
      MkCheckout (restricted st) (askpass_written st) (askpass_gone st) true
        (if success then S (completed st) else completed st) (wipe_run st)
  | WfSetMode p _ => fun r =>
      MkCheckout (is_ok r || restricted st) (askpass_written st) (askpass_gone st) (attempted st) (completed st) (wipe_run st)
  | WfWrite _ _ => fun r =>
      MkCheckout (restricted st) (is_ok r) (askpass_gone st) (attempted st) (completed st) (wipe_run st)
  | WfRemoveFile _ => fun r =>
      MkCheckout (restricted st) (askpass_written st) (is_ok r) (attempted st) (completed st) (wipe_run st)
  | WfRemoveDirAll _ => fun _ =>
      MkCheckout (restricted st) (askpass_written st) (askpass_gone st) (attempted st) (completed st) (attempted st)
  | _ => fun _ => st
  end x.
Definition checkout_monitor : Monitor HostOp Checkout :=
  {| allowed := checkout_allows; plausible := fun _ _ _ _ => True; after_call := checkout_next |}.

(** A workspace that is handed out has every command completed and no script;
    a checkout that fails after a command was tried has run the removal of the root. *)
Definition checkout_outcome (r : Result RuntimeError DeploymentWorkspace) (st : Checkout) : Prop :=
  match r with
  | Ok w' => w' = w /\ completed st = 4%nat /\ (is_Some (src_credential s) -> askpass_gone st = true) /\ wipe_run st = false
  | Err _ => attempted st = true -> wipe_run st = true
  end.

#[local] Instance every_call_awaited : Awaits HostOp := fun _ _ => true.
Abbreviation anywhere := (fun _ : Checkout => True).
Ltac state := cbn [allowed plausible after_call checkout_monitor checkout_allows checkout_next is_ok orb
  restricted askpass_written askpass_gone attempted completed wipe_run] in *.
Ltac step x := apply wp_trigger; state; [| done | intros x _; state].

Lemma wp_io {A} (o : HostOp (Result IoError A)) (R : Result RuntimeError A -> Checkout -> Prop) st :
  checkout_allows st _ o -> (forall x, R (io_error x) (checkout_next st _ o x)) ->
  wp checkout_monitor (io (trigger o)) R anywhere st.
Proof. intros Ho HR. apply wp_bind. step x; [done|]. apply HR. Qed.

(** One git command. *)
Lemma wp_git c phase (R : Result RuntimeError ProcessOutput -> Checkout -> Prop) st :
  checkout_allows st _ (RunProcess c (ReporterOutputSink phase)) ->
  (forall output, R (Ok output) (MkCheckout (restricted st) (askpass_written st) (askpass_gone st) true
                                   (S (completed st)) (wipe_run st))) ->
  (forall e, R (Err e) (MkCheckout (restricted st) (askpass_written st) (askpass_gone st) true
                          (completed st) (wipe_run st))) ->
  wp checkout_monitor (run_checked (Op := HostOp) c phase) R anywhere st.
Proof.
  intros Hc Hok He. apply wp_and_then. step r; [done|]. destruct r as [output|e]; [|apply He].
  destruct (po_success output); [apply Hok|apply He].
Qed.

Definition ready_to_run (st : Checkout) (n : nat) : Prop :=
  restricted st = true /\ (is_Some (src_credential s) -> askpass_written st = true) /\
  askpass_gone st = false /\ wipe_run st = false /\ completed st = n.

Ltac command_in_place := state; match goal with Hc : completed _ = _ |- _ => rewrite Hc end; by split_and!.
Lemma run_git_wp st :
  ready_to_run st 0 ->
  wp checkout_monitor (run_git (Op := HostOp) w s (askpass_of w s))
    (fun r st' => attempted st' = true /\ wipe_run st' = false /\ (r = Ok () -> completed st' = 4%nat)) anywhere st.
Proof.
  intros (Hr & Ha & Hg & Hw & Hc). unfold run_git.
  apply wp_and_then, wp_and_then, wp_and_then, wp_git; [command_in_place|intros _|by intros e].
  state. cbn [wp ok]. apply wp_and_then, wp_and_then, wp_git; [command_in_place|intros _|by intros e].
  state. cbn [wp ok for_each]. apply wp_and_then, wp_git; [command_in_place|intros _|by intros e].
  apply wp_and_then, wp_git; [command_in_place|intros _|by intros e].
  state. cbn [wp ok]. state. by rewrite Hc.
Qed.

Lemma prepare_root_wp :
  wp checkout_monitor (prepare_root (Op := HostOp) w)
    (fun r st => match r with
                 | Ok _ => st = MkCheckout true false false false 0 false
                 | Err _ => attempted st = false end) anywhere checkout_started.
Proof.
  unfold prepare_root. apply wp_and_then, wp_io; [done|]. intros [there|e]; [|done].
  apply wp_and_then. cbn [io_error map_err].
  assert (H : wp checkout_monitor (if there then io (wf_remove_dir_all (dw_root w)) else ok ())
    (fun r st => match r with Ok _ => st = checkout_started | Err _ => attempted st = false end) anywhere checkout_started).
  { destruct there; [apply wp_io; [done|]; by intros [[]|e]|done]. }
  eapply wp_mono; [|done|exact H]. intros [[]|e] st; [|done]. intros ->.
  apply wp_and_then, wp_io; [done|]. intros [[]|e]; [|done].
  apply wp_io; [by split; [left|]|]. by intros [[]|e].
Qed.

Lemma credential_wp :
  wp checkout_monitor
    (match src_credential s with
     | Some _ => f <- write_askpass (Op := HostOp) (dw_root w) ;; ok (Some f)
     | None => ok None
     end)
    (fun r st => match r with
                 | Ok askpass => askpass = askpass_of w s /\ ready_to_run st 0 /\ attempted st = false
                 | Err _ => attempted st = false end) anywhere (MkCheckout true false false false 0 false).
Proof.
  unfold askpass_of, ready_to_run. destruct (src_credential s) as [c|] eqn:Hc.
  - apply wp_and_then, wp_and_then, wp_io; [state; rewrite Hc; by split_and!|]. intros [[]|e]; [|done].
    apply wp_and_then, wp_io; [by split; [right|]|]. intros [[]|e]; [|done]. cbn. split_and!; done.
  - by split_and!.
Qed.

Lemma fail_wp e st :
  wp checkout_monitor (ignore (workspace_cleanup (Op := HostOp) w) ;;; err e : Async HostOp RuntimeError DeploymentWorkspace)
    checkout_outcome anywhere st.
Proof.
  apply wp_and_then, wp_bind, wp_bind. step r; [done|].
  destruct r as [[]|e']; [|destruct (io_not_found e')]; cbn; auto.
Qed.

Lemma cleaned_wp st :
  wp checkout_monitor
    (match askpass_of w s with
     | Some f => attempt (io (wf_remove_file (Op := HostOp) f))
     | None => ok (Ok ())
     end : Async HostOp RuntimeError (Result RuntimeError ()))
    (fun r st' => exists cleaned, r = Ok cleaned /\ attempted st' = attempted st /\ completed st' = completed st /\
       wipe_run st' = wipe_run st /\ (cleaned = Ok () -> is_Some (src_credential s) -> askpass_gone st' = true)) anywhere st.
Proof.
  unfold askpass_of. destruct (src_credential s) as [c|] eqn:Hc.
  - apply wp_bind, wp_io; [state; rewrite Hc; by split|]. intros [[]|e]; cbn; eexists; split_and!; try done.
  - cbn. eexists. by split_and!.
Qed.
End Monitor.

Lemma checkout_wp root id s :
  let w := new_workspace (path_join root (uuid_text id)) in
  wp (checkout_monitor w s) (Awaits0 := every_call_awaited) (checkout (Op := HostOp) root id s)
    (checkout_outcome w s) (fun _ => True) checkout_started.
Proof.
  intros w. unfold checkout. fold w. apply wp_and_then. eapply wp_mono; [|done|apply prepare_root_wp].
  intros [[]|e] st; [|by intros Ha ?; rewrite Ha in *]. intros ->.
  apply wp_and_then. eapply wp_mono; [|done|apply credential_wp].
  intros [askpass|e] st; [|by intros Ha ?; rewrite Ha in *]. intros (-> & Hready & Hatt).
  apply wp_and_then, wp_bind. eapply wp_mono; [|done|by apply run_git_wp].
  intros result st1 (Ha1 & Hw1 & Hc1). cbn [wp]. apply wp_and_then. eapply wp_mono; [|done|apply cleaned_wp].
  intros r st2 (cleaned & -> & Ha2 & Hc2 & Hw2 & Hg2).
  destruct result as [[]|e]; [|apply fail_wp]. destruct cleaned as [[]|e]; [|apply fail_wp].
  cbn. rewrite Hc2, Hw2. split_and!; auto.
Qed.

(** C16. A checkout confines its credential.  In every run files are written only
    inside the owner-only workspace and only the constant askpass script; the
    four git commands (init, remote, fetch of the commit, checkout of what was
    fetched) run in order, each after the success of the one before;
    the token is in no argument and no plain variable (a checkout with another
    token shows the same) but only in the secret environment of the fetch.  A
    workspace that is handed out has all commands completed and no script left;
    a checkout that fails once a command was tried has run the removal of the
    workspace's directory, whatever that answered. *)
Theorem checkout_confines_credential root id s tr r :
  runs (checkout (Op := HostOp) root id s) tr r ->
  let w := new_workspace (path_join root (uuid_text id)) in
  obeys (checkout_monitor w s) checkout_started tr /\
  checkout_outcome w s r (final (checkout_monitor w s) checkout_started tr) /\
  (forall token, List.map public_part (git_commands w (with_token s token)) = List.map public_part (git_commands w s)) /\
  List.map (fun c => program c :: args c) (git_commands w s) =
    List.map (cons "git") (git_lines (dw_source w) (src_repository_url s) (src_commit_sha s)) /\
  (forall i c, git_commands w s !! i = Some c -> secret_environment c = [] \/
    i = fetch_position /\ exists credential, src_credential s = Some credential /\
      secret_environment c = [("SAKALA_GIT_ASKPASS_TOKEN", rc_token credential)]).
Proof.
  intros Hr w.
  destruct (wp_sound (checkout_monitor w s) _ (checkout_outcome w s) (fun _ => True) checkout_started tr r
    (checkout_wp root id s) Hr) as [Ho Hf].
  { clear Hr. generalize checkout_started. induction tr as [|c tr IH]; intros st; cbn; auto. }
  split_and!; [done|done| | |].
  - intros token. unfold git_commands, fetch_command, askpass_of, with_token. by destruct (src_credential s).
  - unfold git_commands, fetch_command, askpass_of. by destruct (src_credential s).
  - unfold git_commands, fetch_command, askpass_of.
    intros [|[|[|[|i]]]] c Hc; cbn in Hc; simplify_eq; try by left.
    destruct (src_credential s) as [credential|]; [right|by left]. split; [done|]. by exists credential.
Qed.

(** ** Stale workspaces *)

Definition removes (path : string) (tr : list (Call HostOp)) : Prop := exists x, In (MkCall (WfRemoveDirAll path) x) tr.
(** An entry that may be removed. *)
Definition removable (parse_uuid : string -> option Uuid) (now age : Z) (e : WorkspaceEntry) : Prop :=
  we_type e = Ok (true, false) /\ is_Some (parse_uuid (we_name e)) /\
  exists modified, we_modified e = Ok modified /\ (age <= Z.max 0 (now - modified))%Z.

Lemma clean_entry_runs parse_uuid now age n entry tr r path :
  runs (clean_entry (Op := HostOp) parse_uuid now age n entry) tr r -> removes path tr ->
  exists e, entry = Ok e /\ path = we_path e /\ removable parse_uuid now age e.
Proof.
  intros Hrun [x Hin]. destruct entry as [e|e]; [|by destruct Hrun as [-> _]].
  apply runs_and_then in Hrun as [(e' & [-> _] & _)|(t1 & t2 & e1 & -> & [-> He1] & H)]; [done|]; injection He1 as ->.
  apply runs_and_then in H as [(e' & [-> _] & _)|(t1 & t3 & kind & -> & [-> Hk] & H)]; [done|].
  cbn [app] in Hin. destruct (we_type e) as [[dir link]|] eqn:Ht; [|done]. injection Hk as ->.
  destruct dir, link; cbn [negb orb fst snd] in H; try (by destruct H as [-> _]).
  destruct (parse_uuid (we_name e)) as [u|] eqn:Hu; [|by destruct H as [-> _]].
  apply runs_and_then in H as [(e' & [-> _] & _)|(t1 & t4 & modified & -> & [-> Hm] & H)]; [done|].
  destruct (we_modified e) as [m|] eqn:Hmod; [|done]. injection Hm as ->. cbn [app] in Hin.
  destruct (_ <? _)%Z eqn:Hage; [by destruct H as [-> _]|]. apply Z.ltb_ge in Hage.
  exists e. split; [done|].
  assert (path = we_path e) as ->; [|split; [done|]; split_and!; [done|by rewrite Hu|eauto]].
  apply runs_and_then in H as [(e' & (y & t & -> & -> & _) & _)|(t1 & t5 & [] & -> & (y & t & -> & -> & _) & -> & _)];
    cbn in Hin; by destruct Hin as [[= ->]|[]].
Qed.

Lemma clean_entries_runs parse_uuid now age entries n tr r path :
  runs (fold_each (clean_entry (Op := HostOp) parse_uuid now age) n entries) tr r -> removes path tr ->
  exists e, In (Ok e) entries /\ path = we_path e /\ removable parse_uuid now age e.
Proof.
  revert n tr. induction entries as [|entry entries IH]; intros n tr; [by intros [-> _] [x []]|].
  intros [(e & H & _)|(t1 & t2 & n' & -> & H & Hrest)]%runs_and_then [x Hin].
  - eapply clean_entry_runs in H as (e0 & -> & Hp & Hr); [|by exists x]. exists e0. split; [by left|done].
  - apply in_app_iff in Hin as [Hin|Hin].
    + eapply clean_entry_runs in H as (e0 & -> & Hp & Hr); [|by exists x]. exists e0. split; [by left|done].
    + eapply IH in Hrest as (e0 & He & Hp); [|by exists x]. exists e0. split; [by right|done].
Qed.

(** The removal of stale workspaces deletes only directories that are not
    symbolic links, have a workspace's name and are old enough: every directory
    a run removes is an entry of the root, read in that run, with those
    properties, and the clock is read in the run too. *)
Theorem stale_removal_is_guarded parse_uuid root minimum_age tr r path x :
  runs (workspace_cleanup_stale (Op := HostOp) parse_uuid root minimum_age) tr r ->
  In (MkCall (WfRemoveDirAll path) x) tr ->
  exists entries now e rest,
    tr = MkCall (WfReadDir root) (Ok entries) :: MkCall HostNow now :: rest /\ In (Ok e) entries /\
    path = we_path e /\ removable parse_uuid now (Z.of_N minimum_age) e.
Proof.
  intros (entries & t1 & -> & H) Hin. apply in_inv in Hin as [Hin|Hin]; [discriminate Hin|]. destruct entries as [entries|e].
  - destruct H as (now & rest & -> & H). destruct Hin as [Hin|Hin]; [discriminate Hin|].
    eapply clean_entries_runs in H as (e & He & Hp & Hr); [|by exists x]. by exists entries, now, e, rest.
  - cbn [bind] in H. destruct (io_not_found e); by destruct H as [-> _].
Qed.

(** ** Witnesses *)

Definition sample_source : RepositorySource :=
  {| src_repository_url := "https://github.com/gmedia/example-app.git";
     src_commit_sha := "0123456789abcdef0123456789abcdef01234567";
     src_credential := Some {| rc_username := "x-access-token"; rc_token := MkSecret "ghs_secret" |} |}.
Definition checkout_run :=
  run_with (printing_host (fun _ => EmptyString)) (checkout "/builds" project_a sample_source).

Lemma checkout_confines_credential_witness :
  is_ok checkout_run.2 = true /\
  askpass_gone (final (checkout_monitor (new_workspace (path_join "/builds" (uuid_text project_a))) sample_source)
                  checkout_started checkout_run.1) = true.
Proof.
  split; [vm_compute; reflexivity|].
  destruct (checkout_confines_credential "/builds" project_a sample_source checkout_run.1 checkout_run.2
    (runs_run_from _ _ _)) as (_ & Hf & _).
  revert Hf. vm_compute. intros (_ & _ & Hg & _). apply Hg. by eexists.
Defined.

Definition old_entry : WorkspaceEntry :=
  {| we_name := uuid_text project_a; we_path := "/builds/ff66ed4a-6303-4be6-8ef4-63c28b112680";
     we_type := Ok (true, false); we_modified := Ok 0%Z |}.
Definition stale_env : Env HostOp := fun past X o =>
  match o in HostOp T return T with
  | WfReadDir _ => Ok [Ok old_entry]
  | HostNow => 100%Z
  | o => printing_host (fun _ => EmptyString) past _ o
  end.
Definition any_uuid (s : string) : option Uuid := Some (MkUuid s).
Definition stale_run := run_with stale_env (workspace_cleanup_stale any_uuid "/builds" 60%N).

Lemma stale_removal_witness : exists entries now e rest,
  stale_run.1 = MkCall (WfReadDir "/builds") (Ok entries) :: MkCall HostNow now :: rest /\ In (Ok e) entries /\
  we_path old_entry = we_path e /\ removable any_uuid now 60 e.
Proof.
  apply (stale_removal_is_guarded any_uuid "/builds" 60%N stale_run.1 stale_run.2 (we_path old_entry) (Ok ())
    (runs_run_from _ _ _)).
  vm_compute. right. right. left. reflexivity.
Defined.
