(* ===== verification/NodeFacts.v ===== *)
(** Theorems about the assembled node: its commands are those of the executor
    with every service call carried out on the host, and what they leave on
    the host. *)
From S2P Require Import Prelude Text Protocol Async Interp Ports ApiClient RuntimeError Limits Config Process Routing Containers Workspace Builders Health Monitor Executor Telemetry RoutingFacts ExecutorOps ExecutorFacts PayloadFacts LifecycleFacts HostOps Node.

#[local] Open Scope async_scope.

Section Composition.
Context (parsers : Parsers) (config : DockerRuntimeConfig).
Abbreviation node := (with_runner parsers config).
Abbreviation h := (service_call parsers config).
#[local] Instance exec_engine : ContainerEngine ExecOp := ExecOp_containers (dc_resource_safety config).

Definition node_command (c : WorkloadCommand) : Async HostOp RuntimeExecutionError CommandOutput :=
  match c with
  | Restart q => restart_project (RuntimeExecutor := node) q
  | Stop q => stop_project (RuntimeExecutor := node) q
  | Sleep q => sleep_project (RuntimeExecutor := node) q
  | Wake q => wake_project (RuntimeExecutor := node) q
  | Probe q => health_check (RuntimeExecutor := node) q
  | Refresh q => refresh_route (RuntimeExecutor := node) q
  | Reconcile q => reconcile_workload (RuntimeExecutor := node) q
  end.

Lemma node_command_implements c :
  implements h (node_command c) (ported (run_command (dc_resource_safety config) c)).
Proof.
  destruct c; cbn [node_command with_runner docker_executor restart_project stop_project sleep_project wake_project
    health_check refresh_route reconcile_workload run_command]; apply implements_with_error.
  - unfold run_restart, find_workload. serve.
  - unfold run_stop. serve.
  - unfold run_stop. serve.
  - unfold run_wake, find_workload. serve.
  - unfold run_health_check, find_workload. serve.
  - unfold run_refresh_route, find_workload. serve.
  - unfold run_reconcile_workload, apply_action, restart_follower, cleanup_failed, restore_route. serve.
Qed.

(** C13. The commands on workloads, on the assembled node, are those of the
    executor: every run of a command over processes and files is a run of the
    executor over its services with the same outcome, each service call carried
    out on the host by the service the node was assembled with, in the same
    order.  So what the executor never asks of a service (a removal before the
    route is gone, a route for a workload not found ready, another workload's
    container) never happens on the host. *)
Theorem node_commands_refine c tr r :
  runs (node_command c) tr r ->
  exists cs r', runs (run_command (dc_resource_safety config) c) cs r' /\
    r = map_err to_execution_error r' /\ expands h cs tr /\
    obeys (workload_monitor c) nothing_seen cs.
Proof.
  intros (cs & Hcs & Hexp)%(implements_runs h _ _ _ _ (node_command_implements c)).
  apply runs_with_error in Hcs as (r' & -> & Hcs). exists cs, r'.
  split_and!; [done|done|done|apply (run_command_guarded _ _ _ _ Hcs)].
Qed.

(** The workspace's admission, and all that the node does for itself. *)
(** So are the operations the node runs for itself, and what precedes a
    deployment's build. *)
Theorem node_maintenance_composes factory q deploy :
  implements h (reconcile (RuntimeExecutor := node)) (ported (run_reconcile (executor_config config))) /\
  implements h (recover (RuntimeExecutor := node) factory) (ported (run_recover (executor_config config) factory)) /\
  implements h (capacity (RuntimeExecutor := node)) (ported (run_capacity (executor_config config))) /\
  implements h (health_snapshot (RuntimeExecutor := node)) (ported ce_health_snapshot) /\
  implements h (shutdown (RuntimeExecutor := node)) (_ <~ ce_shutdown ;; ok ()) /\
  implements h (cleanup_runtime (RuntimeExecutor := node) q) (ported (run_cleanup (executor_config config) q)) /\
  implements h (@prepare_deployment HostOp (node_workspace parsers config) (node_containers parsers config) _ _
                  (pa_url parsers) (executor_config config) deploy)
    (prepare_deployment (pa_url parsers) (executor_config config) deploy).
Proof.
  cbn [reconcile recover capacity health_snapshot shutdown cleanup_runtime with_runner docker_executor].
  split_and!; try apply implements_with_error.
  - unfold run_reconcile. serve.
  - unfold run_recover, run_reconcile, recover_workload. serve.
  - unfold run_capacity. serve.
  - serve.
  - serve.
  - unfold run_cleanup, cleanup_target. serve.
  - unfold prepare_deployment, ensure_workspace_capacity, emit_event. serve.
Qed.

(** ** Commands and files of a run *)

(** One docker command that must succeed, a query. *)
Lemma container_command_runs l phase tr :
  runs (run_container_command (Op := HostOp) l phase) tr (Ok ()) ->
  processes tr = [(command "docker" l, true)] /\ files tr = [].
Proof.
  intros (x & t & -> & H). destruct x as [o|e]; [|by destruct H].
  cbn in H. destruct (po_success o) eqn:Ho; destruct H as [-> H]; [|done]. cbn. by rewrite Ho.
Qed.
Lemma query_runs what l tr s :
  runs (docker_query (Op := HostOp) what l) tr (Ok s) ->
  exists o, tr = [MkCall (RunProcess (command "docker" l) NullOutputSink) (Ok o)] /\
    po_success o = true /\ po_stdout o = s.
Proof.
  intros (x & t & -> & H). destruct x as [o|e]; [|by destruct H].
  cbn in H. destruct (po_success o) eqn:Ho; destruct H as [-> H]; [|done]. injection H as ->. by exists o.
Qed.

(** Caddy is asked to check and then to load the configuration. *)
Definition caddy_reload : list (CommandSpec * bool) :=
  List.map (fun action => (command "docker" ["exec"; dc_caddy_container config; "caddy"; action;
     "--config"; "/etc/caddy/Caddyfile"; "--adapter"; "caddyfile"], true)) ["validate"; "reload"].
Lemma caddy_runs tr :
  runs (exec_validate_and_reload (Op := HostOp) (dc_caddy_container config)) tr (Ok ()) ->
  processes tr = caddy_reload /\ files tr = [].
Proof.
  intros (x & t & -> & H). destruct x as [o|e]; [|by destruct H].
  cbn in H. destruct (po_success o) eqn:Ho; [|by destruct H].
  destruct H as (x & t' & -> & H). destruct x as [o'|e]; [|by destruct H].
  cbn in H. destruct (po_success o') eqn:Ho'; destruct H as [-> H]; [|done]. cbn. by rewrite Ho, Ho'.
Qed.

(** ** Routes on the host *)
#[local] Instance caddy : CaddyReloader HostOp := node_reloader config.
Abbreviation dir := (dc_caddy_sites_dir config).

Lemma deactivate_implements i :
  implements (file_call config) (deactivate_route (Op := HostOp) dir i) (deactivate_route (Op := FileOp) dir i).
Proof. unfold deactivate_route, remove_route, reload_or_restore, restore, read_previous, io. serve. Qed.

(** The files of a run of the host are those of the run it carries out. *)
Lemma file_call_files c tr :
  runs (file_call config _ (call_op c)) tr (call_answer c) ->
  files tr = match call_op c with CaddyReload | CaddyReloadAgain => [] | _ => [c] end.
Proof.
  destruct c as [X o x]. cbn [call_op call_answer]. intros H.
  assert (Hcaddy : forall Y (p : Prog HostOp Y) t y, only no_file p -> runs p t y -> files t = [])
    by (intros Y p t y Hp Hr; by eapply no_files, only_runs).
  destruct o; cbn [file_call] in H; try (destruct H as (y & t & -> & -> & ->); done).
  eapply Hcaddy; [|exact H]. unfold exec_validate_and_reload, run_checked. only_calls; by split.
Qed.
Lemma replay_host cs tr f f' :
  expands (file_call config) cs tr -> replay f (files tr) f' -> replay f cs f'.
Proof.
  intros H. revert f. induction H as [|c cs t1 t2 H _ IH]; intros f; [done|].
  rewrite files_app. intros (f1 & H1 & H2)%replay_app. apply IH in H2. exists f1. split; [|done].
  apply file_call_files in H. rewrite H in H1. destruct c as [X o x]. cbn [call_op call_answer] in *.
  destruct o; cbn in H1 |- *; try done; destruct H1 as (f2 & H1 & ->); exact H1.
Qed.

(** The route file of a deployment names it on its first line. *)
Definition routes_deployment (p d : Uuid) (content : string) : Prop :=
  exists rest, content = ("# Managed by sakala-agent for project " +:+ uuid_text p +:+ " deployment "
    +:+ uuid_text d +:+ ".") +:+ rest.
Lemma removal_of_deployment p d c :
  match removal_of {| ri_project_id := p; ri_deployment_id := Some d |} c with
  | Delete => routes_deployment p d c
  | Keep => ~ routes_deployment p d c
  | Refuse => True
  end.
Proof.
  unfold removal_of, routes_deployment. cbn [ri_project_id ri_deployment_id]. destruct (_ && _); [done|].
  change ("# Managed by sakala-agent for project " +:+ uuid_text p +:+ " deployment " +:+ uuid_text d +:+ ".")
    with (deployment_prefix p d).
  destruct (starts_with c (deployment_prefix p d)) eqn:Hs; [by apply starts_with_split|].
  intros H%starts_with_split. congruence.
Qed.

(** A deactivation that ends well: what it ran, and what it left. *)
Lemma deactivate_node_runs i tr b f f' :
  runs (deactivate_route (Op := HostOp) dir i) tr (Ok b) -> replay f (files tr) f' ->
  processes tr = (if b : bool then caddy_reload else []) /\
  (forall p, p <> route_path dir (ri_project_id i) -> f' !! p = f !! p) /\
  (if b then (exists c, f !! route_path dir (ri_project_id i) = Some c /\ removal_of i c = Delete) /\
             f' !! route_path dir (ri_project_id i) = None
   else f' = f /\ forall c, f !! route_path dir (ri_project_id i) = Some c -> removal_of i c = Keep).
Proof.
  intros Hr Hf. split.
  - unfold deactivate_route in Hr. apply runs_and_then in Hr as [(e & _ & [=])|(t1 & t2 & s & -> & H1 & H2)].
    assert (processes t1 = []) as Hp1.
    { apply no_processes. eapply only_runs; [|exact H1]. unfold remove_route, read_previous, io. only_calls; by split. }
    rewrite processes_app, Hp1. cbn [app]. destruct (sn_changed s); [|by destruct H2 as [-> [= ->]]].
    apply runs_and_then in H2 as [(e & _ & [=])|(t3 & t4 & [] & -> & H3 & -> & [= ->])]. rewrite app_nil_r.
    unfold reload_or_restore in H3. apply runs_and_then in H3 as [(e & _ & [=])|(t5 & t6 & x & -> & H5 & H6)].
    apply runs_attempt in H5 as (y & [= <-] & H5). destruct x as [[]|e].
    + destruct H6 as [-> _]. rewrite app_nil_r. by apply caddy_runs in H5 as [-> _].
    + apply runs_and_then in H6 as [(e' & _ & [=])|(? & ? & ? & _ & _ & H6)].
      apply runs_bind in H6 as (? & ? & ? & _ & _ & _ & [=]).
  - destruct (implements_runs _ _ _ _ _ (deactivate_implements i) Hr) as (cs & Hcs & Hexp).
    pose proof (replay_host _ _ _ _ Hexp Hf) as Hrep.
    destruct (deactivate_route_files _ _ _ _ _ _ Hcs Hrep) as (Hother & _ & Hres). split; [exact Hother|].
    destruct b; [apply Hres|exact Hres].
Qed.

(** ** Stop and sleep *)

Definition lookup_command (p d : Uuid) : CommandSpec :=
  command "docker" (["ps"; "--all"] ++ managed_filter
     ++ ["--filter"; "label=" +:+ PROJECT_LABEL +:+ "=" +:+ uuid_text p;
         "--filter"; "label=" +:+ DEPLOYMENT_LABEL +:+ "=" +:+ uuid_text d; "--format";
         tabbed (["{{.ID}}"; "{{.Status}}"] ++ List.map label_template
           [DOMAIN_LABEL; PORT_LABEL; COMMAND_ID_LABEL; LOG_MAX_LINE_LABEL; LOG_MAX_BATCH_LABEL;
            LOG_MAX_TOTAL_LABEL])]).
Definition docker_ran (l : list string) : CommandSpec * bool := (command "docker" l, true).

(** What stopping does to a workload's container. *)
Definition container_commands (remove : bool) (found : option ManagedWorkload) (routing : list (CommandSpec * bool))
  : list (CommandSpec * bool) :=
  match found with
  | None => routing
  | Some w =>
      (if is_up w then [docker_ran ["stop"; "--time"; "10"; mw_container_id w]] else [])
      ++ routing
      ++ (if remove then [docker_ran ["rm"; mw_container_id w]] else [])
  end.

Lemma lookup_runs p d tr w :
  runs (@ce_workload _ (node_containers parsers config) p d) tr (Ok w) ->
  processes tr = [(lookup_command p d, true)] /\ files tr = [] /\
  forall x, w = Some x -> mw_project_id x = p /\ mw_deployment_id x = d.
Proof.
  intros H. cbn [ce_workload node_containers DockerContainerEngine] in H.
  apply runs_and_then in H as [(e & _ & [=])|(t1 & t2 & s & -> & (o & -> & Ho & _)%query_runs & H)].
  assert (t2 = [] /\ forall x, w = Some x -> mw_project_id x = p /\ mw_deployment_id x = d) as [-> Hw].
  { destruct (output_lines s) as [|line rest].
    - by destruct H as [-> [= ->]].
    - apply runs_and_then in H as [(e & _ & [=])|(t3 & t4 & x & -> & [-> Hx] & -> & [= ->])]. split; [done|].
      intros y [= ->]. unfold parse_workload in Hx. symmetry in Hx.
      apply Result_bind_Ok in Hx as (? & _ & (? & _ & [= <-])%Result_bind_Ok). done. }
  cbn. rewrite Ho. done.
Qed.

Lemma event_runs event_type message metadata tr r :
  runs (emit_event (Op := HostOp) event_type message metadata) tr r -> processes tr = [] /\ files tr = [].
Proof.
  intros H. split; [apply no_processes|apply no_files]; (eapply only_runs; [|exact H]); unfold emit_event; only_calls; by split.
Qed.

Lemma stop_container_runs w tr :
  runs (@ce_stop _ (node_containers parsers config) w 10) tr (Ok ()) ->
  processes tr = (if is_up w then [docker_ran ["stop"; "--time"; "10"; mw_container_id w]] else []) /\ files tr = [].
Proof.
  cbn [ce_stop node_containers DockerContainerEngine]. unfold docker_stop.
  destruct (is_up w); cbn [negb]; [apply container_command_runs|]. by intros [-> _].
Qed.
Lemma maybe_remove_runs (remove : bool) w tr :
  runs (if remove then @ce_remove _ (node_containers parsers config) w else ok ()) tr (Ok ()) ->
  processes tr = (if remove then [docker_ran ["rm"; mw_container_id w]] else []) /\ files tr = [].
Proof. destruct remove; [apply container_command_runs|]. by intros [-> _]. Qed.

Abbreviation stop_command remove q :=
  (if remove : bool then stop_project (RuntimeExecutor := node) q else sleep_project (RuntimeExecutor := node) q).


End Composition.

(** ** Witnesses *)

Definition sample_parsers : Parsers := {|
  pa_uuid := sample_uuid_parse; pa_rfc3339 _ := Ok 0%Z; pa_f64_scaled _ _ := None; pa_json _ := Ok Null;
  pa_url := sample_url_parse; pa_f64 _ := None; pa_f64_as_u64 _ := 0%N |}.
Definition sample_node : RuntimeExecutor HostOp := with_runner sample_parsers default_docker_config.

(** A node with room on its disk and the sample workload running. *)
Definition workload_line : string :=
  tabbed ["c0ffee"; "Up 2 hours"; "app.run.sakala.dev"; "3000"; EmptyString; EmptyString; EmptyString; EmptyString].
Definition node_output (c : CommandSpec) : string :=
  match args c with
  | "-Pk" :: _ => "Filesystem 1024-blocks Used Available Capacity Mounted on" +:+ newline
                  +:+ "/dev/sda1 9000000 1000000 8000000 12% /" +:+ newline
  | "inspect" :: _ => "running"
  | "ps" :: "--all" :: "--filter" :: _ :: "--filter" :: _ :: "--filter" :: _ => workload_line
  | _ => EmptyString
  end.
(** Its project's route is on the disk. *)
Definition routed_host : Env HostOp := fun past X o =>
  match o in HostOp T return T with
  | HostFile o => owned_disk [] _ o
  | o => printing_host node_output past _ o
  end.
Definition node_stopped := run_with routed_host (stop_project (RuntimeExecutor := sample_node) sample_lifecycle).
Definition node_route : string := route_path (dc_caddy_sites_dir default_docker_config) project_a.
Definition node_files : Files := {[ node_route := route_content sample_route ]}.
Lemma node_stopped_files :
  files node_stopped.1 = [MkCall (FRead node_route) (Ok (route_content sample_route)); MkCall (FRemove node_route) (Ok ())].
Proof. vm_compute. reflexivity. Qed.
Lemma node_stopped_replays : replay node_files (files node_stopped.1) (delete node_route node_files).
Proof.
  rewrite node_stopped_files. eexists; split; [split; [reflexivity|apply lookup_insert_eq]|].
  eexists; split; reflexivity.
Qed.


Lemma node_commands_witness :
  exists cs r', node_stopped.2 = map_err to_execution_error r' /\
    expands (service_call sample_parsers default_docker_config) cs node_stopped.1 /\
    obeys (workload_monitor (Stop sample_lifecycle)) nothing_seen cs.
Proof.
  destruct (node_commands_refine sample_parsers default_docker_config (Stop sample_lifecycle) node_stopped.1
    node_stopped.2 (runs_run_from _ _ _)) as (cs & r' & _ & Hr & He & Ho).
  exists cs, r'. split; [exact Hr|]. split; [exact He|exact Ho].
Defined.
