(* ===== verification/HeartbeatWire.v ===== *)
(** The heartbeat on the wire: what it sends is bounded and well typed, with the
    telemetry the node's runtime really collects. *)
From S2P Require Import Prelude Text Protocol Async Ports NodeState ApiClient Dispatcher CoreOps Config Heartbeat ApiClientFacts HeartbeatFacts RuntimeError Limits Process Routing Containers Workspace Builders Health Executor Telemetry HostOps Node NodeFacts.

#[local] Open Scope async_scope.

(** ** The telemetry the runtime collects *)

Section Wire.
Context (parsers : Parsers) (config : DockerRuntimeConfig) (driver : RuntimeDriver).

(** The version cell only holds what the tools told earlier. *)
Definition versions_kept (u : list (Call HostOp)) : Prop :=
  forall v, MkCall DependenciesGet (Some v) ∈ u -> exists w, runs (dependency_versions (Op := HostOp)) w v.
(** What a run of the node's own runtime answers when it is asked. *)
Definition collected (t : NodeTelemetry) : Prop :=
  exists u, runs (node_telemetry (RuntimeExecutor := node_runtime parsers config driver)) u (Ok t) /\ versions_kept u.

(** serde_json writes a float as a number or as null. *)
Hypothesis float_is_flat : forall text v, pa_f64 parsers text = Some v -> flat v = true.

Lemma versions_wire w v :
  runs (dependency_versions (Op := HostOp)) w v -> every_node wire_node "runtime_dependencies" v = true.
Proof.
  intros (t1 & t2 & git & _ & _ & (u1 & u2 & docker & _ & _ & (v1 & v2 & buildx & _ & _ & (w1 & w2 & railpack & _ & _ & _ & ->)%runs_bind)%runs_bind)%runs_bind)%runs_bind.
  cbn [every_node forallb]. wire.
Qed.
Lemma first_float_flat path tr x :
  runs (first_float (Op := HostOp) (pa_f64 parsers) path) tr x -> from_option (fun v => flat v = true) True x.
Proof.
  intros (contents & t & -> & _ & ->). destruct contents as [c|]; [|done].
  destruct (head (split_whitespace c)) as [word|]; [|done]. cbn [mbind option_bind].
  destruct (pa_f64 parsers word) as [v|] eqn:E; [|done]. exact (float_is_flat _ _ E).
Qed.
Lemma collected_wire t : collected t -> telemetry_wire t.
Proof.
  intros (u & Hr & Hkept). unfold node_runtime in Hr. destruct driver; [by destruct Hr as [_ [= ->]]|].
  cbn [node_telemetry with_runner docker_executor telemetry_snapshot] in Hr.
  apply runs_bind in Hr as (t1 & t2 & t' & -> & Hr & _ & [= ->]). unfold snapshot in Hr.
  apply runs_bind in Hr as (u1 & u2 & v & -> & Hversions & Hr).
  assert (every_node wire_node "runtime_dependencies" v = true) as Hv.
  { destruct Hversions as (kept & w & -> & H). destruct kept as [v'|]; cbn [bind] in H.
    - destruct H as [-> Heq]. rewrite Heq. destruct (Hkept v') as [w Hw]; [by left|]. by eapply versions_wire.
    - apply runs_bind in H as (w1 & w2 & v' & -> & H & Hset). destruct Hset as (x & w3 & -> & -> & ->). by eapply versions_wire. }
  clear Hversions.
  apply runs_bind in Hr as (? & ? & operational & -> & _ & Hr). apply runs_bind in Hr as (? & ? & memory & -> & _ & Hr).
  apply runs_bind in Hr as (? & ? & disk & -> & _ & Hr). apply runs_bind in Hr as (? & ? & hostname & -> & _ & Hr).
  apply runs_bind in Hr as (? & ? & uptime & -> & _ & Hr). apply runs_bind in Hr as (? & ? & cpus & -> & _ & Hr).
  apply runs_bind in Hr as (? & ? & load & -> & Hload & -> & ->). split; [|exact Hv].
  apply first_float_flat in Hload. cbn [nt_cpu_load_1m]. by destruct load.
Qed.
Definition section (p : HeartbeatPayload) (key : string) : Value := default Null (value_get (hb_metadata p) key).

(** A list reported as a prefix of at most the bound, next to its length. *)
Definition reports_list {T} (p : HeartbeatPayload) (part key : string) (items : list T) (mapper : T -> Value) : Prop :=
  value_get (section p part) key = Some (Array (map mapper (take 50 items))) /\
  value_get (section p "detail_counts") key = Some (num (N.of_nat (length items))).


(** C31. The heartbeat has the shape the control plane expects, however much a
    node has to tell. In every run in which the telemetry it is given is what
    the node's runtime collects (the version cell holding what the tools told),
    every list in the metadata has at most fifty items and every field whose
    name ends in [_at], anywhere in the payload, is a text; each detail list is
    the first items of what was observed, in order, and next to it stands how
    many there really were. *)
Theorem heartbeat_wire_shape {codec : WireCodec} agent context tr p :
  runs (payload (Op := CoreOp) agent context) tr p ->
  (forall t, MkCall RtNodeTelemetry (Ok t) ∈ tr -> collected t) ->
  every_node bounded_node "metadata" (hb_metadata p) = true /\
  every_node dated_node EmptyString (heartbeat_value p) = true /\
  exists ob, observed ob tr /\
    reports_list p "startup_reconciliation" "recovered_workloads" (workloads (seen_report ob)) recovered_value /\
    reports_list p "startup_reconciliation" "orphans" (orphans (seen_report ob)) orphan_value /\
    reports_list p "startup_reconciliation" "stale_routes" (stale_routes (seen_report ob)) stale_route_value /\
    reports_list p "startup_reconciliation" "stale_images" (stale_images (seen_report ob)) stale_image_value /\
    reports_list p "startup_reconciliation" "compatibility_issues" (compatibility_issues (seen_report ob)) issue_value /\
    reports_list p "workloads" "unhealthy_details"
      (List.filter is_unhealthy (default [] (ob_health ob))) unhealthy_value.
Proof.
  intros (ob & Hob & ->)%payload_runs Htele.
  assert (telemetry_wire (seen_telemetry ob)) as Hwire.
  { unfold seen_telemetry. destruct (ob_telemetry ob) as [t|] eqn:E; [|by split]. apply collected_wire, Htele.
    destruct Hob as (t1 & t2 & _ & _ & ->). rewrite E. apply list_elem_of_here. }
  apply (metadata_wire context (lifecycle_state (ob_metadata_state ob)) _ (seen_statistics ob) (seen_report ob)
    (ob_active ob) (ob_waiting ob)) in Hwire.
  split_and!.
  - eapply every_node_mono; [|exact Hwire]. by intros k v [H _]%andb_prop.
  - unfold heartbeat_value. cbn [every_node forallb payload_of hb_metadata hb_status hb_node hb_sent_at].
    rewrite (every_node_mono wire_node dated_node (fun k v H => proj2 (andb_prop _ _ H)) _ _ Hwire).
    cbn. rewrite !andb_true_r. apply forallb_forall. intros v (s & <- & _)%in_map_iff. reflexivity.
  - exists ob. split; [done|]. split_and!; try (split; reflexivity).
    unfold payload_of, seen_statistics. destruct (ob_health ob); split; reflexivity.
Qed.
End Wire.

(** ** Witness *)

(** What the sample node's runtime collects on a working host. *)
Definition collected_run := run_with (printing_host node_output) (node_telemetry (RuntimeExecutor := sample_node)).
Definition collecting_env : Env CoreOp := fun past X o =>
  match o in CoreOp T return T with
  | RtNodeTelemetry => collected_run.2
  | o => full_disk_env past _ o
  end.
Definition wire_run :=
  run_with collecting_env (payload (Op := CoreOp) (codec := sample_codec) sample_agent sample_context).
Definition telemetry_answer (c : Call CoreOp) : option (Result RuntimeExecutionError NodeTelemetry) :=
  match call_op c in CoreOp T return T -> option (Result RuntimeExecutionError NodeTelemetry) with
  | RtNodeTelemetry => fun r => Some r
  | _ => fun _ => None
  end (call_answer c).
Definition version_answer (c : Call HostOp) : option (option Value) :=
  match call_op c in HostOp T return T -> option (option Value) with
  | DependenciesGet => fun r => Some r
  | _ => fun _ => None
  end (call_answer c).
Lemma collected_run_keeps : versions_kept collected_run.1.
Proof.
  intros v Hv%list_elem_of_In%(in_map version_answer). vm_compute in Hv.
  repeat (destruct Hv as [Hv|Hv]; [discriminate Hv|]). destruct Hv.
Qed.
Lemma heartbeat_wire_witness :
  every_node bounded_node "metadata" (hb_metadata wire_run.2) = true /\
  is_ok collected_run.2 = true.
Proof.
  split; [|vm_compute; reflexivity].
  apply (heartbeat_wire_shape sample_parsers default_docker_config Docker ltac:(done) (codec := sample_codec)
    sample_agent sample_context wire_run.1 wire_run.2 (runs_run_from _ _ _)).
  intros t Ht%list_elem_of_In%(in_map telemetry_answer). exists collected_run.1. split; [|exact collected_run_keeps].
  assert (collected_run.2 = Ok t) as <-.
  { vm_compute in Ht. repeat (destruct Ht as [Ht|Ht]; [first [discriminate Ht|injection Ht as <-; vm_compute; reflexivity]|]).
    destruct Ht. }
  apply runs_run_from.
Defined.
