(* ===== verification/NodeDeploy.v ===== *)
(** Deployments on the assembled node.  A deployment is cut by its deadlines
    and its token between any two calls of the host; one that succeeds was
    never cut before its cutover, and did what the executor's pipeline does
    when nothing cuts it. *)
From S2P Require Import Prelude Text Protocol Async Interp Ports ApiClient RuntimeError Limits Config Process Routing Containers Workspace Builders Health Monitor Executor Telemetry RoutingFacts ExecutorOps ExecutorFacts PayloadFacts LifecycleFacts HostOps Node NodeFacts.

#[local] Open Scope async_scope.

(** The executor over services, with a clock that never runs out and a token
    that is never cancelled. *)
Definition calm_clock : Clock ExecOp := {|
  sleep d := trigger (ExecSleep d);
  deadline_elapsed _ _ := Ret false
|}.
Definition calm_ambient : Ambient ExecOp := {|
  now_utc := trigger ExecNow;
  is_cancelled := Ret false
|}.

Section Deployment.
Context (parsers : Parsers) (config : DockerRuntimeConfig).
Abbreviation h := (service_call parsers config).
Abbreviation cfg := (executor_config config).
#[local] Existing Instances HostOp_awaits.

(** The node's services, and the executor's under a calm clock. *)
#[local] Instance host_workspace : WorkspaceManager HostOp := node_workspace parsers config.
#[local] Instance host_builder : ImageBuilder HostOp := node_builder config.
#[local] Instance host_containers : ContainerEngine HostOp := node_containers parsers config.
#[local] Instance host_health : HealthChecker HostOp := node_health config.
#[local] Instance host_routes : RouteManager HostOp := node_routes parsers config.
#[local] Instance exec_engine : ContainerEngine ExecOp := ExecOp_containers (dc_resource_safety config).
#[local] Instance exec_clock : Clock ExecOp := calm_clock.
#[local] Instance exec_ambient : Ambient ExecOp := calm_ambient.

(** Questions to the clock, the token and the flag, and the drop of a future
    that has ended. *)
Definition silent X (o : HostOp X) : bool :=
  match o with HostCancelled | HostDeadline _ _ | HostFlagLoad | HostDropDeployment => true | _ => false end.

(** A success of [p] on the host is a success of [q] over the services. *)
Definition covers {E A} (p : Async HostOp E A) (q : Async ExecOp E A) : Prop :=
  forall tr a, runs p tr (Ok a) ->
    exists cs t, runs q cs (Ok a) /\ expands h cs t /\ within silent t tr.

Lemma covers_implements {E A} (p : Async HostOp E A) q : implements h p q -> covers p q.
Proof.
  intros Hpq tr a (cs & Hq & Hexp)%(implements_runs h _ _ _ _ Hpq). exists cs, tr.
  split_and!; [done|done|apply within_refl].
Qed.
Lemma covers_and_then {E A B} (m : Async HostOp E A) n (f : A -> Async HostOp E B) g :
  covers m n -> (forall a, covers (f a) (g a)) -> covers (and_then m f) (and_then n g).
Proof.
  intros Hm Hf tr b [(e & _ & [=])|(t1 & t2 & a & -> & H1 & H2)]%runs_and_then.
  apply Hm in H1 as (c1 & u1 & Hc1 & He1 & Hw1). apply Hf in H2 as (c2 & u2 & Hc2 & He2 & Hw2).
  exists (c1 ++ c2), (u1 ++ u2). split_and!; [|apply expands_app; eauto|by apply within_app].
  apply runs_and_then. right. by exists c1, c2, a.
Qed.
Lemma covers_bind {E A B} (p : Prog HostOp A) q (f : A -> Async HostOp E B) g :
  implements h p q -> (forall a, covers (f a) (g a)) -> covers (bind p f) (bind q g).
Proof.
  intros Hp Hf tr b (t1 & t2 & a & -> & H1 & H2)%runs_bind.
  apply (implements_runs h _ _ _ _ Hp) in H1 as (c1 & Hc1 & He1). apply Hf in H2 as (c2 & u2 & Hc2 & He2 & Hw2).
  exists (c1 ++ c2), (t1 ++ u2). split_and!; [|apply expands_app; eauto|apply within_app; [apply within_refl|done]].
  apply runs_bind. by exists c1, c2, a.
Qed.
Lemma timed_calm {A} operation d (q : Async ExecOp RuntimeError A) : timed operation d q ≡ q.
Proof.
  unfold timed. cbn [deadline_elapsed exec_clock calm_clock]. rewrite race_at_never, bind_assoc. apply bind_ret_r.
Qed.
Lemma covers_timed {A} operation d (p : Async HostOp RuntimeError A) q :
  covers p q -> covers (timed operation d p) (timed operation d q).
Proof.
  intros Hp tr a (t1 & t2 & raced & -> & H1 & H2)%runs_bind. destruct raced as [r|rest].
  - destruct H2 as [-> <-]. rewrite app_nil_r.
    apply (race_at_ready silent) in H1 as (t & Hr & Hw); [|by split]. apply Hp in Hr as (cs & u & Hcs & He & Hu).
    exists cs, u. split_and!; [by rewrite timed_calm|done|by eapply within_trans].
  - apply runs_bind in H2 as (? & ? & ? & _ & _ & _ & [=]).
Qed.
Lemma covers_holding {A} release release' (p : Async HostOp RuntimeError A) q :
  implements h release release' -> covers p q -> covers (holding release p) (holding release' q).
Proof.
  intros Hrel Hp tr a (t1 & ? & r & -> & H1 & (t2 & ? & u & -> & H2 & -> & <-)%runs_bind)%runs_bind.
  apply Hp in H1 as (c1 & u1 & Hc1 & He1 & Hw1). apply (implements_runs h _ _ _ _ Hrel) in H2 as (c2 & Hc2 & He2).
  exists (c1 ++ c2), (u1 ++ t2). split_and!; [|apply expands_app; eauto|].
  - unfold holding. apply runs_bind. exists c1, c2, (Ok a). split_and!; [done|done|].
    apply runs_bind. exists c2, [], u. by rewrite app_nil_r.
  - apply within_app; [done|]. rewrite app_nil_r. apply within_refl.
Qed.

(** ** The pipeline *)

Lemma build_covers d : covers (build_phase (Op := HostOp) d) (build_phase (Op := ExecOp) d).
Proof.
  unfold build_phase. apply covers_bind; [serve|]. intros []; cbn [negb]; [|by apply covers_implements; serve].
  apply covers_holding; [serve|]. apply covers_and_then.
  - apply covers_implements. unfold emit_event. serve.
  - intros _. apply covers_timed, covers_implements. serve.
Qed.
Lemma start_covers d : covers (start_phase (Op := HostOp) d) (start_phase (Op := ExecOp) d).
Proof.
  unfold start_phase. apply covers_and_then; [apply covers_implements; unfold emit_event; serve|]. intros _.
  apply covers_timed, covers_implements. unfold holding. serve.
Qed.
Lemma deploy_inner_covers d : covers (deploy_inner (Op := HostOp) d) (deploy_inner (Op := ExecOp) d).
Proof.
  unfold deploy_inner, candidate_phase. apply covers_and_then.
  - apply covers_and_then; [apply build_covers|]. intros out. apply covers_and_then; [apply start_covers|]. intros _.
    apply covers_implements. serve.
  - intros out. apply covers_implements. unfold commit_phase, warn_on_error, system_log, emit_event. serve.
Qed.

(** The end of an execution: cleanups, and the result it had. *)
Definition finished {Op} `{!WorkspaceManager Op} `{!RuntimeReporter Op} `{!Ambient Op} (d : Deployment) : Async Op RuntimeError () :=
  _ <~ warn_on_error ("workspace cleanup warning for " +:+ dw_root (de_workspace d)) (wm_cleanup (de_workspace d)) ;;
  ok ().

Lemma finished_implements d : implements h (finished (Op := HostOp) d) (finished (Op := ExecOp) d).
Proof. unfold finished, warn_on_error, system_log. serve. Qed.

(** A success has an uncut pipeline behind it, then the cleanup. *)
Lemma execute_succeeds d tr :
  runs (execute_deployment (Op := HostOp) d) tr (Ok ()) ->
  exists t1 t2, runs (deploy_inner (Op := HostOp) d) t1 (Ok ()) /\ runs (finished (Op := HostOp) d) t2 (Ok ()) /\
    within silent (MkCall HostFlagNew tt :: t1 ++ t2) tr.
Proof.
  intros ([] & t & -> & H). cbn [bind] in H.
  apply runs_bind in H as (u1 & u2 & raced & -> & Hrace & H).
  apply runs_bind in H as (u3 & u4 & result & -> & Hsettle & H).
  apply runs_bind in H as (u5 & u6 & [] & -> & Hclean & H).
  apply runs_bind in H as (u7 & u8 & w & -> & Hwarn & H).
  apply runs_bind in H as (u9 & u10 & [] & -> & Hdrop & -> & <-).
  destruct Hclean as [-> _]. rewrite app_nil_r. cbn [app].
  assert (Forall (fun c => silent _ (call_op c) = true) u9) as Hsilent.
  { destruct raced; [by destruct Hdrop as [-> _]|]. destruct Hdrop as (y & ? & -> & -> & _). by repeat constructor. }
  assert (only (fun X o => silent X o = true) (is_cancelled (Op := HostOp))) as Hasks by by split.
  assert (exists t1, runs (deploy_inner (Op := HostOp) d) t1 (Ok ()) /\ within silent t1 (u1 ++ u3)) as (t1 & Hinner & Hw).
  { destruct raced as [r|rest].
    - destruct Hsettle as [-> <-]. rewrite app_nil_r.
      apply (race_at_ready silent) in Hrace as (t1 & H1 & Hw); [by exists t1|by split].
    - destruct Hsettle as (b & u & -> & Hrest). destruct b; [|by destruct Hrest as [_ [=]]]. cbn [bind] in Hrest.
      apply (race_at_resumed silent _ _ _ _ _ _ Hasks Hrace) in Hrest as (t1 & H1 & Hw).
      exists t1. split; [done|]. eapply within_trans; [exact Hw|]. apply within_app; [apply within_refl|].
      apply within_skip; [done|apply within_refl]. }
  exists t1, u7. split; [done|]. split; [apply runs_bind; exists u7, [], w; by rewrite app_nil_r|].
  apply within_keep. rewrite (app_assoc u1). apply within_app; [done|].
  rewrite <- (app_nil_r u7) at 1. apply within_app; [apply within_refl|]. by apply within_none.
Qed.

(** What succeeds when nothing cuts it. *)
Definition straight_execution (d : Deployment) : Async ExecOp RuntimeError () :=
  _ <~ route_flag_new ;; deploy_inner (Op := ExecOp) d ;;; finished d.

Lemma execute_covers d : covers (execute_deployment (Op := HostOp) d) (straight_execution d).
Proof.
  intros tr [] (t1 & t2 & H1 & H2 & Hw)%execute_succeeds.
  apply deploy_inner_covers in H1 as (c1 & w1 & Hc1 & He1 & Hw1).
  apply (implements_runs h _ _ _ _ (finished_implements d)) in H2 as (c2 & Hc2 & He2).
  exists (MkCall FlagNew tt :: c1 ++ c2), (MkCall HostFlagNew tt :: w1 ++ t2). split_and!.
  - exists tt, (c1 ++ c2). split; [done|]. apply runs_and_then. right. by exists c1, c2, tt.
  - apply (expands_cons h (MkCall FlagNew tt) _ [MkCall HostFlagNew tt]); [by exists tt, []|]. apply expands_app; eauto.
  - eapply within_trans; [|exact Hw]. apply within_keep. apply within_app; [done|apply within_refl].
Qed.

(** ** Milestones *)

Inductive Milestone :=
| CheckedOut (id : Uuid) (s : RepositorySource)
| Built (r : BuildRequest)
| Started (r : RunContainerRequest)
| FoundReady (container : string)
| Routed (r : RouteSpec)
| Committed
| Swept (p : Uuid) (current : string)
| CleanedUp (w : DeploymentWorkspace).

Definition milestone_of (c : Call ExecOp) : option (Milestone * bool) :=
  match call_op c in ExecOp T return T -> option (Milestone * bool) with
  | WsCheckout id s => fun r => Some (CheckedOut id s, is_ok r)
  | ImageBuild r => fun x => Some (Built r, is_ok x)
  | CeStart r => fun x => Some (Started r, is_ok x)
  | WaitReady container => fun x => Some (FoundReady container, is_ok x)
  | RouteActivate r => fun x => Some (Routed r, is_ok x)
  | MarkCommitted _ => fun _ => Some (Committed, true)
  | CeCleanupPrevious p current => fun x => Some (Swept p current, is_ok x)
  | WsCleanup w => fun x => Some (CleanedUp w, is_ok x)
  | _ => fun _ => None
  end (call_answer c).
Definition milestones (cs : list (Call ExecOp)) : list (Milestone * bool) := omap milestone_of cs.
Definition passing X (o : ExecOp X) : Prop :=
  match o with
  | WsCheckout _ _ | ImageBuild _ | CeStart _ | WaitReady _ | RouteActivate _ | MarkCommitted _
  | CeCleanupPrevious _ _ | WsCleanup _ => False
  | _ => True
  end.
Lemma no_milestones cs : Forall (fun c => passing _ (call_op c)) cs -> milestones cs = [].
Proof. induction 1 as [|[X o x] cs Ho _ IH]; [done|]. by destruct o. Qed.
Lemma passing_runs {A} (p : Prog ExecOp A) cs a : only passing p -> runs p cs a -> milestones cs = [].
Proof. intros Hp Hr. eapply no_milestones, only_runs; [exact Hp|exact Hr]. Qed.
Lemma milestones_app c1 c2 : milestones (c1 ++ c2) = milestones c1 ++ milestones c2.
Proof. apply omap_app. Qed.
Lemma milestones_cons c cs : milestones (c :: cs) = option_list (milestone_of c) ++ milestones cs.
Proof. unfold milestones. cbn. by destruct (milestone_of c). Qed.

(** A step of a sequence that succeeds. *)
Ltac next H a Ha :=
  let t1 := fresh "t" in let t2 := fresh "t" in
  apply runs_and_then in H as [(? & _ & [=])|(t1 & t2 & a & -> & Ha & H)]; rewrite ?milestones_cons, ?milestones_app.
(** A part that reaches no milestone. *)
Ltac quiet Ha :=
  rewrite ?milestones_cons, ?milestones_app, (fun Hp => passing_runs _ _ _ Hp Ha)
    by (unfold emit_event, warn_on_error, system_log, ensure_workspace_capacity; only_calls; by split).

Abbreviation url_parse := (pa_url parsers).
Lemma prepare_milestones q cs d :
  runs (prepare_deployment (Op := ExecOp) url_parse cfg q) cs (Ok d) ->
  exists source, deployment_source url_parse (dq_payload q) (dq_credential q) = Ok source /\
    milestones cs = [(CheckedOut (dq_command_id q) source, true)] /\
    de_command_id d = dq_command_id q /\ de_project_id d = dq_project_id q /\
    de_deployment_id d = dq_deployment_id q /\ de_payload d = dq_payload q.
Proof.
  unfold prepare_deployment. intros H. next H u Hu. destruct Hu as [-> _]. next H timeouts Ht. destruct Ht as [-> _].
  next H resources Hr. destruct Hr as [-> _]. next H source Hs. destruct Hs as [-> Hs].
  do 5 (let u := fresh "u" in let Hu := fresh "Hu" in next H u Hu; quiet Hu).
  next H w Hw. destruct Hw as (x & ? & -> & -> & <-). destruct H as [-> [= ->]].
  exists source. by split_and!.
Qed.

Lemma build_milestones d cs out :
  runs (build_phase (Op := ExecOp) d) cs (Ok out) -> milestones cs = [(Built (build_request d), true)].
Proof.
  unfold build_phase. intros (acquired & t & -> & H). cbn [bind] in H. destruct acquired; [|by destruct H].
  apply runs_bind in H as (t1 & t2 & r & -> & H & (? & ? & -> & -> & <-)). next H u Hu. quiet Hu.
  rewrite timed_calm in H. destruct H as (y & ? & -> & -> & <-). done.
Qed.

Lemma start_milestones d cs :
  runs (start_phase (Op := ExecOp) d) cs (Ok ()) ->
  milestones cs = [(Started (run_request d), true); (FoundReady (de_container d), true)].
Proof.
  unfold start_phase. intros H. next H u Hu. quiet Hu. rewrite timed_calm in H. destruct H as (? & ? & -> & H). cbn [bind] in H.
  apply (runs_and_then (holding _ _)) in H as [(? & _ & [=])|(t1 & t2 & [] & -> & Hh & (y & ? & -> & -> & <-))].
  apply runs_bind in Hh as (t3 & t4 & r & -> & H & (? & ? & -> & -> & <-)).
  next H v Hv. quiet Hv. destruct H as (z & ? & -> & -> & <-). done.
Qed.

Lemma commit_milestones d out cs :
  runs (commit_phase (Op := ExecOp) d out) cs (Ok ()) ->
  milestones cs = [(Committed, true); (Swept (de_project_id d) (de_container d), true)].
Proof.
  unfold commit_phase. intros ([] & ? & -> & [] & ? & -> & H). cbn [bind] in H.
  apply runs_bind in H as (t1 & t2 & logs & -> & Hlogs & H). apply runs_bind in H as (t3 & t4 & e & -> & Hswept & H).
  apply runs_bind in H as (t5 & t6 & ready & -> & Hready & H). apply runs_bind in H as (t7 & t8 & follower & -> & Hf & H).
  destruct e as [e|]; [by destruct H|]. destruct H as [-> _].
  quiet Hlogs. quiet Hready. quiet Hf.
  destruct Hswept as (x & ? & -> & H). destruct x as [[]|e]; [by destruct H as [-> _]|].
  cbn [bind] in H. apply runs_bind in H as (? & ? & ? & _ & _ & _ & [=]).
Qed.

Lemma inner_milestones d cs :
  runs (deploy_inner (Op := ExecOp) d) cs (Ok ()) ->
  milestones cs = [(Built (build_request d), true); (Started (run_request d), true); (FoundReady (de_container d), true);
                   (Routed (deployment_route d), true); (Committed, true); (Swept (de_project_id d) (de_container d), true)].
Proof.
  unfold deploy_inner, candidate_phase. intros H. next H out Hc. rewrite (commit_milestones _ _ _ H).
  next Hc o Hb. rewrite (build_milestones _ _ _ Hb). next Hc u Hs. destruct u. rewrite (start_milestones _ _ Hs).
  next Hc r Hr. destruct Hr as (x & ? & -> & -> & <-). by destruct Hc as [-> _].
Qed.

Lemma finished_milestones d cs :
  runs (finished (Op := ExecOp) d) cs (Ok ()) -> exists b, milestones cs = [(CleanedUp (de_workspace d), b)].
Proof.
  unfold finished. intros (t1 & t2 & w & -> & (x & t & -> & H) & -> & _)%runs_bind. exists (is_ok x).
  rewrite app_nil_r. destruct x; [by destruct H as [-> _]|]. by quiet H.
Qed.

(** ** The whole command *)

Definition straight_deployment (q : DeployProjectRequest) : Async ExecOp RuntimeError CommandOutput :=
  d <- prepare_deployment (Op := ExecOp) url_parse cfg q ;;
  straight_execution d ;;;
  ok (with_result (deploy_result_value
        {| dr_requested_resources := dp_resources (de_payload d); dr_applied_resources := de_resources d;
           dr_finalization_deferred := false; dr_finalization_deferred_reason := None |})).

Lemma deployment_covers q :
  covers (run_deployment (Op := HostOp) url_parse cfg q) (straight_deployment q).
Proof.
  apply covers_and_then.
  - apply covers_implements. unfold prepare_deployment, ensure_workspace_capacity, emit_event. serve.
  - intros d. apply covers_and_then; [apply execute_covers|]. intros _. apply covers_implements. serve.
Qed.

Lemma straight_milestones q cs out :
  runs (straight_deployment q) cs (Ok out) -> exists d source cleaned,
    deployment_source url_parse (dq_payload q) (dq_credential q) = Ok source /\
    (de_command_id d = dq_command_id q /\ de_project_id d = dq_project_id q /\
     de_deployment_id d = dq_deployment_id q /\ de_payload d = dq_payload q) /\
    milestones cs =
      [(CheckedOut (dq_command_id q) source, true); (Built (build_request d), true); (Started (run_request d), true);
       (FoundReady (de_container d), true); (Routed (deployment_route d), true); (Committed, true);
       (Swept (de_project_id d) (de_container d), true); (CleanedUp (de_workspace d), cleaned)].
Proof.
  unfold straight_deployment. intros H. next H d Hd.
  destruct (prepare_milestones _ _ _ Hd) as (source & Hsource & -> & Hids). next H u Hu. destruct H as [-> _].
  destruct Hu as ([] & ? & -> & Hu). cbn [bind] in Hu. next Hu v Hv. destruct v, u.
  rewrite (inner_milestones _ _ Hv). destruct (finished_milestones _ _ Hu) as (cleaned & ->).
  exists d, source, cleaned. destruct_and! Hids. by split_and!.
Qed.

Lemma node_deployment_succeeds q tr out :
  runs (deploy_project (RuntimeExecutor := with_runner parsers config) q) tr (Ok out) ->
  exists d source cleaned cs t,
    deployment_source url_parse (dq_payload q) (dq_credential q) = Ok source /\
    (de_command_id d = dq_command_id q /\ de_project_id d = dq_project_id q /\
     de_deployment_id d = dq_deployment_id q /\ de_payload d = dq_payload q) /\
    expands h cs t /\ within silent t tr /\
    milestones cs =
      [(CheckedOut (dq_command_id q) source, true); (Built (build_request d), true); (Started (run_request d), true);
       (FoundReady (de_container d), true); (Routed (deployment_route d), true); (Committed, true);
       (Swept (de_project_id d) (de_container d), true); (CleanedUp (de_workspace d), cleaned)].
Proof.
  cbn [deploy_project with_runner docker_executor]. intros ([o|e] & [= ->] & H)%runs_with_error.
  apply deployment_covers in H as (cs & t & Hcs & Hexp & Hw).
  destruct (straight_milestones _ _ _ Hcs) as (d & source & cleaned & Hsource & Hids & Hm).
  exists d, source, cleaned, cs, t. destruct_and! Hids. by split_and!.
Qed.

(** A deployment that succeeds on the node, whatever its timers, its token
    and the host answered on the way, did on the host exactly what the
    executor's pipeline does when nothing cuts it: leaving out the questions to
    the clock, the token and the cutover flag, its processes and file
    operations are the runs of the pipeline's service calls, one behind the
    other.  Among them, in this order and each successful: the checkout of the
    validated source, one build, one start of the candidate, the check that it
    is ready, the activation of its route, the commit, the removal of the
    project's other containers; then the removal of the workspace. *)
Theorem deployment_success_on_node q tr out :
  runs (deploy_project (RuntimeExecutor := with_runner parsers config) q) tr (Ok out) ->
  exists d source cleaned cs t,
    deployment_source url_parse (dq_payload q) (dq_credential q) = Ok source /\
    (de_command_id d = dq_command_id q /\ de_project_id d = dq_project_id q /\
     de_deployment_id d = dq_deployment_id q /\ de_payload d = dq_payload q) /\
    expands h cs t /\ within silent t tr /\
    milestones cs =
      [(CheckedOut (dq_command_id q) source, true); (Built (build_request d), true); (Started (run_request d), true);
       (FoundReady (de_container d), true); (Routed (deployment_route d), true); (Committed, true);
       (Swept (de_project_id d) (de_container d), true); (CleanedUp (de_workspace d), cleaned)].
Proof. apply node_deployment_succeeds. Qed.
End Deployment.

(** ** Witness *)

Definition node_deployed :=
  run_with (printing_host node_output)
    (deploy_project (RuntimeExecutor := sample_node) (sample_request sample_payload)).
Lemma deployment_on_node_witness :
  exists out d source cleaned cs t, node_deployed.2 = Ok out /\
    expands (service_call sample_parsers default_docker_config) cs t /\ within silent t node_deployed.1 /\
    milestones cs =
      [(CheckedOut project_a source, true); (Built (build_request d), true); (Started (run_request d), true);
       (FoundReady (de_container d), true); (Routed (deployment_route d), true); (Committed, true);
       (Swept (de_project_id d) (de_container d), true); (CleanedUp (de_workspace d), cleaned)].
Proof.
  assert (exists out, node_deployed.2 = Ok out) as [out Hr] by (vm_compute; eexists; reflexivity).
  destruct (deployment_success_on_node sample_parsers default_docker_config (sample_request sample_payload)
    node_deployed.1 out) as (d & source & cleaned & cs & t & _ & _ & He & Hw & Hm).
  - rewrite <- Hr. apply runs_run_from.
  - exists out, d, source, cleaned, cs, t. split; [exact Hr|]. split; [exact He|]. split; [exact Hw|exact Hm].
Defined.
