(* ===== verification/NodeTransaction.v ===== *)
(** Deployments on the assembled node, cuts included.  A deadline or a
    cancellation may cut a deployment in the middle of a service call.  Every
    run on the host is a sequence of attempts of the executor's pipeline, so the
    discipline of the transaction (ExecutorFacts) holds down to processes and
    files, and a deployment that failed has cleared the host of its candidate. *)
From S2P Require Import Prelude Text Protocol Async Interp Attempts Ports ApiClient RuntimeError Limits Config Process Routing Containers Workspace Builders Health Monitor Executor Telemetry RoutingFacts ExecutorOps ExecutorFacts PayloadFacts LifecycleFacts HostOps Node NodeFacts NodeDeploy.

#[local] Open Scope async_scope.
#[local] Existing Instance HostOp_awaits.

(** The executor's questions. *)
#[export] Instance ExecOp_questions : Questions ExecOp := fun X o =>
  match o in ExecOp T return option (T * T) with
  | ExecCancelled => Some (false, true)
  | ExecDeadline _ _ => Some (false, true)
  | _ => None
  end.

Section Node.
Context (parsers : Parsers) (config : DockerRuntimeConfig).
Abbreviation h := (service_call parsers config).
Abbreviation cfg := (executor_config config).
#[local] Instance host_workspace : WorkspaceManager HostOp := node_workspace parsers config.
#[local] Instance host_builder : ImageBuilder HostOp := node_builder config.
#[local] Instance host_containers : ContainerEngine HostOp := node_containers parsers config.
#[local] Instance host_health : HealthChecker HostOp := node_health config.
#[local] Instance host_routes : RouteManager HostOp := node_routes parsers config.
#[local] Instance exec_engine : ContainerEngine ExecOp := ExecOp_containers (dc_resource_safety config).

Lemma questions_ready X (o : ExecOp X) : is_Some (asks o) -> awaited o = false.
Proof. destruct o; cbn; try done; by intros [? [=]]. Qed.
Lemma ready_calls X (o : ExecOp X) : awaited o = false -> only (fun Y (o' : HostOp Y) => awaited o' = false) (h X o).
Proof.
  destruct o; intros H; try discriminate H; cbn -[register_follower]; try by split.
  split; [done|]. intros []; by repeat split.
Qed.

Abbreviation carries := (follows h silent).

(** ** The pipeline *)

(** A part that no deadline cuts. *)
Ltac part := apply (follows_implements _ _ ready_calls); [only_calls; try done | serve].

Lemma timed_follows {A} operation d (p : Async HostOp RuntimeError A) q :
  carries p q -> carries (timed operation d p) (timed operation d q).
Proof.
  intros Hp. unfold timed. apply (follows_raced _ _ questions_ready (ExecDeadline operation d)); try done; try by split.
  - intros a. apply follows_ret.
  - intros _ _. part.
Qed.
Lemma event_follows event_type message metadata :
  carries (emit_event (Op := HostOp) event_type message metadata) (emit_event (Op := ExecOp) event_type message metadata).
Proof. unfold emit_event. part. Qed.
Lemma holding_follows {A} release release' (p : Async HostOp RuntimeError A) q :
  carries release release' -> carries p q -> carries (holding release p) (holding release' q).
Proof. intros Hr Hp. apply follows_bind; [done|]. intros r. apply follows_bind; [done|]. intros u. apply follows_ret. Qed.

Lemma build_follows d : carries (build_phase (Op := HostOp) d) (build_phase (Op := ExecOp) d).
Proof.
  unfold build_phase. apply follows_bind; [part|]. intros []; cbn [negb]; [|part].
  apply holding_follows; [part|]. apply follows_and_then; [apply event_follows|]. intros _. apply timed_follows. part.
Qed.
Lemma start_follows d : carries (start_phase (Op := HostOp) d) (start_phase (Op := ExecOp) d).
Proof.
  unfold start_phase. apply follows_and_then; [apply event_follows|]. intros _. apply timed_follows.
  unfold holding. part.
Qed.
Lemma commit_follows d out : carries (commit_phase (Op := HostOp) d out) (commit_phase (Op := ExecOp) d out).
Proof. unfold commit_phase, warn_on_error, system_log, emit_event. part. Qed.
Lemma inner_follows d : carries (deploy_inner (Op := HostOp) d) (deploy_inner (Op := ExecOp) d).
Proof.
  unfold deploy_inner, candidate_phase. apply follows_and_then; [|apply commit_follows].
  apply follows_and_then; [apply build_follows|]. intros out. apply follows_and_then; [apply start_follows|].
  intros _. part.
Qed.
Lemma clean_follows d r : carries (clean_candidate (Op := HostOp) d r) (clean_candidate (Op := ExecOp) d r).
Proof. unfold clean_candidate, warn_on_error, system_log. part. Qed.
Lemma warning_follows {A} what (p : Async HostOp RuntimeError A) q :
  carries p q -> carries (warn_on_error what p) (warn_on_error what q).
Proof.
  intros Hp. unfold warn_on_error. apply follows_bind; [done|]. intros [a|e]; [apply follows_ret|].
  unfold system_log. part.
Qed.

(** The cleanups behind the pipeline; the future of a pipeline that was cut is
    dropped behind them. *)
Definition ending {Op} `{!WorkspaceManager Op} `{!ContainerEngine Op} `{!RuntimeReporter Op} `{!Ambient Op} `{!DeploymentGuards Op}
  (d : Deployment) (cut : bool) (result : Result RuntimeError ()) : Async Op RuntimeError () :=
  _ <~ clean_candidate d result ;;
  _ <~ warn_on_error ("workspace cleanup warning for " +:+ dw_root (de_workspace d)) (wm_cleanup (de_workspace d)) ;;
  _ <~ (if cut then drop_deployment else Ret ()) ;;
  Ret result.

Lemma ending_tries d cut cut' result tr r :
  (cut' = true -> cut = true) -> runs (ending (Op := HostOp) d cut result) tr r ->
  exists ats t, tries (ending (Op := ExecOp) d cut' result) ats r /\ explains h ats t /\ within silent t tr.
Proof.
  intros Hcut H. apply runs_bind in H as (t1 & ? & [] & -> & H1 & H). apply runs_bind in H as (t2 & ? & w & -> & H2 & H).
  apply runs_bind in H as (t3 & ? & [] & -> & H3 & -> & ->).
  apply clean_follows in H1 as (a1 & u1 & Ha1 & He1 & Hw1).
  apply (warning_follows _ _ (wm_cleanup (Op := ExecOp) (de_workspace d))) in H2 as (a2 & u2 & Ha2 & He2 & Hw2); [|part].
  assert (exists a3 u3, tries (if cut' then drop_deployment (Op := ExecOp) else Ret ()) a3 () /\ explains h a3 u3 /\ within silent u3 t3)
    as (a3 & u3 & Ha3 & He3 & Hw3).
  { destruct cut'.
    - rewrite Hcut in H3 by done. exists [Whole (MkCall DropDeployment ())], t3. split_and!; [by left; exists (), []| |apply within_refl].
      exists t3, []. by rewrite app_nil_r.
    - exists [], []. split_and!; [done|done|]. destruct cut; [destruct H3 as ([] & ? & -> & -> & _)|destruct H3 as [-> _]].
      + by apply within_none, Forall_singleton.
      + constructor. }
  exists (a1 ++ a2 ++ a3 ++ []), (u1 ++ u2 ++ u3 ++ []).
  split_and!; [|by repeat apply explains_app|by repeat apply within_app; try constructor].
  unfold ending. by repeat (eapply tries_bind; [eassumption|]).
Qed.

(** A race on the host that is not dropped ends like one that was not cut. *)
Definition is_cut {A B} (x : A + B) : bool := match x with inl _ => false | inr _ => true end.
Abbreviation raced_inner Op d := (race_at is_cancelled (deploy_inner (Op := Op) d)).
Lemma pipeline_attempts d u1 u2 raced result :
  runs (raced_inner HostOp d) u1 raced -> runs (settle raced) u2 result ->
  exists raced' a1 a2 t, tries (raced_inner ExecOp d) a1 raced' /\ tries (settle raced') a2 result /\
    explains h (a1 ++ a2) t /\ within silent t (u1 ++ u2) /\ (is_cut raced' = true -> is_cut raced = true).
Proof.
  intros Hrace Hsettle.
  assert (only (fun X o => silent X o = true) (is_cancelled (Op := HostOp))) as Hasks by by split.
  assert (Hwhole : forall t, runs (deploy_inner (Op := HostOp) d) t result -> within silent t (u1 ++ u2) ->
    exists raced' a1 a2 t, tries (raced_inner ExecOp d) a1 raced' /\ tries (settle raced') a2 result /\
      explains h (a1 ++ a2) t /\ within silent t (u1 ++ u2) /\ (is_cut raced' = true -> is_cut raced = true)).
  { intros t (ats & v & Ha & He & Hv)%inner_follows Hw.
    apply (race_tries h questions_ready ExecCancelled eq_refl) in Ha as (ats' & Ha & Href).
    exists (inl result), ats', [], v. rewrite app_nil_r.
    split_and!; [done|done|by apply Href|by eapply within_trans|done]. }
  destruct raced as [r|rest].
  - destruct Hsettle as [-> ->]. apply (race_at_ready silent) in Hrace as (t & H & Hw); [|done].
    rewrite app_nil_r in Hwhole |- *. by apply (Hwhole t).
  - destruct Hsettle as (b & t & -> & H). destruct b; cbn [bind] in H.
    + destruct (race_at_resumed silent _ _ _ _ _ _ Hasks Hrace H) as (v & Hv & Hw). apply (Hwhole v); [done|].
      eapply within_trans; [exact Hw|]. apply within_app; [apply within_refl|]. apply within_skip; [done|apply within_refl].
    + destruct H as [-> ->]. apply (race_cut silent) in Hrace as (v & Hv & Hw); [|done].
      apply (proj2 (inner_follows d)) in Hv as (ats & v' & Ha & He & Hv').
      apply (race_interrupted h questions_ready ExecCancelled eq_refl) in Ha as (ats' & rest' & Ha & Href).
      exists (inr rest'), ats', [Whole (MkCall FlagLoad false)], (v' ++ [MkCall HostFlagLoad false]).
      split_and!; [done|by left; exists false, []| | |done].
      * apply explains_app; [by apply Href|]. exists [MkCall HostFlagLoad false], []. split_and!; [done| |done]. exists false, []. done.
      * apply within_app; [by eapply within_trans|apply within_refl].
Qed.

(** A deployment that runs is one that attempts the executor's pipeline. *)
Lemma execute_attempts d tr r :
  runs (execute_deployment (Op := HostOp) d) tr r ->
  exists ats t, tries (execute_deployment (Op := ExecOp) d) ats r /\ explains h ats t /\ within silent t tr.
Proof.
  intros ([] & t & -> & H). cbn [bind] in H. apply runs_bind in H as (u1 & ? & raced & -> & Hrace & H).
  apply runs_bind in H as (u2 & u3 & result & -> & Hsettle & H).
  destruct (pipeline_attempts d u1 u2 raced result Hrace Hsettle) as (raced' & a1 & a2 & v & H1 & H2 & He & Hw & Hcut).
  assert (runs (ending (Op := HostOp) d (is_cut raced) result) u3 r) as (a3 & v3 & H3 & He3 & Hw3)%(ending_tries _ _ _ _ _ _ Hcut)
    by by destruct raced.
  exists ([Whole (MkCall FlagNew tt)] ++ a1 ++ a2 ++ a3), ([MkCall HostFlagNew tt] ++ v ++ v3). split_and!.
  - unfold execute_deployment. eapply tries_bind; [by left; exists tt, []|]. eapply tries_bind; [exact H1|].
    eapply tries_bind; [exact H2|]. by destruct raced'.
  - exists [MkCall HostFlagNew tt], (v ++ v3). split_and!; [done|by exists tt, []|].
    cbn [app]. rewrite app_assoc. exact (explains_app h _ _ _ _ He He3).
  - apply within_keep. rewrite app_assoc. by apply within_app.
Qed.
End Node.

(** ** The cutover flag on the host *)

(** The flag holds what was stored in it. *)
Definition flag_after (f : bool) (c : Call HostOp) : bool :=
  match call_op c with HostFlagNew => false | HostFlagStore => true | _ => f end.
Definition flag_answer (f : bool) (c : Call HostOp) : Prop :=
  match call_op c in HostOp T return T -> Prop with
  | HostFlagLoad => fun b => b = f
  | _ => fun _ => True
  end (call_answer c).
Fixpoint keeps_flag (f : bool) (tr : list (Call HostOp)) : Prop :=
  match tr with
  | [] => True
  | c :: rest => flag_answer f c /\ keeps_flag (flag_after f c) rest
  end.

Lemma keeps_within f t tr : within silent t tr -> keeps_flag f tr -> keeps_flag f t.
Proof.
  intros H. revert f. induction H as [|c t tr _ IH|[X o x] t tr Hc _ IH]; intros f; cbn [keeps_flag]; [done|naive_solver|].
  intros [_ H]. apply IH. by destruct o.
Qed.
Lemma keeps_app f t1 t2 : keeps_flag f (t1 ++ t2) <-> keeps_flag f t1 /\ keeps_flag (fold_left flag_after t1 f) t2.
Proof. revert f. induction t1 as [|c t1 IH]; intros f; cbn; [tauto|]. rewrite IH. tauto. Qed.

(** The services leave it alone. *)
Definition no_flag X (o : HostOp X) : Prop :=
  match o with HostFlagNew | HostFlagLoad | HostFlagStore => False | _ => True end.
Lemma no_flag_after f t : Forall (fun c => no_flag _ (call_op c)) t -> fold_left flag_after t f = f.
Proof. intros H. revert f. induction H as [|[X o x] t Ho _ IH]; intros f; cbn; [done|]. rewrite IH. by destruct o. Qed.

Section Transaction.
Context (parsers : Parsers) (config : DockerRuntimeConfig).
Abbreviation h := (service_call parsers config).

Lemma services_no_flag X (o : ExecOp X) :
  match o with FlagNew | FlagLoad | FlagStore => True | _ => only no_flag (h X o) end.
Proof.
  destruct o; try exact I; cbn [service_call]; try (all_calls; fail).
  - unfold node_health, DockerHealthChecker. induction (N.to_nat (dc_health_attempts config)); all_calls.
  - cbn [ce_stop node_containers DockerContainerEngine]. all_calls.
  - cbn [ce_start_existing node_containers DockerContainerEngine]. all_calls.
Qed.
Lemma flag_tracked d s X (o : ExecOp X) x t :
  runs (h X o) t x -> flag (after_call (deployment_monitor d) s o x) = fold_left flag_after t (flag s).
Proof.
  pose proof (services_no_flag X o) as Hno. destruct o;
    try (intros H; rewrite (no_flag_after _ t) by (by eapply only_runs);
         try (destruct x); reflexivity).
  all: intros (y & ? & -> & -> & _); reflexivity.
Qed.

(** What the monitor assumes of the attempts holds of a host whose flag works. *)
Lemma attempts_assumed d s ats t :
  explains h ats t -> keeps_flag (flag s) t -> assumed_attempts (deployment_monitor d) s ats.
Proof.
  revert s t. induction ats as [|[[X o x]|X o] ats IH]; intros s t; cbn [explains assumed_attempts call_op call_type call_answer]; [done| |].
  - destruct (asks o) as [q|] eqn:Hq.
    + intros He Hk. destruct o; try discriminate Hq; (split; [done|by eapply IH]).
    + intros (t1 & t2 & -> & Hr & He) [Hk1 Hk2]%keeps_app. rewrite <- (flag_tracked d s X o x t1 Hr) in Hk2.
      split; [|by eapply IH]. destruct o; try exact I. destruct Hr as (y & ? & -> & -> & ->). apply Hk1.
  - intros (t1 & t2 & -> & Hc & He) [_ Hk]%keeps_app. eapply IH; [exact He|].
    rewrite no_flag_after in Hk; [done|]. pose proof (services_no_flag X o) as Hno.
    destruct o; try (by eapply only_cuts); by destruct Hc as [[_ [=]]|(? & ? & _ & [])].
Qed.

Lemma question_inert d s X (o : ExecOp X) no yes :
  asks o = Some (no, yes) ->
  (plausible (deployment_monitor d) s o no /\ after_call (deployment_monitor d) s o no = s) /\
  (plausible (deployment_monitor d) s o yes /\ after_call (deployment_monitor d) s o yes = s).
Proof. by destruct o. Qed.

(** ** The transaction on the host *)

(** The deployment on the node, once its workspace is there. *)
Abbreviation on_host d :=
  (execute_deployment (WorkspaceManager0 := node_workspace parsers config) (ImageBuilder0 := node_builder config)
     (ContainerEngine0 := node_containers parsers config) (HealthChecker0 := node_health config)
     (RouteManager0 := node_routes parsers config) d).
Abbreviation at_progress d ats := (final_attempts (deployment_monitor d) (started_progress false) ats).

Lemma execution_obeys d tr r :
  runs (on_host d) tr r -> keeps_flag false tr ->
  exists ats t, explains h ats t /\ within silent t tr /\
    obeys_attempts (deployment_monitor d) (started_progress false) ats /\ final_progress r (at_progress d ats).
Proof.
  intros (ats & t & Ha & He & Hw)%execute_attempts Hk.
  assert (assumed_attempts (deployment_monitor d) (started_progress false) ats) as Hassumed
    by (eapply attempts_assumed; [exact He|]; by eapply keeps_within).
  destruct (wp_tries _ (question_inert d) _ _ _ _ ats r (execute_deployment_wp (dc_resource_safety config) d false) Ha Hassumed).
  by exists ats, t.
Qed.

(** Calls that only the executor itself makes. *)
Definition commits X (o : HostOp X) : bool :=
  match o with HostFlagStore | HostMarkCommitted _ => true | _ => false end.
Lemma services_commit_nothing X (o : ExecOp X) :
  match o with FlagStore | MarkCommitted _ => True | _ => only (fun Y (o' : HostOp Y) => commits Y o' = false) (h X o) end.
Proof.
  destruct o; try exact I; cbn [service_call]; try (all_calls; fail).
  - unfold node_health, DockerHealthChecker. induction (N.to_nat (dc_health_attempts config)); all_calls.
  - cbn [ce_stop node_containers DockerContainerEngine]. all_calls.
  - cbn [ce_start_existing node_containers DockerContainerEngine]. all_calls.
Qed.
Abbreviation made o ats := (exists x, Whole (MkCall o x) ∈ ats).

(** Such a call on the host is one of the executor. *)
Lemma commit_made d ats t c :
  obeys_attempts (deployment_monitor d) (started_progress false) ats -> explains h ats t -> c ∈ t ->
  commits _ (call_op c) = true -> ~ before_cutover (at_progress d ats).
Proof.
  intros Hob He Hin Hc. destruct (explains_origin h _ _ _ He Hin) as (X & o & u & Hu & Hr).
  assert (Forall (fun c => commits _ (call_op c) = false) u -> False) as Hno
    by (intros Hall; rewrite Forall_forall in Hall; specialize (Hall _ Hu); congruence).
  pose proof (services_commit_nothing X o) as Honly.
  assert (forall s c, allowed (deployment_monitor d) s (call_op c) -> ~ before_cutover s ->
    ~ before_cutover (after_call (deployment_monitor d) s (call_op c) (call_answer c))) as Hkeep.
  { clear. intros s [X o x] Ho Hs. unfold before_cutover in *. cbn in Ho.
    destruct o; cbn in *; try tauto; try (destruct x; cbn; intuition congruence); try (intuition congruence). }
  assert (match o with FlagStore | MarkCommitted _ => True | _ => False end) as Ho.
  { destruct Hr as [(x & _ & Hr)|[_ Hr]]; destruct o; try exact I; destruct Hno;
      first [exact (only_runs _ _ _ _ Honly Hr)|exact (only_cuts _ _ _ Honly Hr)]. }
  destruct Hr as [(x & Hin' & Hr)|[Hin' Hr]].
  - refine (attempts_kept _ _ _ _ (MkCall o x) Hkeep _ Hin' Hob).
    intros s1 Hs1 [H1 H2]. destruct o; try done; cbn in *; intuition congruence.
  - destruct o; try done; by destruct Hr as [[_ [=]]|(? & ? & _ & [])].
Qed.

(** What a state at the end says was carried out. *)
Definition at_commit (s : Progress) : bool := bool_decide (stage s = ExecutorFacts.Committed).
Definition routed (s : Progress) : bool := bool_decide (stage s = ExecutorFacts.Routed) || at_commit s.
Ltac turned P H Hob :=
  let s := fresh "s" in let X := fresh "X" in let o := fresh "o" in let x := fresh "x" in let Ho := fresh "Ho" in
  let Hin := fresh "Hin" in let Hs := fresh "Hs" in let Hx := fresh "Hx" in
  destruct (attempts_turned _ P _ _ Hob eq_refl H) as (s & [X o x] & Hin & Ho & Hs & Hx);
  cbn [call_op call_type call_answer] in *; destruct s as [[] ? ? ? ? ?], o; cbn in Ho; try done;
  try (intuition congruence); try (vm_compute in Hs, Hx; congruence);
  try (destruct x; vm_compute in Hs, Hx; congruence).
Lemma committed_made d ats :
  obeys_attempts (deployment_monitor d) (started_progress false) ats -> stage (at_progress d ats) = ExecutorFacts.Committed ->
  Whole (MkCall (RouteActivate (deployment_route d)) (Ok tt)) ∈ ats /\
  made (MarkCommitted (with_result (committed_result d))) ats /\ made FlagStore ats.
Proof.
  intros Hob Hf.
  assert (at_commit (at_progress d ats) = true) as H1 by by apply bool_decide_eq_true.
  assert (routed (at_progress d ats) = true) as H2 by (unfold routed; by rewrite H1, orb_true_r).
  split_and!.
  - turned routed H2 Hob. destruct Ho as [-> _]. destruct x as [[]|e]; [done|]. vm_compute in Hs, Hx. congruence.
  - turned at_commit H1 Hob. destruct Ho as [-> _]. by exists x.
  - assert (flag (at_progress d ats) = true) as H3.
    { refine (attempts_invariant _ (fun s => at_commit s = true -> flag s = true) _ _ _ _ Hob H1); [|done].
      intros s [X o x] Ho Hs. destruct s as [[] ? ? ? ? ?], o; cbn in Ho; try done; try (intuition congruence);
        try (destruct x; first [exact Hs|vm_compute; congruence]). }
    turned flag H3 Hob. by exists x.
Qed.

Lemma removals_made d ats r :
  obeys_attempts (deployment_monitor d) (started_progress false) ats -> final_progress r (at_progress d ats) ->
  made (WsCleanup (de_workspace d)) ats /\
  (stage (at_progress d ats) = ExecutorFacts.Committed \/
   before_cutover (at_progress d ats) /\ is_err r = true /\ made (CeCleanupCandidate (de_container d) (de_image d)) ats).
Proof.
  intros Hob (Hworkspace & _ & _ & Hend). split.
  - turned workspace_removal Hworkspace Hob; destruct Ho as [-> _]; by exists x.
  - destruct Hend as [[Hc _]|(Hb & Hr & He)]; [by left|right]. split; [done|]. split; [done|].
    turned candidate_removal Hr Hob; destruct Ho as (-> & -> & _); by exists x.
Qed.

Definition called {X} (o : HostOp X) (tr : list (Call HostOp)) : Prop := exists x, MkCall o x ∈ tr.
Definition removal (l : list string) : HostOp (Result RuntimeError ProcessOutput) :=
  RunProcess (command "docker" l) NullOutputSink.
Lemma cleanup_candidate_runs container image u x :
  runs (@ce_cleanup_candidate _ (node_containers parsers config) container image) u x ->
  called (removal ["rm"; "--force"; container]) u /\ called (removal ["image"; "rm"; "--force"; image]) u.
Proof.
  intros (t1 & ? & f1 & -> & H1 & H)%runs_bind. apply runs_bind in H as (t2 & ? & f2 & -> & H2 & _).
  destruct H1 as (y1 & ? & -> & _). destruct H2 as (y2 & ? & -> & _).
  split; [exists y1; by left|exists y2]. right. apply elem_of_app. right. by left.
Qed.

(** C5. A deployment that ends on the host is committed or has run the removal
    of its candidate.  In every run of a deployment on the node once its
    workspace is checked out, whatever fails and wherever, between two calls of
    the host or inside a service call, a deadline or the token cuts it, in which
    the cutover flag holds what was stored in it: the removal of the workspace's
    directory is run, whatever it answers; and either the deployment is
    committed, its route was activated to the end, the flag set and the reporter
    told what was committed; or the result is an error, neither the flag was set
    nor the reporter told, and both the removal of the candidate's container and
    of its image were run, whatever they answer.  What a cut inside the
    activation leaves of the route file is C39. *)
Theorem deployment_clears_host d tr r :
  runs (on_host d) tr r -> keeps_flag false tr ->
  called (WfRemoveDirAll (dw_root (de_workspace d))) tr /\
  ((called HostFlagStore tr /\ called (HostMarkCommitted (with_result (committed_result d))) tr /\
    exists u, runs (@activate _ (node_routes parsers config) (deployment_route d)) u (Ok tt) /\ forall c, c ∈ u -> c ∈ tr) \/
   (is_err r = true /\ Forall (fun c => commits _ (call_op c) = false) tr /\
    called (removal ["rm"; "--force"; de_container d]) tr /\
    called (removal ["image"; "rm"; "--force"; de_image d]) tr)).
Proof.
  intros Hr Hk. destruct (execution_obeys d tr r Hr Hk) as (ats & t & He & Hw & Hob & Hf).
  assert (Hwhole : forall X (o : ExecOp X) x, asks o = None -> Whole (MkCall o x) ∈ ats ->
    exists u, runs (h X o) u x /\ forall c, c ∈ u -> c ∈ tr).
  { intros X o x Ho Hx. destruct (explains_made h _ _ _ _ _ Ho He Hx) as (u & Hu & Hsub).
    exists u. split; [done|]. intros c Hc. by eapply within_elem, Hsub. }
  assert (Hmade : forall X (o : ExecOp X), asks o = None -> made o ats ->
    exists u x, runs (h X o) u x /\ forall c, c ∈ u -> c ∈ tr).
  { intros X o Ho [x Hx]. destruct (Hwhole X o x Ho Hx) as (u & Hu). by exists u, x. }
  destruct (removals_made d ats r Hob Hf) as [Hworkspace Hend].
  apply Hmade in Hworkspace as (u & x & (y & ? & -> & _) & Hsub); [|done].
  split; [exists y; apply Hsub; by left|]. clear y Hsub.
  destruct Hend as [Hc|(Hbefore & Herr & Hcandidate)]; [left|right].
  - destruct (committed_made d ats Hob Hc) as (Hroute & Hmark & Hflag).
    apply Hmade in Hflag as (u1 & v1 & (y1 & ? & -> & _) & Hsub1); [|done].
    apply Hmade in Hmark as (u2 & v2 & (y2 & ? & -> & _) & Hsub2); [|done].
    apply Hwhole in Hroute as (u3 & Hu3 & Hsub3); [|done].
    split; [exists y1; apply Hsub1; by left|]. split; [exists y2; apply Hsub2; by left|]. by exists u3.
  - apply Hmade in Hcandidate as (u1 & v1 & [[y1 H1] [y2 H2]]%cleanup_candidate_runs & Hsub1); [|done].
    split; [done|]. split; [|split; [exists y1|exists y2]; auto].
    apply Forall_forall. intros c Hin. destruct (commits _ (call_op c)) eqn:Hc; [|done].
    destruct (commit_made d ats t c Hob He); [|done..].
    eapply within_loud; [exact Hw| |done]. by destruct c as [X []].
Qed.

(** C2. Every deployment on the node is one of the executor, cuts included.
    Take any run of the deploy command over processes and files, ended by a
    success, a failure, a deadline or the token at any call of the host, in
    which the cutover flag holds what was stored in it.  Either it failed before
    its workspace was checked out, and is the executor's own preparation with
    every service call carried out on the host.  Or its calls are those of the
    preparation and then, questions to the clock, the token and the flag left
    out, those of attempts of the executor's pipeline: each call that was
    completed was carried out in full, each that was cut in part, and all of
    them were permitted, in their place and with this deployment's arguments, by
    the discipline of the transaction, which the result ends. *)
Theorem node_deployment_refines q tr r :
  runs (deploy_project (RuntimeExecutor := with_runner parsers config) q) tr r -> keeps_flag false tr ->
  let prepare := prepare_deployment (ContainerEngine0 := ExecOp_containers (dc_resource_safety config))
                   (pa_url parsers) (executor_config config) q in
  (exists cs e, r = Err (to_execution_error e) /\ runs prepare cs (Err e) /\ expands h cs tr) \/
  (exists d cs t1 t2 ats t r', tr = t1 ++ t2 /\ runs prepare cs (Ok d) /\ expands h cs t1 /\
     explains h ats t /\ within silent t t2 /\
     obeys_attempts (deployment_monitor d) (started_progress false) ats /\ final_progress r' (at_progress d ats) /\
     match r' with Ok _ => is_ok r = true | Err e => r = Err (to_execution_error e) end).
Proof.
  intros Hr Hk prepare. cbn [deploy_project with_runner docker_executor] in Hr.
  apply runs_with_error in Hr as (r0 & -> & Hr). unfold run_deployment in Hr.
  assert (Hprepare : implements h
    (prepare_deployment (Op := HostOp) (WorkspaceManager0 := node_workspace parsers config)
       (ContainerEngine0 := node_containers parsers config) (pa_url parsers) (executor_config config) q) prepare)
    by apply (node_maintenance_composes parsers config false
                {| cq_command_id := dq_command_id q; cq_approved := false; cq_targets := [] |} q).
  apply runs_and_then in Hr as [(e & H & ->)|(t1 & t2 & d & -> & H & Hr)].
  - left. apply (implements_runs h _ _ _ _ Hprepare) in H as (cs & Hcs & He). by exists cs, e.
  - right.
    assert (fold_left flag_after t1 false = false) as Hf1.
    { apply no_flag_after. refine (only_runs no_flag _ _ _ _ H). unfold ensure_workspace_capacity. all_calls. }
    apply keeps_app in Hk as [_ Hk]. rewrite Hf1 in Hk.
    apply (implements_runs h _ _ _ _ Hprepare) in H as (cs & Hcs & He).
    apply runs_and_then in Hr as [(e & H & ->)|(t3 & t4 & [] & -> & H & -> & ->)].
    + destruct (execution_obeys d _ _ H Hk) as (ats & t & Hats). destruct_and! Hats.
      by exists d, cs, t1, t2, ats, t, (Err e).
    + rewrite app_nil_r in Hk |- *. destruct (execution_obeys d _ _ H Hk) as (ats & t & Hats). destruct_and! Hats.
      by exists d, cs, t1, t3, ats, t, (Ok tt).
Qed.
End Transaction.

(** ** Witnesses: a deployment that is cancelled while its container starts *)

Definition creates_env_file (c : Call HostOp) : bool := match call_op c with EnvCreate _ => true | _ => false end.
Definition stores_flag (c : Call HostOp) : bool := match call_op c with HostFlagStore => true | _ => false end.
Definition cancelled_start : Env HostOp := fun past X o =>
  match o in HostOp T return T with
  | HostCancelled => existsb creates_env_file past
  | HostFlagLoad => existsb stores_flag past
  | o => printing_host node_output past _ o
  end.
Definition node_cancelled :=
  run_with cancelled_start (deploy_project (RuntimeExecutor := sample_node) (sample_request sample_payload)).
Lemma node_deployment_refines_witness :
  is_ok node_cancelled.2 = false /\
  ((exists cs, expands (service_call sample_parsers default_docker_config) cs node_cancelled.1) \/
   exists d ats t t2 r,
    explains (service_call sample_parsers default_docker_config) ats t /\ within silent t t2 /\
    obeys_attempts (deployment_monitor d) (started_progress false) ats /\
    final_progress r (final_attempts (deployment_monitor d) (started_progress false) ats)).
Proof.
  split; [vm_compute; reflexivity|].
  destruct (node_deployment_refines sample_parsers default_docker_config (sample_request sample_payload)
    node_cancelled.1 node_cancelled.2) as [(cs & e & _ & _ & He)|(d & cs & t1 & t2 & ats & t & r' & _ & _ & _ & He & Hw & Hob & Hf & _)].
  - exact (runs_run_from _ [] _).
  - vm_compute. repeat split.
  - left. exists cs. exact He.
  - right. exists d, ats, t, t2, r'. split; [exact He|]. split; [exact Hw|]. split; [exact Hob|exact Hf].
Defined.

Definition host_cancelled :=
  run_with cancelled_start
    (execute_deployment (WorkspaceManager0 := node_workspace sample_parsers default_docker_config)
       (ImageBuilder0 := node_builder default_docker_config)
       (ContainerEngine0 := node_containers sample_parsers default_docker_config)
       (HealthChecker0 := node_health default_docker_config)
       (RouteManager0 := node_routes sample_parsers default_docker_config) sample_deployment).
Lemma deployment_clears_host_witness :
  host_cancelled.2 = Err CancelledError /\ called (WfRemoveDirAll "/builds/c1") host_cancelled.1 /\
  (called HostFlagStore host_cancelled.1 \/
   called (removal ["rm"; "--force"; de_container sample_deployment]) host_cancelled.1).
Proof.
  assert (host_cancelled.2 = Err CancelledError) as Hr by (vm_compute; reflexivity). split; [exact Hr|].
  destruct (deployment_clears_host sample_parsers default_docker_config sample_deployment host_cancelled.1 host_cancelled.2)
    as [Hw Hend].
  - exact (runs_run_from _ [] _).
  - vm_compute. repeat split.
  - split; [exact Hw|]. destruct Hend as [(Hs & _)|(_ & _ & Hc & _)]; [left; exact Hs|right; exact Hc].
Defined.
