(* ===== verification/RecoveryFacts.v ===== *)
(** Theorems about what the runtime does when the agent starts: the preflight,
    and the recovery, in which every workload the reconciliation found is
    accounted for, with the log followers that are started. *)
From S2P Require Import Prelude Text Protocol Async Interp Ports ApiClient RuntimeError Limits Config Process Routing Containers Workspace Builders Health Monitor Executor Telemetry RoutingFacts ExecutorOps ExecutorFacts PayloadFacts LifecycleFacts HostOps Node NodeFacts.

#[local] Open Scope async_scope.

(** ** Preflight *)

Definition ran_well (o : Result RuntimeError ProcessOutput) : bool :=
  match o with Ok output => po_success output | Err _ => false end.
Definition check_calls (l : list (string * CommandSpec)) (outcomes : list (Result RuntimeError ProcessOutput))
  : list (Call HostOp) := zip_with (fun named x => MkCall (RunProcess named.2 NullOutputSink) x) l outcomes.
Definition directory_calls (l : list (string * string)) (outcomes : list (Result IoError ())) : list (Call HostOp) :=
  zip_with (fun named x => MkCall (HostFile (FCreateDir named.2)) x) l outcomes.

(** Checks that each make one call and are ready by its answer. *)
Lemma collected {X N} (f : string * N -> Prog HostOp RuntimePreflightCheck) (o : N -> HostOp X) (good : X -> bool) l tr cs :
  (forall named t c, runs (f named) t c -> exists x, t = [MkCall (o named.2) x] /\ pc_name c = named.1 /\
     pc_fatal c = true /\ pc_ready c = good x) ->
  runs (collect f l) tr cs ->
  exists outcomes, length outcomes = length l /\ tr = zip_with (fun named x => MkCall (o named.2) x) l outcomes /\
    map pc_name cs = map fst l /\ existsb (fun c => pc_fatal c && negb (pc_ready c)) cs = negb (forallb good outcomes).
Proof.
  intros Hf. revert tr cs. induction l as [|named l IH]; intros tr cs; cbn [collect]; [by intros [-> ->]; exists []|].
  intros (t1 & t2 & c & -> & (x & -> & Hname & Hfatal & Hready)%Hf & H)%runs_bind.
  apply runs_bind in H as (t3 & t4 & rest & -> & (outcomes & Hlen & -> & Hnames & Hfailed)%IH & -> & ->).
  exists (x :: outcomes). cbn. rewrite Hlen, Hname, Hnames, Hfatal, Hready, Hfailed, app_nil_r, negb_andb. done.
Qed.

(** A preflight asks for every dependency, whatever the others answer, each
    once and in order, and reports all of them; it has a fatal failure exactly
    when a command failed or a directory could not be made. *)
Theorem preflight_passes_exactly_when_ready cfg tr res :
  runs (run_preflight (Op := HostOp) cfg) tr res ->
  exists outcomes made report,
    tr = check_calls (preflight_commands cfg) outcomes ++ directory_calls (preflight_directories cfg) made /\
    length outcomes = length (preflight_commands cfg) /\ length made = length (preflight_directories cfg) /\
    res = Ok report /\
    map pc_name (checks report) = map fst (preflight_commands cfg) ++ map fst (preflight_directories cfg) /\
    (has_fatal_failure report = false <-> forallb ran_well outcomes = true /\ forallb is_ok made = true).
Proof.
  intros (t1 & t2 & commands & -> & H1 & H)%runs_bind. apply runs_bind in H as (t3 & t4 & directories & -> & H2 & -> & ->).
  apply (collected _ (fun c => RunProcess c NullOutputSink) ran_well) in H1 as (outcomes & Hlen & -> & Hnames & Hfailed).
  2: { intros [name c] t check (x & ? & -> & -> & ->). exists x. split; [done|]. destruct x as [output|e]; [|done].
       cbn. by destruct (po_success output). }
  apply (collected _ (fun path => HostFile (FCreateDir path)) is_ok) in H2 as (made & Hlen' & -> & Hnames' & Hfailed').
  2: { intros [name path] t check (x & ? & -> & -> & ->). exists x. split; [done|]. by destruct x. }
  eexists outcomes, made, _. rewrite app_nil_r. split_and!; [done..| |]; cbn.
  - by rewrite map_app, Hnames, Hnames'.
  - unfold has_fatal_failure. cbn. rewrite existsb_app, Hfailed, Hfailed', <- negb_andb, negb_false_iff, andb_true_iff. done.
Qed.

(** ** What recovery makes of a workload *)

Section Accounting.
Context (factory : bool).

(** What the lookup of a discovered workload answered. *)
Definition Found : Type := Result RuntimeError (option ManagedWorkload).
Definition recoverable (a : Found) : option (ManagedWorkload * Uuid) :=
  match a with Ok (Some w) => (fun id => (w, id)) <$> mw_command_id w | _ => None end.
Definition issue (w : RuntimeWorkload) (a : Found) : option RuntimeCompatibilityIssue :=
  let because reason := Some {| ci_container_id := wl_container_id w; ci_project_id := wl_project_id w;
                                ci_deployment_id := wl_deployment_id w; ci_reason := reason |} in
  match a with
  | Ok None => None
  | Err e => because ("managed workload metadata is incompatible with this Agent: " +:+ runtime_error_text e
                      +:+ "; redeploy is required")
  | Ok (Some m) =>
      match mw_command_id m with
      | None => because "managed workload predates recovery command-id labels; redeploy is required"
      | Some _ => None
      end
  end.
(** The follower a workload gets: under the command that deployed it. *)
Definition follower (a : Found) : option (string * option Uuid * LogBounds) :=
  match recoverable a with
  | Some (w, id) => if is_up w && factory then Some (mw_container_id w, Some id, mw_log_bounds w) else None
  | None => None
  end.

(** The lookups and follower starts of a run. *)
Definition lookup_of (c : Call ExecOp) : option (Uuid * Uuid * Found) :=
  match call_op c in ExecOp T return T -> option (Uuid * Uuid * Found) with
  | CeWorkload p d => fun a => Some (p, d, a)
  | _ => fun _ => None
  end (call_answer c).
Definition start_of (c : Call ExecOp) : option (string * option Uuid * LogBounds * bool) :=
  match call_op c in ExecOp T return T -> option (string * option Uuid * LogBounds * bool) with
  | CeFollower container id b => fun started => Some (container, id, b, started)
  | _ => fun _ => None
  end (call_answer c).
Definition recovers X (o : ExecOp X) : Prop :=
  match o with CeWorkload _ _ | CeFollower _ _ _ => True | _ => False end.

(** The report once every discovered workload was looked up. *)
Definition accounted (base : RuntimeReconciliationReport) (answers : list (RuntimeWorkload * Found)) (started : list bool)
  : RuntimeReconciliationReport :=
  {| inspected_containers := inspected_containers base; cleaned_workspaces := cleaned_workspaces base;
     reclaimed_image_bytes := reclaimed_image_bytes base; workloads := workloads base;
     orphans := orphans base; stale_routes := stale_routes base; stale_images := stale_images base;
     reattached_log_followers := (reattached_log_followers base + N.of_nat (length (List.filter id started)))%N;
     recovered_execution_records :=
       (recovered_execution_records base + N.of_nat (length (omap recoverable answers.*2)))%N;
     compatibility_issues := compatibility_issues base ++ omap (uncurry issue) answers |}.

#[local] Instance any_engine (safety : ResourceSafetyConfig) : ContainerEngine ExecOp := ExecOp_containers safety.
Context (safety : ResourceSafetyConfig).

Abbreviation recover_one := (recover_workload (ContainerEngine0 := any_engine safety) factory).

Lemma omap_one {A B} (f : A -> option B) x : omap f [x] = match f x with Some y => [y] | None => [] end.
Proof. done. Qed.
Lemma accounted_none base w a : recoverable a = None -> issue w a = None -> accounted base [(w, a)] [] = base.
Proof.
  intros Hr Hi. destruct base. unfold accounted. cbn. rewrite Hr, Hi. cbn. by rewrite !N.add_0_r, app_nil_r.
Qed.
Lemma accounted_app base l1 s1 l2 s2 : accounted (accounted base l1 s1) l2 s2 = accounted base (l1 ++ l2) (s1 ++ s2).
Proof.
  unfold accounted. cbn [workloads inspected_containers cleaned_workspaces reclaimed_image_bytes orphans stale_routes
    stale_images reattached_log_followers recovered_execution_records compatibility_issues].
  rewrite fmap_app, !omap_app, List.filter_app, !length_app, app_assoc. f_equal; lia.
Qed.

(** What a run of the loop did for the workloads [ws]. *)
Definition accounts (base : RuntimeReconciliationReport) (ws : list RuntimeWorkload) (tr : list (Call ExecOp))
    (r : Result RuntimeError RuntimeReconciliationReport) : Prop :=
  exists answers started, length answers = length ws /\ r = Ok (accounted base (zip ws answers) started) /\
    omap lookup_of tr = zip_with (fun w a => (wl_project_id w, wl_deployment_id w, a)) ws answers /\
    omap start_of tr = zip_with pair (omap follower answers) started /\ length started = length (omap follower answers) /\
    Forall (fun c => recovers _ (call_op c)) tr.

Lemma recover_one_runs base w tr r : runs (recover_one base w) tr r -> accounts base [w] tr r.
Proof.
  intros (a & t & -> & H). exists [a].
  assert (Hquiet : follower a = None -> t = [] -> r = Ok (accounted base [(w, a)] []) ->
    exists started : list bool, length [a] = length [w] /\ r = Ok (accounted base (zip [w] [a]) started) /\
      omap lookup_of (MkCall (CeWorkload (wl_project_id w) (wl_deployment_id w)) a :: t) =
        zip_with (fun w a => (wl_project_id w, wl_deployment_id w, a)) [w] [a] /\
      omap start_of (MkCall (CeWorkload (wl_project_id w) (wl_deployment_id w)) a :: t) = zip_with pair (omap follower [a]) started /\
      length started = length (omap follower [a]) /\
      Forall (fun c => recovers _ (call_op c)) (MkCall (CeWorkload (wl_project_id w) (wl_deployment_id w)) a :: t)).
  { intros Hf -> ->. exists []. rewrite (omap_one follower), Hf. split_and!; try done. by repeat constructor. }
  destruct a as [[m|]|e]; cbn -[is_up] in H.
  - assert (Hfollower : follower (Ok (Some m)) =
      match mw_command_id m with
      | Some id => if is_up m && factory then Some (mw_container_id m, Some id, mw_log_bounds m) else None
      | None => None
      end) by (unfold follower, recoverable; by destruct (mw_command_id m)).
    destruct (mw_command_id m) as [command_id|] eqn:Hid.
    + assert (Hcount : forall s, accounted base [(w, Ok (Some m))] s = count_recovered base (N.of_nat (length (List.filter id s)))).
      { intros s. unfold accounted, count_recovered. f_equal; [|by cbn; rewrite Hid; apply app_nil_r].
        cbn [fmap list_fmap snd]. rewrite (omap_one recoverable). cbn. by rewrite Hid. }
      destruct (is_up m && factory) eqn:Hup.
      * apply andb_true_iff in Hup as [Hu Hf]. rewrite Hu, Hf in H. cbn in H. destruct H as (b & t' & -> & -> & ->).
        exists [b]. rewrite (omap_one follower), Hfollower. split_and!; try done; [|by repeat constructor].
        f_equal. change (zip [w] [Ok (Some m)]) with [(w, Ok (Some m) : Found)]. rewrite Hcount. by destruct b.
      * apply Hquiet; [done| |rewrite Hcount];
          destruct (is_up m), factory; try discriminate Hup; cbn in H; by destruct H as [-> ->].
    + destruct H as [-> ->]. apply Hquiet; [done|done|]. f_equal. unfold accounted, add_issue. cbn.
      rewrite Hid. cbn. by rewrite !N.add_0_r.
  - destruct H as [-> ->]. apply Hquiet; [done|done|]. by rewrite accounted_none.
  - destruct H as [-> ->]. apply Hquiet; [done|done|]. f_equal. unfold accounted, add_issue. cbn. by rewrite !N.add_0_r.
Qed.

Lemma recover_all_runs ws base tr r : runs (fold_each recover_one base ws) tr r -> accounts base ws tr r.
Proof.
  revert base tr. induction ws as [|w ws IH]; intros base tr; cbn [fold_each].
  - intros [-> ->]. exists [], []. split_and!; try done.
    destruct base; unfold accounted; cbn. by rewrite !N.add_0_r, app_nil_r.
  - intros [(e & H & _)|(t1 & t2 & base' & -> & H1 & H2)]%runs_and_then.
    { apply recover_one_runs in H as (? & ? & _ & [=] & _). }
    apply recover_one_runs in H1 as (a1 & s1 & Hlen1 & [= ->] & Hl1 & Hs1 & Hf1 & Hall1).
    destruct a1 as [|a [|]]; try done. apply IH in H2 as (a2 & s2 & Hlen2 & -> & Hl2 & Hs2 & Hf2 & Hall2).
    exists (a :: a2), (s1 ++ s2). split_and!.
    + cbn. by rewrite Hlen2.
    + by rewrite accounted_app.
    + rewrite omap_app, Hl1, Hl2. done.
    + rewrite omap_app, Hs1, Hs2. change (a :: a2) with ([a] ++ a2). rewrite omap_app.
      by rewrite zip_with_app by done.
    + change (a :: a2) with ([a] ++ a2). rewrite omap_app, !length_app. by rewrite Hf1, Hf2.
    + by apply Forall_app.
Qed.
End Accounting.

Abbreviation reconciliation config :=
  (run_reconcile (ContainerEngine0 := ExecOp_containers (dc_resource_safety config)) (executor_config config)).

(** C10. Recovery accounts for every workload, and fails only if the
    reconciliation does.  In every run of a recovery on the node, behind the
    reconciliation each workload it found is looked up once, in its order, and
    nothing else is asked of the containers but to start followers.  Whatever
    the lookups answer the recovery succeeds, and its report is the
    reconciliation's, where every workload that is still there either counts as
    a recovered execution or has an issue that says why not; a follower is
    started for exactly the recovered workloads that run, if the control plane
    is connected, under the identity and the log bounds of the command that
    deployed them, and those that did start are counted. *)
Theorem recovery_accounts_for_every_workload parsers config factory tr r :
  runs (recover (RuntimeExecutor := with_runner parsers config) factory) tr r ->
  exists cs, expands (service_call parsers config) cs tr /\
  ((exists e, r = Err (to_execution_error e) /\
      runs (reconciliation config) cs (Err e)) \/
   (exists base c1 c2 answers started, cs = c1 ++ c2 /\
      runs (reconciliation config) c1 (Ok base) /\
      length answers = length (workloads base) /\
      r = Ok (accounted base (zip (workloads base) answers) started) /\
      omap lookup_of c2 = zip_with (fun w a => (wl_project_id w, wl_deployment_id w, a)) (workloads base) answers /\
      omap start_of c2 = zip_with pair (omap (follower factory) answers) started /\
      length started = length (omap (follower factory) answers) /\
      Forall (fun c => recovers _ (call_op c)) c2)).
Proof.
  intros Hr.
  assert (implements (service_call parsers config) (recover (RuntimeExecutor := with_runner parsers config) factory)
            (ported (run_recover (ContainerEngine0 := ExecOp_containers (dc_resource_safety config)) (executor_config config) factory))) as Himpl.
  { apply (node_maintenance_composes parsers config factory
      {| cq_command_id := MkUuid EmptyString; cq_approved := false; cq_targets := [] |} (sample_request sample_payload)). }
  apply (implements_runs _ _ _ _ _ Himpl) in Hr as (cs & Hcs & He). exists cs. split; [done|].
  apply runs_with_error in Hcs as (r' & -> & Hcs).
  apply runs_and_then in Hcs as [(e & H & ->)|(c1 & c2 & base & -> & H1 & H2)]; [left; by exists e|right].
  apply (recover_all_runs factory (dc_resource_safety config)) in H2 as (answers & started & Hlen & -> & Hrest).
  destruct_and! Hrest. by exists base, c1, c2, answers, started.
Qed.

(** ** Witness: two workloads, one of them without a command *)

Definition recovering_output (c : CommandSpec) : string :=
  match args c with
  | "ps" :: "--all" :: "--filter" :: _ :: "--filter" :: p :: _ =>
      tabbed ["c0ffee"; "Up 2 hours"; "app.run.sakala.dev"; "3000";
              (if ends_with p (uuid_text project_a) then uuid_text project_a else EmptyString);
              EmptyString; EmptyString; EmptyString]
  | "ps" :: "--all" :: _ =>
      tabbed ["c0ffee"; "Up 2 hours"; uuid_text project_a; uuid_text deployment_a] +:+ newline
      +:+ tabbed ["decaf"; "Up 2 hours"; uuid_text deployment_b; uuid_text deployment_b] +:+ newline
  | _ => EmptyString
  end.
Definition node_recovered := run_with (printing_host recovering_output) (recover (RuntimeExecutor := sample_node) true).
Example recovered_report :
  (fun r => (reattached_log_followers r, recovered_execution_records r, length (compatibility_issues r)))
    <$> node_recovered.2 = Ok (1%N, 1%N, 1%nat).
Proof. vm_compute. reflexivity. Qed.
Lemma recovery_witness : exists cs,
  expands (service_call sample_parsers default_docker_config) cs node_recovered.1 /\
  exists base answers started, length answers = length (workloads base) /\
    node_recovered.2 = Ok (accounted base (zip (workloads base) answers) started).
Proof.
  destruct (recovery_accounts_for_every_workload sample_parsers default_docker_config true node_recovered.1
    node_recovered.2) as (cs & He & [(e & Hr & _)|(base & c1 & c2 & answers & started & _ & _ & Hlen & Hr & _)]).
  - exact (runs_run_from _ [] _).
  - exfalso. vm_compute in Hr. discriminate Hr.
  - exists cs. split; [exact He|]. exists base, answers, started. split; [exact Hlen|exact Hr].
Defined.

(** ** A follower beside another *)

(** The registry as the runs so far left it. *)
Definition registry (past : list (Call HostOp)) : Followers :=
  fold_left (fun fs c => match call_op c with WithFollowers f => (f fs).2 | _ => fs end) past ∅.
Definition following_host : Env HostOp := fun past X o =>
  match o in HostOp T return T with
  | WithFollowers f => (f (registry past)).1
  | HostFlagLoad => true
  | o => printing_host (fun c =>
      match args c with
      | "ps" :: "--all" :: "--filter" :: _ :: "--filter" :: _ :: "--filter" :: _ =>
          tabbed ["c0ffee"; "Up 2 hours"; "app.run.sakala.dev"; "3000"; uuid_text project_a; EmptyString; EmptyString; EmptyString]
      | _ => node_output c
      end) past _ o
  end.
Definition spawned (c : Call HostOp) : option (list string) :=
  match call_op c with SpawnFollower spec _ _ _ => Some (args spec) | _ => None end.
Definition restart_follower_request : ReconcileWorkloadRequest :=
  {| rq_project_id := project_a; rq_deployment_id := deployment_a;
     rq_desired_state := WantRunning; rq_actions := [RestartLogFollower]; rq_reporter_factory := true |}.
Definition deployed_then_reconciled :=
  run_with following_host
    (deployed <~ deploy_project (RuntimeExecutor := sample_node) (sample_request sample_payload) ;;
     reconciled <~ reconcile_workload (RuntimeExecutor := sample_node) restart_follower_request ;;
     Ret (is_ok deployed && is_ok reconciled)).

(** The follower that a reconcile restarts runs beside the one the
    deployment started.  A deployment registers its follower under the
    container's name, the reconcile under the id that the lookup gives for the
    same container, so the registry that is to keep one follower per container
    holds two that run, and each line of the container is reported twice. *)
Theorem follower_not_deduplicated :
  deployed_then_reconciled.2 = true /\
  omap spawned deployed_then_reconciled.1 =
    [["logs"; "--follow"; "--tail"; "0"; container_name project_a deployment_a]; ["logs"; "--follow"; "--tail"; "0"; "c0ffee"]] /\
  registry deployed_then_reconciled.1 !! container_name project_a deployment_a = Some false /\
  registry deployed_then_reconciled.1 !! "c0ffee"%string = Some false.
Proof. split_and!; vm_compute; reflexivity. Qed.
