(* ===== verification/LabelFacts.v ===== *)
(** Labels: what a start writes on a container is what the lookup and discovery
    read back from it.

    Docker is not under src/: how it keeps the labels of a command line and what
    it prints are parameters, with what its documentation says of them as
    hypotheses. *)
From S2P Require Import Prelude Text Protocol Async Ports ApiClient RuntimeError Limits Process Routing Containers Workspace Builders Health RoutingFacts Monitor HostOps ContainersFacts.

#[local] Open Scope async_scope.

(** ** Text of a listing *)

(** Text that stays inside its field of its line. *)
Definition plain_byte (c : ascii) : Prop := c <> TAB /\ c <> LF /\ c <> CR.
Definition plain (s : string) : Prop := Forall plain_byte (bytes_of s).

Lemma fields_tabbed l : l <> [] -> Forall plain l -> fields_of (tabbed l) = l.
Proof.
  intros Hne H. unfold fields_of, str_split, tabbed. induction H as [|s l Hs Hl IH]; [done|].
  assert (Htab : Forall (fun c => c <> TAB) (bytes_of s)) by (eapply Forall_impl; [exact Hs|]; by intros c []).
  destruct l as [|s' l].
  - cbn. rewrite split_bytes_none by done. cbn. by rewrite string_of_bytes_of.
  - change (String.concat tab (s :: s' :: l)) with (s +:+ tab +:+ String.concat tab (s' :: l)).
    rewrite !bytes_of_app. change (bytes_of tab) with [TAB]. cbn [app]. rewrite split_bytes_app by done.
    cbn [map]. rewrite string_of_bytes_of. f_equal. by apply IH.
Qed.

Lemma plain_class (f : ascii -> bool) s :
  forallb (fun c => negb (f c)) [TAB; LF; CR] = true -> Forall (fun c => f c = true) (bytes_of s) -> plain s.
Proof.
  cbn. rewrite !andb_true_iff, !negb_true_iff. intros (Ht & Hl & Hc & _) H. eapply Forall_impl; [exact H|].
  intros c Hf. split_and!; intros ->; congruence.
Qed.
Lemma plain_pretty (n : N) : plain (pretty n).
Proof. by eapply plain_class; [|apply digit_bytes_pretty]. Qed.
Lemma plain_word s : ascii_word (bytes_of s) -> plain s.
Proof. intros [_ H]. apply (plain_class word_byte); [done|]. by apply List.Forall_forall, forallb_forall. Qed.

Lemma tabbed_lines l : Forall plain l -> Forall (fun c => c <> LF /\ c <> CR) (bytes_of (tabbed l)).
Proof.
  unfold tabbed. induction 1 as [|s l Hs Hl IH]; [constructor|].
  assert (Hs' : Forall (fun c => c <> LF /\ c <> CR) (bytes_of s)) by (eapply Forall_impl; [exact Hs|]; by intros c (_ & ? & ?)).
  destruct l as [|s' l]; [done|].
  change (String.concat tab (s :: s' :: l)) with (s +:+ tab +:+ String.concat tab (s' :: l)).
  rewrite !bytes_of_app. apply Forall_app_2; [done|]. apply Forall_app_2; [by repeat constructor|done].
Qed.

(** A line that starts with a word is not blank. *)
Lemma drop_while_keeps {A} (f : A -> bool) x l : In x l -> f x = false -> In x (drop_while f l).
Proof.
  induction l as [|y l IH]; [done|]. intros Hin Hf. cbn. destruct (f y) eqn:Hy; [|done].
  apply IH; [|done]. destruct Hin as [->|]; [congruence|done].
Qed.
Lemma word_line_not_blank id rest :
  ascii_word (bytes_of id) -> is_empty (trim (id +:+ tab +:+ rest)) = false.
Proof.
  intros [Hne Hw]. unfold trim, trim_bytes. rewrite !bytes_of_app. change (bytes_of tab) with [TAB].
  destruct (bytes_of id) as [|d ids]; [done|]. cbn [forallb] in Hw. apply andb_true_iff in Hw as [Hd Hids].
  apply andb_true_iff in Hd as [Hd Hspace]. apply negb_true_iff in Hspace.
  assert (exists c l, (ids ++ [TAB] ++ bytes_of rest)%list = c :: l /\ is_continuation c = false) as (c & l & Hl & Hc).
  { destruct ids as [|c ids]; [by exists TAB, (bytes_of rest)|]. exists c, (ids ++ [TAB] ++ bytes_of rest)%list.
    split; [done|]. cbn in Hids. apply andb_true_iff in Hids as [[Hc _]%andb_true_iff _].
    unfold is_continuation, in_range. apply N.ltb_lt in Hc. by destruct (N.leb_spec 128 (byte c)); [lia|]. }
  assert (In [d] (chars ((d :: ids) ++ [TAB] ++ bytes_of rest))) as Hin.
  { cbn [app] in Hl |- *. cbn [chars]. rewrite Hl. destruct (chars (c :: l)) as [|[|c' g] gs] eqn:E; [by left..|].
    assert (c' = c) as ->; [|by rewrite Hc; left].
    cbn [chars] in E. destruct (chars l) as [|[|c2 g2] gs2]; [by injection E as -> _ _..|].
    destruct (is_continuation c2); by injection E as -> _ _. }
  assert (In [d] (trim_end_chars (trim_start_chars (chars ((d :: ids) ++ [TAB] ++ bytes_of rest))))) as Htrim.
  { unfold trim_end_chars, trim_start_chars. rewrite <- in_rev. apply drop_while_keeps; [|done].
    rewrite <- in_rev. by apply drop_while_keeps. }
  destruct (List.concat _) as [|x xs] eqn:E; [|done].
  assert (In d []) by (rewrite <- E; apply in_concat; exists [d]; split; [done|by left]). done.
Qed.

Lemma filter_all {A} (f : A -> bool) l : (forall x, In x l -> f x = true) -> List.filter f l = l.
Proof.
  induction l as [|x l IH]; [done|]. intros H. cbn. rewrite H by (by left). f_equal. apply IH. intros y Hy. apply H. by right.
Qed.

Lemma filter_filter {A} (f g : A -> bool) l : List.filter g (List.filter f l) = List.filter (fun x => f x && g x) l.
Proof. induction l as [|x l IH]; [done|]. cbn. destruct (f x); cbn; by rewrite IH. Qed.

(** Docker prints a line per container. *)
Definition printed (ls : list string) : string := String.concat EmptyString (List.map (fun l => l +:+ newline) ls).
Lemma printed_lines ls :
  Forall (fun l => Forall (fun c => c <> LF /\ c <> CR) (bytes_of l)) ls -> lines (printed ls) = ls.
Proof.
  intros H. assert (printed ls = string_of (List.concat (map (fun l => l ++ [LF])%list (map bytes_of ls)))) as ->.
  { rewrite <- (string_of_bytes_of (printed ls)). f_equal. unfold printed. clear H.
    induction ls as [|l ls IH]; [done|]. cbn [List.map List.concat]. rewrite <- IH.
    destruct ls as [|l' ls]; cbn [List.map].
    - cbn [String.concat]. by rewrite bytes_of_app, app_nil_r.
    - change (String.concat EmptyString (?a :: ?b :: ?r)) with (a +:+ EmptyString +:+ String.concat EmptyString (b :: r)).
      by rewrite !bytes_of_app. }
  rewrite lines_written.
  - rewrite map_map. rewrite <- (map_id ls) at 2. apply map_ext. intros l. apply string_of_bytes_of.
  - apply List.Forall_map. exact H.
Qed.

(** ** Docker *)

(** What the agent's formats ask of a container. *)
Inductive Cell := IdCell | StatusCell | LabelCell (key : string).
Definition template (c : Cell) : string :=
  match c with IdCell => "{{.ID}}" | StatusCell => "{{.Status}}" | LabelCell key => "{{.Label " +:+ quoted key +:+ "}}" end.

(** The bytes of a label's key: lower case letters, digits, hyphens and dots. *)
Definition key_byte (c : ascii) : bool :=
  in_range 45 46 (byte c) || in_range 48 57 (byte c) || in_range 97 122 (byte c).
Definition plain_key (key : string) : Prop := forallb key_byte (bytes_of key) = true.
Lemma key_value_inj k v k' v' :
  plain_key k -> plain_key k' -> k +:+ "=" +:+ v = k' +:+ "=" +:+ v' -> k = k' /\ v = v'.
Proof.
  unfold plain_key. revert k'. induction k as [|c k IH]; intros [|c' k'] Hk Hk' H; cbn in Hk, Hk'.
  - by injection H.
  - injection H as <- _. done.
  - injection H as -> _. done.
  - apply andb_true_iff in Hk as [_ Hk], Hk' as [_ Hk']. injection H as -> H. by destruct (IH k' Hk Hk' H) as [-> ->].
Qed.
Definition cell_ok (c : Cell) : Prop := match c with LabelCell key => plain_key key | _ => True end.

(** A container: its id, its status and the arguments docker was started with. *)
Record DockerContainer := { dc_id : string; dc_status : string; dc_arguments : list string }.

Definition ps_arguments (wanted : list (string * string)) (cells : list Cell) : list string :=
  ["ps"; "--all"]
  ++ flat_map (fun kv : string * string => ["--filter"; "label=" +:+ kv.1 +:+ "=" +:+ kv.2]) wanted
  ++ ["--format"; tabbed (List.map template cells)].

Section Docker.
(** The value of a label of a container started with some arguments, empty if it
    has none, and what [docker ps] prints on a node of some containers. *)
Context (label_of : list string -> string -> string) (docker_ps : list DockerContainer -> list string -> string).

Definition cell_text (c : DockerContainer) (cell : Cell) : string :=
  match cell with
  | IdCell => dc_id c
  | StatusCell => dc_status c
  | LabelCell key => label_of (dc_arguments c) key
  end.
Definition carries (c : DockerContainer) (wanted : list (string * string)) : bool :=
  forallb (fun kv : string * string => String.eqb (label_of (dc_arguments c) kv.1) kv.2) wanted.

(** Docker's documentation: [--label key=value] sets a label, a label that was
    not set is printed as the empty text; [docker ps --all] lists the containers
    that carry every label it is filtered by, a line each, in which every field
    of the format is replaced by what it names. *)
Record docker_documented : Prop := {
  labels_set : forall options image key value,
    Forall (fun o => o.1 ∈ start_options) options -> plain_key key ->
    In (key +:+ "=" +:+ value) (values_of "--label" options) ->
    (forall value', In (key +:+ "=" +:+ value') (values_of "--label" options) -> value' = value) ->
    label_of (docker_run_line options image) key = value;
  labels_unset : forall options image key,
    Forall (fun o => o.1 ∈ start_options) options -> plain_key key ->
    (forall value, ~ In (key +:+ "=" +:+ value) (values_of "--label" options)) ->
    label_of (docker_run_line options image) key = EmptyString;
  ps_prints : forall containers wanted cells,
    Forall (fun kv => plain_key kv.1) wanted -> cells <> [] -> Forall cell_ok cells ->
    docker_ps containers (ps_arguments wanted cells) =
      printed (List.map (fun c => tabbed (List.map (cell_text c) cells))
                 (List.filter (fun c => carries c wanted) containers)) }.

(** Every process of a run succeeded and printed what docker prints. *)
Definition answered (containers : list DockerContainer) (tr : list (Call HostOp)) : Prop :=
  Forall (fun c => match call_op c in HostOp T return T -> Prop with
                   | RunProcess spec _ => fun r => exists o, r = Ok o /\ po_success o = true /\
                       po_stdout o = docker_ps containers (args spec)
                   | _ => fun _ => True
                   end (call_answer c)) tr.

Lemma answered_query containers what l tr (r : Result RuntimeError string) :
  runs (docker_query (Op := HostOp) what l) tr r -> answered containers tr -> r = Ok (docker_ps containers l).
Proof.
  intros (x & t & -> & H) Ha. apply Forall_cons in Ha as [(o & Ho & Hs & Hout) _]. cbn in Ho, Hout. subst x.
  cbn in H. rewrite Hs in H. destruct H as [_ ->]. by rewrite Hout.
Qed.
Lemma answered_app containers t1 t2 : answered containers (t1 ++ t2) <-> answered containers t1 /\ answered containers t2.
Proof. apply Forall_app. Qed.

(** ** What was started *)

Context (parse_uuid : string -> option Uuid) (network agent_id : string).
Context (documented : docker_documented).

Record Started := {
  st_id : string; st_status : string; st_request : RunContainerRequest; st_env_file : option string }.
Definition container_of (s : Started) : DockerContainer :=
  {| dc_id := st_id s; dc_status := st_status s;
     dc_arguments := run_arguments network agent_id (st_request s) (st_env_file s) |}.

(** What the theorem asks of it: an id that is a word, texts that stay in their
    field, ids that are ids, a domain, and numbers that fit their types. *)
Definition id_ok (u : Uuid) : Prop := plain (uuid_text u) /\ parse_uuid (uuid_text u) = Some u.
Definition bound_ok (b : option N) : Prop := from_option (fun n => (n <= u64_max)%N) True b.
Record readable (s : Started) : Prop := {
  readable_id : ascii_word (bytes_of (st_id s));
  readable_status : plain (st_status s);
  readable_domain : plain (rc_domain (st_request s)) /\ rc_domain (st_request s) <> EmptyString;
  readable_command : id_ok (rc_command_id (st_request s));
  readable_project : id_ok (rc_project_id (st_request s));
  readable_deployment : id_ok (rc_deployment_id (st_request s));
  readable_port : (0 < rc_port (st_request s) <= u16_max)%N;
  readable_bounds : bound_ok (max_line_length (rc_log_bounds (st_request s))) /\
    bound_ok (max_batch_lines (rc_log_bounds (st_request s))) /\ bound_ok (max_total_bytes (rc_log_bounds (st_request s))) }.

Definition bound_text (b : option N) : string := from_option pretty EmptyString b.

(** The labels of a start, by key. *)
Definition bound_pair (key : string) (b : option N) : list (string * string) :=
  List.map (fun n => (key, pretty n)) (option_list b).
Definition label_pairs (r : RunContainerRequest) : list (string * string) :=
  [("dev.sakala.managed", "true"); (PROJECT_LABEL, uuid_text (rc_project_id r));
   (DEPLOYMENT_LABEL, uuid_text (rc_deployment_id r)); (DOMAIN_LABEL, rc_domain r); (PORT_LABEL, pretty (rc_port r));
   (COMMAND_ID_LABEL, uuid_text (rc_command_id r)); ("dev.sakala.workload-kind", "web"); (AGENT_ID_LABEL, agent_id)]
  ++ bound_pair LOG_MAX_LINE_LABEL (max_line_length (rc_log_bounds r))
  ++ bound_pair LOG_MAX_BATCH_LABEL (max_batch_lines (rc_log_bounds r))
  ++ bound_pair LOG_MAX_TOTAL_LABEL (max_total_bytes (rc_log_bounds r)).
Definition key_value (kv : string * string) : string := kv.1 +:+ "=" +:+ kv.2.

Lemma start_line_labels r env_file :
  values_of "--label" (start_line_options network agent_id r env_file) = List.map key_value (label_pairs r).
Proof.
  unfold start_line_options, start_labels, optional_label, values_of, label_pairs, bound_pair.
  by destruct (max_line_length _), (max_batch_lines _), (max_total_bytes _), env_file.
Qed.
Lemma label_keys r :
  Forall plain_key (List.map fst (label_pairs r)) /\ NoDup (List.map fst (label_pairs r)).
Proof.
  unfold label_pairs, bound_pair.
  destruct (max_line_length _), (max_batch_lines _), (max_total_bytes _); split;
    first [by repeat constructor|apply (bool_decide_unpack _); by vm_compute].
Qed.

Lemma key_value_in r key value :
  plain_key key -> In (key_value (key, value)) (List.map key_value (label_pairs r)) -> In (key, value) (label_pairs r).
Proof.
  intros Hk ([k v] & Heq & Hin)%in_map_iff. destruct (label_keys r) as [Hkeys _].
  rewrite List.Forall_forall in Hkeys. pose proof (Hkeys k (in_map fst _ _ Hin) : plain_key k) as Hk'.
  assert (k = key /\ v = value) as [<- <-] by exact (key_value_inj k v key value Hk' Hk Heq). exact Hin.
Qed.
Lemma label_is r env_file key value :
  In (key, value) (label_pairs r) -> label_of (run_arguments network agent_id r env_file) key = value.
Proof.
  intros Hin. destruct (label_keys r) as [Hkeys Hdup]. rewrite List.Forall_forall in Hkeys.
  pose proof (Hkeys key (in_map fst _ _ Hin)) as Hk. rewrite run_arguments_line. apply (labels_set documented); [|done|..].
  - exact (hardened_known _ _ _ _ (start_line_hardened network agent_id r env_file)).
  - rewrite start_line_labels. exact (in_map key_value _ _ Hin).
  - rewrite start_line_labels. intros value' Hin'%key_value_in; [|done].
    clear Hkeys. induction (label_pairs r) as [|[k v] l IH]; [done|]. cbn in Hdup. apply NoDup_cons in Hdup as [Hk' Hdup].
    destruct Hin as [[= -> ->]|Hin], Hin' as [[= ->]|Hin']; [done| | |by apply IH].
    + destruct Hk'. apply list_elem_of_In. exact (in_map fst _ _ Hin').
    + subst. destruct Hk'. apply list_elem_of_In. exact (in_map fst _ _ Hin).
Qed.
Lemma label_is_not r env_file key :
  plain_key key -> ~ In key (List.map fst (label_pairs r)) ->
  label_of (run_arguments network agent_id r env_file) key = EmptyString.
Proof.
  intros Hk Hin. rewrite run_arguments_line. apply (labels_unset documented); [|done|].
  - exact (hardened_known _ _ _ _ (start_line_hardened network agent_id r env_file)).
  - rewrite start_line_labels. intros value Hin'%key_value_in; [|done]. apply Hin. exact (in_map fst _ _ Hin').
Qed.
Lemma bound_label_is r env_file key b :
  plain_key key -> (forall kv, In kv (bound_pair key b) -> In kv (label_pairs r)) ->
  (b = None -> ~ In key (List.map fst (label_pairs r))) ->
  label_of (run_arguments network agent_id r env_file) key = bound_text b.
Proof.
  intros Hk Hin Hout. destruct b as [n|]; [apply label_is, Hin; by left|apply label_is_not; auto].
Qed.

Lemma labels_read r env_file :
  let label key := label_of (run_arguments network agent_id r env_file) key in
  label "dev.sakala.managed" = "true" /\
  label PROJECT_LABEL = uuid_text (rc_project_id r) /\ label DEPLOYMENT_LABEL = uuid_text (rc_deployment_id r) /\
  List.map label [DOMAIN_LABEL; PORT_LABEL; COMMAND_ID_LABEL; LOG_MAX_LINE_LABEL; LOG_MAX_BATCH_LABEL; LOG_MAX_TOTAL_LABEL] =
    [rc_domain r; pretty (rc_port r); uuid_text (rc_command_id r); bound_text (max_line_length (rc_log_bounds r));
     bound_text (max_batch_lines (rc_log_bounds r)); bound_text (max_total_bytes (rc_log_bounds r))].
Proof.
  intros label. unfold label. split_and!; [apply label_is; cbn; tauto..|]. cbn [List.map].
  rewrite !(label_is r env_file) with (value := rc_domain r) by (cbn; tauto).
  rewrite (label_is r env_file PORT_LABEL (pretty (rc_port r))) by (cbn; tauto).
  rewrite (label_is r env_file COMMAND_ID_LABEL (uuid_text (rc_command_id r))) by (cbn; tauto).
  rewrite (bound_label_is r env_file LOG_MAX_LINE_LABEL (max_line_length (rc_log_bounds r))),
    (bound_label_is r env_file LOG_MAX_BATCH_LABEL (max_batch_lines (rc_log_bounds r))),
    (bound_label_is r env_file LOG_MAX_TOTAL_LABEL (max_total_bytes (rc_log_bounds r))); [done|..].
  all: try done.
  all: try (intros kv Hkv; unfold label_pairs; rewrite !in_app_iff; tauto).
  all: unfold label_pairs, bound_pair; intros ->; try destruct (max_line_length _); try destruct (max_batch_lines _);
    try destruct (max_total_bytes _); rewrite <- list_elem_of_In; apply (bool_decide_unpack _); by vm_compute.
Qed.
(** ** Reading a listing *)

(** The workload a start becomes, and its entry in the report. *)
Definition started_workload (s : Started) : ManagedWorkload :=
  let r := st_request s in
  {| mw_container_id := st_id s; mw_status := st_status s; mw_project_id := rc_project_id r;
     mw_deployment_id := rc_deployment_id r; mw_domain := rc_domain r; mw_port := rc_port r;
     mw_command_id := Some (rc_command_id r); mw_log_bounds := rc_log_bounds r |}.
Definition started_entry (s : Started) : RuntimeWorkload :=
  {| wl_container_id := st_id s; wl_project_id := rc_project_id (st_request s);
     wl_deployment_id := rc_deployment_id (st_request s); wl_status := st_status s |}.
Definition never_ran (s : Started) : bool := starts_with (st_status s) "Created".
Definition has_ended (s : Started) : bool := starts_with (st_status s) "Exited" || starts_with (st_status s) "Dead".
Definition started_orphan (s : Started) : RuntimeOrphan :=
  {| or_container_id := st_id s; or_project_id := Some (rc_project_id (st_request s));
     or_reason := if never_ran s then "dangling candidate container was never started"
                  else "stale stopped deployment container" |}.
Definition of_deployment (p d : Uuid) (s : Started) : bool :=
  bool_decide (rc_project_id (st_request s) = p) && bool_decide (rc_deployment_id (st_request s) = d).

Definition managed : string * string := ("dev.sakala.managed", "true").
Definition lookup_cells : list Cell := IdCell :: StatusCell :: List.map LabelCell
  [DOMAIN_LABEL; PORT_LABEL; COMMAND_ID_LABEL; LOG_MAX_LINE_LABEL; LOG_MAX_BATCH_LABEL; LOG_MAX_TOTAL_LABEL].
Definition identity_cells : list Cell := [IdCell; StatusCell; LabelCell PROJECT_LABEL; LabelCell DEPLOYMENT_LABEL].

Lemma cells_text s :
  readable s ->
  List.map (cell_text (container_of s)) lookup_cells =
    [st_id s; st_status s; rc_domain (st_request s); pretty (rc_port (st_request s));
     uuid_text (rc_command_id (st_request s)); bound_text (max_line_length (rc_log_bounds (st_request s)));
     bound_text (max_batch_lines (rc_log_bounds (st_request s))); bound_text (max_total_bytes (rc_log_bounds (st_request s)))] /\
  List.map (cell_text (container_of s)) identity_cells =
    [st_id s; st_status s; uuid_text (rc_project_id (st_request s)); uuid_text (rc_deployment_id (st_request s))] /\
  Forall plain (List.map (cell_text (container_of s)) lookup_cells) /\
  Forall plain (List.map (cell_text (container_of s)) identity_cells).
Proof.
  intros Hs. destruct (labels_read (st_request s) (st_env_file s)) as (_ & Hp & Hd & Hl). cbn [List.map] in Hl.
  pose proof (plain_word _ (readable_id _ Hs)). pose proof (readable_status _ Hs).
  destruct (readable_domain _ Hs), (readable_command _ Hs), (readable_project _ Hs), (readable_deployment _ Hs).
  assert (forall b, plain (bound_text b)) by (intros []; [apply plain_pretty|constructor]).
  pose proof (plain_pretty (rc_port (st_request s))).
  cbn [List.map cell_text lookup_cells identity_cells container_of dc_id dc_status dc_arguments].
  rewrite Hp, Hd, Hl. split_and!; try done; by repeat constructor.
Qed.

(** What the agent makes of the listing of some cells is one line per container,
    none of them blank. *)
Lemma listing_lines ss cells (wanted : list (string * string)) :
  (forall s, readable s -> Forall plain (List.map (cell_text (container_of s)) (IdCell :: StatusCell :: cells))) ->
  Forall readable ss -> Forall (fun kv => plain_key kv.1) wanted -> Forall cell_ok cells ->
  output_lines (docker_ps (List.map container_of ss) (ps_arguments wanted (IdCell :: StatusCell :: cells))) =
    List.map (fun s => tabbed (List.map (cell_text (container_of s)) (IdCell :: StatusCell :: cells)))
      (List.filter (fun s => carries (container_of s) wanted) ss).
Proof.
  intros Hplain Hss Hwanted Hcells. rewrite (ps_prints documented); [|done|done|by repeat constructor].
  set (line := fun c => tabbed (List.map (cell_text c) (IdCell :: StatusCell :: cells))).
  rewrite List.Forall_forall in Hss.
  assert (Hin : forall l, In l (List.map line (List.filter (fun c => carries c wanted) (List.map container_of ss))) ->
    exists s, readable s /\ l = line (container_of s)).
  { intros l (c & <- & [Hc _]%filter_In)%in_map_iff. apply in_map_iff in Hc as (s & <- & Hs). exists s. auto. }
  unfold output_lines. rewrite printed_lines.
  - rewrite <- (List.map_map container_of line).
    assert (List.filter (fun c => carries c wanted) (List.map container_of ss)
      = List.map container_of (List.filter (fun s => carries (container_of s) wanted) ss)) as Hmap.
    { clear. induction ss as [|s ss IH]; [done|]. cbn. rewrite IH. by destruct (carries _ _). }
    rewrite <- Hmap. fold line. rewrite filter_all; [done|].
    intros l (s & Hs & ->)%Hin. unfold line, tabbed. cbn [List.map cell_text].
    change (String.concat tab (?a :: ?b :: ?r)) with (a +:+ tab +:+ String.concat tab (b :: r)).
    by rewrite word_line_not_blank by exact (readable_id _ Hs).
  - apply List.Forall_forall. intros l (s & Hs & ->)%Hin. by apply tabbed_lines, Hplain.
Qed.

Lemma carries_managed s : carries (container_of s) [managed] = true.
Proof.
  destruct (labels_read (st_request s) (st_env_file s)) as (Hm & _). cbn [carries managed forallb fst snd container_of dc_arguments].
  by rewrite Hm.
Qed.
Lemma carries_deployment p d s :
  carries (container_of s) [managed; (PROJECT_LABEL, uuid_text p); (DEPLOYMENT_LABEL, uuid_text d)] = of_deployment p d s.
Proof.
  destruct (labels_read (st_request s) (st_env_file s)) as (Hm & Hp & Hd & _).
  assert (Huuid : forall u v : Uuid, String.eqb (uuid_text u) (uuid_text v) = bool_decide (u = v)).
  { intros [u] [v]. cbn. destruct (String.eqb_spec u v) as [->|Hne]; [by rewrite bool_decide_true|].
    rewrite bool_decide_false; [done|]. by intros [= ->]. }
  cbn [carries managed forallb fst snd container_of dc_arguments]. rewrite Hm, Hp, Hd, !Huuid, andb_true_r. done.
Qed.

Lemma parse_bound b : bound_ok b -> parse_optional_label (Some (bound_text b)) = b.
Proof.
  intros H. destruct b as [n|]; [|done]. unfold parse_optional_label. cbn [mbind option_bind bound_text from_option].
  pose proof (pretty_not_empty n) as Hne. destruct (pretty n) eqn:Hp; [done|]. cbn [is_empty]. rewrite <- Hp.
  by apply parse_uint_pretty.
Qed.
Lemma parse_started s :
  readable s ->
  parse_workload parse_uuid (rc_project_id (st_request s)) (rc_deployment_id (st_request s))
    (tabbed (List.map (cell_text (container_of s)) lookup_cells)) = Ok (started_workload s).
Proof.
  intros Hs. destruct (cells_text s Hs) as (Htext & _ & Hplain & _). rewrite Htext in *.
  unfold parse_workload. rewrite fields_tabbed by done. cbn [lookup list_lookup mbind option_bind].
  destruct (readable_domain _ Hs) as [_ Hdomain], (readable_port _ Hs), (readable_bounds _ Hs) as (B1 & B2 & B3),
    (readable_command _ Hs) as [_ Hc].
  destruct (rc_domain (st_request s)) as [|c domain] eqn:E; [done|].
  cbn [is_empty ok_or Result_bind mbind]. rewrite parse_uint_pretty by done. cbn [option_bind mbind].
  rewrite (proj2 (N.ltb_lt _ _)) by done. cbn [ok_or Result_bind mbind].
  unfold uuid_field, field. cbn [lookup list_lookup mbind option_bind default]. rewrite Hc, !parse_bound by done.
  unfold started_workload. rewrite E. by destruct (rc_log_bounds (st_request s)).
Qed.

(** A line of discovery adds its container to the workloads or the orphans. *)
Definition found_by_discovery (report : RuntimeReconciliationReport) (ss : list Started) : Prop :=
  inspected_containers report = N.of_nat (length ss) /\
  workloads report = List.map started_entry (List.filter (fun s => negb (never_ran s || has_ended s)) ss) /\
  orphans report = List.map started_orphan (List.filter (fun s => never_ran s || has_ended s) ss).
Lemma add_started report done_ s :
  readable s -> found_by_discovery report done_ ->
  found_by_discovery (add_line parse_uuid report (tabbed (List.map (cell_text (container_of s)) identity_cells))) (done_ ++ [s]).
Proof.
  intros Hs (Hn & Hw & Ho). destruct (cells_text s Hs) as (_ & Htext & _ & Hplain). rewrite Htext in *.
  destruct (readable_project _ Hs) as [_ Hp], (readable_deployment _ Hs) as [_ Hd].
  unfold add_line. rewrite fields_tabbed by done. unfold uuid_field, field.
  cbn [lookup list_lookup mbind option_bind default from_option]. unfold Datatypes.id. rewrite Hp, Hd.
  unfold found_by_discovery. rewrite !List.filter_app, !List.map_app, length_app. cbn [List.filter length].
  unfold orphan_reason, started_orphan, never_ran, has_ended.
  destruct (starts_with (st_status s) "Created") eqn:Hcreated; cbn [orb negb];
    [|destruct (starts_with (st_status s) "Exited" || _) eqn:Hend; cbn [negb]];
    cbn [inspected_containers workloads orphans List.map]; rewrite ?app_nil_r, Hn, Hw, Ho, ?Hcreated;
    (split; [lia|by split]).
Qed.
Lemma add_listing ss : forall report done_,
  Forall readable ss -> found_by_discovery report done_ ->
  found_by_discovery
    (fold_left (add_line parse_uuid)
       (List.map (fun s => tabbed (List.map (cell_text (container_of s)) identity_cells)) ss) report) (done_ ++ ss).
Proof.
  induction ss as [|s ss IH]; intros report done_ Hss Hr; [by rewrite app_nil_r|].
  apply Forall_cons in Hss as [Hs Hss]. cbn [List.map fold_left].
  replace (done_ ++ s :: ss) with ((done_ ++ [s]) ++ ss) by (by rewrite <- app_assoc).
  apply IH; [done|]. by apply add_started.
Qed.

Lemma lookup_line_arguments p d :
  ps_arguments [managed; (PROJECT_LABEL, uuid_text p); (DEPLOYMENT_LABEL, uuid_text d)] lookup_cells =
    ["ps"; "--all"] ++ managed_filter
     ++ ["--filter"; "label=" +:+ PROJECT_LABEL +:+ "=" +:+ uuid_text p;
         "--filter"; "label=" +:+ DEPLOYMENT_LABEL +:+ "=" +:+ uuid_text d; "--format";
         tabbed (["{{.ID}}"; "{{.Status}}"] ++ List.map label_template
           [DOMAIN_LABEL; PORT_LABEL; COMMAND_ID_LABEL; LOG_MAX_LINE_LABEL; LOG_MAX_BATCH_LABEL; LOG_MAX_TOTAL_LABEL])].
Proof. done. Qed.
Lemma discovery_arguments :
  ps_arguments [managed] identity_cells = ["ps"; "--all"] ++ managed_filter ++ ["--format"; identity_format].
Proof. done. Qed.

End Docker.

(** ** Witness: a Docker that does what the documentation says *)

Fixpoint options_of (l : list string) : list (string * string) :=
  match l with flag :: value :: ((_ :: _) as rest) => (flag, value) :: options_of rest | _ => [] end.
Fixpoint first_label (labels : list string) (key : string) : string :=
  match labels with
  | [] => EmptyString
  | l :: rest => default (first_label rest key) (strip_prefix l (key +:+ "="))
  end.
Definition tiny_label (arguments : list string) (key : string) : string :=
  match arguments with
  | "run" :: "--detach" :: rest => first_label (values_of "--label" (options_of rest)) key
  | _ => EmptyString
  end.
Definition quote_mark : string := string_of ["034"%char].
Definition label_head : string := "{{.Label " +:+ quote_mark.
Definition tiny_cell (c : DockerContainer) (field : string) : string :=
  if String.eqb field "{{.ID}}" then dc_id c
  else if String.eqb field "{{.Status}}" then dc_status c
  else match strip_prefix field label_head with
       | Some rest => tiny_label (dc_arguments c) (string_of (take (String.length rest - 3) (bytes_of rest)))
       | None => field
       end.
Definition tiny_carries (c : DockerContainer) (wanted : string) : bool :=
  let key := string_of (default [] (head (split_bytes "="%char (bytes_of wanted)))) in
  match strip_prefix wanted (key +:+ "=") with
  | Some value => String.eqb (tiny_label (dc_arguments c) key) value
  | None => false
  end.
Fixpoint tiny_list (containers : list DockerContainer) (arguments : list string) : string :=
  match arguments with
  | "--filter" :: wanted :: rest =>
      tiny_list (List.filter (fun c => from_option (tiny_carries c) false (strip_prefix wanted "label=")) containers) rest
  | ["--format"; format] => printed (List.map (fun c => tabbed (List.map (tiny_cell c) (fields_of format))) containers)
  | _ => EmptyString
  end.
Definition tiny_ps (containers : list DockerContainer) (arguments : list string) : string :=
  match arguments with "ps" :: "--all" :: rest => tiny_list containers rest | _ => EmptyString end.

Lemma options_of_line options image : options_of (option_pairs options ++ [image]) = options.
Proof.
  induction options as [|[flag value] options IH]; [done|]. cbn [option_pairs flat_map fst snd app].
  change (flat_map _ options) with (option_pairs options). cbn [options_of].
  destruct (option_pairs options ++ [image]) as [|x l] eqn:E; [by destruct (option_pairs options)|]. by rewrite IH.
Qed.
Lemma string_app_assoc (a b c : string) : a +:+ (b +:+ c) = (a +:+ b) +:+ c.
Proof. induction a as [|x a IH]; [done|]. change (String x (a +:+ (b +:+ c)) = String x ((a +:+ b) +:+ c)). by rewrite IH. Qed.
Lemma strip_prefix_split s p : match strip_prefix s p with Some r => s = p +:+ r | None => forall r, s <> p +:+ r end.
Proof.
  destruct (strip_prefix s p) as [r|] eqn:E; [|intros r ->; by rewrite strip_prefix_app in E].
  unfold strip_prefix in E. destruct (starts_with s p) eqn:Hs; [|done].
  apply starts_with_split in Hs as [r' ->]. injection E as <-.
  by rewrite bytes_of_app, <- length_bytes_of, drop_app_length, string_of_bytes_of.
Qed.
Lemma first_label_is labels key :
  (exists value, first_label labels key = value /\ In (key +:+ "=" +:+ value) labels) \/
  first_label labels key = EmptyString /\ forall value, ~ In (key +:+ "=" +:+ value) labels.
Proof.
  induction labels as [|l labels IH]; [right; split; [done|]; by intros value []|]. cbn [first_label].
  pose proof (strip_prefix_split l (key +:+ "=")) as Hl. destruct (strip_prefix l (key +:+ "=")) as [v|]; cbn [default].
  - left. exists v. split; [done|]. left. by rewrite string_app_assoc.
  - destruct IH as [(v & Hv & Hin)|[Hv Hout]]; [left; exists v; split; [done|by right]|right].
    split; [done|]. intros v [H|H]; [|by apply (Hout v)]. apply (Hl v). by rewrite H, string_app_assoc.
Qed.
Lemma tiny_label_line options image key :
  tiny_label (docker_run_line options image) key = first_label (values_of "--label" options) key.
Proof. unfold docker_run_line. cbn [app tiny_label]. by rewrite options_of_line. Qed.

Lemma key_bytes key : plain_key key -> Forall (fun c => c <> "="%char /\ plain_byte c) (bytes_of key).
Proof.
  unfold plain_key. intros H. rewrite forallb_forall in H. assert (Hf : forall c, In c (bytes_of key) -> c <> "="%char /\ plain_byte c).
  { intros c Hc. apply H in Hc. unfold plain_byte. split_and!; intros ->; done. }
  by apply List.Forall_forall.
Qed.
Lemma tiny_carries_is c key value :
  plain_key key -> tiny_carries c (key +:+ "=" +:+ value) = String.eqb (tiny_label (dc_arguments c) key) value.
Proof.
  intros Hk%key_bytes. unfold tiny_carries. rewrite !bytes_of_app. change (bytes_of "=") with ["="%char]. cbn [app].
  rewrite split_bytes_app by (eapply Forall_impl; [exact Hk|]; by intros ? []).
  cbn [head default from_option]. unfold Datatypes.id. rewrite string_of_bytes_of.
  by rewrite string_app_assoc, strip_prefix_app.
Qed.
Lemma tiny_cell_is c cell : cell_ok cell -> tiny_cell c (template cell) = cell_text tiny_label c cell.
Proof.
  destruct cell as [| |key]; [done..|]. intros Hk.
  assert (template (LabelCell key) = label_head +:+ ((key +:+ quote_mark) +:+ "}}")) as -> by done. unfold tiny_cell.
  destruct (String.eqb_spec (label_head +:+ ((key +:+ quote_mark) +:+ "}}")) "{{.ID}}") as [H|_]; [by inversion H|].
  destruct (String.eqb_spec (label_head +:+ ((key +:+ quote_mark) +:+ "}}")) "{{.Status}}") as [H|_]; [by inversion H|].
  rewrite strip_prefix_app. cbn [cell_text]. f_equal. rewrite <- length_bytes_of, !bytes_of_app, !length_app.
  change (length (bytes_of (quote_mark))) with 1. change (length (bytes_of "}}")) with 2.
  replace (length (bytes_of key) + 1 + 2 - 3) with (length (bytes_of key)) by lia.
  by rewrite <- app_assoc, take_app_length, string_of_bytes_of.
Qed.
Lemma template_plain cell : cell_ok cell -> plain (template cell).
Proof.
  destruct cell as [| |key]; intros Hk; [by repeat constructor..|]. unfold template, quoted, plain. rewrite !bytes_of_app.
  repeat apply Forall_app_2; try by repeat constructor.
  eapply Forall_impl; [exact (key_bytes key Hk)|]. by intros ? [].
Qed.
Lemma tiny_list_is containers wanted cells :
  Forall (fun kv => plain_key kv.1) wanted -> cells <> [] -> Forall cell_ok cells ->
  tiny_list containers (flat_map (fun kv : string * string => ["--filter"; "label=" +:+ kv.1 +:+ "=" +:+ kv.2]) wanted
                        ++ ["--format"; tabbed (List.map template cells)]) =
    printed (List.map (fun c => tabbed (List.map (cell_text tiny_label c) cells))
               (List.filter (fun c => carries tiny_label c wanted) containers)).
Proof.
  intros Hw Hne Hcells. revert containers. induction Hw as [|[key value] wanted Hk Hw IH]; intros containers.
  - cbn [flat_map app tiny_list]. rewrite filter_all by done. f_equal. apply List.map_ext. intros c. f_equal.
    rewrite fields_tabbed; [|by destruct cells|].
    + rewrite List.map_map. apply map_ext_in. intros cell Hin. apply tiny_cell_is.
      rewrite List.Forall_forall in Hcells. by apply Hcells.
    + apply List.Forall_map. eapply Forall_impl; [exact Hcells|]. apply template_plain.
  - cbn [flat_map app tiny_list fst snd]. rewrite IH. f_equal. f_equal. clear IH.
    rewrite filter_filter. apply List.filter_ext. intros c. rewrite strip_prefix_app. cbn [from_option carries forallb fst snd].
    by rewrite tiny_carries_is.
Qed.
Lemma tiny_docker_documented : docker_documented tiny_label tiny_ps.
Proof.
  split.
  - intros options image key value _ _ Hin Hone. rewrite tiny_label_line.
    destruct (first_label_is (values_of "--label" options) key) as [(v & -> & Hv)|[_ Hout]]; [by apply Hone|].
    by destruct (Hout value).
  - intros options image key _ _ Hout. rewrite tiny_label_line.
    destruct (first_label_is (values_of "--label" options) key) as [(v & _ & Hv)|[H _]]; [by destruct (Hout v)|done].
  - intros containers wanted cells Hw Hne Hcells. by apply tiny_list_is.
Qed.

(** A running container of one deployment and an ended one of another. *)
Definition labelled_request (d : Uuid) : RunContainerRequest :=
  {| rc_command_id := project_a; rc_project_id := project_a; rc_deployment_id := d; rc_name := "sakala-c0ffee";
     rc_image := "sakala/c0ffee"; rc_workspace := "/builds/c1"; rc_environment := [];
     rc_resources := {| memory_mb := 512; cpu_millis := 500; pids_limit := 256 |};
     rc_domain := "app.run.sakala.dev"; rc_port := 3000; rc_log_bounds := {| max_line_length := Some 4096%N;
       max_batch_lines := None; max_total_bytes := Some 1048576%N |} |}.
Definition labelled_node : list Started :=
  [{| st_id := "c0ffee"; st_status := "Up 2 hours"; st_request := labelled_request deployment_a;
      st_env_file := Some "/builds/c1/runtime.env" |};
   {| st_id := "decaf"; st_status := "Exited (0) 3 days ago"; st_request := labelled_request deployment_b;
      st_env_file := None |}].
Definition labelled_containers : list DockerContainer := List.map (container_of "sakala" "node-1") labelled_node.
Definition labelled_host : Env HostOp := printing_host (fun c => tiny_ps labelled_containers (args c)).
Definition any_text (s : string) : option Uuid := Some (MkUuid s).
Definition labelled_lookup := run_with labelled_host (docker_workload any_text project_a deployment_a).

