(* ===== verification/NodeSafety.v ===== *)
(** What no operation of the assembled node does, whatever it is asked, and
    wherever a deadline or the token cuts it. *)
From S2P Require Import Prelude Text Protocol Async Interp Ports ApiClient RuntimeError Limits Config Process Routing Containers Workspace Builders Health Monitor Executor Telemetry RoutingFacts ExecutorOps ExecutorFacts PayloadFacts LifecycleFacts HostOps Node NodeFacts NodeDeploy NodeTransaction.

#[local] Open Scope async_scope.
#[local] Existing Instance HostOp_awaits.

(** [P] of every operation of an executor. *)
Definition every_operation {Op} (E : RuntimeExecutor Op) (P : forall A, Prog Op A -> Prop) : Prop :=
  (P _ preflight /\ P _ reconcile /\ (forall factory, P _ (recover factory)) /\ P _ health_snapshot /\
   P _ node_telemetry /\ P _ shutdown /\ P _ capacity) /\
  ((forall q, P _ (inspect_project q)) /\ (forall q, P _ (deploy_project q)) /\ (forall q, P _ (restart_project q)) /\
   (forall q, P _ (stop_project q)) /\ (forall q, P _ (sleep_project q)) /\ (forall q, P _ (wake_project q))) /\
  ((forall q, P _ (health_check q)) /\ (forall q, P _ (refresh_route q)) /\ (forall q, P _ (reconcile_workload q)) /\
   (forall q, P _ (cleanup_runtime q))).

Lemma every_operation_mono {Op} (E : RuntimeExecutor Op) (P Q : forall A, Prog Op A -> Prop) :
  (forall A p, P A p -> Q A p) -> every_operation E P -> every_operation E Q.
Proof. intros HPQ ((H1 & H2 & H3 & H4 & H5 & H6 & H7) & (I1 & I2 & I3 & I4 & I5 & I6) & (J1 & J2 & J3 & J4)). split_and!; auto. Qed.

Definition tools : list string := ["git"; "docker"; "railpack"; "df"; "du"].
(** A child process of the agent: one of its tools, named by itself and not by
    a path, never without a deadline unless it follows a log, and with a secret
    in its environment only if it is git. *)
Definition supervised_tool (c : CommandSpec) : Prop :=
  program c ∈ tools /\ timeout_disabled c = false /\ (secret_environment c = [] \/ program c = "git"%string).
Definition supervised_op X (o : HostOp X) : Prop :=
  match o with
  | RunProcess c _ => supervised_tool c
  | SpawnFollower c _ _ _ => exists container, c = without_timeout (command "docker" ["logs"; "--follow"; "--tail"; "0"; container])
  | _ => True
  end.

Section Tools.
Context (parsers : Parsers) (config : DockerRuntimeConfig).
Abbreviation node := (with_runner parsers config).

Abbreviation h := (service_call parsers config).

Ltac tool := unfold supervised_tool, tools; cbn; split_and!; [set_solver|done|first [by left|by right]].
Ltac tool_calls := all_calls; try tool.

(** The service calls of the executor. *)
Lemma fetch_supervised w s askpass : supervised_tool (fetch_command w s askpass).
Proof. unfold fetch_command. destruct (src_credential s), askpass; tool. Qed.
Lemma checkout_supervised id s : only supervised_op (@wm_checkout _ (node_workspace parsers config) id s).
Proof. cbn [wm_checkout node_workspace GitWorkspaceManager]. tool_calls; apply fetch_supervised. Qed.
Lemma build_supervised r : only supervised_op (node_builder config r).
Proof.
  unfold node_builder, ImageBuildService, build. only_calls; try done.
  destruct a0; cbn [build_steps for_each]; tool_calls.
Qed.
Lemma health_supervised container : only supervised_op (node_health config container).
Proof. unfold node_health, DockerHealthChecker. induction (N.to_nat (dc_health_attempts config)); tool_calls. Qed.
Lemma services_supervised X (o : ExecOp X) : only supervised_op (h X o).
Proof.
  destruct o; cbn [service_call].
  all: try first [apply checkout_supervised|apply build_supervised|apply health_supervised].
  all: try (tool_calls; fail).
  - cbn [ce_stop node_containers DockerContainerEngine]. tool_calls.
  - cbn [ce_start_existing node_containers DockerContainerEngine]. tool_calls.
  - tool_calls. split; [by exists container|by intros].
Qed.

(** An operation that is the executor's over those calls. *)
Ltac over_services := apply (only_implements h _ _ _ services_supervised).
Lemma commands_supervised c : only supervised_op (node_command parsers config c).
Proof. eapply only_implements; [exact services_supervised|apply node_command_implements]. Qed.

Lemma timed_supervised {A} operation d (p : Async HostOp RuntimeError A) :
  only supervised_op p -> only supervised_op (timed operation d p).
Proof. intros Hp. unfold timed. apply only_raced_at; [tool_calls|done|done|intros rest _; tool_calls]. Qed.
#[local] Instance host_workspace : WorkspaceManager HostOp := node_workspace parsers config.
#[local] Instance host_builder : ImageBuilder HostOp := node_builder config.
#[local] Instance host_containers : ContainerEngine HostOp := node_containers parsers config.
#[local] Instance host_health : HealthChecker HostOp := node_health config.
#[local] Instance host_routes : RouteManager HostOp := node_routes parsers config.

Lemma build_phase_supervised d : only supervised_op (build_phase (Op := HostOp) d).
Proof.
  unfold build_phase, holding. apply only_bind; [tool_calls|]. intros []; [|done]. cbn [negb].
  apply only_bind; [|intros r; tool_calls].
  apply only_and_then; [tool_calls|]. intros _. apply timed_supervised. apply build_supervised.
Qed.
Lemma start_phase_supervised d : only supervised_op (start_phase (Op := HostOp) d).
Proof.
  unfold start_phase. apply only_and_then; [tool_calls|]. intros _. apply timed_supervised.
  apply only_bind; [tool_calls|]. intros _. apply only_and_then; [tool_calls|]. intros _. apply health_supervised.
Qed.
Lemma execution_supervised d : only supervised_op (execute_deployment (Op := HostOp) d).
Proof.
  assert (only supervised_op (deploy_inner (Op := HostOp) d)) as Hinner.
  { unfold deploy_inner, candidate_phase. apply only_and_then; [apply only_and_then|]; [apply build_phase_supervised| |].
    - intros output. apply only_and_then; [apply start_phase_supervised|]. intros _.
      apply only_and_then; [apply (services_supervised _ (RouteActivate _))|done].
    - intros output. tool_calls. split; [by eexists|by intros]. }
  assert (forall result, only supervised_op (clean_candidate (Op := HostOp) d result)) as Hclean by (intros; tool_calls).
  unfold execute_deployment. apply only_bind; [tool_calls|]. intros _.
  apply only_raced_at; [tool_calls|done| |].
  - intros r. cbn [settle]. tool_calls.
  - intros rest Hrest. apply only_bind; [unfold settle; tool_calls|]. intros result. tool_calls.
Qed.
Lemma deployment_supervised q : only supervised_op (deploy_project (RuntimeExecutor := node) q).
Proof.
  cbn [deploy_project with_runner docker_executor].
  apply only_with_error, only_and_then.
  - eapply only_implements; [exact services_supervised|].
    by apply (node_maintenance_composes parsers config false {| cq_command_id := dq_command_id q; cq_approved := false; cq_targets := [] |} q).
  - intros d. apply only_and_then; [apply execution_supervised|done].
Qed.
Lemma preflight_supervised : only supervised_op (preflight (RuntimeExecutor := node)).
Proof. cbn [preflight with_runner docker_executor]. unfold run_preflight. apply only_with_error. tool_calls. Qed.
Lemma telemetry_supervised : only supervised_op (node_telemetry (RuntimeExecutor := node)).
Proof. cbn [node_telemetry with_runner docker_executor]. tool_calls. Qed.
Lemma inspection_supervised q : only supervised_op (inspect_project (RuntimeExecutor := node) q).
Proof.
  cbn [inspect_project with_runner docker_executor]. apply only_with_error. unfold run_inspection.
  assert (forall w s, only supervised_op (node_inspector parsers w s)) as Hinspect.
  { intros w s. apply (services_supervised _ (SourceInspect w s)). }
  apply only_and_then; [tool_calls|]. intros source. apply only_and_then; [tool_calls|]. intros _.
  apply only_and_then; [apply checkout_supervised|]. intros w.
  apply only_raced_at; [tool_calls|apply Hinspect| |]; intros; tool_calls.
Qed.

Lemma maintenance_supervised factory q :
  only supervised_op (reconcile (RuntimeExecutor := node)) /\ only supervised_op (recover (RuntimeExecutor := node) factory) /\
  only supervised_op (capacity (RuntimeExecutor := node)) /\ only supervised_op (health_snapshot (RuntimeExecutor := node)) /\
  only supervised_op (shutdown (RuntimeExecutor := node)) /\ only supervised_op (cleanup_runtime (RuntimeExecutor := node) q).
Proof.
  destruct (node_maintenance_composes parsers config factory q (sample_request sample_payload)) as (H1 & H2 & H3 & H4 & H5 & H6 & _).
  split_and!; (eapply only_implements; [exact services_supervised|eassumption]).
Qed.

(** C12. Whatever it is asked, and wherever a deadline or the token cuts it, the
    node starts no process but its own tools: git, docker, railpack, df and du,
    named by themselves.  Each of them has a deadline, the followers of logs
    excepted, and none but git is given a secret. *)
Theorem node_starts_only_its_tools :
  every_operation node (fun _ p => forall tr a, runs p tr a -> Forall (fun c => supervised_op _ (call_op c)) tr).
Proof.
  assert (every_operation node (fun _ p => only supervised_op p)) as H.
  { pose (q0 := {| cq_command_id := dq_command_id (sample_request sample_payload); cq_approved := false; cq_targets := [] |}).
    destruct (maintenance_supervised false q0) as (Hreconcile & _ & Hcapacity & Hhealth & Hshutdown & _).
    split_and!.
    - apply preflight_supervised.
    - exact Hreconcile.
    - intros factory. apply (maintenance_supervised factory q0).
    - exact Hhealth.
    - apply telemetry_supervised.
    - exact Hshutdown.
    - exact Hcapacity.
    - apply inspection_supervised.
    - apply deployment_supervised.
    - intros q. exact (commands_supervised (Restart q)).
    - intros q. exact (commands_supervised (Stop q)).
    - intros q. exact (commands_supervised (Sleep q)).
    - intros q. exact (commands_supervised (Wake q)).
    - intros q. exact (commands_supervised (Probe q)).
    - intros q. exact (commands_supervised (Refresh q)).
    - intros q. exact (commands_supervised (Reconcile q)).
    - intros q. apply (maintenance_supervised false q). }
  revert H. apply every_operation_mono. intros A p Hp tr a. exact (only_runs _ _ _ _ Hp).
Qed.
End Tools.

(** A deployment that is cancelled while its container starts has started its
    tools by then. *)
Definition starts (p : string) (c : Call HostOp) : bool :=
  match call_op c with RunProcess c _ => String.eqb (program c) p | _ => false end.
Lemma node_tools_witness :
  (existsb (starts "git") node_cancelled.1 && existsb (starts "docker") node_cancelled.1) = true /\
  Forall (fun c => supervised_op _ (call_op c)) node_cancelled.1.
Proof.
  split; [vm_compute; reflexivity|].
  destruct (node_starts_only_its_tools sample_parsers default_docker_config) as (_ & (_ & Hdeploy & _) & _).
  apply (Hdeploy (sample_request sample_payload) node_cancelled.1 node_cancelled.2). exact (runs_run_from _ [] _).
Defined.
