(* ===== verification/SourceFacts.v ===== *)
(** Theorems about what is made of a repository: the build and the command
    lines it runs, the bounded inspection, and the wait for a container. *)
From S2P Require Import Prelude Text Protocol Async Ports ApiClient RuntimeError Process Routing Containers Workspace Builders Health HostOps RoutingFacts.

#[local] Open Scope async_scope.

(** A command that is checked: it ran, and it succeeded or ended the phase. *)
Lemma run_checked_runs c phase tr r :
  runs (run_checked (Op := HostOp) c phase) tr r ->
  exists x, tr = [MkCall (RunProcess c (ReporterOutputSink phase)) x] /\
    match r with Ok o => x = Ok o /\ po_success o = true | Err _ => processes tr = [(c, false)] end.
Proof.
  intros (x & t & -> & H). destruct x as [o|e]; cbn in H.
  - destruct (po_success o) eqn:Ho; destruct H as [-> ->].
    + exists (Ok o). done.
    + exists (Ok o). split; [done|]. cbn. by rewrite Ho.
  - destruct H as [-> ->]. by exists (Err e).
Qed.

(** ** Builds *)

Section Builds.
Context (frontend : string).

(** The commands that ran of a list of steps: all of them, or up to the first
    that failed. *)
Definition steps_ran (steps : list (CommandSpec * string)) (ran : list (CommandSpec * bool)) (ended_well : bool) : Prop :=
  if ended_well then ran = List.map (fun s => (s.1, true)) steps
  else exists before failed after, steps = before ++ failed :: after /\
         ran = List.map (fun s => (s.1, true)) before ++ [(failed.1, false)].

Lemma steps_runs steps tr r :
  runs (for_each (fun '(c, phase) => run_checked (Op := HostOp) c phase ;;; ok ()) steps) tr r ->
  steps_ran steps (processes tr) (is_ok r) /\ length tr = length (processes tr).
Proof.
  revert tr. induction steps as [|[c phase] steps IH]; intros tr; cbn [for_each].
  - intros [-> ->]. done.
  - intros [(e & H & ->)|(t1 & t2 & [] & -> & H & Hrest)]%runs_and_then.
    + apply runs_and_then in H as [(e' & (x & -> & Hp)%run_checked_runs & [= <-])|(? & ? & ? & _ & _ & _ & [=])].
      rewrite Hp. split; [|done]. exists [], (c, phase), steps. done.
    + apply runs_and_then in H as [(e' & _ & [=])|(t3 & t4 & o & -> & (x & -> & -> & Ho)%run_checked_runs & -> & _)].
      apply IH in Hrest as [Hran Hlen]. cbn [app]. rewrite processes_ran by done. cbn [length]. split; [|by rewrite Hlen].
      unfold steps_ran in *. destruct (is_ok r); [by rewrite Hran|].
      destruct Hran as (before & failed & after & -> & ->). by exists ((c, phase) :: before), failed, after.
Qed.

(** Which builder a request is served with, by whether a Dockerfile is there. *)
Inductive served : DeploymentBuilder -> bool -> DeploymentBuilder -> Prop :=
| served_auto_dockerfile : served Auto true Dockerfile
| served_auto_railpack : served Auto false Railpack
| served_dockerfile : served Dockerfile true Dockerfile
| served_railpack present : served Railpack present Railpack.

(** What each builder runs, in order, with the name of its phase. *)
Definition image_build (r : BuildRequest) (file : string) (frontend_arguments : list string) : CommandSpec :=
  command "docker"
    (["buildx"; "build"; "--load"; "--progress"; "plain"] ++ frontend_arguments ++
     ["--file"; file; "--tag"; br_image r; "--label"; "dev.sakala.managed=true";
      "--label"; "dev.sakala.project-id=" +:+ uuid_text (br_project_id r);
      "--label"; "dev.sakala.deployment-id=" +:+ uuid_text (br_deployment_id r); br_source r]).
Definition builder_lines (r : BuildRequest) (used : DeploymentBuilder) : list (CommandSpec * string) :=
  match used with
  | Dockerfile => [(image_build r (path_join (br_source r) "Dockerfile") [], "docker-build")]
  | Railpack =>
      let plan := path_join (br_workspace r) "railpack-plan.json" in
      let info := path_join (br_workspace r) "railpack-info.json" in
      [(command "railpack" ["prepare"; br_source r; "--plan-out"; plan; "--info-out"; info], "railpack-prepare");
       (image_build r plan ["--build-arg"; "BUILDKIT_SYNTAX=" +:+ frontend], "railpack-build")]
  | Auto => []
  end.

Lemma resolve_builder_served requested present :
  match resolve_builder requested present with
  | Ok b => served requested present (builder_of b)
  | Err _ => requested = Dockerfile /\ present = false
  end.
Proof. destruct requested, present; cbn; by constructor. Qed.
Lemma build_steps_are r b : build_steps frontend r b = builder_lines r (builder_of b).
Proof. by destruct b. Qed.

(** C29. A build runs the builder it should.  It looks for a Dockerfile first;
    [Auto] builds the Dockerfile if it is there and with Railpack if it is not,
    a request for Railpack is built with Railpack, one for a Dockerfile with the
    Dockerfile that is there; a Dockerfile that was asked for and is missing
    fails the build before anything runs.  The commands of that builder (one
    docker build, or Railpack's plan and the docker build of the plan with the
    Railpack frontend, labelled with the project and the deployment) run in
    their order, each behind the success of the one before, nothing runs behind
    a failure, the build succeeds exactly when all of them did, and it reports
    the builder that was used. *)
Theorem build_follows_builder r tr res :
  runs (build (Op := HostOp) frontend r) tr res ->
  exists found rest,
    tr = MkCall (SfTryExists (path_join (br_source r) "Dockerfile")) found :: rest /\
    match found with
    | Err _ => rest = [] /\ is_err res = true
    | Ok present =>
        (rest = [] /\ is_err res = true /\ br_requested r = Dockerfile /\ present = false) \/
        exists used, served (br_requested r) present used /\
          steps_ran (builder_lines r used) (processes rest) (is_ok res) /\ length rest = length (processes rest) /\
          (forall out, res = Ok out -> bo_builder out = used)
    end.
Proof.
  intros (found & rest & -> & H). exists found, rest. split; [done|].
  destruct found as [present|e]; cbn [bind io_error map_err and_then lift] in H; [|by destruct H as [-> ->]].
  pose proof (resolve_builder_served (br_requested r) present) as Hserved.
  destruct (resolve_builder (br_requested r) present) as [b|e]; cbn [lift bind] in H; [right|left].
  - exists (builder_of b). split; [done|]. rewrite <- build_steps_are.
    apply runs_and_then in H as [(e & H%steps_runs & ->)|(t1 & t2 & [] & -> & H%steps_runs & -> & ->)].
    + destruct H. by split_and!.
    + rewrite app_nil_r. destruct H. split_and!; [done|done|]. by intros out [= <-].
  - destruct H as [-> ->]. by destruct Hserved.
Qed.
End Builds.

(** ** Inspection *)

Section Inspection.
Context (json_value : string -> Result string Value).

(** The question whether a manifest is there, with its answer. *)
Definition manifest_asked (source : string) (present : string -> bool) (candidate : string) : Call HostOp :=
  MkCall (SfTryExists (path_join source candidate)) (Ok (present candidate)).

Lemma manifests_runs source candidates found tr l :
  NoDup candidates ->
  runs (fold_each (Op := HostOp) (fun found candidate =>
    present <- io (sf_try_exists (path_join source candidate)) ;;
    ok (if present : bool then found ++ [candidate] else found)) found candidates) tr (Ok l) ->
  exists present, tr = List.map (manifest_asked source present) candidates /\
    l = found ++ List.filter present candidates.
Proof.
  revert found tr. induction candidates as [|c candidates IH]; intros found tr Hnd; cbn [fold_each].
  - intros [-> [= ->]]. exists (fun _ => false). by rewrite app_nil_r.
  - apply NoDup_cons in Hnd as [Hc Hnd].
    intros [(e & _ & [=])|(t1 & t2 & f & -> & H & Hrest)]%runs_and_then.
    destruct H as (x & t & -> & H). destruct x as [b|e]; [|by destruct H]. destruct H as [-> [= ->]].
    apply IH in Hrest as (present & -> & ->); [|done].
    assert (Hother : forall x, In x candidates -> (if bool_decide (x = c) then b else present x) = present x).
    { intros x Hx. rewrite bool_decide_false; [done|]. intros ->. by apply Hc, list_elem_of_In. }
    set (answer := fun x => if bool_decide (x = c) then b else present x).
    change (forall x, In x candidates -> answer x = present x) in Hother.
    assert (answer c = b) as Hb by (unfold answer; by rewrite bool_decide_true).
    exists answer. cbn [List.map List.filter]. rewrite Hb. split.
    + assert (manifest_asked source answer c = MkCall (SfTryExists (path_join source c)) (Ok b)) as ->
        by (unfold manifest_asked; by rewrite Hb).
      cbn [app]. f_equal.
      apply map_ext_in. intros x Hx. unfold manifest_asked. by rewrite (Hother x Hx).
    + rewrite (List.filter_ext_in answer present) by done. destruct b; [|done]. by rewrite <- app_assoc.
Qed.

Lemma candidates_distinct : NoDup CANDIDATES.
Proof. apply (bool_decide_unpack _). vm_compute. exact I. Qed.

(** The lock files a package manager is recognised by; the first present wins. *)
Definition lock_files : list (string * string) :=
  [("pnpm-lock.yaml", "pnpm"); ("yarn.lock", "yarn"); ("bun.lock", "bun"); ("bun.lockb", "bun");
   ("package-lock.json", "npm"); ("composer.lock", "composer"); ("uv.lock", "uv");
   ("poetry.lock", "poetry"); ("Cargo.toml", "cargo"); ("go.mod", "go")].

(** What the preview says of a repository in which the names of [present] exist. *)
Record previews (s : RepositorySource) (present : string -> bool) (railpack : Value) (i : ProjectInspection) : Prop := {
  previews_source : pi_repository_url i = src_repository_url s /\ pi_commit_sha i = src_commit_sha s;
  previews_dockerfile : pi_dockerfile_found i = present "Dockerfile";
  previews_env_example : pi_env_example_found i = present ".env.example";
  previews_compose : pi_compose_found i =
    existsb present ["compose.yaml"; "compose.yml"; "docker-compose.yaml"; "docker-compose.yml"];
  previews_manifests : pi_manifests i = List.filter present CANDIDATES;
  previews_manager : pi_package_manager i = snd <$> find (fun '(file, _) => present file) lock_files;
  previews_railpack : pi_railpack i = railpack }.

Lemma has_present present candidates (name : string) :
  name ∈ candidates -> has_manifest (List.filter present candidates) name = present name.
Proof.
  intros Hin. apply eq_true_iff_eq. unfold has_manifest. rewrite existsb_exists. split.
  - intros (x & [_ Hx]%filter_In & ->%bool_decide_eq_true). done.
  - intros Hp. exists name. split; [|by apply bool_decide_eq_true]. apply filter_In. split; [|done].
    by apply list_elem_of_In.
Qed.
Lemma find_present present (candidates : list string) (files : list (string * string)) :
  Forall (fun f => f.1 ∈ candidates) files ->
  find (fun '(f, _) => has_manifest (List.filter present candidates) f) files = find (fun '(f, _) => present f) files.
Proof.
  induction 1 as [|[f manager] files Hf _ IH]; [done|]. cbn [find]. rewrite has_present by done. by rewrite IH.
Qed.
Lemma any_present present candidates (names : list string) :
  Forall (fun n => n ∈ candidates) names ->
  existsb (fun n => bool_decide (n ∈ names)) (List.filter present candidates) = existsb present names.
Proof.
  intros H. rewrite List.Forall_forall in H. apply eq_true_iff_eq. rewrite !existsb_exists. split.
  - intros (x & [_ Hx]%filter_In & Hn%bool_decide_eq_true). exists x. split; [by apply list_elem_of_In|done].
  - intros (x & Hx & Hp). exists x. split; [|by apply bool_decide_eq_true, list_elem_of_In].
    apply filter_In. split; [by apply list_elem_of_In, H|done].
Qed.
Lemma inspection_previews s present railpack :
  previews s present railpack (inspection_of s (List.filter present CANDIDATES) railpack).
Proof.
  split; cbn [pi_repository_url pi_commit_sha pi_dockerfile_found pi_env_example_found pi_compose_found
    pi_manifests pi_package_manager pi_railpack inspection_of]; try done.
  - apply has_present, (bool_decide_unpack _). by vm_compute.
  - apply has_present, (bool_decide_unpack _). by vm_compute.
  - rewrite any_present; [cbn [existsb]; by destruct (present "compose.yml"), (present "compose.yaml"),
      (present "docker-compose.yml"), (present "docker-compose.yaml")|].
    apply (bool_decide_unpack _). by vm_compute.
  - unfold detect_package_manager. f_equal. apply find_present. apply (bool_decide_unpack _). by vm_compute.
Qed.

(** C30. An inspection that succeeds is the preview of what the repository
    holds: Railpack's command line ran and succeeded, the file it wrote was
    measured, at one MiB at most, before it was read, and what was read is the
    JSON that is reported; the manifests that are reported are exactly the known
    names that exist in the source, in their order, each asked for once; whether
    there is a Dockerfile, an example environment or a compose file and which
    package manager is used follow from which of them exist; and nothing else
    was done. *)
Theorem inspection_is_bounded_preview w s tr i :
  runs (inspect (Op := HostOp) json_value w s) tr (Ok i) ->
  exists o size content railpack present,
    let info := path_join (dw_root w) "railpack-info.json" in
    po_success o = true /\ (size <= 1048576)%N /\ json_value content = Ok railpack /\
    tr = MkCall (RunProcess (command "railpack" ["info"; "--format"; "json"; "--out"; info; dw_source w])
                   (ReporterOutputSink "railpack-info")) (Ok o) ::
         MkCall (SfLen info) (Ok size) :: MkCall (SfRead info) (Ok content) ::
         List.map (manifest_asked (dw_source w) present) CANDIDATES /\
    previews s present railpack i.
Proof.
  unfold inspect. set (info := path_join (dw_root w) "railpack-info.json").
  intros [(e & _ & [=])|(t1 & t2 & o & -> & (x & -> & -> & Ho)%run_checked_runs & H)]%runs_and_then.
  apply runs_and_then in H as [(e & _ & [=])|(t3 & t4 & size & -> & H & Hrest)].
  destruct H as (x & t & -> & H). destruct x as [n|e]; [|by destruct H]. destruct H as [-> [= ->]].
  destruct (N.ltb_spec MAX_RAILPACK_INFO_BYTES n) as [|Hsize]; [by destruct Hrest|].
  apply runs_and_then in Hrest as [(e & _ & [=])|(t5 & t6 & content & -> & H & Hrest)].
  destruct H as (x & t & -> & H). destruct x as [c|e]; [|by destruct H]. destruct H as [-> [= ->]].
  apply runs_and_then in Hrest as [(e & _ & [=])|(t7 & t8 & railpack & -> & [-> Hjson] & Hrest)].
  apply runs_and_then in Hrest as [(e & _ & [=])|(t9 & t10 & manifests & -> & H & -> & [= ->])].
  apply (manifests_runs _ _ []) in H as (present & -> & ->); [|apply candidates_distinct].
  exists o, n, c, railpack, present. rewrite app_nil_r.
  split_and!; [done|done| |done|apply inspection_previews]. destruct (json_value c); [by injection Hjson as ->|done].
Qed.
End Inspection.

(** ** Readiness *)

Section Readiness.
Context (interval : Duration) (container : string).

Definition probed (x : Result RuntimeError ProcessOutput) : Call HostOp :=
  MkCall (RunProcess (inspect_health container) NullOutputSink) x.
Definition waited (o : ProcessOutput) : list (Call HostOp) := [probed (Ok o); MkCall (HostSleep interval) tt].
Definition says_ready (o : ProcessOutput) : Prop := po_success o = true /\ trim (po_stdout o) ∈ ["healthy"; "running"].
Definition says_unhealthy (o : ProcessOutput) : Prop := trim (po_stdout o) = "unhealthy".

(** The wait for a container is bounded and its verdict is the last
    probe's.  With [n > 0] attempts it makes at most [n] probes, sleeps once
    between two of them and never behind the last; it goes on only while the
    container is neither ready nor unhealthy; it succeeds exactly when the last
    probe succeeded and said healthy or running, and it gives up at once on an
    unhealthy container or a probe that could not be run, else only behind the
    last attempt. *)
Theorem readiness_wait_bounded n tr r :
  0 < n -> runs (health_loop (Op := HostOp) interval container n) tr r ->
  exists starting x,
    tr = flat_map waited starting ++ [probed x] /\ length starting < n /\
    Forall (fun o => ~ says_ready o /\ ~ says_unhealthy o) starting /\
    (r = Ok () <-> exists o, x = Ok o /\ says_ready o) /\
    (is_err r = true ->
       (exists e, x = Err e /\ r = Err e) \/
       (exists o, x = Ok o /\ ~ says_ready o /\ (says_unhealthy o \/ S (length starting) = n))).
Proof.
  revert tr. induction n as [|later IH]; intros tr Hn; [lia|]. cbn [health_loop].
  intros (x & t & -> & H). destruct x as [o|e].
  2:{ destruct H as [-> ->]. exists [], (Err e). cbn. split_and!; [done|lia|constructor| |by eauto].
      split; [done|]. by intros (o & [=] & _). }
  cbn [bind] in H. fold (probed (Ok o)).
  assert (Hready : po_success o && bool_decide (trim (po_stdout o) ∈ ["healthy"; "running"]) = true <-> says_ready o)
    by (rewrite andb_true_iff, bool_decide_eq_true; done).
  destruct (po_success o && _).
  { destruct H as [-> ->]. exists [], (Ok o). cbn. split_and!; [done|lia|constructor| |done].
    split; [|done]. intros _. exists o. split; [done|]. by apply Hready. }
  assert (Hnot : ~ says_ready o) by (by intros ?%Hready).
  destruct (bool_decide (trim (po_stdout o) = "unhealthy") || bool_decide (later = 0)) eqn:Hend.
  - destruct H as [-> ->]. exists [], (Ok o). cbn. split_and!; [done|lia|constructor| |].
    + split; [done|]. by intros (o' & [= <-] & ?).
    + intros _. right. exists o. split_and!; [done|done|]. apply orb_true_iff in Hend as [Hu|Hl].
      * left. by apply bool_decide_eq_true in Hu.
      * right. apply bool_decide_eq_true in Hl. by subst.
  - apply orb_false_iff in Hend as [Hu%bool_decide_eq_false Hl%bool_decide_eq_false].
    destruct H as ([] & t' & -> & H). apply IH in H as (starting & x & -> & Hlen & Hall & Hok & Herr); [|lia].
    exists (o :: starting), x. cbn. split_and!; [done|lia|by constructor|done|].
    intros Hr. destruct (Herr Hr) as [He|(o' & -> & Ho' & Hend)]; [by left|right].
    exists o'. split_and!; [done|done|]. destruct Hend; [by left|right; lia].
Qed.
End Readiness.

(** ** Witnesses *)

Definition sample_build : BuildRequest :=
  {| br_project_id := project_a; br_deployment_id := deployment_a; br_workspace := "/builds/c1";
     br_source := "/builds/c1/source"; br_image := "sakala/app:1"; br_requested := Auto |}.
Definition empty_outputs : Env HostOp := printing_host (fun _ => EmptyString).
Definition railpack_build := run_with empty_outputs (build (Op := HostOp) "frontend" sample_build).
Lemma build_witness :
  railpack_build.2 = Ok {| bo_builder := Railpack |} /\ exists found rest,
    railpack_build.1 = MkCall (SfTryExists "/builds/c1/source/Dockerfile") found :: rest /\
    (found = Ok false -> steps_ran (builder_lines "frontend" sample_build Railpack) (processes rest) true).
Proof.
  assert (railpack_build.2 = Ok {| bo_builder := Railpack |}) as Hr by (vm_compute; reflexivity). split; [exact Hr|].
  destruct (build_follows_builder "frontend" sample_build railpack_build.1 railpack_build.2 (runs_run_from _ _ _))
    as (found & rest & Htr & H).
  exists found, rest. split; [exact Htr|]. intros ->. rewrite Hr in H.
  destruct H as [(_ & [=] & _)|(used & Hused & H & _)].
  change (served Auto false used) in Hused. inversion Hused; subst. exact H.
Defined.

(** A repository with a package manifest and its lock file. *)
Definition node_repository : Env HostOp := fun past X o =>
  match o in HostOp T return T with
  | SfTryExists p => Ok (existsb (fun n => bool_decide (p = path_join "/builds/c1/source" n)) ["package.json"; "pnpm-lock.yaml"])
  | o => empty_outputs past _ o
  end.
Definition inspected_workspace : DeploymentWorkspace := new_workspace "/builds/c1".
Definition inspected_source : RepositorySource :=
  {| src_repository_url := "https://github.com/gmedia/example-app.git";
     src_commit_sha := "0123456789abcdef0123456789abcdef01234567"; src_credential := None |}.
Definition inspection_run :=
  run_with node_repository (inspect (Op := HostOp) (fun _ => Ok Null) inspected_workspace inspected_source).
Lemma inspection_witness : exists i present,
  inspection_run.2 = Ok i /\ previews inspected_source present Null i /\
  pi_package_manager i = Some "pnpm"%string.
Proof.
  assert (exists i, inspection_run.2 = Ok i /\ pi_package_manager i = Some "pnpm"%string) as (i & Hi & Hp)
    by (vm_compute; eexists; split; reflexivity).
  destruct (inspection_is_bounded_preview (fun _ => Ok Null) inspected_workspace inspected_source inspection_run.1 i)
    as (o & size & content & railpack & present & _ & _ & Hjson & _ & H).
  - rewrite <- Hi. exact (runs_run_from node_repository [] _).
  - injection Hjson as <-. exists i, present. split; [exact Hi|]. split; [exact H|exact Hp].
Defined.

(** A container that starts, then is healthy. *)
Definition warming_up : Env HostOp := fun past X o =>
  match o in HostOp T return T with
  | RunProcess _ _ => Ok {| po_success := true; po_code := Some 0%Z; po_stderr := EmptyString;
                            po_stdout := if Nat.ltb (length past) 2 then "starting" else "healthy" |}
  | o => empty_outputs past _ o
  end.
Definition readiness_run := run_with warming_up (health_loop (Op := HostOp) (from_secs 1) "c1" 5).
Lemma readiness_witness : readiness_run.2 = Ok () /\ exists starting x,
  readiness_run.1 = flat_map (waited (from_secs 1) "c1") starting ++ [probed "c1" x] /\ length starting < 5.
Proof.
  split; [vm_compute; reflexivity|].
  destruct (readiness_wait_bounded (from_secs 1) "c1" 5 readiness_run.1 readiness_run.2 ltac:(lia) (runs_run_from _ _ _))
    as (starting & x & Htr & Hlen & _).
  exists starting, x. split; [exact Htr|exact Hlen].
Defined.
