(* ===== verification/Agent.v ===== *)
(** The agent on its node and its network: the command processor over the
    control plane's HTTP client, with the assembled node as the runtime behind
    its dispatcher. *)
From S2P Require Import Prelude Text Protocol Async Interp Ports NodeState ApiClient Dispatcher CoreOps Redactor Reporting Processor RuntimeError Limits Config Process Routing Containers Workspace Builders Health Executor Telemetry RoutingFacts HostOps Node.

(** The calls of the core to what is neither runtime nor control plane (the
    reporter, the clock, the token, timers, the maintenance state), the host,
    and the network. *)
Inductive AgentOp : Type -> Type :=
| AgCore X (o : CoreOp X) : AgentOp X
| AgHost X (o : HostOp X) : AgentOp X
| AgHttp X (o : HttpOp X) : AgentOp X.
Arguments AgCore {_} _.
Arguments AgHost {_} _.
Arguments AgHttp {_} _.

#[export] Instance AgentOp_ambient : Ambient AgentOp := {
  now_utc := trigger (AgCore NowUtc);
  is_cancelled := trigger (AgCore IsCancelled)
}.
#[export] Instance AgentOp_timers : Timers AgentOp := {
  elapsed w d := trigger (AgCore (Elapsed w d));
  cancel_token := trigger (AgCore CancelToken)
}.
#[export] Instance AgentOp_lifecycle : LifecycleOps AgentOp := {
  load_lifecycle := trigger (AgCore LoadLifecycle);
  store_lifecycle l := trigger (AgCore (StoreLifecycle l))
}.

(** The client's requests go out to the network. *)
Definition on_network : Handler HttpOp AgentOp := fun X o => trigger (AgHttp o).

Section Agent.
Context {wire : WireCodec} (client : ApiClient) (parsers : Parsers) (config : DockerRuntimeConfig).

(** The control plane and the credentials of the agent: its client. *)
#[export] Instance agent_control_plane : ControlPlane AgentOp :=
  let plane := ApiControlPlane client in {|
  cp_claim id := interp on_network (@cp_claim HttpOp plane id);
  cp_event id e := interp on_network (@cp_event HttpOp plane id e);
  cp_logs id ls := interp on_network (@cp_logs HttpOp plane id ls);
  cp_complete id v := interp on_network (@cp_complete HttpOp plane id v);
  cp_fail id code message := interp on_network (@cp_fail HttpOp plane id code message);
  cp_heartbeat p := interp on_network (@cp_heartbeat HttpOp plane p)
|}.
#[export] Instance agent_credentials : RepositoryCredentialProvider AgentOp :=
  fun id access => interp on_network (api_credential (Op := HttpOp) client id access).

(** The reporter of a command: its events go out at once, its lines into the
    queue that is delivered beside it. *)
Definition agent_event (r : Reporter) (e : DeploymentEvent) : Async AgentOp RuntimeExecutionError () :=
  interp on_network (reporter_event (ControlPlane0 := ApiControlPlane client) r e).
#[export] Instance agent_reporter (r : Reporter) : RuntimeReporter AgentOp := {
  report_event e := agent_event r e;
  report_log l := trigger (AgCore (RpLog l));
  report_flush := trigger (AgCore RpFlush);
  mark_deployment_committed o := trigger (AgCore (RpMarkCommitted o));
  deployment_committed := trigger (AgCore RpCommitted);
  committed_output := trigger (AgCore RpCommittedOutput)
}.

(** The reporter, the clock and the token the runtime is given are the ones of
    the command it runs. *)
Definition on_node (r : Reporter) : Handler HostOp AgentOp := fun X o =>
  match o in HostOp T return Prog AgentOp T with
  | HostEvent e => agent_event r e
  | HostLog l => trigger (AgCore (RpLog l))
  | HostFlush => trigger (AgCore RpFlush)
  | HostMarkCommitted out => trigger (AgCore (RpMarkCommitted out))
  | HostCommitted => trigger (AgCore RpCommitted)
  | HostCommittedOutput => trigger (AgCore RpCommittedOutput)
  | HostNow => trigger (AgCore NowUtc)
  | HostCancelled => trigger (AgCore IsCancelled)
  | o => trigger (AgHost o)
  end.

(** The node as the runtime of the dispatcher. *)
Definition agent_runtime (r : Reporter) : RuntimeExecutor AgentOp :=
  let node := with_runner parsers config in
  let on_node := on_node r in {|
  preflight := interp on_node (@preflight _ node);
  reconcile := interp on_node (@reconcile _ node);
  recover factory := interp on_node (@recover _ node factory);
  health_snapshot := interp on_node (@health_snapshot _ node);
  node_telemetry := interp on_node (@node_telemetry _ node);
  shutdown := interp on_node (@shutdown _ node);
  capacity := interp on_node (@capacity _ node);
  inspect_project q := interp on_node (@inspect_project _ node q);
  deploy_project q := interp on_node (@deploy_project _ node q);
  restart_project q := interp on_node (@restart_project _ node q);
  stop_project q := interp on_node (@stop_project _ node q);
  sleep_project q := interp on_node (@sleep_project _ node q);
  wake_project q := interp on_node (@wake_project _ node q);
  health_check q := interp on_node (@health_check _ node q);
  refresh_route q := interp on_node (@refresh_route _ node q);
  reconcile_workload q := interp on_node (@reconcile_workload _ node q);
  cleanup_runtime q := interp on_node (@cleanup_runtime _ node q)
|}.

(** [CommandProcessor::with_node_lifecycle], as the poller builds it: the
    client is the control plane, and leases the credentials. *)
Definition agent_processor (agent : AgentConfig) : ProcessorConfig :=
  {| command_timeout := agent_command_timeout agent; post_commit_grace := POST_COMMIT_FINALIZATION_GRACE |}.

(** The reporter the processor makes for a command, with the log bounds of its
    payload. *)
Definition command_reporter {codec : PayloadCodec} (cfg : ProcessorConfig) (c : AgentCommand) : Reporter :=
  new_reporter (cmd_id c) (match command_policy cfg c with Ok (_, bounds) => bounds | Err _ => default_log_bounds end).

Definition agent_dispatch {codec : PayloadCodec} (r : Reporter) (c : AgentCommand)
  : Async AgentOp RuntimeExecutionError CommandOutput :=
  dispatch (RuntimeExecutor0 := agent_runtime r) (RuntimeReporter0 := agent_reporter r) true c.
Definition agent_process {codec : PayloadCodec} (cfg : ProcessorConfig) (c : AgentCommand) : Async AgentOp CoreError () :=
  let r := command_reporter cfg c in
  process_command (RuntimeExecutor0 := agent_runtime r) (RuntimeReporter0 := agent_reporter r) cfg c.
End Agent.
