(* ===== verification/AgentTasks.v ===== *)
(** A command beside the tasks of its reporter (core/src/commands/processor.rs
    with core/src/reporting/runtime.rs): the processor's calls of [log] and
    [flush] are tasks of the pool, which it awaits while other tasks log, flush
    and are dropped; the commit cell answers what was stored in it. *)
From S2P Require Import Prelude Text Protocol Async Ports NodeState ApiClient Dispatcher CoreOps Redactor Reporting ReporterTasks HostOps Node Agent.

(** The task behind a call of the reporter, and the answer it gives. *)
Definition reporter_call (fuel : nat) X (o : AgentOp X) : option (Task * (Result RuntimeExecutionError () -> X)) :=
  match o in AgentOp T return option (Task * (Result RuntimeExecutionError () -> T)) with
  | AgCore o =>
      match o in CoreOp T return option (Task * (Result RuntimeExecutionError () -> T)) with
      | RpLog l => Some (log_task fuel l, fun result => result)
      | RpFlush => Some (flush_task fuel, fun result => result)
      | _ => None
      end
  | AgHost _ | AgHttp _ => None
  end.

(** [mark_deployment_committed], [deployment_committed] and [committed_output]
    on the reporter's cell; anything else may answer anything. *)
Definition cell_answers (cell : Commit) X (o : AgentOp X) : X -> Prop :=
  match o in AgentOp T return T -> Prop with
  | AgCore o =>
      match o in CoreOp T return T -> Prop with
      | RpCommitted => fun x => x = cm_committed cell
      | RpCommittedOutput => fun x => x = commit_output cell
      | _ => fun _ => True
      end
  | AgHost _ | AgHttp _ => fun _ => True
  end.
Definition cell_after (cell : Commit) X (o : AgentOp X) : Commit :=
  match o with
  | AgCore o => match o with RpMarkCommitted output => mark_committed cell output | _ => cell end
  | AgHost _ | AgHttp _ => cell
  end.

Section System.
Context (r : Reporter) {A : Type}.

(** The command, the task it waits for, and its calls so far, each with the
    lines that the reporter had accepted when it returned. *)
Record RunningCommand := {
  sy_pool : Pool;
  sy_cell : Commit;
  sy_main : Prog AgentOp A;
  sy_waits : option nat;
  sy_past : list (Call AgentOp * list DeploymentLog)
}.
Definition system_init (program : Prog AgentOp A) : RunningCommand :=
  {| sy_pool := pool_init; sy_cell := not_committed; sy_main := program; sy_waits := None; sy_past := [] |}.
Definition queue (s : RunningCommand) : ReporterState := sh_state (po_shared (sy_pool s)).
Definition returned (s : RunningCommand) X (o : AgentOp X) (x : X) (rest : Prog AgentOp A) : RunningCommand :=
  {| sy_pool := sy_pool s; sy_cell := cell_after (sy_cell s) X o; sy_main := rest; sy_waits := None;
     sy_past := sy_past s ++ [(MkCall o x, rs_accepted (queue s))] |}.

(** The task that the command awaits is not dropped while it does; a call that
    is cut is not made, and its task is one of the others. *)
Inductive system_step : RunningCommand -> RunningCommand -> Prop :=
| system_pool s p :
    pool_step r (sy_pool s) p -> (forall i, sy_waits s = Some i -> is_Some (po_tasks p !! i)) ->
    system_step s {| sy_pool := p; sy_cell := sy_cell s; sy_main := sy_main s; sy_waits := sy_waits s;
                     sy_past := sy_past s |}
| system_call s X (o : AgentOp X) k x :
    sy_main s = Vis o k -> reporter_call 0 X o = None -> cell_answers (sy_cell s) X o x ->
    system_step s (returned s X o x (k x))
| system_begin s X (o : AgentOp X) k fuel t answer i :
    sy_main s = Vis o k -> sy_waits s = None -> reporter_call fuel X o = Some (t, answer) ->
    po_tasks (sy_pool s) !! i = None ->
    system_step s {| sy_pool := {| po_shared := po_shared (sy_pool s); po_tasks := <[i := t]> (po_tasks (sy_pool s)) |};
                     sy_cell := sy_cell s; sy_main := sy_main s; sy_waits := Some i; sy_past := sy_past s |}
| system_end s X (o : AgentOp X) k t answer i result :
    sy_main s = Vis o k -> sy_waits s = Some i -> reporter_call 0 X o = Some (t, answer) ->
    po_tasks (sy_pool s) !! i = Some (Ret (Done result)) ->
    system_step s (returned s X o (answer result) (k (answer result))).

Inductive system_reaches (program : Prog AgentOp A) : RunningCommand -> Prop :=
| system_reach_init : system_reaches program (system_init program)
| system_reach_step s s' : system_reaches program s -> system_step s s' -> system_reaches program s'.
End System.
Arguments RunningCommand : clear implicits.
