(* ===== verification/AgentFacts.v ===== *)
(** Theorems about the agent on its node and its network: how a command ends,
    and what it means for the host that it is reported completed or failed. *)
From S2P Require Import Prelude Text Protocol Async Interp Ports NodeState ApiClient ApiClientFacts Dispatcher CoreOps Redactor Reporting Processor ProcessorFacts RuntimeError Limits Config Process Routing Containers Workspace Builders Health Monitor Executor Telemetry RoutingFacts ExecutorOps ExecutorFacts PayloadFacts LifecycleFacts HostOps Node NodeFacts NodeDeploy Agent.

#[local] Open Scope async_scope.

(** Calls that do nothing to the host: those of the core, requests, and
    questions to clocks and flags. *)
Definition aside X (o : AgentOp X) : bool :=
  match o with AgCore _ | AgHttp _ => true | AgHost o => silent _ o end.
Abbreviation all_aside := (Forall (fun c : Call AgentOp => aside _ (call_op c) = true)).
(** Requests and the time of an event. *)
Definition early X (o : AgentOp X) : bool :=
  match o with AgHttp _ => true | AgCore o => match o with NowUtc => true | _ => false end | AgHost _ => false end.
Abbreviation all_early := (Forall (fun c : Call AgentOp => early _ (call_op c) = true)).
Lemma early_aside tr : all_early tr -> all_aside tr.
Proof. intros H. eapply Forall_impl; [exact H|]. intros [X o x]. by destruct o. Qed.
Lemma network_early {A} (p : Prog HttpOp A) tr a : runs (interp on_network p) tr a -> all_early tr.
Proof. apply (only_runs (fun X o => early X o = true)), only_interp. intros X o. by split. Qed.
Lemma network_aside {A} (p : Prog HttpOp A) tr a : runs (interp on_network p) tr a -> all_aside tr.
Proof. intros H%network_early. by apply early_aside. Qed.

(** ** Requests *)

Definition request_of X (o : AgentOp X) : option HttpRequest :=
  match o with AgHttp o => match o with HttpSend rq => Some rq | _ => None end | _ => None end.
Definition wire_call (c : Call HttpOp) : Call AgentOp := MkCall (AgHttp (call_op c)) (call_answer c).
Lemma network_calls cs tr : expands on_network cs tr -> tr = map wire_call cs.
Proof. induction 1 as [|c cs t1 t2 (x & ? & -> & -> & Hx) _ ->]; [done|]. cbn. by rewrite <- Hx. Qed.

Lemma append_cancel a b c : a +:+ b = a +:+ c -> b = c.
Proof. induction a as [|x a IH]; [done|]. intros [= H]. by apply IH. Qed.

Section Requests.
Context (client : ApiClient) (id : Uuid).

Definition action_url (action : string) : string := base_url client +:+ command_action id action.
Lemma action_url_inj a b : action_url a = action_url b -> a = b.
Proof. unfold action_url, command_action. intros H. by do 4 apply append_cancel in H. Qed.

(** A request that ends the command. *)
Definition terminal (rq : HttpRequest) : bool :=
  bool_decide (rq_url rq = action_url "complete") || bool_decide (rq_url rq = action_url "fail").
Definition terminals (tr : list (Call AgentOp)) : list HttpRequest :=
  List.filter terminal (omap (fun c => request_of _ (call_op c)) tr).
Definition unfinal X (o : AgentOp X) : Prop :=
  match request_of _ o with Some rq => terminal rq = false | None => True end.

Lemma terminals_app t1 t2 : terminals (t1 ++ t2) = terminals t1 ++ terminals t2.
Proof. unfold terminals. rewrite omap_app. apply List.filter_app. Qed.
Lemma no_terminals tr : Forall (fun c => unfinal _ (call_op c)) tr -> terminals tr = [].
Proof.
  unfold terminals, unfinal. induction 1 as [|c tr Hc _ IH]; [done|]. cbn.
  destruct (request_of _ (call_op c)) as [rq|]; cbn; [by rewrite Hc|done].
Qed.
Lemma unfinal_runs {A} (p : Prog AgentOp A) tr a : only unfinal p -> runs p tr a -> terminals tr = [].
Proof. intros Hp Hr. eapply no_terminals, only_runs; [exact Hp|exact Hr]. Qed.
Lemma terminals_elem c tr rq :
  c ∈ tr -> request_of _ (call_op c) = Some rq -> terminal rq = true -> rq ∈ terminals tr.
Proof.
  intros Hc Hrq Ht. apply list_elem_of_In, List.filter_In. split; [|done].
  apply list_elem_of_In, list_elem_of_omap. by exists c.
Qed.

Lemma other_action action method key body :
  action <> "complete"%string -> action <> "fail"%string ->
  terminal (request client method (command_action id action) key body) = false.
Proof.
  intros Hc Hf. unfold terminal. cbn [request rq_url].
  rewrite !bool_decide_eq_false_2; [done| |]; by intros ?%action_url_inj.
Qed.
Lemma unfinal_network {A} (p : Prog HttpOp A) :
  only (sends (fun rq => terminal rq = false)) p -> only unfinal (interp on_network p).
Proof.
  intros Hp. apply only_interp_on. eapply only_mono; [|exact Hp]. intros X o Ho. split; [|done].
  by destruct o.
Qed.
End Requests.

(** The request that reports the outcome of a command. *)
Definition terminal_request (client : ApiClient) (c : AgentCommand) (result : Result RuntimeExecutionError CommandOutput)
  : HttpRequest :=
  match result with
  | Ok out => request client POST (command_action (cmd_id c) "complete") None (Some (Object [("result", co_result out)]))
  | Err e => request client POST (command_action (cmd_id c) "fail") None
      (Some (Object [("error_code", Str (sanitize_error_code (ree_code e)));
                     ("error_message", Str (sanitize_error_message (ree_message e)))]))
  end.
Definition terminal_status {E A} (result : Result E A) : CommandStatus := if is_ok result then Succeeded else Failed.
Definition claim_request (client : ApiClient) (id : Uuid) : HttpRequest :=
  request client POST (command_action id "claim") None (Some (Object [])).

Section Processor.
Context {codec : PayloadCodec} {wire : WireCodec} (client : ApiClient) (cfg : ProcessorConfig).
Context (reporter : Reporter).
#[local] Instance plane : ControlPlane AgentOp := agent_control_plane client.
#[local] Instance processor_reports : RuntimeReporter AgentOp := agent_reporter client reporter.

(** The outcome of a commit whose finalization was put off. *)
Definition put_off (out : CommandOutput) (tr : list (Call AgentOp)) : Prop :=
  deferred_output out /\ MkCall (AgCore RpCommitted) true ∈ tr.

Lemma bounded_completed timeout execution tr out :
  runs (bounded_execution (Op := AgentOp) cfg timeout execution) tr (Ok out) ->
  put_off out tr \/ exists t, runs execution t (Ok out) /\ within aside t tr.
Proof.
  assert (forall w d, only (fun X o => aside X o = true) (elapsed (Op := AgentOp) w d)) as Hel by (intros; by split).
  intros (t1 & t2 & raced & -> & H1 & H2)%runs_bind. destruct raced as [r|rest].
  { destruct H2 as [-> <-]. rewrite app_nil_r. right. by apply (race_ready aside) in H1. }
  destruct H2 as (committed & t & -> & H). cbn [bind] in H. destruct committed.
  - apply runs_bind in H as (t3 & t4 & graced & -> & H3 & H4).
    assert (MkCall (AgCore RpCommitted) true ∈ t1 ++ MkCall (AgCore RpCommitted) true :: t3 ++ t4) as Hin
      by (apply elem_of_app; right; apply list_elem_of_here).
    destruct graced as [[o|e]|rest'].
    + destruct H4 as [-> [= ->]]. right. apply (race_ready aside) in H3 as (u & Hu & Hw); [|done].
      apply (race_resumed_within aside _ _ _ _ _ _ (Hel _ _) H1) in Hu as (v & Hv & Hvw). exists v. split; [done|].
      eapply within_trans; [exact Hvw|]. apply within_app; [apply within_refl|]. apply within_skip; [done|].
      by rewrite app_nil_r.
    + left. split; [|done]. destruct H4 as (o & ? & -> & -> & [= ->]). by eexists _, _.
    + left. split; [|done]. destruct H4 as ([] & ? & -> & o & ? & -> & -> & [= ->]). by eexists _, _.
  - destruct H as ([] & t' & -> & H). cbn [bind] in H. apply runs_bind in H as (? & ? & ? & _ & _ & _ & [=]).
Qed.

Lemma prefer_commit_completed result tr out :
  runs (prefer_commit (Op := AgentOp) result) tr (Ok out) ->
  put_off out tr \/ result = Ok out /\ tr = [].
Proof.
  destruct result as [o|e]; cbn [prefer_commit].
  - intros [-> [= ->]]. by right.
  - intros (committed & t & -> & H). cbn [bind] in H. destruct committed; [|by destruct H].
    destruct H as (o & ? & -> & -> & [= ->]). left. split; [by eexists _, _|apply list_elem_of_here].
Qed.

(** What is true of the calls of an execution is true of the bounded one. *)
Lemma bounded_only P timeout execution tr r :
  (forall X (o : CoreOp X), P _ (AgCore o)) -> only P execution ->
  runs (bounded_execution (Op := AgentOp) cfg timeout execution) tr r -> Forall (fun c => P _ (call_op c)) tr.
Proof.
  intros HP Hex (t1 & t2 & raced & -> & H1 & H2)%runs_bind.
  assert (only P (race (elapsed ExecutionTimeout timeout) execution)) as Hrace by (apply only_race; [by split; [apply HP|]|done]).
  apply Forall_app. split; [exact (only_runs _ _ _ _ Hrace H1)|].
  destruct raced as [r'|rest]; [by destruct H2 as [-> _]|].
  pose proof (only_race_rest _ _ _ _ _ Hex H1) as Hrest.
  refine (only_runs P _ _ _ _ H2). only_calls; try done; apply HP.
Qed.

(** The end of a command: one request, repeated while it may help. *)
Lemma agent_finish_runs c result tr r :
  runs (finish (Op := AgentOp) c result) tr r ->
  exists outs last,
    tr = map wire_call (retry_trace (retry client) (terminal_request client c result) 0 (outs ++ [last])) /\
    length outs <= N.to_nat (attempts client - 1) /\ Forall (fun o => retryable o = true) outs /\
    (retryable last = false \/ length outs = N.to_nat (attempts client - 1)) /\
    (r = Ok () <-> exists out response, result = Ok out /\ last = Ok response /\ terminal_outcome Succeeded response = Ok ()).
Proof.
  destruct result as [out|e]; cbn [finish cp_complete cp_fail plane agent_control_plane ApiControlPlane].
  - intros H.
    assert (exists r0, runs (interp on_network (complete (Op := HttpOp) client (cmd_id c) (co_result out))) tr r0 /\
      (r = Ok tt <-> r0 = Ok tt)) as (r0 & H0 & Hr).
    { apply runs_and_then in H as [(e & H & ->)|(t1 & t2 & [] & -> & H & -> & ->)]; [by exists (Err e)|].
      rewrite app_nil_r. by exists (Ok tt). }
    apply runs_interp in H0 as (cs & Hcs & ->%network_calls).
    apply post_terminal_runs in Hcs as (outs & last & -> & Hlen & Hall & Hlast & ->).
    exists outs, last. split_and!; try done. rewrite Hr. destruct last as [response|e].
    + split; [by exists out, response|]. by intros (? & ? & [= <-] & [= <-] & ?).
    + by split; [|intros (? & ? & _ & [=] & _)].
  - intros H.
    assert (exists r0, runs (interp on_network (fail (Op := HttpOp) client (cmd_id c) (ree_code e) (ree_message e))) tr r0 /\
      r <> Ok tt) as (r0 & H0 & Hr).
    { apply runs_and_then in H as [(e' & H & ->)|(t1 & t2 & [] & -> & H & -> & ->)]; [by exists (Err e')|].
      rewrite app_nil_r. by exists (Ok tt). }
    apply runs_interp in H0 as (cs & Hcs & ->%network_calls).
    apply post_terminal_runs in Hcs as (outs & last & -> & Hlen & Hall & Hlast & _).
    exists outs, last. split_and!; try done. by split; [|intros (? & ? & [=] & _)].
Qed.

Lemma plane_unfinal {A} id (p : Prog HttpOp A) tr a :
  only (sends (fun rq => terminal client id rq = false)) p -> runs (interp on_network p) tr a ->
  terminals client id tr = [].
Proof. intros Hp%unfinal_network. by apply unfinal_runs. Qed.
Lemma claim_unfinal id : only (sends (fun rq => terminal client id rq = false)) (claim (Op := HttpOp) client id).
Proof. apply claim_sends. by apply other_action. Qed.
Lemma event_unfinal id e : only (sends (fun rq => terminal client id rq = false)) (event (Op := HttpOp) client id e).
Proof. apply report_sends. intros key. by apply other_action. Qed.
Lemma claim_refused id tr :
  runs (interp on_network (claim (Op := HttpOp) client id)) tr (Err CommandNotClaimable) ->
  exists response, tr = [MkCall (AgHttp (HttpSend (claim_request client id))) (Ok response)] /\ rs_status response = 409%N.
Proof.
  intros (cs & H & ->%network_calls)%runs_interp. unfold claim, send in H.
  apply runs_and_then in H as [(e & H & [= <-])|(t1 & t2 & response & -> & H & Ht)].
  - apply runs_with_error in H as (r & Hr & _). by destruct r.
  - apply runs_with_error in H as (? & Hr & (x & ? & -> & -> & ->)). destruct x as [resp|]; [|done]. injection Hr as ->.
    exists resp. destruct (N.eqb_spec (rs_status resp) 409); [by destruct Ht as [-> _]|].
    unfold error_for_status in Ht. destruct (_ || _); by destruct Ht as [_ [=]].
Qed.

(** The life of a command: what precedes its end sends nothing terminal, and
    its end is that of its policy's error or of its bounded execution.  A
    command has no end if its claim or the report of it failed, or if it was
    not claimable. *)
Inductive outcome (c : AgentCommand) (execution : Async AgentOp RuntimeExecutionError CommandOutput)
    (pre : list (Call AgentOp)) : Result RuntimeExecutionError CommandOutput -> Prop :=
| rejected e : command_policy cfg c = Err e -> all_early pre -> outcome c execution pre (Err e)
| executed timeout bounds result result' t0 t1 t2 flushed :
    command_policy cfg c = Ok (timeout, bounds) -> all_early t0 ->
    runs (bounded_execution cfg timeout execution) t1 result -> runs (prefer_commit result) t2 result' ->
    pre = t0 ++ t1 ++ t2 ++ [MkCall (AgCore RpFlush) flushed] -> outcome c execution pre result'.
Definition unclaimable (c : AgentCommand) (tr : list (Call AgentOp)) : Prop :=
  exists response, tr = [MkCall (AgHttp (HttpSend (claim_request client (cmd_id c)))) (Ok response)] /\
    rs_status response = 409%N.
Lemma agent_process_runs c execution tr r :
  only (unfinal client (cmd_id c)) execution ->
  runs (process (Op := AgentOp) cfg c execution) tr r ->
  (terminals client (cmd_id c) tr = [] /\ (r = Ok () -> unclaimable c tr)) \/
  exists pre post result, tr = pre ++ post /\ terminals client (cmd_id c) pre = [] /\
    outcome c execution pre result /\ runs (finish c result) post r.
Proof.
  intros Hex H. unfold process in H. cbn [cp_claim cp_event plane agent_control_plane ApiControlPlane] in H.
  apply runs_and_then in H as [(e & (r0 & [=] & _)%runs_attempt & _)|(t1 & u1 & claimed & -> & H1 & H)].
  apply runs_attempt in H1 as (r0 & [= <-] & H1).
  pose proof (plane_unfinal _ _ _ _ (claim_unfinal _) H1) as Hu1. pose proof (network_early _ _ _ H1) as Ha1.
  destruct claimed as [[]|e].
  2: { left. destruct e; destruct H as [-> ->]; rewrite app_nil_r; (split; [done|]); try done.
       intros _. by apply claim_refused. }
  destruct H as (now & u2 & -> & H). cbn [bind] in H.
  apply runs_and_then in H as [(e & H & ->)|(t2 & u3 & ack & -> & H2 & H)].
  { left. split_and!; [..|by intros [=]].
    - rewrite terminals_app, Hu1. exact (plane_unfinal _ _ _ _ (event_unfinal _ _) H).
  }
  pose proof (plane_unfinal _ _ _ _ (event_unfinal _ _) H2) as Hu2. pose proof (network_early _ _ _ H2) as Ha2.
  right. destruct (command_policy cfg c) as [[timeout bounds]|e] eqn:Hpolicy.
  - apply runs_bind in H as (t3 & u4 & result & -> & H3 & H). apply runs_bind in H as (t4 & u5 & result' & -> & H4 & H).
    apply runs_and_then in H as [(e & ([=] & _)%runs_ignore & _)|(t5 & post & [] & -> & H5 & H)].
    apply runs_ignore in H5 as (_ & flushed & (x & ? & -> & -> & _)).
    exists (t1 ++ MkCall (AgCore NowUtc) now :: t2 ++ t3 ++ t4 ++ [MkCall (AgCore RpFlush) x]), post, result'.
    split; [by rewrite <- !app_assoc; cbn; rewrite <- !app_assoc|]. split; [|split; [|done]].
    + rewrite terminals_app, Hu1. cbn [app]. change (?a :: ?l) with ([a] ++ l). rewrite !terminals_app, Hu2.
      assert (Forall (fun c0 => unfinal client (cmd_id c) _ (call_op c0)) t3) as Hu3
        by (eapply bounded_only; [|exact Hex|exact H3]; done).
      assert (only (unfinal client (cmd_id c)) (prefer_commit (Op := AgentOp) result)) as Hprefer
        by (unfold prefer_commit; only_calls; done).
      by rewrite (no_terminals _ _ _ Hu3), (unfinal_runs _ _ _ _ _ Hprefer H4).
    + apply (executed c execution _ timeout bounds result result' (t1 ++ MkCall (AgCore NowUtc) now :: t2) t3 t4 x);
        try done; [|by rewrite <- !app_assoc].
      apply Forall_app; split; [done|]. by constructor.
  - exists (t1 ++ MkCall (AgCore NowUtc) now :: t2), u3, (Err e).
    split; [by rewrite <- !app_assoc|]. split; [|split; [|exact H]].
    + rewrite terminals_app, Hu1. change (?a :: ?l) with ([a] ++ l). by rewrite !terminals_app, Hu2.
    + apply rejected; [done|]. apply Forall_app; split; [done|]. by constructor.
Qed.

Lemma retried_requests id rq attempt outs last :
  terminal client id rq = true ->
  terminals client id (map wire_call (retry_trace (retry client) rq attempt (outs ++ [last]))) =
  replicate (S (length outs)) rq.
Proof.
  intros Hrq. assert (forall o t, terminals client id (map wire_call (MkCall (HttpSend rq) o :: t)) =
    rq :: terminals client id (map wire_call t)) as Hsend.
  { intros o t. unfold terminals. cbn. by rewrite Hrq. }
  revert attempt. induction outs as [|o outs IH]; intros attempt; [apply Hsend|].
  change ((o :: outs) ++ [last]) with (o :: (outs ++ [last])). destruct (outs ++ [last]) as [|o' rest] eqn:E; [by destruct outs|].
  rewrite retry_trace_cons, Hsend. cbn [length replicate]. f_equal. exact (IH (attempt + 1)%N).
Qed.
Lemma terminal_request_terminal c result : terminal client (cmd_id c) (terminal_request client c result) = true.
Proof.
  unfold terminal. destruct result; cbn; [by rewrite bool_decide_eq_true_2|].
  rewrite (bool_decide_eq_true_2 (_ = action_url client (cmd_id c) "fail")); [apply orb_true_r|done].
Qed.

(** A completion that is sent reports the result of the execution. *)
Lemma process_completed c execution tr r call rq :
  only (unfinal client (cmd_id c)) execution -> runs (process (Op := AgentOp) cfg c execution) tr r ->
  call ∈ tr -> request_of _ (call_op call) = Some rq -> rq_url rq = action_url client (cmd_id c) "complete" ->
  exists out, rq = terminal_request client c (Ok out) /\
    (put_off out tr \/ exists t, runs execution t (Ok out) /\ within aside t tr).
Proof.
  intros Hex H Hcall Hrq Hurl.
  assert (rq ∈ terminals client (cmd_id c) tr) as Hin.
  { eapply terminals_elem; [done|done|]. unfold terminal. by rewrite bool_decide_eq_true_2. }
  apply agent_process_runs in H as [(Hnone & _)|(pre & post & result & -> & Hpre & Hout & Hend)];
    [by rewrite Hnone in Hin; apply not_elem_of_nil in Hin| |done].
  apply agent_finish_runs in Hend as (outs & last & -> & _).
  rewrite terminals_app, Hpre, retried_requests in Hin by apply terminal_request_terminal.
  apply elem_of_replicate in Hin as [-> _].
  destruct result as [out|e]; [|by apply action_url_inj in Hurl]. exists out. split; [done|].
  inversion Hout as [|timeout bounds result result' t0 t1 t2 flushed Hpolicy H0 H1 H2]; subst.
  apply prefer_commit_completed in H2 as [[Hd Hc]|[-> ->]].
  - left. split; [done|]. rewrite !elem_of_app. auto.
  - apply bounded_completed in H1 as [[Hd Hc]|(t & Ht & Hw)].
    + left. split; [done|]. rewrite !elem_of_app. auto.
    + right. exists t. split; [done|]. rewrite <- app_assoc. apply within_behind; [by apply early_aside|].
      rewrite <- (app_nil_r t), <- app_assoc. apply within_app; [done|]. apply within_none. cbn [app].
      constructor; [done|]. apply Forall_forall. intros ? (? & -> & _)%list_elem_of_fmap. done.
Qed.
End Processor.

(** ** The commands of a node *)

Section Commands.
Context {codec : PayloadCodec} {wire : WireCodec} (client : ApiClient).
Context (parsers : Parsers) (config : DockerRuntimeConfig) (reporter : Reporter).
Abbreviation node := (with_runner parsers config).
Abbreviation on_host := (on_node client reporter).
#[local] Instance runtime : RuntimeExecutor AgentOp := agent_runtime client parsers config reporter.
#[local] Instance node_reports : RuntimeReporter AgentOp := agent_reporter client reporter.
#[local] Instance leases : RepositoryCredentialProvider AgentOp := agent_credentials client.
#[local] Instance control : ControlPlane AgentOp := agent_control_plane client.

(** No command reports its own end. *)
#[local] Arguments agent_event : simpl never.
Lemma dispatch_unfinal c :
  rp_command_id reporter = cmd_id c -> only (unfinal client (cmd_id c)) (agent_dispatch client parsers config reporter c).
Proof.
  intros Hid.
  assert (forall e, only (unfinal client (cmd_id c)) (agent_event client reporter e)) as Hevent.
  { intros e. apply unfinal_network, only_with_error, only_and_then; [|done]. rewrite Hid. apply event_unfinal. }
  assert (forall X (o : HostOp X), only (unfinal client (cmd_id c)) (on_host X o)) as Hnode
    by (intros X o; destruct o; first [apply Hevent|by split]).
  assert (forall access, only (unfinal client (cmd_id c)) (credential (Op := AgentOp) (cmd_id c) access)) as Hcredential.
  { intros access. apply unfinal_network, credential_sends. by apply other_action. }
  unfold agent_dispatch, dispatch, handle_inspect, handle_deploy, handle_lifecycle, handle_reconcile, handle_cleanup,
    handle_drain, handle_resume, set_lifecycle.
  only_calls; first [done|apply only_interp, Hnode|apply Hcredential|apply Hevent|by split].
Qed.

(** An operation of the node that ended with a result, and whose calls are what
    the agent did to the host. *)
Definition carried_out (p : Async HostOp RuntimeExecutionError CommandOutput) (out : CommandOutput)
  (tr : list (Call AgentOp)) : Prop :=
  exists hs u, runs p hs (Ok out) /\ expands on_host hs u /\ within aside u tr.

Lemma carried_out_interp p tr out : runs (interp on_host p) tr (Ok out) -> carried_out p out tr.
Proof. intros (hs & Hr & He)%runs_interp. exists hs, tr. split_and!; [done|done|apply within_refl]. Qed.
Lemma carried_out_within p out t tr : carried_out p out t -> within aside t tr -> carried_out p out tr.
Proof. intros (hs & u & Hr & He & Hw) Hwt. exists hs, u. split_and!; [done|done|by eapply within_trans]. Qed.
Lemma carried_out_behind p out t0 tr :
  Forall (fun c => aside _ (call_op c) = true) t0 -> carried_out p out tr -> carried_out p out (t0 ++ tr).
Proof. intros H0 H. eapply carried_out_within; [exact H|]. apply within_behind; [done|apply within_refl]. Qed.

(** What the control plane leased for a command. *)
Definition leased (id : Uuid) (access : RepositoryAccess) (lease : option RepositoryCredential) : Prop :=
  exists hs, runs (api_credential (Op := HttpOp) client id access) hs (Ok lease).

(** What a command asks of its node. *)
Definition node_operation (c : AgentCommand) (p : Async HostOp RuntimeExecutionError CommandOutput) : Prop :=
  match cmd_command_type c with
  | DeployProject => exists project deployment payload lease,
      cmd_project_id c = Some project /\ cmd_deployment_id c = Some deployment /\
      deploy_payload (cmd_payload c) = Ok payload /\
      leased (cmd_id c) (dp_repository_access payload) lease /\
      p = deploy_project (RuntimeExecutor := node)
            {| dq_command_id := cmd_id c; dq_project_id := project; dq_deployment_id := deployment;
               dq_payload := payload; dq_credential := lease |}
  | InspectProject => exists payload lease, inspect_payload (cmd_payload c) = Ok payload /\
      leased (cmd_id c) (ip_repository_access payload) lease /\
      p = inspect_project (RuntimeExecutor := node)
            {| iq_command_id := cmd_id c; iq_payload := payload; iq_credential := lease |}
  | RestartProject => exists q, lifecycle_request c = Ok q /\ p = node_command parsers config (Restart q)
  | StopProject => exists q, lifecycle_request c = Ok q /\ p = node_command parsers config (Stop q)
  | SleepProject => exists q, lifecycle_request c = Ok q /\ p = node_command parsers config (Sleep q)
  | WakeProject => exists q, lifecycle_request c = Ok q /\ p = node_command parsers config (Wake q)
  | HealthCheck => exists q, lifecycle_request c = Ok q /\ p = node_command parsers config (Probe q)
  | RefreshRoute => exists q, lifecycle_request c = Ok q /\ p = node_command parsers config (Refresh q)
  | ReconcileWorkload => exists q payload, lifecycle_request c = Ok q /\
      reconcile_workload_payload (cmd_payload c) = Ok payload /\
      p = node_command parsers config (Reconcile
            {| rq_project_id := lq_project_id q; rq_deployment_id := lq_deployment_id q;
               rq_desired_state := rw_desired_state payload; rq_actions := rw_actions payload;
               rq_reporter_factory := true |})
  | CleanupRuntime => exists payload, cleanup_runtime_payload (cmd_payload c) = Ok payload /\
      cr_approved payload = true /\ cr_targets payload <> [] /\
      p = cleanup_runtime (RuntimeExecutor := node)
            {| cq_command_id := cmd_id c; cq_approved := true; cq_targets := cr_targets payload |}
  | DrainNode | ResumeNode => False
  end.

Ltac answered H x Hx :=
  apply runs_and_then in H as [(? & _ & [=])|(? & ? & x & -> & [-> Hx] & H)]; cbn [app] in *.
(** A decoded value. *)
Lemma decoded {A} prefix (r : Result string A) x : Ok x = payload_error prefix r -> r = Ok x.
Proof. unfold payload_error. destruct r; cbn; by intros [= ->]. Qed.
Lemma required {A} (o : option A) message x : Ok x = require o message -> o = Some x.
Proof. unfold require, ok_or. destruct o; by intros [= ->]. Qed.

Lemma lifecycle_carried_out c operation (command : WorkloadLifecycleRequest -> WorkloadCommand) tr out :
  (forall q, operation q = interp on_host (node_command parsers config (command q))) ->
  runs (handle_lifecycle (Op := AgentOp) c operation) tr (Ok out) ->
  exists q, lifecycle_request c = Ok q /\ carried_out (node_command parsers config (command q)) out tr.
Proof.
  intros Hop H. unfold handle_lifecycle in H. answered H q Hq. exists q. split; [done|].
  rewrite Hop in H. by apply carried_out_interp.
Qed.

Lemma dispatch_carried_out c tr out :
  cmd_command_type c <> DrainNode -> cmd_command_type c <> ResumeNode ->
  runs (agent_dispatch client parsers config reporter c) tr (Ok out) ->
  exists p, node_operation c p /\ carried_out p out tr.
Proof.
  unfold agent_dispatch, dispatch, node_operation. destruct (cmd_command_type c); intros Hd Hr H; try done;
    try (eapply (lifecycle_carried_out c _ Restart) in H as (q & Hq & H); [eauto|reflexivity]);
    try (eapply (lifecycle_carried_out c _ Stop) in H as (q & Hq & H); [eauto|reflexivity]);
    try (eapply (lifecycle_carried_out c _ Sleep) in H as (q & Hq & H); [eauto|reflexivity]);
    try (eapply (lifecycle_carried_out c _ Wake) in H as (q & Hq & H); [eauto|reflexivity]);
    try (eapply (lifecycle_carried_out c _ Probe) in H as (q & Hq & H); [eauto|reflexivity]);
    try (eapply (lifecycle_carried_out c _ Refresh) in H as (q & Hq & H); [eauto|reflexivity]).
  - unfold handle_inspect in H. answered H payload Hp. apply decoded in Hp.
    apply runs_and_then in H as [(? & _ & [=])|(t1 & t2 & lease & -> & Hlease & H)].
    pose proof (network_aside _ _ _ Hlease) as Haside. apply runs_interp in Hlease as (hs & Hlease & _).
    eexists. split; [exists payload, lease; split; [exact Hp|]; split; [by exists hs|done]|].
    apply carried_out_behind; [exact Haside|].
    by apply carried_out_interp.
  - unfold handle_deploy in H. answered H project Hproject. apply required in Hproject.
    answered H deployment Hdeployment. apply required in Hdeployment. answered H payload Hp. apply decoded in Hp.
    apply runs_and_then in H as [(? & _ & [=])|(t1 & t2 & lease & -> & Hlease & H)].
    pose proof (network_aside _ _ _ Hlease) as Haside. apply runs_interp in Hlease as (hs & Hlease & _).
    eexists. split; [exists project, deployment, payload, lease; do 3 (split; [done|]); split; [by exists hs|done]|].
    apply carried_out_behind; [exact Haside|]. by apply carried_out_interp.
  - unfold handle_reconcile in H. answered H q Hq. answered H payload Hp. apply decoded in Hp.
    eexists. split; [by exists q, payload|]. by apply carried_out_interp.
  - unfold handle_cleanup in H. answered H payload Hp. apply decoded in Hp.
    destruct (cr_approved payload) eqn:Happroved; cbn [negb] in H; [|by destruct H].
    destruct (cr_targets payload) as [|target targets] eqn:Htargets; [by destruct H|].
    eexists. split; [exists payload; rewrite Happroved, Htargets; split; [exact Hp|]; by split_and!|].
    by apply carried_out_interp.
Qed.

(** Leaving a silent call of the host out leaves calls aside out. *)
Lemma expands_within t hs u :
  within silent t hs -> expands on_host hs u -> exists u', expands on_host t u' /\ within aside u' u.
Proof.
  intros H. revert u. induction H as [|c t hs _ IH|[X o x] t hs Hc _ IH]; intros u He.
  - exists u. split; [done|apply within_refl].
  - inversion He as [|c0 cs t1 t2 H1 H2]; subst. destruct (IH _ H2) as (u' & Hu & Hw).
    exists (t1 ++ u'). split; [by constructor|]. apply within_app; [apply within_refl|done].
  - inversion He as [|c0 cs t1 t2 H1 H2]; subst. destruct (IH _ H2) as (u' & Hu & Hw).
    exists u'. split; [done|]. apply within_behind; [|done]. cbn [call_op call_answer] in H1, Hc.
    destruct o; try done; cbn in H1; destruct H1 as (y & ? & -> & -> & _); by repeat constructor.
Qed.

(** A deployment on the host: its milestones, in order and each reached, and
    that nothing but its pipeline was done to the host. *)
Definition deployed (q : DeployProjectRequest) (tr : list (Call AgentOp)) : Prop :=
  exists d source cleaned cs t u,
    deployment_source (pa_url parsers) (dq_payload q) (dq_credential q) = Ok source /\
    (de_command_id d = dq_command_id q /\ de_project_id d = dq_project_id q /\
     de_deployment_id d = dq_deployment_id q /\ de_payload d = dq_payload q) /\
    expands (service_call parsers config) cs t /\ expands on_host t u /\ within aside u tr /\
    milestones cs =
      [(CheckedOut (dq_command_id q) source, true); (Built (build_request d), true); (Started (run_request d), true);
       (FoundReady (de_container d), true); (Routed (deployment_route d), true); (Committed, true);
       (Swept (de_project_id d) (de_container d), true); (CleanedUp (de_workspace d), cleaned)].

Lemma carried_out_deployed q out tr : carried_out (deploy_project (RuntimeExecutor := node) q) out tr -> deployed q tr.
Proof.
  intros (hs & u & Hr & He & Hw).
  destruct (node_deployment_succeeds parsers config q hs out Hr)
    as (d & source & cleaned & cs & t & Hsource & Hids & Hexp & Hwt & Hm).
  destruct (expands_within _ _ _ Hwt He) as (u' & Hu & Hwu).
  exists d, source, cleaned, cs, t, u'. split; [done|]. split; [done|]. split; [done|]. split; [done|].
  split; [by eapply within_trans|done].
Qed.

End Commands.

Section Ends.
Context {codec : PayloadCodec} {wire : WireCodec} (client : ApiClient).
Context (parsers : Parsers) (config : DockerRuntimeConfig) (cfg : ProcessorConfig).
Abbreviation reporter c := (command_reporter cfg c).

(** C4. A command that is reported completed was carried out on this node.
    Take any run of the processor for a claimed command, over the network and
    the assembled node, with any timers, cancellations and failures on the way.
    If a request leaves for the completion of a command other than drain and
    resume, then it carries the result of that command, and either the
    deployment had committed and the result says that its finalization was put
    off, or the node's operation for that command, with the ids and the decoded
    payload of the command and the credential leased for it, ended with exactly
    this result, and everything the agent did to the host is that operation.
    For a deployment that is the pipeline: the checkout, the build, the start,
    the wait for readiness, the activation of the route, the commitment and the
    removal of the previous containers, each of them successful, and behind them
    the removal of the workspace, which was called and may have failed, since its
    failure is only warned of. *)
Theorem completed_command_was_carried_out c tr r call rq :
  cmd_command_type c <> DrainNode -> cmd_command_type c <> ResumeNode ->
  runs (agent_process client parsers config cfg c) tr r ->
  call ∈ tr -> request_of _ (call_op call) = Some rq -> rq_url rq = action_url client (cmd_id c) "complete" ->
  exists out, rq = terminal_request client c (Ok out) /\
    (put_off out tr \/
     exists p, node_operation client parsers config c p /\ carried_out client (reporter c) p out tr /\
       (cmd_command_type c = DeployProject -> exists q, deployed client parsers config (reporter c) q tr /\
          cmd_project_id c = Some (dq_project_id q) /\ cmd_deployment_id c = Some (dq_deployment_id q) /\
          dq_command_id q = cmd_id c /\ deploy_payload (cmd_payload c) = Ok (dq_payload q))).
Proof.
  intros Hd Hres H Hin Hrq Hurl.
  destruct (process_completed client cfg (reporter c) c _ tr r call rq
              (dispatch_unfinal client parsers config (reporter c) c eq_refl) H Hin Hrq Hurl)
    as (out & -> & [Hoff|(t & Ht & Hw)]); exists out; (split; [done|]); [by left|right].
  destruct (dispatch_carried_out client parsers config (reporter c) c t out Hd Hres Ht)
    as (p & Hp & Hout%(carried_out_within _ _ _ _ _ tr)); [|done].
  exists p. split; [done|]. split; [done|]. intros Htype. unfold node_operation in Hp. rewrite Htype in Hp.
  destruct Hp as (project & deployment & payload & lease & Hproject & Hdeployment & Hpayload & _ & ->).
  eexists. split; [by apply (carried_out_deployed client parsers config (reporter c) _ out)|]. by cbn.
Qed.

(** C3. A claimed command is ended by one request.  In every run of the
    processor on the network, with any answers, timers and failures: either
    nothing that ends the command is sent, and then the processor failed or the
    control plane answered its claim with 409; or all that is sent to the
    command's end is one request, the completion with the result or the failure
    with its sanitised error, behind everything else the command did, its claim,
    its events and its lease included.  It is repeated, with the delays of the
    retry policy between, only behind outcomes that may pass and no more often
    than the policy allows, and given up only when they are used up.  The
    processor succeeds exactly when it sent a completion that the control plane
    took, or had taken before. *)
Theorem command_ends_with_one_request c tr r :
  runs (agent_process client parsers config cfg c) tr r ->
  (terminals client (cmd_id c) tr = [] /\ (r = Ok () -> unclaimable client c tr)) \/
  exists pre result outs last,
    let rq := terminal_request client c result in
    tr = pre ++ map wire_call (retry_trace (retry client) rq 0 (outs ++ [last])) /\
    terminals client (cmd_id c) tr = replicate (S (length outs)) rq /\
    (N.of_nat (length outs) < attempts client)%N /\ Forall (fun o => retryable o = true) outs /\
    (retryable last = true -> N.of_nat (S (length outs)) = attempts client) /\
    (r = Ok () <-> is_ok result = true /\
       exists response, last = Ok response /\ terminal_outcome Succeeded response = Ok ()).
Proof.
  pose proof (attempts_pos client) as Hpos.
  intros H. destruct (agent_process_runs client cfg (reporter c) c _ tr r (dispatch_unfinal client parsers config (reporter c) c eq_refl) H)
    as [(Hnone & Hr)|(pre & post & result & -> & Hpre & _ & Hend)]; [by left|right].
  apply agent_finish_runs in Hend as (outs & last & -> & Hlen & Hall & Hlast & Hr).
  exists pre, result, outs, last. split; [done|].
  split; [by rewrite terminals_app, Hpre, retried_requests by apply terminal_request_terminal|].
  split; [lia|]. split; [done|]. split; [intros Hl; destruct Hlast as [Hn|Hn]; [congruence|lia]|].
  rewrite Hr. destruct result as [out|e]; cbn.
  - split; [intros (? & response & [= <-] & ? & ?); eauto|intros (_ & response & ? & ?); eauto].
  - by split; [intros (? & ? & [=] & _)|intros [[=] _]].
Qed.
End Ends.


(** ** Failures *)

Definition marks X (o : AgentOp X) : bool := match o with AgCore (RpMarkCommitted _) => true | _ => false end.
(** The reporter's cell holds what was stored in it: a deployment is said to be
    committed once it was marked, and not before. *)
Definition remembers_call (marked : bool) X (o : AgentOp X) (x : X) : Prop :=
  match o in AgentOp T return T -> Prop with
  | AgCore o => fun x =>
      match o in CoreOp T return T -> Prop with
      | RpCommitted => fun answer => answer = marked
      | _ => fun _ => True
      end x
  | AgHost _ | AgHttp _ => fun _ => True
  end x.
Fixpoint remembers (marked : bool) (tr : list (Call AgentOp)) : Prop :=
  match tr with
  | [] => True
  | c :: rest => remembers_call marked _ (call_op c) (call_answer c) /\ remembers (marked || marks _ (call_op c)) rest
  end.
Definition marked_in (tr : list (Call AgentOp)) : bool := existsb (fun c => marks _ (call_op c)) tr.

Lemma remembers_app b t1 t2 : remembers b (t1 ++ t2) <-> remembers b t1 /\ remembers (b || marked_in t1) t2.
Proof.
  revert b. induction t1 as [|c t1 IH]; intros b; cbn; [rewrite orb_false_r; tauto|].
  rewrite IH, orb_assoc. tauto.
Qed.
Lemma remembered_no b t1 t2 : remembers b (t1 ++ MkCall (AgCore RpCommitted) false :: t2) -> marked_in t1 = false.
Proof. intros [_ [H _]]%remembers_app. cbn in H. by destruct b, (marked_in t1). Qed.

Lemma unmarked tr : Forall (fun c => marks _ (call_op c) = false) tr -> marked_in tr = false.
Proof. unfold marked_in. induction 1 as [|c tr Hc _ IH]; cbn; [done|]. by rewrite Hc. Qed.
Lemma early_unmarked tr : all_early tr -> marked_in tr = false.
Proof. intros H. apply unmarked. eapply Forall_impl; [exact H|]. intros [X o x]. by destruct o as [? []| |]. Qed.

(** An outcome that is a failure leaves no mark behind. *)
Lemma failed_outcome_unmarked {codec : PayloadCodec} {wire : WireCodec} client cfg reporter c execution pre e :
  outcome client cfg reporter c execution pre (Err e) -> remembers false pre -> marked_in pre = false.
Proof.
  intros Hout Hmem. inversion Hout as [e' Hpolicy He|timeout bounds result result' t0 t1 t2 flushed Hpolicy H0 H1 H2 Heq]; subst;
    [by apply early_unmarked|].
  destruct result as [o|e0]; [by destruct H2 as [_ [=]]|]. destruct H2 as (committed & u & -> & H2). cbn [bind] in H2.
  destruct committed; [by destruct H2 as (o & ? & -> & -> & [=])|]. destruct H2 as [-> _].
  cbn [app] in Hmem. rewrite app_assoc in Hmem. apply remembered_no in Hmem.
  unfold marked_in in *. rewrite !existsb_app in *. apply orb_false_iff in Hmem as [-> ->]. done.
Qed.
Lemma wire_unmarked cs : marked_in (map wire_call cs) = false.
Proof. apply unmarked, Forall_forall. by intros ? (? & -> & _)%list_elem_of_fmap. Qed.

(** C6. A command that is reported failed was never committed.  In every run
    of the processor on the node and its network, with any timers,
    cancellations and failures, in which the reporter remembers whether the
    deployment was marked: if a request leaves that reports the command as
    failed, the deployment was not marked committed, neither before the request
    nor behind it. *)
Theorem failed_command_never_committed {codec : PayloadCodec} {wire : WireCodec} client cfg parsers config c tr r call rq :
  runs (agent_process client parsers config cfg c) tr r -> remembers false tr ->
  call ∈ tr -> request_of _ (call_op call) = Some rq -> rq_url rq = action_url client (cmd_id c) "fail" ->
  marked_in tr = false.
Proof.
  intros H Hmem Hcall Hrq Hurl.
  assert (rq ∈ terminals client (cmd_id c) tr) as Hin.
  { eapply terminals_elem; [done|done|]. unfold terminal. rewrite (bool_decide_eq_true_2 _ Hurl). apply orb_true_r. }
  destruct (agent_process_runs client cfg (command_reporter cfg c) c _ tr r
    (dispatch_unfinal client parsers config (command_reporter cfg c) c eq_refl) H)
    as [(Hnone & _)|(pre & post & result & -> & Hpre & Hout & Hend)]; [by rewrite Hnone in Hin; apply not_elem_of_nil in Hin|].
  apply agent_finish_runs in Hend as (outs & last & -> & _).
  rewrite terminals_app, Hpre, retried_requests in Hin by apply terminal_request_terminal.
  apply elem_of_replicate in Hin as [-> _].
  destruct result as [out|e]; [by apply action_url_inj in Hurl|].
  apply remembers_app in Hmem as [Hmem _]. unfold marked_in. rewrite existsb_app. apply orb_false_iff. split.
  - by eapply failed_outcome_unmarked.
  - apply wire_unmarked.
Qed.

(** ** Witnesses *)

Definition agent_codec : PayloadCodec := {|
  deploy_payload _ := Ok sample_payload;
  inspect_payload _ := Err "missing field";
  reconcile_workload_payload _ := Err "missing field";
  cleanup_runtime_payload _ := Err "missing field"
|}.
(** A network that answers the first terminal request with 503 and everything
    else with 204. *)
Definition network_answer {X} (past : list (Call AgentOp)) (o : HttpOp X) : X :=
  match o in HttpOp T return T with
  | HttpSend rq =>
      let ends := terminal sample_client project_a rq in
      Ok {| rs_status := if ends && bool_decide (terminals sample_client project_a past = []) then 503 else 204;
            rs_body := Ok EmptyString |}
  | HttpSleep _ => tt
  | NewUuid => MkUuid "c0ffee00-0000-4000-8000-000000000000"
  end.
Definition agent_env (core : Env CoreOp) (host : Env HostOp) : Env AgentOp := fun past X o =>
  match o in AgentOp T return T with
  | AgCore o => core [] _ o
  | AgHost o => host [] _ o
  | AgHttp o => network_answer past o
  end.
Definition deploy_command : AgentCommand :=
  {| cmd_id := project_a; cmd_command_type := DeployProject; cmd_status := Pending;
     cmd_project_id := Some project_a; cmd_deployment_id := Some deployment_a; cmd_payload := Null |}.
Definition agent_run (host : Env HostOp) :=
  run_with (agent_env quiet_env host)
    (agent_process (codec := agent_codec) (wire := sample_codec) sample_client sample_parsers default_docker_config
       sample_config deploy_command).
Definition completed_run := agent_run (printing_host node_output).
Definition last_call (tr : list (Call AgentOp)) : Call AgentOp := List.last tr (MkCall (AgCore CancelToken) tt).
Lemma last_call_in tr : negb (bool_decide (length tr = 0)) = true -> last_call tr ∈ tr.
Proof.
  intros Hne. apply list_elem_of_In. unfold last_call. destruct tr as [|c tr]; [done|].
  assert (c :: tr <> []) as Hc by done. apply (app_removelast_last (MkCall (AgCore CancelToken) tt)) in Hc.
  rewrite Hc at 2. apply in_or_app. right. by left.
Qed.
Definition last_request (tr : list (Call AgentOp)) : HttpRequest :=
  default (claim_request sample_client project_a) (request_of _ (call_op (last_call tr))).

Lemma completed_command_witness : exists out,
  last_request completed_run.1 = terminal_request sample_client deploy_command (Ok out) /\
  (put_off out completed_run.1 \/ exists q, deployed (wire := sample_codec) sample_client sample_parsers default_docker_config
     (command_reporter (codec := agent_codec) sample_config deploy_command) q completed_run.1).
Proof.
  destruct (completed_command_was_carried_out (codec := agent_codec) (wire := sample_codec) sample_client sample_parsers
    default_docker_config sample_config deploy_command completed_run.1 completed_run.2 (last_call completed_run.1)
    (last_request completed_run.1)) as (out & Hout & H).
  - discriminate.
  - discriminate.
  - exact (runs_run_from _ [] _).
  - apply last_call_in. vm_compute. reflexivity.
  - vm_compute. reflexivity.
  - vm_compute. reflexivity.
  - exists out. split; [exact Hout|]. destruct H as [H|(p & _ & _ & H)]; [left; exact H|right].
    destruct (H eq_refl) as (q & Hq & _). exists q. exact Hq.
Defined.

Lemma one_request_witness :
  completed_run.2 = Ok () /\ length (terminals sample_client project_a completed_run.1) = 2 /\
  exists result, terminals sample_client project_a completed_run.1 =
    replicate 2 (terminal_request sample_client deploy_command result) /\ is_ok result = true.
Proof.
  assert (completed_run.2 = Ok ()) as Hok by (vm_compute; reflexivity).
  assert (length (terminals sample_client project_a completed_run.1) = 2) as Hlen by (vm_compute; reflexivity).
  split; [exact Hok|]. split; [exact Hlen|].
  destruct (command_ends_with_one_request (codec := agent_codec) (wire := sample_codec) sample_client sample_parsers
    default_docker_config sample_config deploy_command completed_run.1 completed_run.2)
    as [[Hnone _]|(pre & result & outs & last & _ & Hreq & _ & _ & _ & Hr)].
  - exact (runs_run_from _ [] _).
  - change (cmd_id deploy_command) with project_a in Hnone. rewrite Hnone in Hlen. discriminate Hlen.
  - change (cmd_id deploy_command) with project_a in Hreq. exists result. rewrite Hreq in Hlen |- *.
    rewrite length_replicate in Hlen. rewrite Hlen. split; [reflexivity|]. exact (proj1 (proj1 Hr Hok)).
Defined.

(** Nothing on the node prints anything: its disk cannot be measured. *)
Definition failed_run := agent_run (printing_host (fun _ => EmptyString)).
Lemma failed_command_witness :
  rq_url (last_request failed_run.1) = action_url sample_client project_a "fail" /\ marked_in failed_run.1 = false.
Proof.
  split; [vm_compute; reflexivity|].
  refine (failed_command_never_committed (codec := agent_codec) (wire := sample_codec) sample_client sample_config
    sample_parsers default_docker_config deploy_command failed_run.1 failed_run.2 (last_call failed_run.1)
    (last_request failed_run.1) (runs_run_from _ [] _) _ _ _ _).
  - vm_compute. repeat split.
  - apply last_call_in. vm_compute. reflexivity.
  - vm_compute. reflexivity.
  - vm_compute. reflexivity.
Defined.
