(* ===== verification/AgentTasksFacts.v ===== *)
(** Theorems about a command beside the tasks of its reporter: the lines that
    were accepted before its last flush are settled when its end is sent, and a
    command that is reported failed finds the commit cell empty. *)
From S2P Require Import Prelude Text Protocol Async Interp Monitor Ports NodeState ApiClient ApiClientFacts Dispatcher CoreOps Redactor Reporting ReportingFacts ReporterTasks ReporterTasksFacts Processor ProcessorFacts RuntimeError Limits Config Process Routing Executor ExecutorFacts ExecutorOps LifecycleFacts PayloadFacts RoutingFacts HostOps Node NodeFacts Agent AgentTasks AgentFacts.

#[local] Open Scope async_scope.

Definition calls {A} (s : RunningCommand A) : list (Call AgentOp) := map fst (sy_past s).
Definition is_flush X (o : AgentOp X) : bool := match o with AgCore o => match o with RpFlush => true | _ => false end | _ => false end.
Definition flush_answer (c : Call AgentOp) : option (Result RuntimeExecutionError ()) :=
  match call_op c in AgentOp T return T -> option (Result RuntimeExecutionError ()) with
  | AgCore o => match o in CoreOp T return T -> option (Result RuntimeExecutionError ()) with
                | RpFlush => fun answer => Some answer
                | _ => fun _ => None
                end
  | AgHost _ | AgHttp _ => fun _ => None
  end (call_answer c).

Lemma snoc_split {B} (xs : list B) x l1 y l2 : xs ++ [x] = l1 ++ y :: l2 ->
  (xs = l1 /\ x = y) \/ exists l2', xs = l1 ++ y :: l2'.
Proof.
  destruct l2 as [|z l2 _] using rev_ind; [by intros [-> [= ->]]%app_inj_tail; left|].
  rewrite app_comm_cons, app_assoc. intros [-> _]%app_inj_tail. right. by exists l2.
Qed.

Section System.
Context (id : Uuid) (bounds : LogBounds) (interval : Duration) {A : Type} (program : Prog AgentOp A).
Abbreviation r := (with_flush_interval id bounds interval).

(** What a flush that the command awaited left behind. *)
Definition flush_kept (earlier : list (Call AgentOp * list DeploymentLog)) (answer : Result RuntimeExecutionError ())
    (st : ReporterState) : Prop :=
  if is_ok answer then Forall (fun e => lines_settled e.2 st) earlier else halted st.

Record system_ok (s : RunningCommand A) : Prop := {
  sk_pool : pool_ok r (sy_pool s);
  sk_lines : Forall (fun e => e.2 `prefix_of` rs_accepted (queue s)) (sy_past s);
  sk_flushes : forall earlier e later answer,
    sy_past s = earlier ++ e :: later -> flush_answer e.1 = Some answer -> flush_kept earlier answer (queue s);
  sk_waits : forall i, sy_waits s = Some i ->
    match sy_main s with
    | Vis o _ => is_flush _ o = true ->
        exists lines, Forall (fun e => e.2 `prefix_of` lines) (sy_past s) /\ flushes lines (sy_pool s) i
    | Ret _ => True
    end;
  sk_run : forall tr a, runs (sy_main s) tr a -> runs program (calls s ++ tr) a;
  sk_cell : remembers false (calls s) /\ cm_committed (sy_cell s) = marked_in (calls s)
}.

Lemma flush_kept_moves s s' earlier answer :
  queue_moves r s s' -> flush_kept earlier answer (sh_state s) -> flush_kept earlier answer (sh_state s').
Proof.
  intros (_ & Hs & Hh)%moves_keep. unfold flush_kept. destruct (is_ok answer); [|done].
  intros H. eapply Forall_impl; [exact H|]. intros e. by apply Hs.
Qed.

Lemma cell_remembers cell X (o : AgentOp X) x :
  cell_answers cell X o x -> remembers_call (cm_committed cell) X o x.
Proof. by destruct o as [? []| |]. Qed.
Lemma cell_marks cell X (o : AgentOp X) : cm_committed (cell_after cell X o) = cm_committed cell || marks X o.
Proof. destruct o as [? []| |]; cbn; by rewrite ?orb_false_r, ?orb_true_r. Qed.

(** A call returns. *)
Lemma returned_ok s X (o : AgentOp X) k x :
  system_ok s -> sy_main s = Vis o k -> cell_answers (sy_cell s) X o x ->
  (forall answer, flush_answer (MkCall o x) = Some answer -> flush_kept (sy_past s) answer (queue s)) ->
  system_ok (returned s X o x (k x)).
Proof.
  intros [Hpool Hlines Hflushes Hwaits Hrun [Hmem Hcell]] Hmain Hx Hflush.
  assert (calls (returned s X o x (k x)) = calls s ++ [MkCall o x]) as Hcalls by (unfold calls; cbn; by rewrite map_app).
  split; rewrite ?Hcalls; cbn; try done.
  - apply Forall_app. split; [done|]. by apply Forall_singleton.
  - intros earlier e later answer [[<- <-]|[later' Hpast]]%snoc_split; [apply Hflush|by eapply Hflushes].
  - intros tr a H. rewrite <- app_assoc. apply Hrun. rewrite Hmain. by exists x, tr.
  - split.
    + apply remembers_app. split; [done|]. cbn. rewrite <- Hcell. by split; [apply cell_remembers|].
    + rewrite cell_marks, Hcell. unfold marked_in. rewrite existsb_app. cbn. by rewrite orb_false_r.
Qed.

Lemma system_step_ok s s' : system_ok s -> system_step r s s' -> system_ok s'.
Proof.
  intros Hok Hstep. pose proof Hok as [Hpool Hlines Hflushes Hwaits Hrun Hcell].
  destruct Hstep as [s p Hp Hin|s X o k x Hmain Hcall Hx|s X o k fuel t answer i Hmain Hnone Hcall Hi
                    |s X o k t answer i result Hmain Hw Hcall Hi].
  - pose proof (pool_step_state _ _ _ Hpool Hp) as Hmoves. pose proof (moves_keep _ _ _ Hmoves) as (Hacc & _).
    split; cbn; try done.
    + by eapply pool_step_ok.
    + eapply Forall_impl; [exact Hlines|]. intros e He. etrans; [exact He|exact Hacc].
    + intros earlier e later answer Hpast Ha. eapply flush_kept_moves; [exact Hmoves|by eapply Hflushes].
    + intros i Hi. specialize (Hwaits i Hi). destruct (sy_main s) as [|X o k]; [done|].
      intros Ho. destruct (Hwaits Ho) as (lines & Hl & Hf).
      exists lines. split; [done|]. eapply flushes_step; [exact Hpool|exact Hp|by apply Hin|done].
  - apply returned_ok; [done..|]. intros answer Ha. by destruct o as [? []| |].
  - split; cbn; try done.
    + eapply pool_step_ok; [exact Hpool|]. apply pool_start; [done|].
      destruct o as [? []| |]; try discriminate Hcall; injection Hcall as <- _; constructor.
    + intros ? [= <-]. rewrite Hmain. intros Ho. exists (rs_accepted (queue s)). split; [done|].
      destruct o as [? []| |]; try discriminate Ho. injection Hcall as <- _.
      refine (flush_starts (Build_Pool _ _) i fuel _). by cbn; rewrite lookup_insert; case_decide.
  - apply returned_ok; [done..| |].
    + by destruct o as [? []| |].
    + intros a Ha. destruct o as [? []| |]; try discriminate Ha. injection Hcall as _ <-. injection Ha as <-.
      specialize (Hwaits i Hw). rewrite Hmain in Hwaits.
      destruct (Hwaits eq_refl) as (lines & Hl & Hf). pose proof (flush_ended _ _ _ _ Hf Hi) as He.
      unfold flush_kept. destruct (is_ok result); [|done].
      eapply Forall_impl; [exact Hl|]. intros e Hle. eapply settled_less; [exact Hle|exact He].
Qed.

Lemma system_reaches_ok s : system_reaches r program s -> system_ok s.
Proof.
  induction 1 as [|s s' _ IH Hstep]; [|by eapply system_step_ok].
  split; cbn; try done.
  - apply pool_reaches_ok, pool_reach_init.
  - by intros [].
Qed.
End System.

(** ** The end of a command *)

Section End.
Context {codec : PayloadCodec} {wire : WireCodec} (client : ApiClient).
Context (parsers : Parsers) (config : DockerRuntimeConfig) (cfg : ProcessorConfig).

(** Some environment ends every program. *)
Lemma ends {A} (p : Prog AgentOp A) : exists tr a, runs p tr a.
Proof. eexists _, _. exact (runs_run_from (agent_env quiet_env (printing_host (fun _ => EmptyString))) [] p). Qed.

(** What was sent to a command's end lies behind its outcome. *)
Lemma ended_split c (calls rest : list (Call AgentOp)) r :
  runs (agent_process client parsers config cfg c) (calls ++ rest) r -> terminals client (cmd_id c) calls <> [] ->
  exists pre post cs result execution,
    calls = pre ++ post /\ post ++ rest = map wire_call cs /\ terminals client (cmd_id c) pre = [] /\
    outcome client cfg (command_reporter cfg c) c execution pre result /\
    forall rq, rq ∈ terminals client (cmd_id c) calls -> rq = terminal_request client c result.
Proof.
  intros H Hne.
  destruct (agent_process_runs client cfg (command_reporter cfg c) c _ _ r
    (dispatch_unfinal client parsers config (command_reporter cfg c) c eq_refl) H)
    as [(Hnone & _)|(pre & post & result & Hsplit & Hpre & Hout & Hend)].
  { rewrite terminals_app in Hnone. by apply app_nil in Hnone as [? _]. }
  apply agent_finish_runs in Hend as (outs & last & Hpost & _).
  assert (exists post', calls = pre ++ post' /\ post = post' ++ rest) as (post' & -> & ->).
  { apply app_eq_app in Hsplit as (l & [[-> ->]|[-> ->]]); [by exists l|].
    rewrite terminals_app in Hpre. by apply app_nil in Hpre as [? _]. }
  exists pre, post', (retry_trace (retry client) (terminal_request client c result) 0 (outs ++ [last])), result.
  eexists. split_and!; [done|done|done|exact Hout|].
  intros rq Hrq. rewrite terminals_app, Hpre in Hrq.
  assert (rq ∈ terminals client (cmd_id c) (post' ++ rest)) as Hin by (rewrite terminals_app; apply elem_of_app; by left).
  rewrite Hpost, retried_requests in Hin by apply terminal_request_terminal. by apply elem_of_replicate in Hin as [-> _].
Qed.

Lemma wire_early cs post rest : post ++ rest = map wire_call cs -> all_early post.
Proof.
  intros H. assert (all_early (post ++ rest)) as Hall; [|by apply Forall_app in Hall as [? _]].
  rewrite H. apply Forall_forall. by intros ? (? & -> & _)%list_elem_of_fmap.
Qed.

(** C7. The end of a command agrees with its reporter.  Let the processor of a
    command run on the node and its network, beside any tasks that log, flush
    and are dropped, with any timers, failures and answers of the control
    plane.  In every state in which a request that ends the command has been
    sent: the command was refused by its policy, or a flush precedes all such
    requests, behind which only requests are made, and either every line that
    the reporter had accepted by then was delivered, in a batch that was
    acknowledged unless a task was dropped that sent it, or delivery has stopped.
    And if the request reports the command as failed, then the reporter's cell
    has not seen a commit. *)
Theorem command_end_agrees_with_reporter c s :
  let id := cmd_id c in
  system_reaches (command_reporter cfg c) (agent_process client parsers config cfg c) s ->
  terminals client id (calls s) <> [] ->
  (is_err (command_policy cfg c) = true \/
   exists earlier e later answer, sy_past s = earlier ++ e :: later /\ flush_answer e.1 = Some answer /\
     terminals client id (map fst earlier) = [] /\ all_early (map fst later) /\
     flush_kept earlier answer (queue s)) /\
  (forall rq, rq ∈ terminals client id (calls s) -> rq_url rq = action_url client id "fail" ->
     cm_committed (sy_cell s) = false).
Proof.
  intros id Hreach Hne. apply system_reaches_ok in Hreach as [_ _ Hflushes _ Hrun [Hmem Hcell]].
  destruct (ends (sy_main s)) as (rest & r & Hrest). apply Hrun in Hrest.
  destruct (ended_split c _ _ _ Hrest Hne) as (pre & post & cs & result & execution & Hcalls & Hpost & Hpre & Hout & Hrq).
  pose proof (wire_early _ _ _ Hpost) as Hearly. split.
  - destruct Hout as [e Hpolicy _|timeout bounds res res' t0 t1 t2 flushed Hpolicy _ _ _ ->]; [left; by rewrite Hpolicy|right].
    unfold calls in Hcalls. rewrite !app_assoc, <- app_assoc in Hcalls.
    apply map_eq_app in Hcalls as (earlier & l & Hpast & He & Hl).
    destruct l as [|e later]; [done|]. injection Hl as Hfst <-. exists earlier, e, later, flushed.
    assert (flush_answer e.1 = Some flushed) as Ha by (by rewrite Hfst).
    split_and!; [done|done| |done|by eapply Hflushes].
    rewrite He. rewrite !app_assoc, terminals_app in Hpre. by apply app_nil in Hpre as [? _].
  - intros rq Hin Hurl. apply Hrq in Hin as ->. destruct result as [out|e]; [by apply action_url_inj in Hurl|].
    rewrite Hcell, Hcalls. rewrite Hcalls in Hmem. apply remembers_app in Hmem as [Hmem _].
    unfold marked_in. rewrite existsb_app. apply orb_false_iff. split; [by eapply failed_outcome_unmarked|].
    by apply early_unmarked.
Qed.
End End.

(** ** Witness: a schedule that runs the calls of the reporter one by one *)

Definition place (p : Pool) (s : Shared) (i : nat) (t : Task) : Pool :=
  {| po_shared := s; po_tasks := <[i := t]> (po_tasks p) |}.
Definition turn (r : Reporter) (i : nat) (p : Pool) X (o : QueueOp X) : option (X * (Task -> Pool)) :=
  let s := po_shared p in
  match o in QueueOp T return option (T * (Task -> Pool)) with
  | LockFlush => match sh_holder s with None => Some (tt, place p (with_holder s (Some i)) i) | _ => None end
  | UnlockFlush => Some (tt, place p (with_holder s None) i)
  | AcceptLog l =>
      match accept_log r (rs_log (sh_state s)) l with
      | Done (outcome, log) => Some (Done outcome, place p (with_state s (after_accept (sh_state s) outcome log)) i)
      | _ => None
      end
  | TakeBatch =>
      Some ((take_batch r (rs_log (sh_state s))).1,
            place p match take_batch r (rs_log (sh_state s)) with
                    | (Ok (Some batch), log) => with_state s (after_take (sh_state s) batch log)
                    | _ => s
                    end i)
  | SendLogs batch =>
      Some (Ok default_acknowledgement, place p (with_state s (after_fate (sh_state s) batch Acknowledged (rs_log (sh_state s)))) i)
  | StopDelivery _ => None
  | SwapScheduled => Some (sh_scheduled s, place p (with_scheduled s true) i)
  | ClearScheduled => Some (tt, place p (with_scheduled s false) i)
  | SpawnFlush =>
      let j := size (po_tasks p) in
      match po_tasks p !! j with
      | None => Some (tt, fun t => place (place p s i t) s j (scheduled_task 9))
      | Some _ => None
      end
  | FlushPause => Some (tt, place p s i)
  end.
Lemma turn_step r i p X (o : QueueOp X) k x next :
  po_tasks p !! i = Some (Vis o k) -> turn r i p X o = Some (x, next) -> pool_step r p (next (k x)).
Proof.
  intros Hi. unfold turn. destruct o; intros Ht; try discriminate Ht;
    try (injection Ht as <- <-; refine (pool_call r p i _ _ k _ _ Hi _); try done; by split).
  - destruct (sh_holder (po_shared p)) eqn:Hh; [discriminate Ht|]. injection Ht as <- <-. refine (pool_call r p i _ _ k _ _ Hi _). by split.
  - destruct (accept_log r (rs_log (sh_state (po_shared p))) l) as [[outcome log]| |] eqn:Ha; [|done..].
    injection Ht as <- <-. refine (pool_call r p i _ _ k _ _ Hi _). cbn. by rewrite Ha.
  - cbv zeta in Ht. destruct (po_tasks p !! size (po_tasks p)) eqn:Hj; [discriminate Ht|]. injection Ht as <- <-. by apply pool_spawn.
Qed.

Fixpoint drive (r : Reporter) (i : nat) (t : Task) (p : Pool) : Pool :=
  match t with
  | Ret _ => p
  | Vis o k => match turn r i p _ o with Some (x, next) => drive r i (k x) (next (k x)) | None => p end
  end.
Definition cell_reply (cell : Commit) X (o : AgentOp X) (x : X) : X :=
  match o in AgentOp T return T -> T with
  | AgCore o =>
      match o in CoreOp T return T -> T with
      | RpCommitted => fun _ => cm_committed cell
      | RpCommittedOutput => fun _ => commit_output cell
      | _ => fun x => x
      end
  | AgHost _ | AgHttp _ => fun x => x
  end x.
Definition awaiting {A} (s : RunningCommand A) (p : Pool) (i : nat) : RunningCommand A :=
  {| sy_pool := p; sy_cell := sy_cell s; sy_main := sy_main s; sy_waits := Some i; sy_past := sy_past s |}.
Fixpoint run_system {A} (r : Reporter) (env : Env AgentOp) (main : Prog AgentOp A) (s : RunningCommand A) : RunningCommand A :=
  match main with
  | Ret _ => s
  | Vis o k =>
      match reporter_call 9 _ o with
      | None => let x := cell_reply (sy_cell s) _ o (env (calls s) _ o) in run_system r env (k x) (returned s _ o x (k x))
      | Some (t, answer) =>
          let i := size (po_tasks (sy_pool s)) in
          match po_tasks (sy_pool s) !! i with
          | None =>
              let p := drive r i t (place (sy_pool s) (po_shared (sy_pool s)) i t) in
              match po_tasks p !! i with
              | Some (Ret (Done result)) =>
                  run_system r env (k (answer result)) (returned (awaiting s p i) _ o (answer result) (k (answer result)))
              | _ => s
              end
          | Some _ => s
          end
      end
  end.

Lemma turn_stays r i p X (o : QueueOp X) x next t : turn r i p X o = Some (x, next) ->
  po_tasks p !! i <> None -> po_tasks (next t) !! i = Some t.
Proof.
  intros Ht Hin.
  assert (forall s, po_tasks (place p s i t) !! i = Some t) as Hplace by (intros; cbn; rewrite lookup_insert; by case_decide).
  unfold turn in Ht. destruct o; try discriminate Ht; try (injection Ht as <- <-; apply Hplace).
  - destruct (sh_holder _); [done|]. injection Ht as <- <-. apply Hplace.
  - destruct (accept_log _ _ _) as [[]| |]; [|done..]. injection Ht as <- <-. apply Hplace.
  - cbv zeta in Ht. destruct (po_tasks p !! size (po_tasks p)) eqn:Hj; [discriminate Ht|]. injection Ht as <- <-.
    cbn. rewrite lookup_insert_ne by congruence. exact (Hplace (po_shared p)).
Qed.
Lemma same_answer fuel X (o : AgentOp X) t answer :
  reporter_call fuel X o = Some (t, answer) -> exists t0, reporter_call 0 X o = Some (t0, answer).
Proof. destruct o as [? []| |]; try discriminate; intros [= _ <-]; by eexists. Qed.
Section Schedule.
Context {A : Type} (r : Reporter) (program : Prog AgentOp A).
Lemma drive_reaches i t p s :
  po_tasks p !! i = Some t -> system_reaches r program (awaiting s p i) ->
  system_reaches r program (awaiting s (drive r i t p) i).
Proof.
  revert p. induction t as [a|X o k IH]; intros p Hi H; cbn [drive]; [done|].
  destruct (turn r i p X o) as [[x next]|] eqn:Ht; [|done].
  assert (po_tasks (next (k x)) !! i = Some (k x)) as Hnext by (eapply turn_stays; [done|congruence]).
  apply IH; [done|]. eapply system_reach_step; [exact H|].
  apply (system_pool r (awaiting s p i)); [by eapply turn_step|]. intros ? [= <-]. by eexists.
Qed.
Lemma run_reaches env main s :
  sy_main s = main -> sy_waits s = None -> system_reaches r program s ->
  system_reaches r program (run_system r env main s).
Proof.
  revert s. induction main as [a|X o k IH]; intros s Hmain Hw H; cbn [run_system]; [done|].
  destruct (reporter_call 9 X o) as [[t answer]|] eqn:Hcall.
  - destruct (po_tasks (sy_pool s) !! size (po_tasks (sy_pool s))) eqn:Hi; [done|].
    set (i := size _) in *. set (p := place _ _ i t).
    assert (po_tasks p !! i = Some t) as Hp by (cbn; rewrite lookup_insert; by case_decide).
    assert (system_reaches r program (awaiting s (drive r i t p) i)) as Hd.
    { apply drive_reaches; [done|]. eapply system_reach_step; [exact H|]. by eapply system_begin. }
    destruct (po_tasks (drive r i t p) !! i) as [[[result| |]|]|] eqn:Hend; try done.
    apply IH; [done..|]. eapply system_reach_step; [exact Hd|]. apply same_answer in Hcall as [t0 Hcall].
    by apply (system_end r (awaiting s (drive r i t p) i) X o k t0 answer i).
  - apply IH; [done..|]. eapply system_reach_step; [exact H|].
    apply system_call; destruct o as [? []| |]; done.
Qed.
End Schedule.

Definition deploy_reporter : Reporter := command_reporter (codec := agent_codec) sample_config deploy_command.
Definition deploy_program : Async AgentOp CoreError () :=
  agent_process (codec := agent_codec) (wire := sample_codec) sample_client sample_parsers default_docker_config
    sample_config deploy_command.
(** The first lines of the container cannot be read, which is worth a warning. *)
Definition warning_host : Env HostOp := fun past X o =>
  match o in HostOp T return T with
  | RunProcess c sink =>
      match args c with
      | "logs" :: _ => Err (Filesystem "Device or resource busy")
      | _ => printing_host node_output past _ (RunProcess c sink)
      end
  | o => printing_host node_output past _ o
  end.
Definition deploy_system : RunningCommand (Result CoreError ()) :=
  run_system deploy_reporter (agent_env quiet_env warning_host) deploy_program (system_init deploy_program).

(** The deployment of the sample command: its warning is queued, batched and
    acknowledged before its end is sent. *)
Lemma command_end_witness :
  rs_accepted (queue deploy_system) <> [] /\
  exists earlier e later answer, sy_past deploy_system = earlier ++ e :: later /\
    flush_answer e.1 = Some answer /\ flush_kept earlier answer (queue deploy_system).
Proof.
  split; [vm_compute; discriminate|].
  destruct (command_end_agrees_with_reporter (codec := agent_codec) (wire := sample_codec) sample_client sample_parsers
    default_docker_config sample_config deploy_command deploy_system) as [[Herr|Hflush] _].
  - apply run_reaches; [reflexivity|reflexivity|apply system_reach_init].
  - vm_compute. discriminate.
  - discriminate Herr.
  - destruct Hflush as (earlier & e & later & answer & H1 & H2 & _ & _ & H3).
    exists earlier, e, later, answer. split; [exact H1|]. split; [exact H2|exact H3].
Defined.
